(** * LibAAH_RTP receive pipeline: substream reassembly and decoder pump

    A shallow embedding of
      - media/libaah_rtp/aah_rx_player_substream.cpp (AAH_RXPlayer::Substream)
      - media/libaah_rtp/aah_decoder_pump.cpp        (AAH_DecoderPump)
      - media/libaah_rtp/aah_tx_packet.h             (TRTP constants)
    together with the properties of the receive pipeline proved about it.

    Conventions.  Machine integers are [Z] with the wrap-around written out
    ([u32], [s32], [s64]).  A byte buffer [(buf, amt)] is a [list byte] whose
    length is [amt].  Every member function becomes a function on the record
    of the object's fields; a failed [CHECK] (a process abort) is the [Aborted]
    result of the [Res] monad.  Results of the external collaborators (codec,
    audio track, allocator, threads) are inputs of the functions that call
    them. *)

From Stdlib Require Import ZArith List Lia Bool String.
Import ListNotations.
Local Open Scope Z_scope.

Set Implicit Arguments.

(** ** Machine integers and bytes *)

Definition byte := Byte.byte.

Definition u8 (b : byte) : Z := Z.of_N (Byte.to_N b).
Definition u32 (x : Z) : Z := x mod 2 ^ 32.
Definition s32 (x : Z) : Z := (x + 2 ^ 31) mod 2 ^ 32 - 2 ^ 31.
Definition s64 (x : Z) : Z := (x + 2 ^ 63) mod 2 ^ 64 - 2 ^ 63.

Definition zlen {A : Type} (l : list A) : Z := Z.of_nat (List.length l).

(** [buf[i]] *)
Definition at8 (buf : list byte) (i : Z) : Z := u8 (nth (Z.to_nat i) buf Byte.x00).

(** Modelled from the spec: [U32_AT] of media/libstagefright/Utils.cpp is not
    among the sources; the wire header has big-endian 32-bit fields. *)
Definition U32_AT (buf : list byte) (i : Z) : Z :=
  at8 buf i * 2 ^ 24 + at8 buf (i + 1) * 2 ^ 16 + at8 buf (i + 2) * 2 ^ 8 + at8 buf (i + 3).

(** [inline uint32_t min(uint32_t a, uint32_t b)] *)
Definition min (a b : Z) : Z := if a <? b then a else b.

(** [memcpy(tgt + off, src, length src)] on a buffer held as a list. *)
Definition memcpy (tgt : list byte) (off : Z) (src : list byte) : list byte :=
  firstn (Z.to_nat off) tgt ++ src ++ skipn (Z.to_nat off + List.length src) tgt.

Definition bytes_eqb (a b : list byte) : bool :=
  if list_eq_dec Byte.byte_eq_dec a b then true else false.

(** ** status_t (utils/Errors.h, media/stagefright/MediaErrors.h) *)

Definition status_t := Z.
Definition OK : status_t := 0.
Definition NO_ERROR : status_t := 0.
Definition UNKNOWN_ERROR : status_t := - 2 ^ 31.
Definition NO_MEMORY : status_t := -12.
Definition INVALID_OPERATION : status_t := -38.
Definition BAD_VALUE : status_t := -22.
Definition INFO_FORMAT_CHANGED : status_t := -1012.

(** ** TRTP constants (aah_tx_packet.h) *)

Definition kHeaderTypeAudio : Z := 1.
Definition kHeaderTypeVideo : Z := 2.
Definition kHeaderTypeSubpicture : Z := 3.
Definition kHeaderTypeControl : Z := 4.

Definition kFlag_TSTransformPresent : Z := 0x02.
Definition kFlag_TSValid : Z := 0x01.

Definition kFlag_AuxLengthPresent : Z := 0x10.
Definition kFlag_RandomAccessPoint : Z := 0x08.
Definition kFlag_Dropable : Z := 0x04.
Definition kFlag_Discontinuity : Z := 0x02.
Definition kFlag_EndOfStream : Z := 0x01.

Definition kCodecInvalid : Z := 0.
Definition kCodecPCMBigEndian : Z := 1.
Definition kCodecPCMLittleEndian : Z := 2.
Definition kCodecMPEG1Audio : Z := 3.
Definition kCodecAACAudio : Z := 4.

(** [x & mask] used as a condition *)
Definition flag_set (x mask : Z) : bool := negb (Z.land x mask =? 0).

(** ** The process-abort monad: a failed CHECK ends the process *)

Inductive CheckSite : Type :=
| CHECK_amt_ge_trtp_header_len      (* processPayloadStart *)
| CHECK_aux_size_le_expected        (* processPayloadCont *)
| CHECK_buffer_filled_lt_expected   (* processPayloadCont *)
| CHECK_buffer_in_progress          (* processCompletedBuffer *)
| CHECK_prev_sample_rate            (* setupAACSubstreamMeta *)
| CHECK_prev_channel_count          (* setupAACSubstreamMeta *)
| READ_of_unset_prev_format         (* setupMP3SubstreamMeta: findInt32 result ignored *)
| CHECK_thread_status_OK            (* AAH_DecoderPump::init *)
| CHECK_sample_has_timestamp        (* queueToRenderer: CHECK(false) *)
| CHECK_last_ts_transform_valid     (* queueToRenderer *)
| CHECK_decoder_not_NULL            (* workThread *)
| CHECK_format_not_NULL             (* workThread *)
| CHECK_bufOut_NULL                 (* workThread *)
| CHECK_in_queue_not_empty.         (* AAH_DecoderPump::read *)

Inductive Res (A : Type) : Type :=
| Ok (a : A)
| Aborted (c : CheckSite).
Arguments Aborted {A} c.

Definition bind {A B : Type} (m : Res A) (k : A -> Res B) : Res B :=
  match m with
  | Ok a => k a
  | Aborted c => Aborted c
  end.

Notation "x <- m ;; k" := (bind m (fun x => k))
  (at level 61, m at next level, right associativity).
Notation "' p <- m ;; k" := (bind m (fun p => k))
  (at level 61, p pattern, m at next level, right associativity).

(** ** MetaData, MediaBuffer, LinearTransform *)

(** The keys of the [MetaData] bag that this code sets or finds. *)
Record MetaData : Type := mkMetaData {
  kKeyMIMEType : option string;
  kKeyTime : option Z;
  kKeyChannelCount : option Z;
  kKeySampleRate : option Z;
  kKeyESDS : option (list byte)
}.

Definition MetaData_new : MetaData := mkMetaData None None None None None.

Definition MEDIA_MIMETYPE_AUDIO_MPEG : string := "audio/mpeg"%string.
Definition MEDIA_MIMETYPE_AUDIO_AAC : string := "audio/mp4a-latm"%string.

(** A [MediaBuffer]: [size()] is the length of [mb_data]. *)
Record MediaBuffer : Type := mkMediaBuffer {
  mb_data : list byte;
  mb_meta : MetaData
}.

Record LinearTransform : Type := mkLinearTransform {
  a_zero : Z;
  b_zero : Z;
  a_to_b_numer : Z;
  a_to_b_denom : Z
}.

(** [!memcmp(&a, &b, sizeof(a))] *)
Definition LinearTransform_eqb (a b : LinearTransform) : bool :=
  (a_zero a =? a_zero b) && (b_zero a =? b_zero b) &&
  (a_to_b_numer a =? a_to_b_numer b) && (a_to_b_denom a =? a_to_b_denom b).

(** * AAH_DecoderPump *)

Module Pump.

Definition kLongDecodeErrorThreshold : Z := 1000000.
Definition kMaxLongErrorsBeforeFatal : Z := 3.
Definition kMaxErrorsBeforeFatal : Z := 60.

(** What the pump's [TimedAudioTrack] has been given. *)
Record TimedAudioTrack : Type := mkTrack {
  tat_sample_rate : Z;
  tat_channels : Z;
  tat_transform : LinearTransform;
  tat_volume : Z;
  tat_queue : list (Z * list byte)    (* queueTimedBuffer(payload, pts), oldest first *)
}.

(** The decode engine handle returned by [OMXCodec::Create]. *)
Record OMXCodec : Type := mkOMXCodec { omx_format : MetaData }.

(** [thread_]: the state of the [ThreadWrapper] seen through [run],
    [requestExit], [exitPending] and the end of [threadLoop]. *)
Record ThreadWrapper : Type := mkThread {
  running : bool;
  exitPending : bool
}.

Record t : Type := mk {
  thread_ : ThreadWrapper;
  thread_status_ : status_t;
  decoder_ : option OMXCodec;
  format_ : option MetaData;
  format_channels_ : Z;
  format_sample_rate_ : Z;
  in_queue_ : list MediaBuffer;
  renderer_ : option TimedAudioTrack;
  last_queued_pts_valid_ : bool;
  last_queued_pts_ : Z;
  last_ts_transform_valid_ : bool;
  last_ts_transform_ : LinearTransform;
  last_volume_ : Z
}.

Definition set_thread_ v p := mk v (thread_status_ p) (decoder_ p) (format_ p)
  (format_channels_ p) (format_sample_rate_ p) (in_queue_ p) (renderer_ p)
  (last_queued_pts_valid_ p) (last_queued_pts_ p) (last_ts_transform_valid_ p)
  (last_ts_transform_ p) (last_volume_ p).
Definition set_thread_status_ v p := mk (thread_ p) v (decoder_ p) (format_ p)
  (format_channels_ p) (format_sample_rate_ p) (in_queue_ p) (renderer_ p)
  (last_queued_pts_valid_ p) (last_queued_pts_ p) (last_ts_transform_valid_ p)
  (last_ts_transform_ p) (last_volume_ p).
Definition set_decoder_ v p := mk (thread_ p) (thread_status_ p) v (format_ p)
  (format_channels_ p) (format_sample_rate_ p) (in_queue_ p) (renderer_ p)
  (last_queued_pts_valid_ p) (last_queued_pts_ p) (last_ts_transform_valid_ p)
  (last_ts_transform_ p) (last_volume_ p).
Definition set_format_ v p := mk (thread_ p) (thread_status_ p) (decoder_ p) v
  (format_channels_ p) (format_sample_rate_ p) (in_queue_ p) (renderer_ p)
  (last_queued_pts_valid_ p) (last_queued_pts_ p) (last_ts_transform_valid_ p)
  (last_ts_transform_ p) (last_volume_ p).
Definition set_format_channels_ v p := mk (thread_ p) (thread_status_ p) (decoder_ p)
  (format_ p) v (format_sample_rate_ p) (in_queue_ p) (renderer_ p)
  (last_queued_pts_valid_ p) (last_queued_pts_ p) (last_ts_transform_valid_ p)
  (last_ts_transform_ p) (last_volume_ p).
Definition set_format_sample_rate_ v p := mk (thread_ p) (thread_status_ p) (decoder_ p)
  (format_ p) (format_channels_ p) v (in_queue_ p) (renderer_ p)
  (last_queued_pts_valid_ p) (last_queued_pts_ p) (last_ts_transform_valid_ p)
  (last_ts_transform_ p) (last_volume_ p).
Definition set_in_queue_ v p := mk (thread_ p) (thread_status_ p) (decoder_ p)
  (format_ p) (format_channels_ p) (format_sample_rate_ p) v (renderer_ p)
  (last_queued_pts_valid_ p) (last_queued_pts_ p) (last_ts_transform_valid_ p)
  (last_ts_transform_ p) (last_volume_ p).
Definition set_renderer_ v p := mk (thread_ p) (thread_status_ p) (decoder_ p)
  (format_ p) (format_channels_ p) (format_sample_rate_ p) (in_queue_ p) v
  (last_queued_pts_valid_ p) (last_queued_pts_ p) (last_ts_transform_valid_ p)
  (last_ts_transform_ p) (last_volume_ p).
Definition set_last_queued_pts_valid_ v p := mk (thread_ p) (thread_status_ p) (decoder_ p)
  (format_ p) (format_channels_ p) (format_sample_rate_ p) (in_queue_ p) (renderer_ p)
  v (last_queued_pts_ p) (last_ts_transform_valid_ p)
  (last_ts_transform_ p) (last_volume_ p).
Definition set_last_queued_pts_ v p := mk (thread_ p) (thread_status_ p) (decoder_ p)
  (format_ p) (format_channels_ p) (format_sample_rate_ p) (in_queue_ p) (renderer_ p)
  (last_queued_pts_valid_ p) v (last_ts_transform_valid_ p)
  (last_ts_transform_ p) (last_volume_ p).
Definition set_last_ts_transform_valid_ v p := mk (thread_ p) (thread_status_ p) (decoder_ p)
  (format_ p) (format_channels_ p) (format_sample_rate_ p) (in_queue_ p) (renderer_ p)
  (last_queued_pts_valid_ p) (last_queued_pts_ p) v
  (last_ts_transform_ p) (last_volume_ p).
Definition set_last_ts_transform_ v p := mk (thread_ p) (thread_status_ p) (decoder_ p)
  (format_ p) (format_channels_ p) (format_sample_rate_ p) (in_queue_ p) (renderer_ p)
  (last_queued_pts_valid_ p) (last_queued_pts_ p) (last_ts_transform_valid_ p)
  v (last_volume_ p).
Definition set_last_volume_ v p := mk (thread_ p) (thread_status_ p) (decoder_ p)
  (format_ p) (format_channels_ p) (format_sample_rate_ p) (in_queue_ p) (renderer_ p)
  (last_queued_pts_valid_ p) (last_queued_pts_ p) (last_ts_transform_valid_ p)
  (last_ts_transform_ p) v.

(** [AAH_DecoderPump::AAH_DecoderPump].  The members the constructor leaves
    unset ([format_channels_], [format_sample_rate_], [last_ts_transform_])
    are given the value 0; they are written before they are read. *)
Definition new : t :=
  mk (mkThread false false) OK None None 0 0 [] None false 0 false
     (mkLinearTransform 0 0 0 0) 0xFF.

(** [AAH_DecoderPump::queueForDecode]; [buf = None] is the NULL pointer. *)
Definition queueForDecode (p : t) (buf : option MediaBuffer) : status_t * t :=
  match buf with
  | None => (BAD_VALUE, p)
  | Some b =>
      if negb (thread_status_ p =? OK) then (thread_status_ p, p)
      else (OK, set_in_queue_ (in_queue_ p ++ [b]) p)
  end.

(** Results of the calls [queueToRenderer] makes on the audio track. *)
Record RenderEnv : Type := mkRenderEnv {
  track_alloc_ok : bool;                  (* new TimedAudioTrack() != NULL *)
  set_res : status_t;                     (* renderer_->set(...) *)
  setMediaTimeTransform_res : status_t;
  allocateTimedBuffer_res : status_t;
  queueTimedBuffer_res : status_t
}.

(** [AAH_DecoderPump::queueToRenderer] *)
Definition queueToRenderer (env : RenderEnv) (p : t) (decoded_sample : MediaBuffer)
  : Res t :=
  match kKeyTime (mb_meta decoded_sample) with
  | None => Aborted CHECK_sample_has_timestamp
  | Some ts =>
      r <- (match renderer_ p with
            | Some r => Ok (Some r)
            | None =>
                if negb (track_alloc_ok env) then Ok None
                else if negb (set_res env =? OK) then Ok None
                else if negb (last_ts_transform_valid_ p)
                     then Aborted CHECK_last_ts_transform_valid
                else if negb (setMediaTimeTransform_res env =? NO_ERROR) then Ok None
                else Ok (Some (mkTrack (format_sample_rate_ p) (format_channels_ p)
                                       (last_ts_transform_ p) (last_volume_ p) []))
            end) ;;
      match r with
      | Some r =>
          if negb (allocateTimedBuffer_res env =? OK) then Ok (set_renderer_ (Some r) p)
          else if negb (queueTimedBuffer_res env =? OK) then Ok (set_renderer_ (Some r) p)
          else
            let r' := mkTrack (tat_sample_rate r) (tat_channels r) (tat_transform r)
                              (tat_volume r)
                              (tat_queue r ++ [(ts, mb_data decoded_sample)]) in
            Ok (set_last_queued_pts_ ts
                  (set_last_queued_pts_valid_ true (set_renderer_ (Some r') p)))
      | None => Ok (set_renderer_ None p)
      end
  end.

(** [AAH_DecoderPump::stopAndCleanupRenderer] *)
Definition stopAndCleanupRenderer (p : t) : t :=
  match renderer_ p with
  | None => p
  | Some _ => set_renderer_ None p
  end.

(** [AAH_DecoderPump::setRenderTSTransform] *)
Definition setRenderTSTransform (p : t) (trans : LinearTransform) : t :=
  if last_ts_transform_valid_ p && LinearTransform_eqb trans (last_ts_transform_ p)
  then p
  else
    let p := set_last_ts_transform_valid_ true (set_last_ts_transform_ trans p) in
    match renderer_ p with
    | Some r =>
        set_renderer_ (Some (mkTrack (tat_sample_rate r) (tat_channels r) trans
                                     (tat_volume r) (tat_queue r))) p
    | None => p
    end.

(** [AAH_DecoderPump::setRenderVolume] *)
Definition setRenderVolume (p : t) (volume : Z) : t :=
  if volume =? last_volume_ p then p
  else
    let p := set_last_volume_ volume p in
    match renderer_ p with
    | Some r =>
        set_renderer_ (Some (mkTrack (tat_sample_rate r) (tat_channels r)
                                     (tat_transform r) volume (tat_queue r))) p
    | None => p
    end.

Section WithClock.

(** [LinearTransform::doForwardTransform] (utils/LinearTransform.h) is outside
    the sources: [None] is its [false] result. *)
Variable doForwardTransform : LinearTransform -> Z -> option Z.

(** [AAH_DecoderPump::isAboutToUnderflow]; [tt_now] is the result of
    [cc_helper_.getCommonTime], [None] when it is not [OK]. *)
Definition isAboutToUnderflow (p : t) (tt_now : option Z) (threshold : Z) : bool :=
  if negb (last_queued_pts_valid_ p) || negb (last_ts_transform_valid_ p) then false
  else
    match tt_now with
    | None => false
    | Some tt_now =>
        match doForwardTransform (last_ts_transform_ p) (last_queued_pts_ p) with
        | None => false
        | Some last_queued_pts_tt =>
            s64 (s64 (tt_now + threshold) - last_queued_pts_tt) >? 0
        end
    end.

End WithClock.

(** One iteration of the loop of [workThread]: the result of
    [decoder_->read(&bufOut)], the duration [decode_timer] measured, and the
    audio track's answers should the output be rendered. *)
Record DecodeStep : Type := mkDecodeStep {
  ds_res : status_t;
  ds_bufOut : option MediaBuffer;
  ds_durationUsecs : Z;
  ds_render : RenderEnv
}.

(** The locals of [workThread]. *)
Record Counters : Type := mkCounters {
  consecutive_long_errors : Z;
  consecutive_errors : Z
}.

Inductive LoopCtl : Type :=
| InLoop          (* the loop goes on to its next iteration *)
| ExitRequested   (* thread_->exitPending() ended the loop *)
| Broke.          (* the error budget is spent: break *)

(** The body of [while (!thread_->exitPending())] in [workThread]. *)
Definition workThread_iteration (p : t) (c : Counters) (d : DecodeStep)
  : Res (t * Counters * LoopCtl) :=
  if exitPending (thread_ p) then Ok (p, c, ExitRequested)
  else
    let '(p, res) :=
      if ds_res d =? INFO_FORMAT_CHANGED then (stopAndCleanupRenderer p, OK)
      else (p, ds_res d) in
    if negb (res =? OK) then
      let c := mkCounters (consecutive_long_errors c) (u32 (consecutive_errors c + 1)) in
      let c :=
        if ds_durationUsecs d >=? kLongDecodeErrorThreshold
        then mkCounters (u32 (consecutive_long_errors c + 1)) (consecutive_errors c)
        else c in
      match ds_bufOut d with
      | Some _ => Aborted CHECK_bufOut_NULL
      | None =>
          if (consecutive_errors c >=? kMaxErrorsBeforeFatal) ||
             (consecutive_long_errors c >=? kMaxLongErrorsBeforeFatal)
          then Ok (set_thread_status_ res p, c, Broke)
          else Ok (p, c, InLoop)
      end
    else
      match ds_bufOut d with
      | None => Ok (p, c, InLoop)
      | Some bufOut =>
          let c := mkCounters 0 0 in
          p <- queueToRenderer (ds_render d) p bufOut ;;
          Ok (p, c, InLoop)
      end.

(** The loop of [workThread] run over the decode steps [ds]; [InLoop] is
    returned when the steps are used up and the loop is still running. *)
Fixpoint workThread_loop (p : t) (c : Counters) (ds : list DecodeStep)
  : Res (t * Counters * LoopCtl) :=
  match ds with
  | [] => Ok (p, c, InLoop)
  | d :: ds =>
      '(p, c, ctl) <- workThread_iteration p c d ;;
      match ctl with
      | InLoop => workThread_loop p c ds
      | _ => Ok (p, c, ctl)
      end
  end.

(** The end of the thread: [threadLoop] returns false. *)
Definition thread_exit (p : t) : t := set_thread_ (mkThread false true) p.

(** [AAH_DecoderPump::workThread]; [start_res] is the result of
    [decoder_->start].  The last component tells whether the thread has
    returned. *)
Definition workThread (p : t) (start_res : status_t) (ds : list DecodeStep)
  : Res (t * Counters * bool) :=
  match decoder_ p with
  | None => Aborted CHECK_decoder_not_NULL
  | Some _ =>
      match format_ p with
      | None => Aborted CHECK_format_not_NULL
      | Some _ =>
          let p := set_thread_status_ start_res p in
          if negb (thread_status_ p =? OK) then Ok (thread_exit p, mkCounters 0 0, true)
          else
            '(p, c, ctl) <- workThread_loop p (mkCounters 0 0) ds ;;
            match ctl with
            | InLoop => Ok (p, c, false)
            | _ => Ok (thread_exit (stopAndCleanupRenderer p), c, true)
            end
      end
  end.

Section WithEngine.

(** [OMXCodec::Create(...) != NULL] for the given format, and the result of
    [thread_->run]. *)
Variable OMXCodec_Create : MetaData -> bool.
Variable thread_run_res : status_t.

(** [AAH_DecoderPump::init]; [params = None] is the NULL pointer. *)
Definition init (p : t) (params : option MetaData) : Res (status_t * t) :=
  match decoder_ p with
  | Some _ => Ok (OK, p)
  | None =>
      match params with
      | None => Ok (BAD_VALUE, p)
      | Some m =>
          match kKeyChannelCount m with
          | None => Ok (BAD_VALUE, p)
          | Some ch =>
              let p := set_format_channels_ ch p in
              match kKeySampleRate m with
              | None => Ok (BAD_VALUE, p)
              | Some sr =>
                  let p := set_format_sample_rate_ sr p in
                  if negb (thread_status_ p =? OK) then Aborted CHECK_thread_status_OK
                  else
                    let ret_val := UNKNOWN_ERROR in
                    let p := set_format_ (Some m) p in
                    let '(p, ret_val) :=
                      if OMXCodec_Create m then
                        let p := set_decoder_ (Some (mkOMXCodec m)) p in
                        if thread_run_res =? OK
                        then (set_thread_ (mkThread true false) p, thread_run_res)
                        else (p, thread_run_res)
                      else (p, ret_val) in
                    let p :=
                      if negb (ret_val =? OK)
                      then set_format_ None (set_decoder_ None p)
                      else p in
                    Ok (OK, p)
              end
          end
      end
  end.

End WithEngine.

(** [thread_->requestExit()] *)
Definition requestExit (p : t) : t :=
  set_thread_ (mkThread (running (thread_ p)) true) p.

(** [thread_->requestExitAndWait()]: a running worker leaves its loop, stops
    the decoder, cleans up the renderer and ends. *)
Definition requestExitAndWait (p : t) : t :=
  if running (thread_ p) then thread_exit (stopAndCleanupRenderer (requestExit p))
  else requestExit p.

(** [AAH_DecoderPump::shutdown_l] *)
Definition shutdown_l (p : t) : status_t * t :=
  let p := requestExit p in
  let p := requestExitAndWait p in
  let p := set_in_queue_ [] p in
  let p := set_last_queued_pts_valid_ false p in
  let p := set_last_ts_transform_valid_ false p in
  let p := set_last_volume_ 0xFF p in
  let p := set_thread_status_ OK p in
  let p := set_decoder_ None p in
  let p := set_format_ None p in
  (OK, p).

(** [AAH_DecoderPump::shutdown] *)
Definition shutdown (p : t) : status_t * t := shutdown_l p.

(** What a call of [read] does: it waits on [thread_cond_], or returns. *)
Inductive ReadResult : Type :=
| Waits
| Returns (res : status_t) (buffer : option MediaBuffer) (p : t).

(** [AAH_DecoderPump::read], called with a non-NULL [buffer]. *)
Definition read (p : t) : Res ReadResult :=
  if negb (exitPending (thread_ p)) && (match in_queue_ p with [] => true | _ => false end)
  then Ok Waits
  else
    '(buffer, p) <-
      (if negb (exitPending (thread_ p)) then
         match in_queue_ p with
         | [] => Aborted CHECK_in_queue_not_empty
         | b :: q => Ok (Some b, set_in_queue_ q p)
         end
       else Ok (None, p)) ;;
    Ok (Returns (match buffer with None => INVALID_OPERATION | Some _ => OK end) buffer p).

End Pump.

(** * AAH_RXPlayer::Substream *)

Module Substream.

Definition kAboutToUnderflowThreshold : Z := 50 * 1000.

Record t : Type := mk {
  ssrc_ : Z;
  substream_details_known_ : bool;
  substream_type_ : Z;
  codec_type_ : Z;
  buffer_in_progress_ : option MediaBuffer;
  expected_buffer_size_ : Z;
  buffer_filled_ : Z;
  waiting_for_rap_ : bool;
  aux_data_in_progress_ : list byte;
  aux_data_expected_size_ : Z;
  status_ : status_t;
  codec_mime_type_ : string;
  substream_meta_ : option MetaData;
  decoder_ : option Pump.t
}.

Definition set_substream_details_known_ v s := mk (ssrc_ s) v (substream_type_ s)
  (codec_type_ s) (buffer_in_progress_ s) (expected_buffer_size_ s) (buffer_filled_ s)
  (waiting_for_rap_ s) (aux_data_in_progress_ s) (aux_data_expected_size_ s) (status_ s)
  (codec_mime_type_ s) (substream_meta_ s) (decoder_ s).
Definition set_substream_type_ v s := mk (ssrc_ s) (substream_details_known_ s) v
  (codec_type_ s) (buffer_in_progress_ s) (expected_buffer_size_ s) (buffer_filled_ s)
  (waiting_for_rap_ s) (aux_data_in_progress_ s) (aux_data_expected_size_ s) (status_ s)
  (codec_mime_type_ s) (substream_meta_ s) (decoder_ s).
Definition set_codec_type_ v s := mk (ssrc_ s) (substream_details_known_ s)
  (substream_type_ s) v (buffer_in_progress_ s) (expected_buffer_size_ s) (buffer_filled_ s)
  (waiting_for_rap_ s) (aux_data_in_progress_ s) (aux_data_expected_size_ s) (status_ s)
  (codec_mime_type_ s) (substream_meta_ s) (decoder_ s).
Definition set_buffer_in_progress_ v s := mk (ssrc_ s) (substream_details_known_ s)
  (substream_type_ s) (codec_type_ s) v (expected_buffer_size_ s) (buffer_filled_ s)
  (waiting_for_rap_ s) (aux_data_in_progress_ s) (aux_data_expected_size_ s) (status_ s)
  (codec_mime_type_ s) (substream_meta_ s) (decoder_ s).
Definition set_expected_buffer_size_ v s := mk (ssrc_ s) (substream_details_known_ s)
  (substream_type_ s) (codec_type_ s) (buffer_in_progress_ s) v (buffer_filled_ s)
  (waiting_for_rap_ s) (aux_data_in_progress_ s) (aux_data_expected_size_ s) (status_ s)
  (codec_mime_type_ s) (substream_meta_ s) (decoder_ s).
Definition set_buffer_filled_ v s := mk (ssrc_ s) (substream_details_known_ s)
  (substream_type_ s) (codec_type_ s) (buffer_in_progress_ s) (expected_buffer_size_ s) v
  (waiting_for_rap_ s) (aux_data_in_progress_ s) (aux_data_expected_size_ s) (status_ s)
  (codec_mime_type_ s) (substream_meta_ s) (decoder_ s).
Definition set_waiting_for_rap_ v s := mk (ssrc_ s) (substream_details_known_ s)
  (substream_type_ s) (codec_type_ s) (buffer_in_progress_ s) (expected_buffer_size_ s)
  (buffer_filled_ s) v (aux_data_in_progress_ s) (aux_data_expected_size_ s) (status_ s)
  (codec_mime_type_ s) (substream_meta_ s) (decoder_ s).
Definition set_aux_data_in_progress_ v s := mk (ssrc_ s) (substream_details_known_ s)
  (substream_type_ s) (codec_type_ s) (buffer_in_progress_ s) (expected_buffer_size_ s)
  (buffer_filled_ s) (waiting_for_rap_ s) v (aux_data_expected_size_ s) (status_ s)
  (codec_mime_type_ s) (substream_meta_ s) (decoder_ s).
Definition set_aux_data_expected_size_ v s := mk (ssrc_ s) (substream_details_known_ s)
  (substream_type_ s) (codec_type_ s) (buffer_in_progress_ s) (expected_buffer_size_ s)
  (buffer_filled_ s) (waiting_for_rap_ s) (aux_data_in_progress_ s) v (status_ s)
  (codec_mime_type_ s) (substream_meta_ s) (decoder_ s).
Definition set_status_ v s := mk (ssrc_ s) (substream_details_known_ s)
  (substream_type_ s) (codec_type_ s) (buffer_in_progress_ s) (expected_buffer_size_ s)
  (buffer_filled_ s) (waiting_for_rap_ s) (aux_data_in_progress_ s)
  (aux_data_expected_size_ s) v (codec_mime_type_ s) (substream_meta_ s) (decoder_ s).
Definition set_codec_mime_type_ v s := mk (ssrc_ s) (substream_details_known_ s)
  (substream_type_ s) (codec_type_ s) (buffer_in_progress_ s) (expected_buffer_size_ s)
  (buffer_filled_ s) (waiting_for_rap_ s) (aux_data_in_progress_ s)
  (aux_data_expected_size_ s) (status_ s) v (substream_meta_ s) (decoder_ s).
Definition set_substream_meta_ v s := mk (ssrc_ s) (substream_details_known_ s)
  (substream_type_ s) (codec_type_ s) (buffer_in_progress_ s) (expected_buffer_size_ s)
  (buffer_filled_ s) (waiting_for_rap_ s) (aux_data_in_progress_ s)
  (aux_data_expected_size_ s) (status_ s) (codec_mime_type_ s) v (decoder_ s).
Definition set_decoder_ v s := mk (ssrc_ s) (substream_details_known_ s)
  (substream_type_ s) (codec_type_ s) (buffer_in_progress_ s) (expected_buffer_size_ s)
  (buffer_filled_ s) (waiting_for_rap_ s) (aux_data_in_progress_ s)
  (aux_data_expected_size_ s) (status_ s) (codec_mime_type_ s) (substream_meta_ s) v.

(** [AAH_RXPlayer::Substream::cleanupBufferInProgress] *)
Definition cleanupBufferInProgress (s : t) : t :=
  let s := match buffer_in_progress_ s with
           | Some _ => set_buffer_in_progress_ None s
           | None => s
           end in
  let s := set_expected_buffer_size_ 0 s in
  let s := set_buffer_filled_ 0 s in
  let s := set_waiting_for_rap_ true s in
  let s := set_aux_data_in_progress_ [] s in
  set_aux_data_expected_size_ 0 s.

(** [AAH_RXPlayer::Substream::Substream].  The members the constructor
    leaves unset before [cleanupBufferInProgress] runs are given 0/false. *)
Definition new (ssrc : Z) : t :=
  cleanupBufferInProgress
    (mk ssrc false 0 0 None 0 0 false [] 0 OK EmptyString None (Some Pump.new)).

(** [AAH_RXPlayer::Substream::cleanupDecoder] *)
Definition cleanupDecoder (s : t) : t :=
  match decoder_ s with
  | Some p => set_decoder_ (Some (snd (Pump.shutdown p))) s
  | None => s
  end.

(** [AAH_RXPlayer::Substream::shutdown] *)
Definition shutdown (s : t) : t :=
  let s := set_substream_meta_ None s in
  let s := set_status_ OK s in
  let s := cleanupBufferInProgress s in
  cleanupDecoder s.

(** [AAH_RXPlayer::Substream::shouldAbort] *)
Definition shouldAbort (s : t) : bool := negb (OK =? status_ s).

(** [AAH_RXPlayer::Substream::setupSubstreamType] *)
Definition setupSubstreamType (s : t) (substream_type codec_type : Z) : bool * t :=
  if substream_details_known_ s then
    if negb (codec_type =? codec_type_ s) then (false, s) else (true, s)
  else if (codec_type =? kCodecMPEG1Audio) || (codec_type =? kCodecAACAudio) then
    (true, set_substream_details_known_ true
             (set_codec_type_ codec_type (set_substream_type_ substream_type s)))
  else (false, s).

(** [AAH_RXPlayer::Substream::processTSTransform] *)
Definition processTSTransform (s : t) (trans : LinearTransform) : t :=
  match decoder_ s with
  | Some p => set_decoder_ (Some (Pump.setRenderTSTransform p trans)) s
  | None => s
  end.

(** [AAH_RXPlayer::Substream::isAboutToUnderflow] *)
Definition isAboutToUnderflow (doForwardTransform : LinearTransform -> Z -> option Z)
  (s : t) (tt_now : option Z) : bool :=
  match decoder_ s with
  | None => false
  | Some p => Pump.isAboutToUnderflow doForwardTransform p tt_now kAboutToUnderflowThreshold
  end.

(** The message each return of [processPayloadStart] and [processPayloadCont]
    logs ([Accumulating] and [Completed] for the two silent ones). *)
Inductive Log : Type :=
| SkipFatalError             (* shouldAbort *)
| TooShortForTRTPHeader      (* len < 6 *)
| UnexpectedVersion
| UnhandledVideo
| UnhandledSubpicture
| UnhandledControl
| UnhandledHeaderType
| HeaderTypeMismatch
| TooShortForTimestamp
| TRTPLengthTooShort
| TooShortForTransform
| TRTPLengthTooShortForAudio
| HeaderFragmented           (* amt too small to contain the entire TRTP header *)
| CodecTypeRejected          (* setupSubstreamType returned false *)
| DroppingNonRAP
| TRTPLengthTooShortForAux
| HeaderFragmentedAux
| AuxTooLarge
| ZeroAccessUnitLength
| ExtraDataInStart
| AllocationFailed
| NoBufferInProgress         (* processPayloadCont *)
| AuxOnly                    (* processPayloadCont returned after the aux bytes *)
| ExtraDataInCont
| Accumulating
| Completed.

(** What the parsing part of [processPayloadStart] hands to the part that
    fills the buffer. *)
Inductive Parsed : Type :=
| Drop (l : Log)
| Accept (trtp_header_len : Z) (ts_valid : bool) (ts : Z).

(** [buffer_in_progress_->data()] written at [off]. *)
Definition write_buffer (s : t) (off : Z) (src : list byte) : t :=
  match buffer_in_progress_ s with
  | Some mb =>
      set_buffer_in_progress_
        (Some (mkMediaBuffer (memcpy (mb_data mb) off src) (mb_meta mb))) s
  | None => s
  end.

(** [processPayloadStart], from the abort of a payload in progress to the
    check for extra data: everything before the buffer is allocated. *)
Definition processPayloadStart_header (s : t) (buf : list byte) (ts_lower : Z)
  : Res (t * Parsed) :=
  let amt := zlen buf in
  let min_length := 6 in
  let s := match buffer_in_progress_ s with
           | Some _ => cleanupBufferInProgress s
           | None => s
           end in
  if amt <? min_length then Ok (s, Drop TooShortForTRTPHeader) else
  if negb (0x01 =? at8 buf 0) then Ok (s, Drop UnexpectedVersion) else
  let header_type := Z.land (Z.shiftr (at8 buf 1) 4) 0xF in
  if header_type =? kHeaderTypeVideo then Ok (s, Drop UnhandledVideo) else
  if header_type =? kHeaderTypeSubpicture then Ok (s, Drop UnhandledSubpicture) else
  if header_type =? kHeaderTypeControl then Ok (s, Drop UnhandledControl) else
  if negb (header_type =? kHeaderTypeAudio) then Ok (s, Drop UnhandledHeaderType) else
  if substream_details_known_ s && negb (header_type =? substream_type_ s)
  then Ok (s, Drop HeaderTypeMismatch) else
  let trtp_header_len := 6 in
  let ts_valid := flag_set (at8 buf 1) kFlag_TSValid in
  let min_length := if ts_valid then min_length + 4 else min_length in
  let trtp_header_len := if ts_valid then trtp_header_len + 4 else trtp_header_len in
  if ts_valid && (amt <? min_length) then Ok (s, Drop TooShortForTimestamp) else
  let trtp_len := U32_AT buf 2 in
  if trtp_len <? min_length then Ok (s, Drop TRTPLengthTooShort) else
  let parse_offset := 6 in
  let ts := if ts_valid
            then s64 (Z.lor (Z.shiftl (U32_AT buf parse_offset) 32) ts_lower)
            else 0 in
  let parse_offset := if ts_valid then parse_offset + 4 else parse_offset in
  let ts_transform := flag_set (at8 buf 1) kFlag_TSTransformPresent in
  let min_length := if ts_transform then min_length + 24 else min_length in
  let parse_offset := if ts_transform then parse_offset + 24 else parse_offset in
  let trtp_header_len := if ts_transform then trtp_header_len + 24 else trtp_header_len in
  if ts_transform && (amt <? min_length) then Ok (s, Drop TooShortForTransform) else
  let min_length := min_length + 3 in
  if trtp_len <? min_length then Ok (s, Drop TRTPLengthTooShortForAudio) else
  if amt <? min_length then Ok (s, Drop HeaderFragmented) else
  let codec_type := at8 buf parse_offset in
  let flags := at8 buf (parse_offset + 1) in
  let volume := at8 buf (parse_offset + 2) in
  let parse_offset := parse_offset + 3 in
  let trtp_header_len := trtp_header_len + 3 in
  let '(ok, s) := setupSubstreamType s header_type codec_type in
  if negb ok then Ok (s, Drop CodecTypeRejected) else
  let s := match decoder_ s with
           | Some p => set_decoder_ (Some (Pump.setRenderVolume p volume)) s
           | None => s
           end in
  if waiting_for_rap_ s && negb (flag_set flags kFlag_RandomAccessPoint)
  then Ok (s, Drop DroppingNonRAP) else
  let aux := flag_set flags kFlag_AuxLengthPresent in
  let min_length := if aux then min_length + 4 else min_length in
  let trtp_header_len := if aux then trtp_header_len + 4 else trtp_header_len in
  if aux && (trtp_len <? min_length) then Ok (s, Drop TRTPLengthTooShortForAux) else
  if aux && (amt <? min_length) then Ok (s, Drop HeaderFragmentedAux) else
  let s := if aux
           then set_aux_data_in_progress_ []
                  (set_aux_data_expected_size_ (U32_AT buf parse_offset) s)
           else set_aux_data_expected_size_ 0 s in
  if u32 (aux_data_expected_size_ s + trtp_header_len) >? trtp_len
  then Ok (s, Drop AuxTooLarge) else
  let s := set_expected_buffer_size_
             (u32 (trtp_len - trtp_header_len - aux_data_expected_size_ s)) s in
  if expected_buffer_size_ s =? 0 then Ok (s, Drop ZeroAccessUnitLength) else
  if negb (amt >=? trtp_header_len) then Aborted CHECK_amt_ge_trtp_header_len else
  let todo := amt - trtp_header_len in
  if u32 (expected_buffer_size_ s + aux_data_expected_size_ s) <? todo
  then Ok (s, Drop ExtraDataInStart) else
  Ok (s, Accept trtp_header_len ts_valid ts).

Section WithEnvironment.

(** The collaborators outside the sources:
    - [GetMPEGAudioFrameSize] (libstagefright's avc_utils) on the 32-bit frame
      header; [Some (sample_rate, channel_count)] when it returns true;
    - whether [new MediaBuffer(size)] yields a buffer with data and metadata;
    - [OMXCodec::Create] and [thread_->run] as in [Pump.init]. *)
Variable GetMPEGAudioFrameSize : Z -> option (Z * Z).
Variable MediaBuffer_alloc : Z -> bool.
Variable OMXCodec_Create : MetaData -> bool.
Variable thread_run_res : status_t.

(** [AAH_RXPlayer::Substream::setupMP3SubstreamMeta] *)
Definition setupMP3SubstreamMeta (s : t) : Res (bool * t) :=
  match buffer_in_progress_ s with
  | None => Aborted CHECK_buffer_in_progress
  | Some mb =>
      let buffer_data := mb_data mb in
      if zlen buffer_data <? 4 then Ok (false, s)
      else
        match GetMPEGAudioFrameSize (U32_AT buffer_data 0) with
        | None => Ok (false, s)
        | Some (sample_rate, channel_count) =>
            match substream_meta_ s with
            | None =>
                Ok (true,
                    set_substream_meta_
                      (Some (mkMetaData (Some MEDIA_MIMETYPE_AUDIO_MPEG) None
                                        (Some channel_count) (Some sample_rate) None)) s)
            | Some m =>
                match kKeySampleRate m, kKeyChannelCount m with
                | Some prev_sample_rate, Some prev_channel_count =>
                    if negb (prev_channel_count =? channel_count) ||
                       negb (prev_sample_rate =? sample_rate)
                    then
                      let s := cleanupDecoder s in
                      Ok (true,
                          set_substream_meta_
                            (Some (mkMetaData (kKeyMIMEType m) (kKeyTime m)
                                              (Some channel_count) (Some sample_rate)
                                              (kKeyESDS m))) s)
                    else Ok (true, s)
                | _, _ => Aborted READ_of_unset_prev_format
                end
            end
        end
  end.

(** [AAH_RXPlayer::Substream::setupAACSubstreamMeta] *)
Definition setupAACSubstreamMeta (s : t) : Res (bool * t) :=
  let overhead := 4 + 4 in
  if zlen (aux_data_in_progress_ s) <? overhead then Ok (false, s)
  else
    let aux_data := aux_data_in_progress_ s in
    let aux_data_size := zlen aux_data in
    let sample_rate := s32 (U32_AT aux_data 0) in
    let channel_cnt := s32 (U32_AT aux_data 4) in
    let esds_data :=
      if aux_data_size >? overhead then Some (skipn (Z.to_nat overhead) aux_data)
      else None in
    let fresh :=
      mkMetaData (Some MEDIA_MIMETYPE_AUDIO_AAC) None (Some channel_cnt)
                 (Some sample_rate) esds_data in
    match substream_meta_ s with
    | Some m =>
        match kKeySampleRate m with
        | None => Aborted CHECK_prev_sample_rate
        | Some prev_sample_rate =>
            match kKeyChannelCount m with
            | None => Aborted CHECK_prev_channel_count
            | Some prev_channel_count =>
                let esds_change :=
                  match kKeyESDS m, esds_data with
                  | Some data, Some esds =>
                      negb (zlen data =? zlen esds) || negb (bytes_eqb data esds)
                  | None, None => false
                  | _, _ => true
                  end in
                if negb esds_change &&
                   (prev_sample_rate =? sample_rate) &&
                   (prev_channel_count =? channel_cnt)
                then Ok (true, s)
                else
                  let s := cleanupDecoder s in
                  Ok (true, set_substream_meta_ (Some fresh) s)
            end
        end
    | None => Ok (true, set_substream_meta_ (Some fresh) s)
    end.

(** [AAH_RXPlayer::Substream::setupSubstreamMeta] *)
Definition setupSubstreamMeta (s : t) : Res (bool * t) :=
  if codec_type_ s =? kCodecMPEG1Audio then
    setupMP3SubstreamMeta (set_codec_mime_type_ MEDIA_MIMETYPE_AUDIO_MPEG s)
  else if codec_type_ s =? kCodecAACAudio then
    setupAACSubstreamMeta (set_codec_mime_type_ MEDIA_MIMETYPE_AUDIO_AAC s)
  else Ok (false, s).

(** [AAH_RXPlayer::Substream::processCompletedBuffer] *)
Definition processCompletedBuffer (s : t) : Res t :=
  match buffer_in_progress_ s with
  | None => Aborted CHECK_buffer_in_progress
  | Some mb =>
      match decoder_ s with
      | None => Ok (cleanupBufferInProgress s)
      | Some _ =>
          '(ok, s) <- setupSubstreamMeta s ;;
          if negb ok then Ok (cleanupBufferInProgress s)
          else
            match decoder_ s with
            | None => Ok (cleanupBufferInProgress s)
            | Some p =>
                '(res, p) <- Pump.init OMXCodec_Create thread_run_res p
                                       (substream_meta_ s) ;;
                let s := set_decoder_ (Some p) s in
                if negb (OK =? res) then
                  Ok (cleanupBufferInProgress
                        (set_substream_meta_ None (cleanupDecoder s)))
                else
                  let '(res, p) := Pump.queueForDecode p (buffer_in_progress_ s) in
                  let s := set_decoder_ (Some p) s in
                  let s :=
                    if negb (res =? OK)
                    then cleanupBufferInProgress (cleanupDecoder (set_status_ res s))
                    else s in
                  let s := set_buffer_in_progress_ None s in
                  Ok (cleanupBufferInProgress s)
            end
      end
  end.

(** [processPayloadStart], from the allocation of the buffer to the end:
    [buf] is still the whole payload. *)
Definition processPayloadStart_fill (s : t) (trtp_header_len : Z) (ts_valid : bool)
  (ts : Z) (buf : list byte) : Res (t * Log) :=
  let amt := zlen buf in
  let s := set_buffer_filled_ 0 s in
  if negb (MediaBuffer_alloc (expected_buffer_size_ s))
  then Ok (cleanupBufferInProgress s, AllocationFailed)
  else
    let meta := mkMetaData (Some (codec_mime_type_ s))
                           (if ts_valid then Some ts else None) None None None in
    let s := set_buffer_in_progress_
               (Some (mkMediaBuffer
                        (repeat Byte.x00 (Z.to_nat (expected_buffer_size_ s))) meta)) s in
    let amt := amt - trtp_header_len in
    let buf := skipn (Z.to_nat trtp_header_len) buf in
    let todo := min (aux_data_expected_size_ s) amt in
    let '(s, buf, amt) :=
      if negb (todo =? 0)
      then (set_aux_data_in_progress_
              (aux_data_in_progress_ s ++ firstn (Z.to_nat todo) buf) s,
            skipn (Z.to_nat todo) buf, amt - todo)
      else (s, buf, amt) in
    let todo := min (expected_buffer_size_ s) amt in
    let s :=
      if todo >? 0
      then set_buffer_filled_ amt (write_buffer s 0 (firstn (Z.to_nat todo) buf))
      else s in
    if buffer_filled_ s >=? expected_buffer_size_ s
    then s <- processCompletedBuffer s ;; Ok (s, Completed)
    else Ok (s, Accumulating).

(** [AAH_RXPlayer::Substream::processPayloadStart] *)
Definition processPayloadStart (s : t) (buf : list byte) (ts_lower : Z) : Res (t * Log) :=
  if shouldAbort s then Ok (s, SkipFatalError)
  else
    '(s, r) <- processPayloadStart_header s buf ts_lower ;;
    match r with
    | Drop l => Ok (s, l)
    | Accept trtp_header_len ts_valid ts =>
        processPayloadStart_fill s trtp_header_len ts_valid ts buf
    end.

(** [AAH_RXPlayer::Substream::processPayloadCont] *)
Definition processPayloadCont (s : t) (buf : list byte) : Res (t * Log) :=
  let amt := zlen buf in
  if shouldAbort s then Ok (s, SkipFatalError)
  else
    match buffer_in_progress_ s with
    | None => Ok (s, NoBufferInProgress)
    | Some _ =>
        if negb (zlen (aux_data_in_progress_ s) <=? aux_data_expected_size_ s)
        then Aborted CHECK_aux_size_le_expected
        else
          let aux_left := u32 (aux_data_expected_size_ s - zlen (aux_data_in_progress_ s)) in
          let todo := if negb (aux_left =? 0) then min aux_left amt else 0 in
          let s := if negb (aux_left =? 0)
                   then set_aux_data_in_progress_
                          (aux_data_in_progress_ s ++ firstn (Z.to_nat todo) buf) s
                   else s in
          let amt := amt - todo in
          let buf := skipn (Z.to_nat todo) buf in
          if negb (aux_left =? 0) && (amt =? 0) then Ok (s, AuxOnly)
          else if negb (buffer_filled_ s <? expected_buffer_size_ s)
          then Aborted CHECK_buffer_filled_lt_expected
          else
            let buffer_left := u32 (expected_buffer_size_ s - buffer_filled_ s) in
            if amt >? buffer_left then Ok (cleanupBufferInProgress s, ExtraDataInCont)
            else
              let s :=
                if amt >? 0
                then set_buffer_filled_ (u32 (buffer_filled_ s + amt))
                       (write_buffer s (buffer_filled_ s) buf)
                else s in
              if buffer_filled_ s >=? expected_buffer_size_ s
              then s <- processCompletedBuffer s ;; Ok (s, Completed)
              else Ok (s, Accumulating)
    end.

End WithEnvironment.

End Substream.

(** * Vocabulary of the pump's properties *)

Module PumpSpec.
Import Pump.

(** ** Calls on a pump *)

(** The member functions that change a pump, as its owner and its worker
    thread call them; [Init] carries what [OMXCodec::Create] and
    [thread_->run] answer during the call. *)
Inductive Call : Type :=
| Init (create : MetaData -> bool) (run_res : status_t) (params : option MetaData)
| QueueForDecode (buf : option MediaBuffer)
| SetRenderTSTransform (trans : LinearTransform)
| SetRenderVolume (volume : Z)
| Shutdown
| QueueToRenderer (env : RenderEnv) (decoded_sample : MediaBuffer)
| StopAndCleanupRenderer.

(** A call's effect, with the status it returns when it returns one. *)
Definition call (p : t) (c : Call) : Res (t * option status_t) :=
  match c with
  | Init create run_res params =>
      '(res, p) <- init create run_res p params ;; Ok (p, Some res)
  | QueueForDecode buf =>
      let '(res, p) := queueForDecode p buf in Ok (p, Some res)
  | SetRenderTSTransform trans => Ok (setRenderTSTransform p trans, None)
  | SetRenderVolume volume => Ok (setRenderVolume p volume, None)
  | Shutdown => let '(res, p) := shutdown p in Ok (p, Some res)
  | QueueToRenderer env sample => p <- queueToRenderer env p sample ;; Ok (p, None)
  | StopAndCleanupRenderer => Ok (stopAndCleanupRenderer p, None)
  end.

(** The calls [cs] made in order; the statuses that the [queueForDecode]
    calls among them returned are collected. *)
Fixpoint calls (p : t) (cs : list Call) : Res (t * list status_t) :=
  match cs with
  | [] => Ok (p, [])
  | c :: cs =>
      '(p, r) <- call p c ;;
      '(p, rs) <- calls p cs ;;
      match c, r with
      | QueueForDecode _, Some res => Ok (p, res :: rs)
      | _, _ => Ok (p, rs)
      end
  end.

Definition is_Shutdown (c : Call) : bool :=
  match c with Shutdown => true | _ => false end.

(** [queueTimedBuffer] returned OK during the call: a unit reached the sink. *)
Definition queued_to_sink (c : Call) : bool :=
  match c with
  | QueueToRenderer env _ => queueTimedBuffer_res env =? OK
  | _ => false
  end.

(** ** The error budget of the worker loop *)

(** The status a decode step ends with once [INFO_FORMAT_CHANGED] has been
    turned into [OK]. *)
Definition step_failed (d : DecodeStep) : bool :=
  negb (ds_res d =? OK) && negb (ds_res d =? INFO_FORMAT_CHANGED).

Definition step_failed_long (d : DecodeStep) : bool :=
  step_failed d && (ds_durationUsecs d >=? 1000000).

Definition step_produced (d : DecodeStep) : bool :=
  negb (step_failed d) && (match ds_bufOut d with Some _ => true | None => false end).

(** The number of steps among [ds] that satisfy [f] since the last step that
    produced output, counting on from [n]. *)
Definition tally (f : DecodeStep -> bool) (n : Z) (ds : list DecodeStep) : Z :=
  fold_left (fun n d => if step_produced d then 0 else if f d then n + 1 else n) ds n.

(** The units a sequence of [queueForDecode] and [read] calls moves through
    [in_queue_]. *)
Inductive QueueCall : Type :=
| Enqueue (buf : MediaBuffer)
| Pull.

(** Runs the queue calls in order and returns the final pump, the units that
    [queueForDecode] accepted and the units that [read] returned, both oldest
    first; a [read] that waits returns nothing. *)
Fixpoint queue_calls (p : t) (cs : list QueueCall)
  : Res (t * list MediaBuffer * list MediaBuffer) :=
  match cs with
  | [] => Ok (p, [], [])
  | Enqueue b :: cs =>
      let '(res, p) := queueForDecode p (Some b) in
      '(p, accepted, pulled) <- queue_calls p cs ;;
      Ok (p, (if res =? OK then b :: accepted else accepted), pulled)
  | Pull :: cs =>
      r <- read p ;;
      match r with
      | Waits => queue_calls p cs
      | Returns _ buffer p =>
          '(p, accepted, pulled) <- queue_calls p cs ;;
          Ok (p, accepted, match buffer with Some b => b :: pulled | None => pulled end)
      end
  end.

(** ** What the pump keeps true *)

(** A pump without decode engine has no terminal status; this is what the
    CHECK of [init] relies on. *)
Definition pump_sane (p : t) : Prop :=
  decoder_ p = None -> thread_status_ p = OK.

(** The decode engine and its format are held together, and the worker
    thread runs only while they are held. *)
Definition engine_inv (p : t) : Prop :=
  pump_sane p /\
  (decoder_ p = None <-> format_ p = None) /\
  (running (thread_ p) = true -> decoder_ p <> None).

(** The volume of the last [setRenderVolume] among the calls [cs], and the
    transform of the last [setRenderTSTransform]; [from_v] and [from_t] are
    what the pump holds before them. *)
Definition volume_given (from_v : Z) (cs : list Call) : Z :=
  fold_left (fun v c => match c with SetRenderVolume v' => v' | _ => v end) cs from_v.

Definition transform_given (from_t : option LinearTransform) (cs : list Call)
  : option LinearTransform :=
  fold_left (fun t c => match c with SetRenderTSTransform t' => Some t' | _ => t end)
            cs from_t.

(** The transform a pump holds, when it holds a valid one. *)
Definition transform_held (p : t) : option LinearTransform :=
  if last_ts_transform_valid_ p then Some (last_ts_transform_ p) else None.

(** What a decode step gives the audio track to play: the bytes of the
    decoded sample with its timestamp, when the step produced a sample
    (with the result OK, or INFO_FORMAT_CHANGED which the worker turns into
    OK) and the track took it. *)
Definition rendered (d : DecodeStep) : list (Z * list byte) :=
  if ((ds_res d =? OK) || (ds_res d =? INFO_FORMAT_CHANGED)) &&
     (allocateTimedBuffer_res (ds_render d) =? OK) &&
     (queueTimedBuffer_res (ds_render d) =? OK)
  then match ds_bufOut d with
       | Some b => match kKeyTime (mb_meta b) with
                   | Some ts => [(ts, mb_data b)]
                   | None => []
                   end
       | None => []
       end
  else [].

(** The buffers the audio track holds, oldest first; none without a track. *)
Definition track_queue (p : t) : list (Z * list byte) :=
  match renderer_ p with
  | Some r => tat_queue r
  | None => []
  end.

(** The track's buffers after the decode steps [ds], from the buffers [q]:
    a format change discards the track with what it holds. *)
Definition played (q : list (Z * list byte)) (ds : list DecodeStep)
  : list (Z * list byte) :=
  fold_left (fun q d => (if ds_res d =? INFO_FORMAT_CHANGED then [] else q) ++ rendered d)
            ds q.

(** The audio track can be set up: [new TimedAudioTrack], [set] and
    [setMediaTimeTransform] succeed. *)
Definition track_setup_ok (env : RenderEnv) : bool :=
  track_alloc_ok env && (set_res env =? OK) && (setMediaTimeTransform_res env =? NO_ERROR).

(** A live track has been given the transform and the volume the pump
    holds. *)
Definition track_inv (p : t) : Prop :=
  forall r, renderer_ p = Some r ->
    last_ts_transform_valid_ p = true /\
    tat_transform r = last_ts_transform_ p /\
    tat_volume r = last_volume_ p.

Definition no_Shutdown (cs : list Call) : bool :=
  forallb (fun c => negb (is_Shutdown c)) cs.

(** The decoded samples among the calls [cs] all carry a timestamp. *)
Definition samples_timed (cs : list Call) : bool :=
  forallb (fun c => match c with
                    | QueueToRenderer _ b =>
                        match kKeyTime (mb_meta b) with Some _ => true | None => false end
                    | _ => true
                    end) cs.

(** The timestamp of the last of the buffers [l]; [pts] when there is none. *)
Definition last_pts (pts : Z) (l : list (Z * list byte)) : Z :=
  fold_left (fun _ x => fst x) l pts.

(** ** Values for the examples *)

Definition stereo_44k : MetaData :=
  mkMetaData (Some MEDIA_MIMETYPE_AUDIO_MPEG) None (Some 2) (Some 44100) None.

(** An audio track whose calls all succeed. *)
Definition track_ok : RenderEnv := mkRenderEnv true OK NO_ERROR OK OK.

(** A decoded sample with the timestamp [ts]. *)
Definition sample_at (ts : Z) (data : list byte) : MediaBuffer :=
  mkMediaBuffer data (mkMetaData None (Some ts) None None None).

Definition unity : LinearTransform := mkLinearTransform 0 0 1 1.

(** A pump whose worker runs, with a transform stored. *)
Definition pump_at_work : t :=
  set_thread_ (mkThread true false)
    (set_decoder_ (Some (mkOMXCodec stereo_44k))
       (set_format_ (Some stereo_44k) (setRenderTSTransform new unity))).

End PumpSpec.

(** * Vocabulary of the substream's properties *)

Module SubstreamSpec.
Import Substream.

(** What the collaborators answer during one call on the substream. *)
Record Env : Type := mkEnv {
  env_alloc : Z -> bool;             (* new MediaBuffer(size) succeeds *)
  env_create : MetaData -> bool;     (* OMXCodec::Create succeeds *)
  env_run : status_t                 (* thread_->run *)
}.

(** The calls the owner of a substream makes on it; [PumpActivity] is what
    happens to the decoder pump between two of them, its worker thread
    leaving it in the state [p]. *)
Inductive Op : Type :=
| ProcessPayloadStart (env : Env) (buf : list byte) (ts_lower : Z)
| ProcessPayloadCont (env : Env) (buf : list byte)
| ProcessTSTransform (trans : LinearTransform)
| Shutdown
| PumpActivity (p : Pump.t).

Section WithParser.

Variable GetMPEGAudioFrameSize : Z -> option (Z * Z).

Definition start (env : Env) :=
  processPayloadStart GetMPEGAudioFrameSize (env_alloc env) (env_create env) (env_run env).

Definition cont (env : Env) :=
  processPayloadCont GetMPEGAudioFrameSize (env_create env) (env_run env).

Definition step (s : t) (op : Op) : Res t :=
  match op with
  | ProcessPayloadStart env buf ts_lower => '(s, _) <- start env s buf ts_lower ;; Ok s
  | ProcessPayloadCont env buf => '(s, _) <- cont env s buf ;; Ok s
  | ProcessTSTransform trans => Ok (processTSTransform s trans)
  | Shutdown => Ok (shutdown s)
  | PumpActivity p =>
      Ok (match decoder_ s with Some _ => set_decoder_ (Some p) s | None => s end)
  end.

Fixpoint run (s : t) (ops : list Op) : Res t :=
  match ops with
  | [] => Ok s
  | op :: ops => s <- step s op ;; run s ops
  end.

(** A fragment-start followed by continuations. *)
Fixpoint conts (env : Env) (s : t) (frags : list (list byte)) : Res t :=
  match frags with
  | [] => Ok s
  | f :: frags => '(s, _) <- cont env s f ;; conts env s frags
  end.

End WithParser.

(** ** The fields of the wire header (TRTP, section "External interfaces") *)

Definition ts_valid_of (buf : list byte) : bool := flag_set (at8 buf 1) kFlag_TSValid.
Definition ts_transform_of (buf : list byte) : bool :=
  flag_set (at8 buf 1) kFlag_TSTransformPresent.

(** Offset of the audio part (codec type, flags, volume). *)
Definition audio_offset (buf : list byte) : Z :=
  6 + (if ts_valid_of buf then 4 else 0) + (if ts_transform_of buf then 24 else 0).

Definition version_of (buf : list byte) : Z := at8 buf 0.
Definition header_type_of (buf : list byte) : Z := Z.land (Z.shiftr (at8 buf 1) 4) 0xF.
Definition total_length_of (buf : list byte) : Z := U32_AT buf 2.
Definition codec_type_of (buf : list byte) : Z := at8 buf (audio_offset buf).
Definition audio_flags_of (buf : list byte) : Z := at8 buf (audio_offset buf + 1).
Definition volume_of (buf : list byte) : Z := at8 buf (audio_offset buf + 2).
Definition aux_present_of (buf : list byte) : bool :=
  flag_set (audio_flags_of buf) kFlag_AuxLengthPresent.
Definition rap_of (buf : list byte) : bool :=
  flag_set (audio_flags_of buf) kFlag_RandomAccessPoint.

(** Length of the whole header. *)
Definition header_length_of (buf : list byte) : Z :=
  audio_offset buf + 3 + (if aux_present_of buf then 4 else 0).

Definition aux_length_of (buf : list byte) : Z :=
  if aux_present_of buf then U32_AT buf (audio_offset buf + 3) else 0.

(** ** The state of the buffer in progress *)

(** The substream as [processPayloadStart] sees it once a payload already in
    progress has been aborted. *)
Definition aborted_in_progress (s : t) : t :=
  match buffer_in_progress_ s with
  | Some _ => cleanupBufferInProgress s
  | None => s
  end.

(** What the two CHECKs of [processPayloadCont] rely on, with the ranges of
    the 32-bit fields; without a buffer in progress no aux data is held. *)
Definition buffer_inv (s : t) : Prop :=
  match buffer_in_progress_ s with
  | Some mb =>
      zlen (aux_data_in_progress_ s) <= aux_data_expected_size_ s < 2 ^ 32 /\
      0 <= buffer_filled_ s < expected_buffer_size_ s /\
      expected_buffer_size_ s < 2 ^ 32
  | None => aux_data_in_progress_ s = []
  end.

(** The logs of the rejections that [processPayloadStart] makes before it
    has touched anything but a payload already in progress. *)
Definition early_rejection (l : Log) : bool :=
  match l with
  | TooShortForTRTPHeader | UnexpectedVersion | UnhandledVideo | UnhandledSubpicture
  | UnhandledControl | UnhandledHeaderType | HeaderTypeMismatch | TooShortForTimestamp
  | TRTPLengthTooShort | TooShortForTransform | TRTPLengthTooShortForAudio
  | HeaderFragmented | CodecTypeRejected => true
  | _ => false
  end.

(** The logs of all malformed-packet rejections of [processPayloadStart]. *)
Definition malformed_rejection (l : Log) : bool :=
  early_rejection l ||
  match l with
  | TRTPLengthTooShortForAux | HeaderFragmentedAux | AuxTooLarge
  | ZeroAccessUnitLength | ExtraDataInStart => true
  | _ => false
  end.

(** The substream [s1], left by the parsing of a fragment-start, once the
    bytes [c] that follow the header have been received: the first
    [aux_data_expected_size_] of them are aux data, the others fill the
    buffer from its start. *)
Definition accumulated (s1 : t) (ts_valid : bool) (ts : Z) (c : list byte) : t :=
  let pay := skipn (Z.to_nat (aux_data_expected_size_ s1)) c in
  mk (ssrc_ s1) (substream_details_known_ s1) (substream_type_ s1) (codec_type_ s1)
     (Some (mkMediaBuffer
              (pay ++ repeat Byte.x00
                        (Z.to_nat (expected_buffer_size_ s1) - List.length pay))
              (mkMetaData (Some (codec_mime_type_ s1))
                          (if ts_valid then Some ts else None) None None None)))
     (expected_buffer_size_ s1) (zlen pay) (waiting_for_rap_ s1)
     (firstn (Z.to_nat (aux_data_expected_size_ s1)) c)
     (aux_data_expected_size_ s1) (status_ s1) (codec_mime_type_ s1)
     (substream_meta_ s1) (decoder_ s1).

(** ** Codec metadata of a completed access unit *)

(** Follows the specification (4.2, completion): for MP3 the sample rate and
    channel count parsed from the 4-byte frame header at the start of the
    access unit; for AAC the 4-byte sample rate and 4-byte channel count at
    the start of the aux data, with the aux bytes after them, if any, as the
    codec-configuration blob. *)
Definition derived_format (GetMPEGAudioFrameSize : Z -> option (Z * Z)) (s : t)
  : option (Z * Z * option (list byte)) :=
  if codec_type_ s =? kCodecMPEG1Audio then
    match buffer_in_progress_ s with
    | Some mb =>
        if 4 <=? zlen (mb_data mb) then
          match GetMPEGAudioFrameSize (U32_AT (mb_data mb) 0) with
          | Some (sample_rate, channels) => Some (sample_rate, channels, None)
          | None => None
          end
        else None
    | None => None
    end
  else if codec_type_ s =? kCodecAACAudio then
    let aux := aux_data_in_progress_ s in
    if 8 <=? zlen aux then
      Some (s32 (U32_AT aux 0), s32 (U32_AT aux 4),
            if 8 <? zlen aux then Some (skipn 8 aux) else None)
    else None
  else None.

(** The established metadata [m] differs from the derived format: in sample
    rate or channel count, or, for AAC, in the codec-configuration blob. *)
Definition format_differs (codec : Z) (m : MetaData)
  (f : Z * Z * option (list byte)) : Prop :=
  let '(sample_rate, channels, esds) := f in
  kKeySampleRate m <> Some sample_rate \/
  kKeyChannelCount m <> Some channels \/
  (codec = kCodecAACAudio /\ kKeyESDS m <> esds).

(** ** A single-fragment payload *)

(** The established metadata carries a sample rate and a channel count. *)
Definition meta_ok (s : t) : Prop :=
  forall m, substream_meta_ s = Some m ->
            kKeySampleRate m <> None /\ kKeyChannelCount m <> None.

(** Follows the specification (testable properties): the header fields are
    self-consistent, that is version 1, audio kind, supported codec, and
    declared lengths consistent with the buffer length. *)
Definition self_consistent (buf : list byte) : bool :=
  (version_of buf =? 1) && (header_type_of buf =? kHeaderTypeAudio) &&
  ((codec_type_of buf =? kCodecMPEG1Audio) || (codec_type_of buf =? kCodecAACAudio)) &&
  (total_length_of buf =? zlen buf) &&
  (header_length_of buf + aux_length_of buf <=? zlen buf).

(** The bytes of a single-fragment payload behind its header and aux data. *)
Definition access_unit_of (buf : list byte) : list byte :=
  skipn (Z.to_nat (header_length_of buf + aux_length_of buf)) buf.

(** Whether [setupSubstreamMeta] can derive the codec metadata from the
    payload: for MP3 a frame header that parses at the start of the access
    unit, for AAC at least 8 bytes of aux data. *)
Definition format_derivable (GetMPEGAudioFrameSize : Z -> option (Z * Z))
  (buf : list byte) : bool :=
  if codec_type_of buf =? kCodecMPEG1Audio then
    (4 <=? zlen (access_unit_of buf)) &&
    match GetMPEGAudioFrameSize (U32_AT (access_unit_of buf) 0) with
    | Some _ => true
    | None => false
    end
  else 8 <=? aux_length_of buf.

(** ** Sanity of the pump a substream holds *)

(** The pump the substream holds is sane ([PumpSpec.pump_sane]). *)
Definition decoder_sane (s : t) : Prop :=
  forall p, decoder_ s = Some p -> PumpSpec.pump_sane p.

(** The worker thread leaves the pump in a sane state. *)
Definition op_sane (op : Op) : Prop :=
  match op with
  | PumpActivity p => PumpSpec.pump_sane p
  | _ => True
  end.

(** The identity of a substream: its SSRC and, once known, its kind and
    codec. *)
Definition same_kind (s s' : t) : Prop :=
  ssrc_ s' = ssrc_ s /\
  substream_details_known_ s' = substream_details_known_ s /\
  substream_type_ s' = substream_type_ s /\
  codec_type_ s' = codec_type_ s.


(** What the reassembly of a payload leaves as it is: everything but the
    buffer in progress and its bookkeeping. *)
Definition same_but_buffer (s x : t) : Prop :=
  same_kind s x /\
  status_ x = status_ s /\
  substream_meta_ x = substream_meta_ s /\
  decoder_ x = decoder_ s /\
  codec_mime_type_ x = codec_mime_type_ s.

(** Once known, the kind is audio and the codec MP3 or AAC. *)
Definition kind_ok (s : t) : Prop :=
  substream_details_known_ s = true ->
  substream_type_ s = kHeaderTypeAudio /\
  (codec_type_ s = kCodecMPEG1Audio \/ codec_type_ s = kCodecAACAudio).

(** The bookkeeping of the buffer in progress as [cleanupBufferInProgress]
    leaves it. *)
Definition cleaned (s : t) : Prop :=
  buffer_in_progress_ s = None /\
  expected_buffer_size_ s = 0 /\
  buffer_filled_ s = 0 /\
  waiting_for_rap_ s = true /\
  aux_data_in_progress_ s = [] /\
  aux_data_expected_size_ s = 0.

(** The buffer in progress has the size that was announced for it. *)
Definition size_ok (s : t) : Prop :=
  forall mb, buffer_in_progress_ s = Some mb ->
             zlen (mb_data mb) = expected_buffer_size_ s.

(** The 64-bit timestamp of a payload whose header has the TSValid flag:
    [(static_cast<int64_t>(ts_upper) << 32) | ts_lower], the upper half read
    at offset 6, the lower half the [int32_t] given by the caller. *)
Definition timestamp_of (buf : list byte) (ts_lower : Z) : Z :=
  s64 (Z.lor (Z.shiftl (U32_AT buf 6) 32) ts_lower).

(** The metadata [processPayloadStart] gives the buffer it allocates. *)
Definition unit_meta (s : t) (buf : list byte) (ts_lower : Z) : MetaData :=
  mkMetaData (Some (codec_mime_type_ s))
             (if ts_valid_of buf then Some (timestamp_of buf ts_lower) else None)
             None None None.

(** ** Packets for the examples *)

Definition b8 (z : Z) : byte :=
  match Byte.of_N (Z.to_N z) with
  | Some b => b
  | None => Byte.x00
  end.

(** A TRTP audio payload without timestamp, transform or aux data: version 1,
    header type audio, total length, codec type, audio flags, volume, and
    whatever follows. *)
Definition audio_packet (total codec flags volume : Z) (rest : list byte) : list byte :=
  map b8 [1; 0x10; 0; 0; 0; total; codec; flags; volume] ++ rest.

(** The first four bytes of an MPEG-1 layer III frame. *)
Definition mp3_frame_start : list byte := map b8 [0xFF; 0xFB; 0x90; 0x00].

(** A parser that takes any frame header for 44.1 kHz stereo, and
    collaborators that never fail. *)
Definition any_frame_44k_stereo : Z -> option (Z * Z) := fun _ => Some (44100, 2).
Definition env_ok : Env := mkEnv (fun _ => true) (fun _ => true) OK.

End SubstreamSpec.

(** * Machine integers *)

Lemma u32_small x : 0 <= x < 2 ^ 32 -> u32 x = x.
Proof. intros H. unfold u32. apply Z.mod_small. exact H. Qed.

Lemma u32_range x : 0 <= u32 x < 2 ^ 32.
Proof. unfold u32. apply Z.mod_pos_bound. lia. Qed.

Lemma s64_small x : - 2 ^ 63 <= x < 2 ^ 63 -> s64 x = x.
Proof. intros H. unfold s64. rewrite Z.mod_small; lia. Qed.

(** * Properties of the decoder pump *)

Module PumpFacts.
Import Pump PumpSpec.

Lemma tally_app f n ds1 ds2 : tally f n (ds1 ++ ds2) = tally f (tally f n ds1) ds2.
Proof. unfold tally. apply fold_left_app. Qed.

Lemma tally_cons f n d ds :
  tally f n (d :: ds) =
  tally f (if step_produced d then 0 else if f d then n + 1 else n) ds.
Proof. reflexivity. Qed.

Lemma set_thread_status_exitPending v p :
  exitPending (thread_ (set_thread_status_ v p)) = exitPending (thread_ p).
Proof. reflexivity. Qed.

Lemma stopAndCleanupRenderer_fields p :
  thread_ (stopAndCleanupRenderer p) = thread_ p /\
  thread_status_ (stopAndCleanupRenderer p) = thread_status_ p /\
  decoder_ (stopAndCleanupRenderer p) = decoder_ p /\
  in_queue_ (stopAndCleanupRenderer p) = in_queue_ p /\
  last_queued_pts_valid_ (stopAndCleanupRenderer p) = last_queued_pts_valid_ p.
Proof. unfold stopAndCleanupRenderer. destruct (renderer_ p); repeat split. Qed.

Lemma queueToRenderer_fields env p b p' :
  queueToRenderer env p b = Ok p' ->
  thread_ p' = thread_ p /\ thread_status_ p' = thread_status_ p /\
  decoder_ p' = decoder_ p /\ in_queue_ p' = in_queue_ p.
Proof.
  unfold queueToRenderer.
  destruct (kKeyTime (mb_meta b)); [|discriminate].
  destruct (renderer_ p); cbn.
  - repeat match goal with |- context [if ?c then _ else _] => destruct c end;
      intros H; inversion H; subst; repeat split.
  - repeat match goal with |- context [if ?c then _ else _] => destruct c; cbn end;
      intros H; inversion H; subst; repeat split.
Qed.

(** One iteration, seen through the counters. *)
Lemma workThread_iteration_spec p c d p' c' ctl :
  exitPending (thread_ p) = false ->
  0 <= consecutive_errors c < 60 ->
  0 <= consecutive_long_errors c < 3 ->
  workThread_iteration p c d = Ok (p', c', ctl) ->
  let e := tally step_failed (consecutive_errors c) [d] in
  let l := tally step_failed_long (consecutive_long_errors c) [d] in
  consecutive_errors c' = e /\ consecutive_long_errors c' = l /\
  exitPending (thread_ p') = false /\
  decoder_ p' = decoder_ p /\
  (ctl = InLoop /\ 0 <= e < 60 /\ 0 <= l < 3 /\ thread_status_ p' = thread_status_ p \/
   ctl = Broke /\ step_failed d = true /\ (e = 60 \/ l = 3) /\
   thread_status_ p' = ds_res d).
Proof.
  intros Hx He Hl. unfold workThread_iteration. rewrite Hx.
  unfold tally, step_failed_long, step_produced, step_failed; cbn [fold_left].
  destruct (ds_res d =? INFO_FORMAT_CHANGED) eqn:Hfc.
  - (* format changed: counted as OK *)
    apply Z.eqb_eq in Hfc.
    replace (OK =? OK) with true by reflexivity. cbn [negb].
    rewrite andb_false_r. cbn [negb andb].
    destruct (stopAndCleanupRenderer_fields p) as (T & S & D & _ & _).
    destruct (ds_bufOut d) as [b|].
    + destruct (queueToRenderer (ds_render d) (stopAndCleanupRenderer p) b) as [q|] eqn:Hq;
        cbn; [|discriminate].
      intros H; inversion H; subst; clear H. cbn.
      destruct (queueToRenderer_fields _ _ _ Hq) as (T' & S' & D' & _).
      split; [reflexivity|]. split; [reflexivity|].
      split; [congruence|]. split; [congruence|].
      left. repeat split; try lia; congruence.
    + intros H; inversion H; subst; clear H. cbn.
      split; [reflexivity|]. split; [reflexivity|].
      split; [congruence|]. split; [congruence|].
      left. repeat split; try lia; congruence.
  - destruct (ds_res d =? OK) eqn:Hok; cbn [negb andb].
    + destruct (ds_bufOut d) as [b|].
      * destruct (queueToRenderer (ds_render d) p b) as [q|] eqn:Hq; cbn; [|discriminate].
        intros H; inversion H; subst; clear H. cbn.
        destruct (queueToRenderer_fields _ _ _ Hq) as (T' & S' & D' & _).
        split; [reflexivity|]. split; [reflexivity|].
        split; [congruence|]. split; [congruence|].
        left. repeat split; try lia; congruence.
      * intros H; inversion H; subst; clear H.
        split; [reflexivity|]. split; [reflexivity|].
        split; [congruence|]. split; [congruence|].
        left. repeat split; try lia.
    + cbn [consecutive_errors consecutive_long_errors].
      rewrite (u32_small (x := consecutive_errors c + 1)) by lia.
      destruct (ds_bufOut d); [discriminate|].
      unfold kLongDecodeErrorThreshold, kMaxErrorsBeforeFatal, kMaxLongErrorsBeforeFatal.
      destruct (ds_durationUsecs d >=? 1000000); cbn [consecutive_errors consecutive_long_errors].
      * rewrite (u32_small (x := consecutive_long_errors c + 1)) by lia.
        destruct ((consecutive_errors c + 1 >=? 60) || (consecutive_long_errors c + 1 >=? 3)) eqn:Hb;
          intros H; inversion H; subst; clear H; cbn;
          (split; [reflexivity|]); (split; [reflexivity|]);
          (split; [assumption|]); (split; [reflexivity|]).
        -- right. apply orb_true_iff in Hb. repeat split; lia.
        -- left. apply orb_false_iff in Hb. repeat split; lia.
      * destruct ((consecutive_errors c + 1 >=? 60) || (consecutive_long_errors c >=? 3)) eqn:Hb;
          intros H; inversion H; subst; clear H; cbn;
          (split; [reflexivity|]); (split; [reflexivity|]);
          (split; [assumption|]); (split; [reflexivity|]).
        -- right. apply orb_true_iff in Hb. repeat split; lia.
        -- left. apply orb_false_iff in Hb. repeat split; lia.
Qed.


Lemma step_failed_not_OK d : step_failed d = true -> ds_res d <> OK.
Proof.
  unfold step_failed. intros H. apply andb_true_iff in H. destruct H as [H _].
  apply negb_true_iff in H. apply Z.eqb_neq in H. exact H.
Qed.

(** The loop, seen through the tallies of the steps it was given. *)
Lemma workThread_loop_spec ds : forall p c p' c' ctl,
  exitPending (thread_ p) = false ->
  0 <= consecutive_errors c < 60 ->
  0 <= consecutive_long_errors c < 3 ->
  workThread_loop p c ds = Ok (p', c', ctl) ->
  decoder_ p' = decoder_ p /\
  (ctl = InLoop /\
   consecutive_errors c' = tally step_failed (consecutive_errors c) ds /\
   consecutive_long_errors c' = tally step_failed_long (consecutive_long_errors c) ds /\
   thread_status_ p' = thread_status_ p /\
   (forall pre post, ds = pre ++ post ->
      0 <= tally step_failed (consecutive_errors c) pre < 60 /\
      0 <= tally step_failed_long (consecutive_long_errors c) pre < 3)
   \/
   ctl = Broke /\
   exists pre d post,
     ds = pre ++ d :: post /\ step_failed d = true /\
     (tally step_failed (consecutive_errors c) (pre ++ [d]) = 60 \/
      tally step_failed_long (consecutive_long_errors c) (pre ++ [d]) = 3) /\
     consecutive_errors c' = tally step_failed (consecutive_errors c) (pre ++ [d]) /\
     consecutive_long_errors c' =
       tally step_failed_long (consecutive_long_errors c) (pre ++ [d]) /\
     thread_status_ p' = ds_res d).
Proof.
  induction ds as [|d ds IH]; intros p c p' c' ctl Hx He Hl; cbn [workThread_loop].
  - intros H; inversion H; subst; clear H. split; [reflexivity|]. left.
    repeat split; try reflexivity;
      destruct pre; try discriminate; cbn; lia.
  - destruct (workThread_iteration p c d) as [[[p1 c1] ctl1]|] eqn:Hit; cbn [bind];
      [|discriminate].
    pose proof (workThread_iteration_spec _ _ _ Hx He Hl Hit) as (E & L & X & D & Hc).
    cbn zeta in *.
    destruct Hc as [(-> & He1 & Hl1 & S) | (-> & F & Hr & S)].
    + intros Hloop.
      assert (He1' : 0 <= consecutive_errors c1 < 60) by (rewrite E; exact He1).
      assert (Hl1' : 0 <= consecutive_long_errors c1 < 3) by (rewrite L; exact Hl1).
      destruct (IH _ _ _ _ _ X He1' Hl1' Hloop) as (D' & Hc).
      split; [congruence|].
      rewrite E, L in Hc.
      destruct Hc as [(-> & E' & L' & S' & Pre) | (-> & pre & d' & post & -> & F' & Hr' & E' & L' & S')].
      * left. split; [reflexivity|]. rewrite !tally_cons.
        split; [exact E'|]. split; [exact L'|]. split; [congruence|].
        intros pre post Hds. destruct pre as [|x pre].
        -- cbn. lia.
        -- cbn [app] in Hds. inversion Hds; subst. rewrite !tally_cons.
           apply (Pre pre post). reflexivity.
      * right. split; [reflexivity|].
        exists (d :: pre), d', post. cbn [app]. rewrite !tally_cons.
        repeat split; assumption.
    + intros H; inversion H; subst; clear H. split; [exact D|]. right.
      split; [reflexivity|]. exists [], d, ds. cbn [app].
      repeat split; assumption.
Qed.

(** Calls other than [shutdown] leave a terminal status in place, and each
    [queueForDecode] among them fails. *)
Lemma call_keeps_terminal p c p1 r :
  thread_status_ p <> OK ->
  decoder_ p <> None ->
  is_Shutdown c = false ->
  call p c = Ok (p1, r) ->
  thread_status_ p1 = thread_status_ p /\ decoder_ p1 = decoder_ p /\
  in_queue_ p1 = in_queue_ p /\
  (forall buf res, c = QueueForDecode buf -> r = Some res -> res <> OK).
Proof.
  intros Hs Hd Hc. destruct c; cbn [call]; try discriminate Hc.
  - unfold init. destruct (decoder_ p) eqn:E; [|congruence].
    cbn. intros H; inversion H; subst. repeat split; try assumption; discriminate.
  - unfold queueForDecode. destruct buf.
    + destruct (thread_status_ p =? OK) eqn:E.
      * apply Z.eqb_eq in E. congruence.
      * cbn. intros H; inversion H; subst. repeat split.
        intros ? ? _ R; inversion R; subst. assumption.
    + intros H; inversion H; subst. repeat split.
      intros ? ? _ R; inversion R; subst. discriminate.
  - intros H; inversion H; subst. unfold setRenderTSTransform.
    destruct (_ && _); [repeat split; discriminate|]. cbn.
    destruct (renderer_ p); repeat split; discriminate.
  - intros H; inversion H; subst. unfold setRenderVolume.
    destruct (_ =? _); [repeat split; discriminate|]. cbn.
    destruct (renderer_ p); repeat split; discriminate.
  - destruct (queueToRenderer env p decoded_sample) eqn:Q; cbn; [|discriminate].
    intros H; inversion H; subst.
    destruct (queueToRenderer_fields _ _ _ Q) as (_ & S & D & I).
    repeat split; try assumption; discriminate.
  - intros H; inversion H; subst.
    destruct (stopAndCleanupRenderer_fields p) as (_ & S & D & I & _).
    repeat split; try assumption; discriminate.
Qed.

Lemma calls_keep_terminal cs : forall p p' rs,
  thread_status_ p <> OK ->
  decoder_ p <> None ->
  forallb (fun c => negb (is_Shutdown c)) cs = true ->
  calls p cs = Ok (p', rs) ->
  thread_status_ p' = thread_status_ p /\ in_queue_ p' = in_queue_ p /\
  Forall (fun r => r <> OK) rs.
Proof.
  induction cs as [|c cs IH]; intros p p' rs Hs Hd Hall; cbn [calls].
  - intros H; inversion H; subst. repeat split. constructor.
  - cbn [forallb] in Hall. apply andb_true_iff in Hall. destruct Hall as [Hc Hall].
    apply negb_true_iff in Hc.
    destruct (call p c) as [[p1 r]|] eqn:Hcall; cbn [bind]; [|discriminate].
    destruct (call_keeps_terminal _ _ Hs Hd Hc Hcall) as (S1 & D1 & I1 & R1).
    destruct (calls p1 cs) as [[p2 rs2]|] eqn:Hcalls; cbn [bind]; [|discriminate].
    assert (Hs1 : thread_status_ p1 <> OK) by congruence.
    assert (Hd1 : decoder_ p1 <> None) by congruence.
    destruct (IH _ _ _ Hs1 Hd1 Hall Hcalls) as (S2 & I2 & F2).
    destruct c; destruct r; intros H; inversion H; subst;
      (split; [congruence|]); (split; [congruence|]); try assumption.
    constructor; [|assumption]. eapply R1; reflexivity.
Qed.

(** C1.  The worker loop over any sequence of decode-step outcomes: while it
    goes on, its two counters are the numbers of failed steps, and of failed
    steps that took at least 1,000,000 microseconds, since the last step that
    produced output (such a step resets both to zero), and both are below
    their ceilings of 60 and 3; as soon as one of them reaches its ceiling the
    loop has been left by [break] with the failing step's status recorded in
    [thread_status_], the thread has returned, and from then on every
    [queueForDecode] fails, whatever else is called short of [shutdown]. *)
Theorem error_budget_is_terminal p ds p' c' returned :
  exitPending (thread_ p) = false ->
  workThread p OK ds = Ok (p', c', returned) ->
  (returned = false /\
   consecutive_errors c' = tally step_failed 0 ds /\
   consecutive_long_errors c' = tally step_failed_long 0 ds /\
   (forall pre post, ds = pre ++ post ->
      tally step_failed 0 pre < kMaxErrorsBeforeFatal /\
      tally step_failed_long 0 pre < kMaxLongErrorsBeforeFatal))
  \/
  (returned = true /\
   exists pre d post,
     ds = pre ++ d :: post /\
     (tally step_failed 0 (pre ++ [d]) = kMaxErrorsBeforeFatal \/
      tally step_failed_long 0 (pre ++ [d]) = kMaxLongErrorsBeforeFatal) /\
     thread_status_ p' = ds_res d /\ ds_res d <> OK /\
     running (thread_ p') = false /\
     forall cs p'' rs,
       forallb (fun c => negb (is_Shutdown c)) cs = true ->
       calls p' cs = Ok (p'', rs) ->
       Forall (fun r => r <> OK) rs /\ in_queue_ p'' = in_queue_ p').
Proof.
  intros Hx. unfold workThread.
  destruct (decoder_ p) as [dec|] eqn:Hdec; [|discriminate].
  destruct (format_ p); [|discriminate].
  cbn [thread_status_ set_thread_status_].
  replace (OK =? OK) with true by reflexivity. cbn [negb].
  destruct (workThread_loop (set_thread_status_ OK p) (mkCounters 0 0) ds)
    as [[[p1 c1] ctl]|] eqn:Hloop; cbn [bind]; [|discriminate].
  assert (Hx' : exitPending (thread_ (set_thread_status_ OK p)) = false) by exact Hx.
  assert (He0 : 0 <= consecutive_errors (mkCounters 0 0) < 60) by (cbn; lia).
  assert (Hl0 : 0 <= consecutive_long_errors (mkCounters 0 0) < 3) by (cbn; lia).
  destruct (workThread_loop_spec _ _ _ Hx' He0 Hl0 Hloop) as (D & Hc).
  cbn [consecutive_errors consecutive_long_errors] in Hc.
  destruct Hc as [(-> & E & L & S & Pre)
                 | (-> & pre & d & post & -> & F & Hr & E & L & S)].
  - intros H; inversion H; subst; clear H. left.
    repeat split; try assumption;
      unfold kMaxErrorsBeforeFatal, kMaxLongErrorsBeforeFatal;
      apply (Pre pre post); assumption.
  - intros H; inversion H; subst; clear H. right. split; [reflexivity|].
    exists pre, d, post.
    pose proof (step_failed_not_OK _ F) as Hne.
    destruct (stopAndCleanupRenderer_fields p1) as (_ & S1 & D1 & _).
    split; [reflexivity|]. split; [exact Hr|].
    split; [cbn; congruence|]. split; [exact Hne|]. split; [reflexivity|].
    intros cs p'' rs Hall Hcalls.
    assert (Hs : thread_status_ (thread_exit (stopAndCleanupRenderer p1)) <> OK)
      by (cbn; congruence).
    assert (Hd : decoder_ (thread_exit (stopAndCleanupRenderer p1)) <> None).
    { cbn. rewrite D1, D. cbn. rewrite Hdec. discriminate. }
    destruct (calls_keep_terminal _ _ Hs Hd Hall Hcalls) as (_ & I & Fa).
    split; assumption.
Qed.

(** Sixty failed decode steps of 10 microseconds each: the sixtieth ends the
    loop, and a later [queueForDecode] returns the recorded status. *)
Lemma error_budget_is_terminal_witness :
  let p := set_format_ (Some MetaData_new)
             (set_decoder_ (Some (mkOMXCodec MetaData_new)) new) in
  let ds := repeat (mkDecodeStep (-1) None 10 (mkRenderEnv true OK OK OK OK)) 60 in
  let b := mkMediaBuffer [] MetaData_new in
  exitPending (thread_ p) = false /\
  exists p' c',
    workThread p OK ds = Ok (p', c', true) /\
    forall p'' rs,
      calls p' [SetRenderVolume 7; QueueForDecode (Some b)] = Ok (p'', rs) ->
      Forall (fun r => r <> OK) rs /\ in_queue_ p'' = in_queue_ p'.
Proof.
  intros p ds b. split; [reflexivity|].
  destruct (workThread p OK ds) as [[[p' c'] r]|] eqn:H; [|vm_compute in H; discriminate].
  assert (Hr : r = true) by (vm_compute in H; inversion H; reflexivity).
  subst r. exists p', c'. split; [reflexivity|].
  destruct (error_budget_is_terminal p ds eq_refl H)
    as [(Hf & _) | (_ & pre & d & post & _ & _ & _ & _ & _ & Hcalls)].
  - discriminate Hf.
  - intros p'' rs. apply Hcalls. reflexivity.
Defined.

(** ** init *)

(** C5, the part the code does not keep: when [OMXCodec::Create] returns
    NULL, or [thread_->run] fails, [init] logs the failure, releases the
    decoder and the format, and returns OK. *)
Theorem init_reports_OK_when_engine_construction_fails create run_res p m ch sr :
  decoder_ p = None ->
  thread_status_ p = OK ->
  kKeyChannelCount m = Some ch ->
  kKeySampleRate m = Some sr ->
  create m = false \/ run_res <> OK ->
  exists p',
    init create run_res p (Some m) = Ok (OK, p') /\
    decoder_ p' = None /\ format_ p' = None /\ running (thread_ p') = running (thread_ p).
Proof.
  intros Hd Hs Hch Hsr Hfail. unfold init. rewrite Hd, Hch, Hsr.
  cbn [thread_status_ set_format_sample_rate_ set_format_channels_]. rewrite Hs.
  replace (OK =? OK) with true by reflexivity. cbn [negb].
  destruct (create m) eqn:Hc.
  - destruct Hfail as [?|Hrun]; [discriminate|].
    apply Z.eqb_neq in Hrun. rewrite Hrun. cbn [negb].
    rewrite Hrun. cbn [negb]. eexists. split; [reflexivity|]. repeat split.
  - replace (UNKNOWN_ERROR =? OK) with false by reflexivity. cbn [negb].
    eexists. split; [reflexivity|]. repeat split.
Qed.

Lemma init_reports_OK_when_engine_construction_fails_witness :
  let m := mkMetaData (Some MEDIA_MIMETYPE_AUDIO_MPEG) None (Some 2) (Some 44100) None in
  exists p', init (fun _ => false) OK new (Some m) = Ok (OK, p') /\
             decoder_ p' = None /\ format_ p' = None /\
             running (thread_ p') = running (thread_ new).
Proof.
  intros m.
  apply (@init_reports_OK_when_engine_construction_fails (fun _ => false) OK new m 2 44100);
    try reflexivity.
  left. reflexivity.
Defined.

(** The parts of C5 the code keeps: a second [init] changes nothing and
    returns OK; a missing format or a format without channel count or sample
    rate is answered with BAD_VALUE. *)
Lemma init_idempotent_and_invalid_argument create run_res p :
  (forall params, decoder_ p <> None -> init create run_res p params = Ok (OK, p)) /\
  (decoder_ p = None ->
   (exists p', init create run_res p None = Ok (BAD_VALUE, p')) /\
   forall m, kKeyChannelCount m = None \/ kKeySampleRate m = None ->
             exists p', init create run_res p (Some m) = Ok (BAD_VALUE, p')).
Proof.
  unfold init. split.
  - intros params Hd. destruct (decoder_ p); [reflexivity|congruence].
  - intros ->. split; [eexists; reflexivity|].
    intros m [H|H].
    + rewrite H. eexists; reflexivity.
    + rewrite H. destruct (kKeyChannelCount m); eexists; reflexivity.
Qed.

(** ** read *)

Lemma read_cases p :
  read p =
  if exitPending (thread_ p) then Ok (Returns INVALID_OPERATION None p)
  else match in_queue_ p with
       | [] => Ok Waits
       | b :: q => Ok (Returns OK (Some b) (set_in_queue_ q p))
       end.
Proof.
  unfold read. destruct (exitPending (thread_ p)); cbn.
  - reflexivity.
  - destruct (in_queue_ p); reflexivity.
Qed.

Lemma queue_calls_fifo cs : forall p p' accepted pulled,
  queue_calls p cs = Ok (p', accepted, pulled) ->
  pulled ++ in_queue_ p' = in_queue_ p ++ accepted.
Proof.
  induction cs as [|[b|] cs IH]; intros p p' accepted pulled; cbn [queue_calls].
  - intros H; inversion H; subst. cbn. rewrite app_nil_r. reflexivity.
  - unfold queueForDecode.
    destruct (negb (thread_status_ p =? OK)) eqn:E.
    + destruct (queue_calls p cs) as [[[p1 a1] u1]|] eqn:Hq; cbn [bind]; [|discriminate].
      intros H; inversion H; subst.
      apply negb_true_iff in E. rewrite E. apply (IH _ _ _ _ Hq).
    + destruct (queue_calls (set_in_queue_ (in_queue_ p ++ [b]) p) cs)
        as [[[p1 a1] u1]|] eqn:Hq; cbn [bind]; [|discriminate].
      intros H; inversion H; subst.
      replace (OK =? OK) with true by reflexivity.
      rewrite (IH _ _ _ _ Hq). cbn. rewrite <- app_assoc. reflexivity.
  - rewrite read_cases. destruct (exitPending (thread_ p)); cbn [bind].
    + destruct (queue_calls p cs) as [[[p1 a1] u1]|] eqn:Hq; cbn [bind]; [|discriminate].
      intros H; inversion H; subst. apply (IH _ _ _ _ Hq).
    + destruct (in_queue_ p) as [|b q] eqn:Hin; cbn [bind].
      * intros Hq. rewrite (IH _ _ _ _ Hq), Hin. reflexivity.
      * destruct (queue_calls (set_in_queue_ q p) cs) as [[[p1 a1] u1]|] eqn:Hq;
          cbn [bind]; [|discriminate].
        intros H; inversion H; subst. cbn. rewrite (IH _ _ _ _ Hq). reflexivity.
Qed.

(** C6 as the code has it.  [read] returns the no-more-data status
    (INVALID_OPERATION) whenever exit has been requested, whether or not units
    are pending, and leaves the FIFO as it is; with no exit requested it waits
    while the FIFO is empty and otherwise removes and returns the head.
    Across any sequence of [queueForDecode] and [read] calls the units
    returned, followed by those still pending, are the units pending at the
    start followed by the accepted ones: delivery is in enqueue order. *)
Theorem read_is_fifo_until_exit_requested p :
  (exitPending (thread_ p) = true ->
   read p = Ok (Returns INVALID_OPERATION None p)) /\
  (exitPending (thread_ p) = false ->
   (in_queue_ p = [] -> read p = Ok Waits) /\
   (forall b q, in_queue_ p = b :: q ->
                read p = Ok (Returns OK (Some b) (set_in_queue_ q p)))) /\
  (forall cs p' accepted pulled,
     queue_calls p cs = Ok (p', accepted, pulled) ->
     pulled ++ in_queue_ p' = in_queue_ p ++ accepted).
Proof.
  rewrite read_cases. split; [|split].
  - intros ->. reflexivity.
  - intros ->. split.
    + intros ->. reflexivity.
    + intros b q ->. reflexivity.
  - intros cs. apply queue_calls_fifo.
Qed.

Lemma read_is_fifo_until_exit_requested_witness :
  let b1 := mkMediaBuffer [Byte.x01] MetaData_new in
  let b2 := mkMediaBuffer [Byte.x02] MetaData_new in
  let p := set_in_queue_ [b1; b2] new in
  read p = Ok (Returns OK (Some b1) (set_in_queue_ [b2] p)) /\
  read (requestExit p) = Ok (Returns INVALID_OPERATION None (requestExit p)).
Proof.
  intros b1 b2 p. split.
  - apply (read_is_fifo_until_exit_requested p); reflexivity.
  - apply (read_is_fifo_until_exit_requested (requestExit p)); reflexivity.
Defined.

(** C6 as stated fails: with exit requested and a unit pending, [read] does
    not remove and return the head of the FIFO. *)
Lemma read_keeps_head_when_exit_requested :
  let b := mkMediaBuffer [Byte.x01] MetaData_new in
  let p := requestExit (snd (queueForDecode new (Some b))) in
  exitPending (thread_ p) = true /\ in_queue_ p = [b] /\
  read p = Ok (Returns INVALID_OPERATION None p) /\
  read p <> Ok (Returns OK (Some b) (set_in_queue_ [] p)).
Proof.
  intros b p. repeat split. discriminate.
Qed.

(** ** isAboutToUnderflow *)

(** [last_queued_pts_valid_] is set only by a [queueToRenderer] whose
    [queueTimedBuffer] returned OK. *)
Lemma call_never_queued p c p' r :
  call p c = Ok (p', r) ->
  queued_to_sink c = false ->
  last_queued_pts_valid_ p = false ->
  last_queued_pts_valid_ p' = false.
Proof.
  destruct c; cbn [call queued_to_sink].
  - unfold init. intros H _ V.
    destruct (decoder_ p); [inversion H; subst; exact V|].
    destruct params as [m|]; [|inversion H; subst; exact V].
    destruct (kKeyChannelCount m); [|inversion H; subst; exact V].
    destruct (kKeySampleRate m); [|inversion H; subst; exact V].
    cbn [thread_status_ set_format_sample_rate_ set_format_channels_] in H.
    destruct (negb (thread_status_ p =? OK)); [discriminate|].
    destruct (create m); [destruct (run_res =? OK) eqn:E; try rewrite E in H|];
      cbn in H; inversion H; subst; exact V.
  - unfold queueForDecode. intros H _ V. destruct buf; [|inversion H; subst; exact V].
    destruct (negb (thread_status_ p =? OK)); inversion H; subst; exact V.
  - intros H _ V; inversion H; subst. unfold setRenderTSTransform.
    destruct (_ && _); [exact V|]. cbn. destruct (renderer_ p); exact V.
  - intros H _ V; inversion H; subst. unfold setRenderVolume.
    destruct (_ =? _); [exact V|]. cbn. destruct (renderer_ p); exact V.
  - intros H _ _; inversion H; subst. reflexivity.
  - unfold queueToRenderer. intros H Q V.
    destruct (kKeyTime (mb_meta decoded_sample)); [|discriminate].
    rewrite Q in H.
    destruct (renderer_ p); cbn in H;
      repeat match type of H with
             | context [if ?c then _ else _] => destruct c; cbn in H
             end;
      try discriminate; inversion H; subst; exact V.
  - intros H _ V; inversion H; subst.
    destruct (stopAndCleanupRenderer_fields p) as (_ & _ & _ & _ & L). congruence.
Qed.

Lemma calls_never_queued cs : forall p p' rs,
  calls p cs = Ok (p', rs) ->
  existsb queued_to_sink cs = false ->
  last_queued_pts_valid_ p = false ->
  last_queued_pts_valid_ p' = false.
Proof.
  induction cs as [|c cs IH]; intros p p' rs; cbn [calls existsb].
  - intros H _ V; inversion H; subst; exact V.
  - destruct (call p c) as [[p1 r]|] eqn:Hc; cbn [bind]; [|discriminate].
    destruct (calls p1 cs) as [[p2 rs2]|] eqn:Hcs; cbn [bind]; [|discriminate].
    intros H Q V. apply orb_false_iff in Q. destruct Q as [Q1 Q2].
    assert (p' = p2) by (destruct c; destruct r; inversion H; reflexivity). subst p'.
    eapply IH; eauto. eapply call_never_queued; eauto.
Qed.

(** C7.  [isAboutToUnderflow] returns false when no unit has ever been
    queued to the sink (so on every pump reached from a new one by calls none
    of which queued a unit), when no transform is stored, and when the common
    clock cannot be read; with a queued timestamp, a stored transform, the
    clock at [now] and the timestamp mapped to [deadline], it returns true
    exactly when now + threshold - deadline > 0 (the sums taken in int64:
    exactly when that holds in the integers if they do not overflow). *)
Theorem isAboutToUnderflow_spec fwd p tt_now threshold :
  (last_queued_pts_valid_ p = false \/ last_ts_transform_valid_ p = false \/
   tt_now = None ->
   isAboutToUnderflow fwd p tt_now threshold = false) /\
  (forall cs rs,
     calls new cs = Ok (p, rs) -> existsb queued_to_sink cs = false ->
     isAboutToUnderflow fwd p tt_now threshold = false) /\
  (forall now deadline,
     last_queued_pts_valid_ p = true -> last_ts_transform_valid_ p = true ->
     tt_now = Some now ->
     fwd (last_ts_transform_ p) (last_queued_pts_ p) = Some deadline ->
     isAboutToUnderflow fwd p tt_now threshold =
       (s64 (s64 (now + threshold) - deadline) >? 0) /\
     (- 2 ^ 63 <= now + threshold < 2 ^ 63 ->
      - 2 ^ 63 <= now + threshold - deadline < 2 ^ 63 ->
      (isAboutToUnderflow fwd p tt_now threshold = true <->
       now + threshold - deadline > 0))).
Proof.
  assert (A : last_queued_pts_valid_ p = false \/ last_ts_transform_valid_ p = false \/
              tt_now = None -> isAboutToUnderflow fwd p tt_now threshold = false).
  { unfold isAboutToUnderflow. intros [H|[H|H]]; rewrite H; cbn.
    - reflexivity.
    - rewrite orb_true_r. reflexivity.
    - destruct (_ || _); reflexivity. }
  split; [exact A|]. split.
  - intros cs rs Hcs Hq. apply A. left.
    eapply calls_never_queued; eauto.
  - intros now deadline V1 V2 -> F. unfold isAboutToUnderflow.
    rewrite V1, V2, F. cbn [negb orb]. split; [reflexivity|].
    intros R1 R2. rewrite (s64_small R1), (s64_small R2).
    rewrite Z.gtb_gt. lia.
Qed.

(** A unit with timestamp 1000 was queued, the transform is the identity,
    the clock reads 960 and the threshold is 50: the pump reports underflow. *)
Lemma isAboutToUnderflow_spec_witness :
  let id := mkLinearTransform 0 0 1 1 in
  let p := set_last_queued_pts_ 1000
             (set_last_queued_pts_valid_ true (setRenderTSTransform new id)) in
  isAboutToUnderflow (fun _ x => Some x) p (Some 960) 50 = true /\
  isAboutToUnderflow (fun _ x => Some x) new (Some 960) 50 = false.
Proof.
  intros id p. split.
  - destruct (isAboutToUnderflow_spec (fun _ x => Some x) p (Some 960) 50)
      as (_ & _ & H).
    destruct (H 960 1000 eq_refl eq_refl eq_refl eq_refl) as (_ & H').
    apply H'; cbn; lia.
  - destruct (isAboutToUnderflow_spec (fun _ x => Some x) new (Some 960) 50)
      as (_ & H & _).
    apply (H [] []); reflexivity.
Defined.

End PumpFacts.

(** * Properties of the substream reassembler *)

Module SubstreamFacts.
Import Substream SubstreamSpec.

Lemma u8_range b : 0 <= u8 b < 256.
Proof.
  unfold u8. pose proof (Byte.to_N_bounded b) as H.
  split; [apply N2Z.is_nonneg|]. apply N2Z.inj_le in H. cbn in H. lia.
Qed.

Lemma at8_range buf i : 0 <= at8 buf i < 256.
Proof. apply u8_range. Qed.

Lemma U32_AT_range buf i : 0 <= U32_AT buf i < 2 ^ 32.
Proof.
  unfold U32_AT.
  pose proof (at8_range buf i). pose proof (at8_range buf (i + 1)).
  pose proof (at8_range buf (i + 2)). pose proof (at8_range buf (i + 3)).
  lia.
Qed.

Lemma zlen_nonneg {A} (l : list A) : 0 <= zlen l.
Proof. unfold zlen. lia. Qed.

Lemma cleanup_fields s :
  buffer_in_progress_ (cleanupBufferInProgress s) = None /\
  expected_buffer_size_ (cleanupBufferInProgress s) = 0 /\
  buffer_filled_ (cleanupBufferInProgress s) = 0 /\
  waiting_for_rap_ (cleanupBufferInProgress s) = true /\
  aux_data_in_progress_ (cleanupBufferInProgress s) = [] /\
  aux_data_expected_size_ (cleanupBufferInProgress s) = 0 /\
  status_ (cleanupBufferInProgress s) = status_ s /\
  substream_meta_ (cleanupBufferInProgress s) = substream_meta_ s /\
  decoder_ (cleanupBufferInProgress s) = decoder_ s /\
  substream_details_known_ (cleanupBufferInProgress s) = substream_details_known_ s /\
  substream_type_ (cleanupBufferInProgress s) = substream_type_ s /\
  codec_type_ (cleanupBufferInProgress s) = codec_type_ s /\
  codec_mime_type_ (cleanupBufferInProgress s) = codec_mime_type_ s.
Proof.
  unfold cleanupBufferInProgress. destruct (buffer_in_progress_ s) eqn:E; cbn;
    rewrite ?E; repeat split.
Qed.

Ltac break_if :=
  match goal with
  | |- context [if ?c then _ else _] => destruct c eqn:?
  end.

(** Turns the boolean tests met on a path into facts for [lia]. *)
Ltac bool_facts :=
  repeat match goal with
         | H : (_ <? _) = true |- _ => apply Z.ltb_lt in H
         | H : (_ <? _) = false |- _ => apply Z.ltb_ge in H
         | H : (_ >? _) = true |- _ => rewrite Z.gtb_ltb in H; apply Z.ltb_lt in H
         | H : (_ >? _) = false |- _ => rewrite Z.gtb_ltb in H; apply Z.ltb_ge in H
         | H : (_ >=? _) = true |- _ => rewrite Z.geb_leb in H; apply Z.leb_le in H
         | H : (_ >=? _) = false |- _ => rewrite Z.geb_leb in H; apply Z.leb_gt in H
         | H : (_ <=? _) = true |- _ => apply Z.leb_le in H
         | H : (_ <=? _) = false |- _ => apply Z.leb_gt in H
         | H : (_ =? _) = true |- _ => apply Z.eqb_eq in H
         | H : (_ =? _) = false |- _ => apply Z.eqb_neq in H
         | H : negb _ = true |- _ => apply negb_true_iff in H
         | H : negb _ = false |- _ => apply negb_false_iff in H
         | H : _ && _ = true |- _ => apply andb_true_iff in H; destruct H
         | H : _ || _ = false |- _ => apply orb_false_iff in H; destruct H
         end.

(** Reduces the projections of updated substreams, and nothing else. *)
Ltac sub_simpl :=
  cbn [ssrc_ substream_details_known_ substream_type_ codec_type_ buffer_in_progress_
       expected_buffer_size_ buffer_filled_ waiting_for_rap_ aux_data_in_progress_
       aux_data_expected_size_ status_ codec_mime_type_ substream_meta_ decoder_
       set_substream_details_known_ set_substream_type_ set_codec_type_
       set_buffer_in_progress_ set_expected_buffer_size_ set_buffer_filled_
       set_waiting_for_rap_ set_aux_data_in_progress_ set_aux_data_expected_size_
       set_status_ set_codec_mime_type_ set_substream_meta_ set_decoder_].

Ltac sub_simpl_in H :=
  cbv beta iota zeta in H;
  cbn [ssrc_ substream_details_known_ substream_type_ codec_type_ buffer_in_progress_
       expected_buffer_size_ buffer_filled_ waiting_for_rap_ aux_data_in_progress_
       aux_data_expected_size_ status_ codec_mime_type_ substream_meta_ decoder_
       set_substream_details_known_ set_substream_type_ set_codec_type_
       set_buffer_in_progress_ set_expected_buffer_size_ set_buffer_filled_
       set_waiting_for_rap_ set_aux_data_in_progress_ set_aux_data_expected_size_
       set_status_ set_codec_mime_type_ set_substream_meta_ set_decoder_
       bind andb orb negb] in H.

(** Walks the function unfolded in [H] along each of its paths. *)
Ltac paths H :=
  sub_simpl_in H;
  repeat match type of H with
         | context [if ?c then _ else _] => destruct c eqn:?; sub_simpl_in H
         | context [match decoder_ ?x with _ => _ end] =>
             destruct (decoder_ x) eqn:?; sub_simpl_in H
         end;
  try discriminate H; inversion H; subst; clear H.

Lemma aborted_in_progress_fields s :
  buffer_in_progress_ (aborted_in_progress s) = None /\
  status_ (aborted_in_progress s) = status_ s /\
  substream_meta_ (aborted_in_progress s) = substream_meta_ s /\
  decoder_ (aborted_in_progress s) = decoder_ s /\
  substream_details_known_ (aborted_in_progress s) = substream_details_known_ s /\
  substream_type_ (aborted_in_progress s) = substream_type_ s /\
  codec_type_ (aborted_in_progress s) = codec_type_ s /\
  codec_mime_type_ (aborted_in_progress s) = codec_mime_type_ s /\
  (waiting_for_rap_ s = true -> waiting_for_rap_ (aborted_in_progress s) = true) /\
  (buffer_inv s -> aux_data_in_progress_ (aborted_in_progress s) = []).
Proof.
  unfold aborted_in_progress, buffer_inv.
  destruct (buffer_in_progress_ s) eqn:E.
  - pose proof (cleanup_fields s). intuition.
  - repeat split; auto.
Qed.

(** What the parsing part leaves untouched. *)
Lemma header_frame s buf ts s' r :
  processPayloadStart_header s buf ts = Ok (s', r) ->
  let s0 := aborted_in_progress s in
  buffer_in_progress_ s' = None /\
  status_ s' = status_ s /\
  substream_meta_ s' = substream_meta_ s /\
  codec_mime_type_ s' = codec_mime_type_ s /\
  waiting_for_rap_ s' = waiting_for_rap_ s0 /\
  buffer_filled_ s' = buffer_filled_ s0 /\
  (aux_data_in_progress_ s' = aux_data_in_progress_ s0 \/ aux_data_in_progress_ s' = []) /\
  (decoder_ s' = decoder_ s \/
   exists p v, decoder_ s = Some p /\ decoder_ s' = Some (Pump.setRenderVolume p v)) /\
  (substream_details_known_ s = true ->
   substream_details_known_ s' = true /\ substream_type_ s' = substream_type_ s /\
   codec_type_ s' = codec_type_ s).
Proof.
  intros H s0.
  destruct (aborted_in_progress_fields s) as (B & S & M & D & K & T & C & Mi & _).
  fold s0 in B, S, M, D, K, T, C, Mi.
  unfold processPayloadStart_header in H. fold (aborted_in_progress s) in H.
  fold s0 in H. clearbody s0.
  fold (processPayloadStart_header) in H.
  revert H.
  unfold setupSubstreamType.
  intros H.
  paths H; cbn;
  (split; [assumption|]); (split; [assumption|]); (split; [assumption|]);
  (split; [assumption|]); (split; [reflexivity|]); (split; [reflexivity|]);
  (split; [auto|]);
  (split; [first [left; congruence | right; eauto; rewrite <- D; eauto]|]);
  rewrite <- K; intros; try congruence; repeat split; congruence.
Qed.


Ltac header_fields :=
  unfold header_length_of, aux_length_of, aux_present_of, rap_of, audio_flags_of,
    codec_type_of, volume_of, audio_offset, ts_valid_of, ts_transform_of,
    version_of, header_type_of, total_length_of in *.

(** Folds the constant offsets in the facts gathered on a path. *)
Ltac norm_hyps :=
  repeat match goal with
         | H : context [Z.pos ?a + Z.pos ?b] |- _ =>
             let v := eval compute in (Z.pos a + Z.pos b) in
             change (Z.pos a + Z.pos b) with v in H
         | H : context [Z.pos ?a + 0] |- _ => change (Z.pos a + 0) with (Z.pos a) in H
         | H : context [aux_data_expected_size_ (_ _ _)] |- _ => progress sub_simpl_in H
         | H : context [waiting_for_rap_ (_ _ _)] |- _ => progress sub_simpl_in H
         | H : context [expected_buffer_size_ (_ _ _)] |- _ => progress sub_simpl_in H
         end.

(** Rewrites the flags met on a path and folds the constant offsets. *)
Ltac norm_header :=
  repeat first
    [ match goal with
      | E : flag_set ?a ?b = _ |- context [flag_set ?a ?b] => rewrite E
      end
    | progress cbv beta iota
    | match goal with
      | |- context [Z.pos ?a + Z.pos ?b] =>
          let v := eval compute in (Z.pos a + Z.pos b) in
          change (Z.pos a + Z.pos b) with v
      | |- context [Z.pos ?a + 0] => change (Z.pos a + 0) with (Z.pos a)
      end ].

(** A rejection made before the codec type has been accepted changes
    nothing but a payload that was in progress. *)
Lemma header_early s buf ts s' l :
  processPayloadStart_header s buf ts = Ok (s', Drop l) ->
  early_rejection l = true ->
  s' = aborted_in_progress s.
Proof.
  intros H E.
  unfold processPayloadStart_header in H. fold (aborted_in_progress s) in H.
  set (s0 := aborted_in_progress s) in *. clearbody s0.
  unfold setupSubstreamType in H.
  paths H; try reflexivity; discriminate E.
Qed.

(** A rejection made after the codec type has been accepted comes after the
    kind and the codec have been established and the volume of the fragment
    has been forwarded to the pump. *)
Lemma header_late s buf ts s' l :
  processPayloadStart_header s buf ts = Ok (s', Drop l) ->
  early_rejection l = false ->
  substream_details_known_ s' = true /\
  substream_type_ s' = kHeaderTypeAudio /\
  codec_type_ s' = codec_type_of buf /\
  decoder_ s' =
    option_map (fun p => Pump.setRenderVolume p (volume_of buf)) (decoder_ s).
Proof.
  intros H E.
  destruct (aborted_in_progress_fields s) as (_ & _ & _ & D & _).
  unfold processPayloadStart_header in H. fold (aborted_in_progress s) in H.
  set (s0 := aborted_in_progress s) in *. clearbody s0.
  unfold setupSubstreamType in H.
  paths H; try discriminate E; clear E;
    norm_hyps; header_fields; sub_simpl; norm_header;
    try (rewrite <- D);
    repeat match goal with
           | E : decoder_ _ = _ |- _ => rewrite E
           end;
    cbn [option_map];
    repeat match goal with
           | H : true && _ = _ |- _ => cbn [andb] in H
           | H : false && _ = _ |- _ => clear H
           end;
    bool_facts;
    repeat split; try first [reflexivity | assumption | congruence | (symmetry; assumption)].
Qed.

(** What an accepted header has been checked for, and what it has set. *)
Lemma header_accept s buf ts s' h v t :
  processPayloadStart_header s buf ts = Ok (s', Accept h v t) ->
  let s0 := aborted_in_progress s in
  h = header_length_of buf /\ v = ts_valid_of buf /\
  version_of buf = 1 /\ header_type_of buf = kHeaderTypeAudio /\
  (waiting_for_rap_ s0 = true -> rap_of buf = true) /\
  h <= zlen buf /\ h <= total_length_of buf /\
  aux_data_expected_size_ s' = aux_length_of buf /\
  aux_data_in_progress_ s' =
    (if aux_present_of buf then [] else aux_data_in_progress_ s0) /\
  expected_buffer_size_ s' = u32 (total_length_of buf - h - aux_length_of buf) /\
  expected_buffer_size_ s' <> 0 /\
  u32 (aux_length_of buf + h) <= total_length_of buf /\
  zlen buf - h <= u32 (expected_buffer_size_ s' + aux_data_expected_size_ s') /\
  substream_details_known_ s' = true /\
  substream_type_ s' = kHeaderTypeAudio /\
  codec_type_ s' = codec_type_of buf /\
  (codec_type_ s' = kCodecMPEG1Audio \/ codec_type_ s' = kCodecAACAudio \/
   substream_details_known_ s = true) /\
  decoder_ s' =
    match decoder_ s with
    | Some p => Some (Pump.setRenderVolume p (volume_of buf))
    | None => None
    end.
Proof.
  intros H s0.
  destruct (aborted_in_progress_fields s) as (_ & _ & _ & D & K & T & C & _).
  fold s0 in D, K, T, C.
  unfold processPayloadStart_header in H. fold (aborted_in_progress s) in H.
  fold s0 in H. clearbody s0.
  unfold setupSubstreamType in H.
  paths H;
  norm_hyps; header_fields; sub_simpl; norm_header;
  try (rewrite <- D);
  repeat match goal with
         | E : decoder_ s0 = _ |- _ => rewrite E
         end;
  bool_facts;
  repeat match goal with
         | |- _ /\ _ => split
         | |- _ -> _ => intro
         end;
  try reflexivity; try assumption; try lia; try congruence;
  try (symmetry; assumption);
  try (right; right; congruence);
  try match goal with
      | W : waiting_for_rap_ _ = true, E : (waiting_for_rap_ _ && negb _) = false
        |- flag_set _ _ = true =>
          cbn [waiting_for_rap_ set_decoder_ set_substream_details_known_
               set_codec_type_ set_substream_type_] in E;
          rewrite W in E; apply negb_false_iff in E; exact E
      | E : (_ || _) = true |- _ \/ _ =>
          apply orb_true_iff in E; destruct E; bool_facts;
          [left; assumption | right; left; assumption]
      end.
Qed.


(** ** Lengths *)

Lemma zlen_app {A} (l1 l2 : list A) : zlen (l1 ++ l2) = zlen l1 + zlen l2.
Proof. unfold zlen. rewrite length_app. lia. Qed.

Lemma zlen_firstn {A} n (l : list A) :
  0 <= n <= zlen l -> zlen (firstn (Z.to_nat n) l) = n.
Proof. unfold zlen. intros H. rewrite length_firstn. lia. Qed.

Lemma zlen_skipn {A} n (l : list A) :
  0 <= n <= zlen l -> zlen (skipn (Z.to_nat n) l) = zlen l - n.
Proof. unfold zlen. intros H. rewrite length_skipn. lia. Qed.

Lemma zlen_nil {A} : zlen (@nil A) = 0.
Proof. reflexivity. Qed.

Lemma zlen_repeat {A} (x : A) n : zlen (repeat x n) = Z.of_nat n.
Proof. unfold zlen. rewrite repeat_length. reflexivity. Qed.

Lemma min_spec a b : min a b = Z.min a b.
Proof. unfold min. destruct (a <? b) eqn:E; bool_facts; lia. Qed.

Ltac u32_lia :=
  unfold u32 in *; change (2 ^ 32) with 4294967296 in *;
  Z.div_mod_to_equations; lia.

(** ** processCompletedBuffer *)

Section Completion.

Variable GetMPEGAudioFrameSize : Z -> option (Z * Z).
Variable create : MetaData -> bool.
Variable run_res : status_t.

Let completed := processCompletedBuffer GetMPEGAudioFrameSize create run_res.

(** Every return of [processCompletedBuffer] goes through
    [cleanupBufferInProgress]. *)
Lemma completed_is_cleanup s s' :
  completed s = Ok s' -> exists s'', s' = cleanupBufferInProgress s''.
Proof.
  unfold completed, processCompletedBuffer.
  destruct (buffer_in_progress_ s); [|discriminate].
  destruct (decoder_ s); [|intros H; inversion H; eauto].
  destruct (setupSubstreamMeta GetMPEGAudioFrameSize s) as [[ok s1]|]; cbn [bind];
    [|discriminate].
  destruct ok; cbn [negb]; [|intros H; inversion H; eauto].
  destruct (decoder_ s1); [|intros H; inversion H; eauto].
  destruct (Pump.init create run_res t1 (substream_meta_ s1)) as [[res p]|]; cbn [bind];
    [|discriminate].
  destruct (negb (OK =? res)); [intros H; inversion H; eauto|].
  destruct (Pump.queueForDecode p _) as [res2 p2].
  intros H; inversion H; eauto.
Qed.

(** The CHECKs of [processPayloadCont] are not among those that
    [processCompletedBuffer] can fail. *)
Lemma completed_aborts s c :
  completed s = Aborted c ->
  c <> CHECK_aux_size_le_expected /\ c <> CHECK_buffer_filled_lt_expected.
Proof.
  unfold completed, processCompletedBuffer.
  destruct (buffer_in_progress_ s) eqn:B;
    [|intros H; inversion H; split; discriminate].
  destruct (decoder_ s); [|discriminate].
  destruct (setupSubstreamMeta GetMPEGAudioFrameSize s) as [[ok s1]|c1] eqn:M; cbn [bind].
  - destruct ok; cbn [negb]; [|discriminate].
    destruct (decoder_ s1); [|discriminate].
    destruct (Pump.init create run_res t1 (substream_meta_ s1)) as [[res p]|c2] eqn:I;
      cbn [bind].
    + destruct (negb (OK =? res)); [discriminate|].
      destruct (Pump.queueForDecode p _) as [res2 p2]. discriminate.
    + intros H; inversion H; subst.
      unfold Pump.init in I.
      repeat match type of I with
             | context [match ?x with _ => _ end] => destruct x; try discriminate I
             end;
        inversion I; split; discriminate.
  - intros H; inversion H; subst.
    unfold setupSubstreamMeta, setupMP3SubstreamMeta, setupAACSubstreamMeta in M.
    repeat match type of M with
           | context [match ?x with _ => _ end] => destruct x; try discriminate M
           end;
      inversion M; split; discriminate.
Qed.

End Completion.


(** ** The invariant of the buffer in progress *)

Section Invariant.

Variable GetMPEGAudioFrameSize : Z -> option (Z * Z).

Lemma buffer_inv_cleanup s : buffer_inv (cleanupBufferInProgress s).
Proof.
  unfold buffer_inv. destruct (cleanup_fields s) as (-> & _ & _ & _ & -> & _).
  reflexivity.
Qed.

Lemma completed_inv create run_res s s' :
  processCompletedBuffer GetMPEGAudioFrameSize create run_res s = Ok s' ->
  buffer_inv s' /\ waiting_for_rap_ s' = true.
Proof.
  intros H. destruct (completed_is_cleanup _ _ _ _ H) as (s'' & ->).
  split; [apply buffer_inv_cleanup|apply cleanup_fields].
Qed.

Lemma fill_inv alloc create run_res s1 h v ts buf s' l :
  buffer_in_progress_ s1 = None ->
  aux_data_in_progress_ s1 = [] ->
  0 <= h <= zlen buf ->
  0 <= aux_data_expected_size_ s1 < 2 ^ 32 ->
  0 < expected_buffer_size_ s1 < 2 ^ 32 ->
  zlen buf - h <= u32 (expected_buffer_size_ s1 + aux_data_expected_size_ s1) ->
  (aux_data_expected_size_ s1 + expected_buffer_size_ s1 < 2 ^ 32 \/
   zlen buf - h < aux_data_expected_size_ s1) ->
  processPayloadStart_fill GetMPEGAudioFrameSize alloc create run_res s1 h v ts buf
    = Ok (s', l) ->
  buffer_inv s' /\ (waiting_for_rap_ s1 = true -> waiting_for_rap_ s' = true).
Proof.
  intros B A Hh Ha He Hn Hw. unfold processPayloadStart_fill.
  sub_simpl.
  destruct (alloc (expected_buffer_size_ s1)); cbn [negb].
  2:{ intros H; inversion H; subst. split; [apply buffer_inv_cleanup|].
      intros _. apply cleanup_fields. }
  assert (Hdata : zlen (skipn (Z.to_nat h) buf) = zlen buf - h)
    by (apply zlen_skipn; lia).
  rewrite A. cbn [app].
  destruct (negb (min (aux_data_expected_size_ s1) (zlen buf - h) =? 0)) eqn:E1;
    cbv beta iota zeta; sub_simpl;
    (destruct (min (expected_buffer_size_ s1) _ >? 0) eqn:E2);
    unfold write_buffer; sub_simpl;
    (match goal with
     | |- context [?a >=? ?b] => destruct (a >=? b) eqn:E3
     end);
    try (destruct (processCompletedBuffer _ _ _ _) eqn:C; cbn [bind]; [|discriminate];
         intros H; inversion H; subst;
         destruct (completed_inv _ _ _ C); split; auto);
    intros H; inversion H; subst; clear H;
    (split; [|intros W; exact W]);
    unfold buffer_inv; sub_simpl;
    rewrite ?A, ?zlen_nil, ?min_spec in *; bool_facts;
    try rewrite zlen_firstn by lia;
    u32_lia.
Qed.

Lemma header_length_range buf : 9 <= header_length_of buf <= 41.
Proof.
  unfold header_length_of, audio_offset.
  destruct (ts_valid_of buf), (ts_transform_of buf), (aux_present_of buf); lia.
Qed.

Lemma aux_length_range buf : 0 <= aux_length_of buf < 2 ^ 32.
Proof.
  unfold aux_length_of. destruct (aux_present_of buf); [apply U32_AT_range|lia].
Qed.

Lemma start_inv env s buf ts s' l :
  buffer_inv s ->
  start GetMPEGAudioFrameSize env s buf ts = Ok (s', l) ->
  buffer_inv s' /\ (waiting_for_rap_ s = true -> waiting_for_rap_ s' = true).
Proof.
  intros I. unfold start, processPayloadStart.
  destruct (shouldAbort s); [intros H; inversion H; subst; auto|].
  destruct (processPayloadStart_header s buf ts) as [[s1 r]|] eqn:Hh; cbn [bind];
    [|discriminate].
  destruct (aborted_in_progress_fields s) as (_ & _ & _ & _ & _ & _ & _ & _ & W0 & A0).
  specialize (A0 I).
  destruct (header_frame _ _ _ Hh) as (B & _ & _ & _ & W & _ & Ax & _).
  assert (A1 : aux_data_in_progress_ s1 = [])
    by (destruct Ax as [Ax|Ax]; congruence).
  destruct r as [l'|h v t].
  - intros H; inversion H; subst. split.
    + unfold buffer_inv. rewrite B. exact A1.
    + intros Ws. rewrite W. auto.
  - intros Hf.
    destruct (header_accept _ _ _ Hh)
      as (-> & _ & _ & _ & _ & L1 & L2 & EA & _ & EE & NZ & L3 & L4 & _).
    pose proof (header_length_range buf) as Hr.
    pose proof (aux_length_range buf) as Har.
    pose proof (U32_AT_range buf 2) as Htr. fold (total_length_of buf) in Htr.
    pose proof (u32_range (total_length_of buf - header_length_of buf - aux_length_of buf))
      as Her.
    eapply fill_inv in Hf; try assumption.
    + destruct Hf as [I' W']. split; [exact I'|]. intros Ws. apply W'. rewrite W. auto.
    + lia.
    + rewrite EA. exact Har.
    + rewrite EE in *. lia.
    + rewrite EA, EE in *. clear - L2 L3 L4 Hr Har Htr Her NZ. u32_lia.
Qed.

Lemma cont_inv env s buf s' l :
  buffer_inv s ->
  cont GetMPEGAudioFrameSize env s buf = Ok (s', l) ->
  buffer_inv s' /\ (waiting_for_rap_ s = true -> waiting_for_rap_ s' = true).
Proof.
  intros I. unfold cont, processPayloadCont.
  destruct (shouldAbort s); [intros H; inversion H; subst; auto|].
  unfold buffer_inv in I.
  destruct (buffer_in_progress_ s) as [mb|] eqn:B.
  2:{ intros H; inversion H; subst. unfold buffer_inv. rewrite B. auto. }
  destruct I as (I1 & I2 & I3).
  pose proof (zlen_nonneg (aux_data_in_progress_ s)) as Hz.
  pose proof (zlen_nonneg buf) as Hb.
  destruct (negb (zlen (aux_data_in_progress_ s) <=? aux_data_expected_size_ s)) eqn:C1;
    [discriminate|].
  rewrite (u32_small (x := aux_data_expected_size_ s - zlen (aux_data_in_progress_ s)))
    by lia.
  set (aux_left := aux_data_expected_size_ s - zlen (aux_data_in_progress_ s)) in *.
  rewrite min_spec.
  destruct (negb (aux_left =? 0)) eqn:C2; cbn [andb]; sub_simpl.
  - destruct (zlen buf - Z.min aux_left (zlen buf) =? 0) eqn:C3.
    + intros H; inversion H; subst; clear H. split; [|auto].
      unfold buffer_inv. sub_simpl. rewrite B.
      rewrite zlen_app, zlen_firstn by lia. bool_facts. lia.
    + destruct (negb (buffer_filled_ s <? expected_buffer_size_ s)) eqn:C4;
        [discriminate|].
      rewrite (u32_small (x := expected_buffer_size_ s - buffer_filled_ s)) by lia.
      destruct (_ >? _) eqn:C5.
      { intros H; inversion H; subst. split; [apply buffer_inv_cleanup|].
        intros _. apply cleanup_fields. }
      destruct (zlen buf - Z.min aux_left (zlen buf) >? 0) eqn:C6;
        unfold write_buffer; sub_simpl; rewrite ?B; sub_simpl;
        bool_facts;
        try rewrite (u32_small (x := buffer_filled_ s + _)) by lia;
        (match goal with
         | |- context [?a >=? ?b] => destruct (a >=? b) eqn:C7
         end);
        try (destruct (processCompletedBuffer _ _ _ _) eqn:C; cbn [bind]; [|discriminate];
             intros H; inversion H; subst;
             destruct (completed_inv _ _ _ C); split; auto);
        intros H; inversion H; subst; clear H;
        (split; [|intros W; exact W]);
        unfold buffer_inv; sub_simpl; rewrite ?B;
        rewrite zlen_app, zlen_firstn by lia; bool_facts; lia.
  - destruct (negb (buffer_filled_ s <? expected_buffer_size_ s)) eqn:C4;
      [discriminate|].
    rewrite (u32_small (x := expected_buffer_size_ s - buffer_filled_ s)) by lia.
    replace (zlen buf - 0) with (zlen buf) by lia.
    destruct (_ >? _) eqn:C5.
    { intros H; inversion H; subst. split; [apply buffer_inv_cleanup|].
      intros _. apply cleanup_fields. }
    destruct (zlen buf >? 0) eqn:C6;
      unfold write_buffer; sub_simpl; rewrite ?B; sub_simpl;
      bool_facts;
      try rewrite (u32_small (x := buffer_filled_ s + _)) by lia;
      (match goal with
       | |- context [?a >=? ?b] => destruct (a >=? b) eqn:C7
       end);
      try (destruct (processCompletedBuffer _ _ _ _) eqn:C; cbn [bind]; [|discriminate];
           intros H; inversion H; subst;
           destruct (completed_inv _ _ _ C); split; auto);
      intros H; inversion H; subst; clear H;
      (split; [|intros W; exact W]);
      unfold buffer_inv; sub_simpl; rewrite ?B; bool_facts; lia.
Qed.

(** Under the invariant neither CHECK of [processPayloadCont] fails. *)
Lemma cont_checks_hold env s buf :
  buffer_inv s ->
  cont GetMPEGAudioFrameSize env s buf <> Aborted CHECK_aux_size_le_expected /\
  cont GetMPEGAudioFrameSize env s buf <> Aborted CHECK_buffer_filled_lt_expected.
Proof.
  intros I.
  assert (H : forall c, cont GetMPEGAudioFrameSize env s buf = Aborted c ->
                c <> CHECK_aux_size_le_expected /\
                c <> CHECK_buffer_filled_lt_expected).
  { intros c. unfold cont, processPayloadCont.
    destruct (shouldAbort s); [discriminate|].
    unfold buffer_inv in I.
    destruct (buffer_in_progress_ s) as [mb|] eqn:B; [|discriminate].
    destruct I as (I1 & I2 & I3).
    destruct (negb (zlen (aux_data_in_progress_ s) <=? aux_data_expected_size_ s)) eqn:C1.
    { bool_facts. lia. }
    match goal with
    | |- context [if ?c && ?d then _ else _] => destruct (c && d)
    end; [discriminate|].
    sub_simpl.
    match goal with
    | |- context [if negb (buffer_filled_ ?x <? expected_buffer_size_ ?y) then _ else _] =>
        assert (F : buffer_filled_ x = buffer_filled_ s /\
                    expected_buffer_size_ y = expected_buffer_size_ s)
          by (destruct (negb (_ =? 0)); split; reflexivity);
        destruct F as [-> ->]
    end.
    destruct (negb (buffer_filled_ s <? expected_buffer_size_ s)) eqn:C4.
    { bool_facts. lia. }
    destruct (_ >? _); [discriminate|].
    match goal with
    | |- context [if ?a >=? ?b then _ else _] => destruct (a >=? b)
    end; [|discriminate].
    destruct (processCompletedBuffer _ _ _ _) eqn:C; cbn [bind]; [discriminate|].
    intros H; inversion H; subst. eapply completed_aborts; eauto. }
  split; intros E; destruct (H _ E) as [H1 H2]; congruence.
Qed.

Lemma buffer_inv_decoder s d : buffer_inv (set_decoder_ d s) <-> buffer_inv s.
Proof. unfold buffer_inv. sub_simpl. reflexivity. Qed.

Lemma step_inv s op s' :
  buffer_inv s -> waiting_for_rap_ s = true ->
  step GetMPEGAudioFrameSize s op = Ok s' ->
  buffer_inv s' /\ waiting_for_rap_ s' = true.
Proof.
  intros I W. destruct op; cbn [step].
  - destruct (start _ env s buf ts_lower) as [[s1 l]|] eqn:H; cbn [bind]; [|discriminate].
    intros E; inversion E; subst. destruct (start_inv _ _ _ _ I H). auto.
  - destruct (cont _ env s buf) as [[s1 l]|] eqn:H; cbn [bind]; [|discriminate].
    intros E; inversion E; subst. destruct (cont_inv _ _ _ I H). auto.
  - intros E; inversion E; subst. unfold processTSTransform.
    destruct (decoder_ s); [|auto]. split; [apply buffer_inv_decoder; exact I|exact W].
  - intros E; inversion E; subst. unfold shutdown, cleanupDecoder.
    set (x := cleanupBufferInProgress _).
    assert (Ic : buffer_inv x) by apply buffer_inv_cleanup.
    assert (Wc : waiting_for_rap_ x = true) by apply cleanup_fields.
    clearbody x. destruct (decoder_ x).
    + split; [apply buffer_inv_decoder; exact Ic|exact Wc].
    + split; assumption.
  - intros E; inversion E; subst.
    destruct (decoder_ s); [|auto]. split; [apply buffer_inv_decoder; exact I|exact W].
Qed.

Lemma run_inv ops : forall s s',
  buffer_inv s -> waiting_for_rap_ s = true ->
  run GetMPEGAudioFrameSize s ops = Ok s' ->
  buffer_inv s' /\ waiting_for_rap_ s' = true.
Proof.
  induction ops as [|op ops IH]; intros s s' I W; cbn [run].
  - intros E; inversion E; subst. auto.
  - destruct (step _ s op) as [s1|] eqn:H; cbn [bind]; [|discriminate].
    destruct (step_inv _ _ I W H). apply IH; assumption.
Qed.

Lemma new_inv ssrc : buffer_inv (new ssrc) /\ waiting_for_rap_ (new ssrc) = true.
Proof. split; reflexivity. Qed.

(** C10.  On every substream reached from a new one by calls of
    [processPayloadStart], [processPayloadCont], [processTSTransform] and
    [shutdown], whatever the decoder pump's thread does in between: if a
    buffer is in progress, the aux data gathered is no longer than the
    expected aux size and [buffer_filled_] is below [expected_buffer_size_];
    so the two CHECKs of [processPayloadCont] hold on the next call. *)
Theorem buffer_in_progress_within_bounds ssrc ops s :
  run GetMPEGAudioFrameSize (new ssrc) ops = Ok s ->
  (buffer_in_progress_ s <> None ->
   zlen (aux_data_in_progress_ s) <= aux_data_expected_size_ s /\
   buffer_filled_ s < expected_buffer_size_ s) /\
  forall env buf,
    cont GetMPEGAudioFrameSize env s buf <> Aborted CHECK_aux_size_le_expected /\
    cont GetMPEGAudioFrameSize env s buf <> Aborted CHECK_buffer_filled_lt_expected.
Proof.
  intros H. destruct (new_inv ssrc) as [I0 W0].
  destruct (run_inv _ _ I0 W0 H) as [I _]. split.
  - clear H. unfold buffer_inv in I. destruct (buffer_in_progress_ s).
    + intros _. lia.
    + intros N. exfalso. apply N. reflexivity.
  - intros env buf. apply cont_checks_hold. exact I.
Qed.

Lemma header_drop_log s buf ts s' l :
  processPayloadStart_header s buf ts = Ok (s', Drop l) ->
  l <> Accumulating /\ l <> Completed /\ l <> AllocationFailed.
Proof.
  intros H. unfold processPayloadStart_header, setupSubstreamType in H.
  paths H; repeat split; discriminate.
Qed.

(** C2, the part the code does not keep: the gate [waiting_for_rap_] is
    never cleared.  [processPayloadStart] tests it, but the only assignment
    to it is the one in [cleanupBufferInProgress], which sets it, and which
    the constructor and every completion of a unit run.  So on every
    substream reached from a new one the gate is set, also after
    fragment-starts with the random-access-point flag have been accepted,
    and a fragment-start gets as far as a buffer (in progress, completed, or
    failing to be allocated) only if it carries the flag itself. *)
Theorem rap_gate_is_never_cleared ssrc ops s :
  run GetMPEGAudioFrameSize (new ssrc) ops = Ok s ->
  waiting_for_rap_ s = true /\
  forall env buf ts s' l,
    start GetMPEGAudioFrameSize env s buf ts = Ok (s', l) ->
    l = Accumulating \/ l = Completed \/ l = AllocationFailed ->
    rap_of buf = true.
Proof.
  intros H. destruct (new_inv ssrc) as [I0 W0].
  destruct (run_inv _ _ I0 W0 H) as [I W]. split; [exact W|].
  intros env buf ts s' l. unfold start, processPayloadStart.
  destruct (shouldAbort s).
  { intros E; inversion E; subst. intros [?|[?|?]]; discriminate. }
  destruct (processPayloadStart_header s buf ts) as [[s1 r]|] eqn:Hh; cbn [bind];
    [|discriminate].
  destruct r as [l'|h v t].
  - intros E; inversion E; subst.
    destruct (header_drop_log _ _ _ Hh) as (N1 & N2 & N3).
    intros [E1|[E1|E1]]; exfalso; [apply N1|apply N2|apply N3]; exact E1.
  - intros _ _.
    destruct (header_accept _ _ _ Hh) as (_ & _ & _ & _ & R & _).
    apply R. apply aborted_in_progress_fields. exact W.
Qed.

End Invariant.



(** ** Rejections of malformed fragment-starts *)

Lemma setRenderVolume_fields p v :
  Pump.in_queue_ (Pump.setRenderVolume p v) = Pump.in_queue_ p /\
  Pump.thread_status_ (Pump.setRenderVolume p v) = Pump.thread_status_ p /\
  Pump.decoder_ (Pump.setRenderVolume p v) = Pump.decoder_ p /\
  Pump.format_ (Pump.setRenderVolume p v) = Pump.format_ p /\
  Pump.thread_ (Pump.setRenderVolume p v) = Pump.thread_ p /\
  Pump.last_queued_pts_valid_ (Pump.setRenderVolume p v) = Pump.last_queued_pts_valid_ p /\
  Pump.last_ts_transform_valid_ (Pump.setRenderVolume p v) =
    Pump.last_ts_transform_valid_ p.
Proof.
  unfold Pump.setRenderVolume. destruct (v =? Pump.last_volume_ p); [repeat split|].
  cbn. destruct (Pump.renderer_ p); repeat split.
Qed.

Section Rejections.

Variable GetMPEGAudioFrameSize : Z -> option (Z * Z).

Lemma fill_log alloc create run_res s h v ts buf s' l :
  processPayloadStart_fill GetMPEGAudioFrameSize alloc create run_res s h v ts buf
    = Ok (s', l) ->
  l = AllocationFailed \/ l = Accumulating \/ l = Completed.
Proof.
  unfold processPayloadStart_fill.
  destruct (negb (alloc _)); [intros H; inversion H; auto|].
  cbv zeta.
  destruct (negb (min _ _ =? 0)); cbv beta iota;
    (match goal with
     | |- context [if ?a >=? ?b then _ else _] => destruct (a >=? b)
     end);
    try (destruct (processCompletedBuffer _ _ _ _); cbn [bind]; [|discriminate]);
    intros H; inversion H; auto.
Qed.

(** C8 as the code has it.  A fragment-start rejected as malformed is
    dropped: afterwards no buffer is in progress, and the substream's status
    and metadata, a kind and codec already established, and the pump's queue,
    decode engine and terminal status are as before.  A payload that was in
    progress has been aborted.  The rejections made up to the check of the
    codec type (bad version, buffer or declared length too short for the
    header up to its audio part, unsupported header or codec kind, kind or
    codec mismatch) change nothing else.  The length rejections made after
    that check (declared length or buffer too short for the aux length, aux
    data longer than the declared length allows, no byte of access unit, more
    bytes than declared) come after [setupSubstreamType] and the volume: the
    substream's details are known, its kind is audio and its codec the one
    of the fragment, and the volume of the fragment has been forwarded to the
    pump, if there is one. *)
Theorem malformed_start_is_dropped env s buf ts s' l :
  start GetMPEGAudioFrameSize env s buf ts = Ok (s', l) ->
  malformed_rejection l = true ->
  buffer_in_progress_ s' = None /\
  status_ s' = status_ s /\
  substream_meta_ s' = substream_meta_ s /\
  (substream_details_known_ s = true ->
   substream_details_known_ s' = true /\ substream_type_ s' = substream_type_ s /\
   codec_type_ s' = codec_type_ s) /\
  (decoder_ s' = decoder_ s \/
   exists p p', decoder_ s = Some p /\ decoder_ s' = Some p' /\
     Pump.in_queue_ p' = Pump.in_queue_ p /\
     Pump.thread_status_ p' = Pump.thread_status_ p /\
     Pump.decoder_ p' = Pump.decoder_ p) /\
  (early_rejection l = true -> s' = aborted_in_progress s) /\
  (early_rejection l = false ->
   substream_details_known_ s' = true /\
   substream_type_ s' = kHeaderTypeAudio /\
   codec_type_ s' = codec_type_of buf /\
   decoder_ s' =
     option_map (fun p => Pump.setRenderVolume p (volume_of buf)) (decoder_ s)).
Proof.
  unfold start, processPayloadStart.
  destruct (shouldAbort s); [intros H; inversion H; subst; discriminate|].
  destruct (processPayloadStart_header s buf ts) as [[s1 r]|] eqn:Hh; cbn [bind];
    [|discriminate].
  destruct r as [l'|h v t].
  - intros H M; inversion H; subst.
    destruct (header_frame _ _ _ Hh) as (B & S & Me & _ & _ & _ & _ & D & K).
    split; [exact B|]. split; [exact S|]. split; [exact Me|]. split; [exact K|].
    split.
    + destruct D as [D|(p & v & D1 & D2)]; [left; exact D|].
      right. exists p, (Pump.setRenderVolume p v).
      destruct (setRenderVolume_fields p v) as (Q & T & De & _).
      repeat split; assumption.
    + split; intros E; [eapply header_early; eauto|eapply header_late; eauto].
  - intros H M. apply fill_log in H. destruct H as [ E | [ E | E ] ]; subst l; discriminate M.
Qed.

End Rejections.


(** ** Format changes *)

Lemma bytes_eqb_eq a b : bytes_eqb a b = true <-> a = b.
Proof.
  unfold bytes_eqb. destruct (list_eq_dec Byte.byte_eq_dec a b); split; congruence.
Qed.

Lemma shutdown_fields p :
  Pump.decoder_ (snd (Pump.shutdown p)) = None /\
  Pump.format_ (snd (Pump.shutdown p)) = None /\
  Pump.in_queue_ (snd (Pump.shutdown p)) = [] /\
  Pump.thread_status_ (snd (Pump.shutdown p)) = OK /\
  Pump.last_queued_pts_valid_ (snd (Pump.shutdown p)) = false /\
  Pump.last_ts_transform_valid_ (snd (Pump.shutdown p)) = false /\
  Pump.last_volume_ (snd (Pump.shutdown p)) = 0xFF /\
  Pump.running (Pump.thread_ (snd (Pump.shutdown p))) = false.
Proof.
  unfold Pump.shutdown, Pump.shutdown_l, Pump.requestExitAndWait, Pump.requestExit.
  cbn. destruct (Pump.running (Pump.thread_ p)) eqn:R; cbn; repeat split; exact R.
Qed.

Lemma cleanupDecoder_fields s :
  buffer_in_progress_ (cleanupDecoder s) = buffer_in_progress_ s /\
  substream_meta_ (cleanupDecoder s) = substream_meta_ s /\
  status_ (cleanupDecoder s) = status_ s /\
  aux_data_in_progress_ (cleanupDecoder s) = aux_data_in_progress_ s /\
  codec_type_ (cleanupDecoder s) = codec_type_ s /\
  decoder_ (cleanupDecoder s)
    = option_map (fun p => snd (Pump.shutdown p)) (decoder_ s).
Proof.
  unfold cleanupDecoder. destruct (decoder_ s) eqn:E; repeat split. exact E.
Qed.

Section FormatChange.

Variable GetMPEGAudioFrameSize : Z -> option (Z * Z).

(** C9.  When the codec metadata derived from a completed access unit
    differs from the metadata established before (sample rate or channel
    count, or for AAC the codec-configuration blob), [setupSubstreamMeta]
    shuts the decoder pump down, which releases the decode engine, and
    leaves the derived values as the substream's metadata; when nothing
    differs the metadata and the pump are left as they were. *)
Theorem format_change_tears_down_decoder s m f :
  substream_meta_ s = Some m ->
  kKeySampleRate m <> None ->
  kKeyChannelCount m <> None ->
  derived_format GetMPEGAudioFrameSize s = Some f ->
  exists s',
    setupSubstreamMeta GetMPEGAudioFrameSize s = Ok (true, s') /\
    buffer_in_progress_ s' = buffer_in_progress_ s /\
    (format_differs (codec_type_ s) m f ->
     decoder_ s' = option_map (fun p => snd (Pump.shutdown p)) (decoder_ s) /\
     (forall p', decoder_ s' = Some p' ->
        Pump.decoder_ p' = None /\ Pump.format_ p' = None) /\
     exists m', substream_meta_ s' = Some m' /\
                ~ format_differs (codec_type_ s) m' f) /\
    (~ format_differs (codec_type_ s) m f ->
     substream_meta_ s' = Some m /\ decoder_ s' = decoder_ s).
Proof.
  intros M Hsr Hch. unfold derived_format, setupSubstreamMeta.
  destruct (kKeySampleRate m) as [psr|] eqn:Esr; [|congruence].
  destruct (kKeyChannelCount m) as [pch|] eqn:Ech; [|congruence].
  assert (Hdown : forall x, decoder_ (cleanupDecoder x)
                            = option_map (fun p => snd (Pump.shutdown p)) (decoder_ x)).
  { intros x. unfold cleanupDecoder. destruct (decoder_ x) eqn:E; [reflexivity|].
    rewrite E. reflexivity. }
  assert (Hnone : forall x p',
            option_map (fun p => snd (Pump.shutdown p)) (decoder_ x) = Some p' ->
            Pump.decoder_ p' = None /\ Pump.format_ p' = None).
  { intros x p'. destruct (decoder_ x); [|discriminate].
    intros E; inversion E; subst. split; reflexivity. }
  destruct (codec_type_ s =? kCodecMPEG1Audio) eqn:C1.
  - (* MP3 *)
    unfold setupMP3SubstreamMeta. sub_simpl.
    destruct (buffer_in_progress_ s) as [mb|] eqn:B; [|discriminate].
    destruct (4 <=? zlen (mb_data mb)) eqn:L; [|discriminate].
    replace (zlen (mb_data mb) <? 4) with false by (symmetry; bool_facts; lia).
    destruct (GetMPEGAudioFrameSize (U32_AT (mb_data mb) 0)) as [[sr ch]|];
      [|discriminate].
    intros F; inversion F; subst; clear F. rewrite M, Esr, Ech.
    unfold format_differs. bool_facts.
    destruct (negb (pch =? ch) || negb (psr =? sr)) eqn:D.
    + eexists. split; [reflexivity|]. sub_simpl.
      split; [etransitivity; [apply cleanupDecoder_fields|first [exact B|reflexivity]]|].
      split.
      * intros _. rewrite Hdown. sub_simpl. split; [reflexivity|].
        split; [apply (Hnone (set_codec_mime_type_ MEDIA_MIMETYPE_AUDIO_MPEG s))|].
        eexists. split; [reflexivity|]. cbn.
        intros [N|[N|[N _]]]; unfold kCodecAACAudio, kCodecMPEG1Audio in *; congruence.
      * intros N. exfalso. apply N. apply orb_true_iff in D.
        destruct D as [D|D]; bool_facts; [right; left|left]; congruence.
    + eexists. split; [reflexivity|]. sub_simpl. split; [exact B|].
      apply orb_false_iff in D. destruct D as [D1 D2]. bool_facts. subst.
      split; [|auto].
      intros [N|[N|[N _]]]; unfold kCodecAACAudio, kCodecMPEG1Audio in *; congruence.
  - (* AAC *)
    destruct (codec_type_ s =? kCodecAACAudio) eqn:C2; [|discriminate].
    unfold setupAACSubstreamMeta. sub_simpl.
    destruct (8 <=? zlen (aux_data_in_progress_ s)) eqn:L; [|discriminate].
    replace (zlen (aux_data_in_progress_ s) <? 4 + 4) with false
      by (symmetry; bool_facts; lia).
    intros F; inversion F; subst; clear F. rewrite M, Esr, Ech.
    change (4 + 4) with 8. rewrite Z.gtb_ltb.
    set (esds := if 8 <? zlen (aux_data_in_progress_ s) then _ else None).
    set (sr := s32 (U32_AT (aux_data_in_progress_ s) 0)).
    set (ch := s32 (U32_AT (aux_data_in_progress_ s) 4)).
    set (esds_change := match kKeyESDS m with
                        | Some data => match esds with
                                       | Some e => _
                                       | None => true
                                       end
                        | None => match esds with Some _ => true | None => false end
                        end).
    assert (Hesds : esds_change = false <-> kKeyESDS m = esds).
    { subst esds_change. destruct (kKeyESDS m) as [d|], esds as [e|];
        try (split; congruence).
      destruct (bytes_eqb d e) eqn:B.
      - apply bytes_eqb_eq in B. subst. rewrite Z.eqb_refl. cbn. split; reflexivity.
      - rewrite orb_true_r. split; [discriminate|].
        intros E; inversion E; subst.
        assert (bytes_eqb e e = true) by (apply bytes_eqb_eq; reflexivity). congruence. }
    unfold format_differs. apply Z.eqb_eq in C2.
    destruct (negb esds_change && (psr =? sr) && (pch =? ch)) eqn:D.
    + eexists. split; [reflexivity|]. sub_simpl. split; [reflexivity|].
      apply andb_true_iff in D. destruct D as [D D3].
      apply andb_true_iff in D. destruct D as [D1 D2].
      apply negb_true_iff in D1. apply Hesds in D1. bool_facts. subst psr pch.
      split; [|auto].
      intros [N|[N|[_ N]]]; congruence.
    + eexists. split; [reflexivity|]. sub_simpl.
      split; [etransitivity; [apply cleanupDecoder_fields|first [exact B|reflexivity]]|].
      split.
      * intros _. rewrite Hdown. sub_simpl. split; [reflexivity|].
        split; [apply (Hnone (set_codec_mime_type_ MEDIA_MIMETYPE_AUDIO_AAC s))|].
        eexists. split; [reflexivity|]. cbn.
        intros [N|[N|[_ N]]]; congruence.
      * intros N. exfalso. apply N.
        destruct esds_change eqn:Ec.
        -- right. right. split; [exact C2|]. intros E. apply Hesds in E. congruence.
        -- cbn in D. apply andb_false_iff in D.
           destruct D as [D|D]; bool_facts; [left|right; left]; congruence.
Qed.

End FormatChange.


(** ** Reassembly *)

Lemma skipn_header (hdr x : list byte) :
  skipn (Z.to_nat (zlen hdr)) (hdr ++ x) = x.
Proof.
  unfold zlen. rewrite Nat2Z.id, skipn_app, skipn_all, Nat.sub_diag. reflexivity.
Qed.

Lemma firstn_min {A} a (x : list A) :
  0 <= a -> firstn (Z.to_nat (Z.min a (zlen x))) x = firstn (Z.to_nat a) x.
Proof.
  intros Ha. destruct (Z.le_gt_cases a (zlen x)).
  - rewrite Z.min_l by lia. reflexivity.
  - rewrite Z.min_r by lia. unfold zlen in *. rewrite Nat2Z.id.
    rewrite firstn_all. symmetry. apply firstn_all2. lia.
Qed.

Lemma skipn_min {A} a (x : list A) :
  0 <= a -> skipn (Z.to_nat (Z.min a (zlen x))) x = skipn (Z.to_nat a) x.
Proof.
  intros Ha. destruct (Z.le_gt_cases a (zlen x)).
  - rewrite Z.min_l by lia. reflexivity.
  - rewrite Z.min_r by lia. unfold zlen in *. rewrite Nat2Z.id.
    rewrite skipn_all. symmetry. apply skipn_all2. lia.
Qed.

Lemma skipn_repeat {A} (x : A) k n : skipn k (repeat x n) = repeat x (n - k).
Proof.
  revert k. induction n as [|n IH]; intros k.
  - destruct k; reflexivity.
  - destruct k as [|k]; [reflexivity|]. cbn. apply IH.
Qed.

(** Writing [b] behind the [p] bytes already in a zero-filled buffer. *)
Lemma memcpy_behind p b k :
  (List.length b <= k)%nat ->
  memcpy (p ++ repeat Byte.x00 k) (zlen p) b
  = (p ++ b) ++ repeat Byte.x00 (k - List.length b).
Proof.
  intros Hb. unfold memcpy, zlen. rewrite Nat2Z.id.
  rewrite firstn_app, firstn_all, Nat.sub_diag. cbn [firstn]. rewrite app_nil_r.
  rewrite skipn_app, skipn_all2 by lia. cbn [app].
  replace (List.length p + List.length b - List.length p)%nat with (List.length b) by lia.
  rewrite skipn_repeat, <- app_assoc. reflexivity.
Qed.

Lemma t_ext (a b : t) :
  ssrc_ a = ssrc_ b -> substream_details_known_ a = substream_details_known_ b ->
  substream_type_ a = substream_type_ b -> codec_type_ a = codec_type_ b ->
  buffer_in_progress_ a = buffer_in_progress_ b ->
  expected_buffer_size_ a = expected_buffer_size_ b ->
  buffer_filled_ a = buffer_filled_ b -> waiting_for_rap_ a = waiting_for_rap_ b ->
  aux_data_in_progress_ a = aux_data_in_progress_ b ->
  aux_data_expected_size_ a = aux_data_expected_size_ b ->
  status_ a = status_ b -> codec_mime_type_ a = codec_mime_type_ b ->
  substream_meta_ a = substream_meta_ b -> decoder_ a = decoder_ b ->
  a = b.
Proof.
  destruct a, b; cbn; intros; subst; reflexivity.
Qed.

Lemma at8_app hdr x i : 0 <= i < zlen hdr -> at8 (hdr ++ x) i = at8 hdr i.
Proof.
  intros H. unfold at8. rewrite app_nth1; [reflexivity|]. unfold zlen in H. lia.
Qed.

Lemma U32_AT_app hdr x i :
  0 <= i -> i + 3 < zlen hdr -> U32_AT (hdr ++ x) i = U32_AT hdr i.
Proof.
  intros H0 H. unfold U32_AT. rewrite !at8_app by lia. reflexivity.
Qed.

(** Bytes behind a complete header change nothing in its parsing, as long
    as the declared total length covers them. *)
Lemma header_trailing s hdr x ts :
  zlen hdr = header_length_of hdr ->
  zlen x <= total_length_of hdr - zlen hdr ->
  processPayloadStart_header s (hdr ++ x) ts = processPayloadStart_header s hdr ts.
Proof.
  intros L X.
  pose proof (header_length_range hdr) as Hr.
  pose proof (zlen_nonneg x) as Hx0.
  pose proof (U32_AT_range hdr 2) as Ht.
  unfold processPayloadStart_header. rewrite zlen_app.
  rewrite (@at8_app hdr x 0), (@at8_app hdr x 1), (@U32_AT_app hdr x 2) by lia.
  header_fields.
  destruct (flag_set (at8 hdr 1) kFlag_TSValid) eqn:V;
    destruct (flag_set (at8 hdr 1) kFlag_TSTransformPresent) eqn:TT;
    cbv beta iota zeta in L |- *; norm_hyps; norm_header;
    (match type of L with
     | context [flag_set ?a ?b] => destruct (flag_set a b) eqn:AX
     end);
    cbv beta iota zeta in L; norm_hyps;
    repeat (rewrite at8_app by lia); repeat (rewrite U32_AT_app by lia);
    rewrite ?AX; cbv beta iota zeta; norm_header;
    repeat (rewrite at8_app by lia); repeat (rewrite U32_AT_app by lia);
    rewrite L in *; unfold setupSubstreamType; sub_simpl.
  all: repeat match goal with
         | |- context [if ?c then _ else _] => destruct c eqn:?; sub_simpl
         end.
  all: try reflexivity.
  all: exfalso; norm_hyps; bool_facts.
  all: try lia.
  all: try u32_lia.
Qed.

Section Reassembly.

Variable GetMPEGAudioFrameSize : Z -> option (Z * Z).
Variable env : Env.

Let completed :=
  processCompletedBuffer GetMPEGAudioFrameSize (env_create env) (env_run env).

(** The fragment-start's bytes behind an accepted header. *)
Lemma fill_accumulates s1 hdr v ts x :
  aux_data_in_progress_ s1 = [] ->
  env_alloc env (expected_buffer_size_ s1) = true ->
  0 <= aux_data_expected_size_ s1 ->
  0 < expected_buffer_size_ s1 ->
  zlen x <= aux_data_expected_size_ s1 + expected_buffer_size_ s1 ->
  processPayloadStart_fill GetMPEGAudioFrameSize (env_alloc env) (env_create env)
    (env_run env) s1 (zlen hdr) v ts (hdr ++ x)
  = if zlen x <? aux_data_expected_size_ s1 + expected_buffer_size_ s1
    then Ok (accumulated s1 v ts x, Accumulating)
    else s' <- completed (accumulated s1 v ts x) ;; Ok (s', Completed).
Proof.
  intros A Hal Ha He Hx. unfold processPayloadStart_fill. sub_simpl.
  rewrite Hal. cbn [negb]. rewrite A. cbn [app].
  rewrite skipn_header, zlen_app.
  replace (zlen hdr + zlen x - zlen hdr) with (zlen x) by lia.
  rewrite !min_spec.
  pose proof (zlen_nonneg x) as Hx0.
  set (na := Z.min (aux_data_expected_size_ s1) (zlen x)).
  assert (Hpay : zlen (skipn (Z.to_nat (aux_data_expected_size_ s1)) x) = zlen x - na).
  { subst na. rewrite <- (skipn_min x Ha). rewrite zlen_skipn by lia. reflexivity. }
  assert (Hacc : forall s2 : t,
     ssrc_ s2 = ssrc_ s1 -> substream_details_known_ s2 = substream_details_known_ s1 ->
     substream_type_ s2 = substream_type_ s1 -> codec_type_ s2 = codec_type_ s1 ->
     buffer_in_progress_ s2 =
       buffer_in_progress_ (accumulated s1 v ts x) ->
     expected_buffer_size_ s2 = expected_buffer_size_ s1 ->
     buffer_filled_ s2 = zlen x - na ->
     waiting_for_rap_ s2 = waiting_for_rap_ s1 ->
     aux_data_in_progress_ s2 = firstn (Z.to_nat na) x ->
     aux_data_expected_size_ s2 = aux_data_expected_size_ s1 ->
     status_ s2 = status_ s1 -> codec_mime_type_ s2 = codec_mime_type_ s1 ->
     substream_meta_ s2 = substream_meta_ s1 -> decoder_ s2 = decoder_ s1 ->
     s2 = accumulated s1 v ts x).
  { intros s2 ? ? ? ? ? ? F ? Ax ? ? ? ? ?. apply t_ext; try assumption.
    - rewrite F. unfold accumulated. sub_simpl. symmetry. exact Hpay.
    - rewrite Ax. subst na. unfold accumulated. sub_simpl. apply firstn_min. exact Ha. }
  assert (Hdata : forall src n,
     src = skipn (Z.to_nat na) x -> n = zlen x - na ->
     Some (mkMediaBuffer
             (memcpy (repeat Byte.x00 (Z.to_nat (expected_buffer_size_ s1))) 0
                     (firstn (Z.to_nat (Z.min (expected_buffer_size_ s1) n)) src))
             (mkMetaData (Some (codec_mime_type_ s1)) (if v then Some ts else None)
                         None None None))
     = buffer_in_progress_ (accumulated s1 v ts x)).
  { intros src n -> ->. unfold accumulated. sub_simpl. do 2 f_equal.
    subst na. rewrite skipn_min by exact Ha.
    set (pay := skipn (Z.to_nat (aux_data_expected_size_ s1)) x) in *.
    rewrite Z.min_r by lia. rewrite <- Hpay. unfold zlen. rewrite Nat2Z.id, firstn_all.
    change (repeat Byte.x00 (Z.to_nat (expected_buffer_size_ s1)))
      with (@nil byte ++ repeat Byte.x00 (Z.to_nat (expected_buffer_size_ s1))).
    change 0 with (zlen (@nil byte)).
    rewrite memcpy_behind; [reflexivity|]. unfold zlen in *. lia. }
  assert (Hzero : zlen x - na <= 0 ->
     Some (mkMediaBuffer
             (repeat Byte.x00 (Z.to_nat (expected_buffer_size_ s1)))
             (mkMetaData (Some (codec_mime_type_ s1)) (if v then Some ts else None)
                         None None None))
     = buffer_in_progress_ (accumulated s1 v ts x)).
  { intros Hz. unfold accumulated. sub_simpl. do 2 f_equal.
    destruct (skipn (Z.to_nat (aux_data_expected_size_ s1)) x) as [|b0 pay] eqn:Ep.
    - cbn. rewrite Nat.sub_0_r. reflexivity.
    - exfalso. unfold zlen in Hpay, Hz. cbn [List.length] in Hpay. lia. }
  destruct (negb (na =? 0)) eqn:E1; cbv beta iota zeta; sub_simpl;
    rewrite ?min_spec;
    (match goal with
     | |- context [if Z.min ?a ?b >? 0 then _ else _] =>
         destruct (Z.min a b >? 0) eqn:E2
     end);
    unfold write_buffer; sub_simpl; bool_facts.
  all: match goal with
       | |- (if ?f >=? ?e then _ else _) = (if ?n <? ?b then _ else _) =>
           replace (f >=? e) with (negb (n <? b))
             by (rewrite Z.geb_leb; destruct (n <? b) eqn:?, (e <=? f) eqn:?;
                 bool_facts; try reflexivity; lia)
       end.
  all: destruct (zlen x <? _) eqn:E3; cbn [negb]; unfold completed.
  all: repeat f_equal.
  all: apply Hacc; sub_simpl; try reflexivity; try lia.
  all: cbn [mb_data mb_meta].
  all: try (apply Hdata; [try rewrite E1; reflexivity|lia]).
  all: try (apply Hzero; lia).
  all: try (rewrite zlen_skipn by lia; reflexivity).
  all: try (rewrite A, E1; reflexivity).
Qed.

(** A continuation on a substream that has received [c]. *)
Lemma cont_accumulates s1 v ts c f :
  status_ s1 = OK ->
  0 <= aux_data_expected_size_ s1 < 2 ^ 32 ->
  0 < expected_buffer_size_ s1 < 2 ^ 32 ->
  zlen c < aux_data_expected_size_ s1 + expected_buffer_size_ s1 ->
  zlen c + zlen f <= aux_data_expected_size_ s1 + expected_buffer_size_ s1 ->
  if zlen c + zlen f <? aux_data_expected_size_ s1 + expected_buffer_size_ s1
  then exists l, cont GetMPEGAudioFrameSize env (accumulated s1 v ts c) f
                 = Ok (accumulated s1 v ts (c ++ f), l)
  else cont GetMPEGAudioFrameSize env (accumulated s1 v ts c) f
       = (s' <- completed (accumulated s1 v ts (c ++ f)) ;; Ok (s', Completed)).
Proof.
  intros St Ha He Hc Hcf.
  set (A := aux_data_expected_size_ s1) in *.
  set (E := expected_buffer_size_ s1) in *.
  pose proof (zlen_nonneg c) as Hc0. pose proof (zlen_nonneg f) as Hf0.
  set (k := (Z.to_nat A - List.length c)%nat).
  assert (Hk : Z.of_nat k = A - Z.min A (zlen c)) by (subst k; unfold zlen; lia).
  assert (Laux : zlen (firstn (Z.to_nat A) c) = Z.min A (zlen c)).
  { rewrite <- (firstn_min c) by lia. apply zlen_firstn. lia. }
  assert (Lpay : zlen (skipn (Z.to_nat A) c) = zlen c - Z.min A (zlen c)).
  { rewrite <- (skipn_min c) by lia. apply zlen_skipn. lia. }
  assert (Faux : firstn (Z.to_nat A) (c ++ f)
                 = firstn (Z.to_nat A) c ++ firstn k f) by apply firstn_app.
  assert (Fpay : skipn (Z.to_nat A) (c ++ f)
                 = skipn (Z.to_nat A) c ++ skipn k f) by apply skipn_app.
  assert (Ftodo : firstn (Z.to_nat (Z.min (A - Z.min A (zlen c)) (zlen f))) f = firstn k f).
  { rewrite firstn_min by lia. rewrite <- Hk, Nat2Z.id. reflexivity. }
  assert (Stodo : skipn (Z.to_nat (Z.min (A - Z.min A (zlen c)) (zlen f))) f = skipn k f).
  { rewrite skipn_min by lia. rewrite <- Hk, Nat2Z.id. reflexivity. }
  assert (Lrest : zlen (skipn k f) = zlen f - Z.min (A - Z.min A (zlen c)) (zlen f)).
  { rewrite <- Stodo. apply zlen_skipn. lia. }
  assert (Lnew : zlen (skipn (Z.to_nat A) (c ++ f))
                 = zlen c - Z.min A (zlen c) + zlen (skipn k f)).
  { rewrite Fpay, zlen_app, Lpay. reflexivity. }
  assert (Hacc : forall s2 : t,
     ssrc_ s2 = ssrc_ s1 -> substream_details_known_ s2 = substream_details_known_ s1 ->
     substream_type_ s2 = substream_type_ s1 -> codec_type_ s2 = codec_type_ s1 ->
     buffer_in_progress_ s2 = buffer_in_progress_ (accumulated s1 v ts (c ++ f)) ->
     expected_buffer_size_ s2 = E ->
     buffer_filled_ s2 = zlen c - Z.min A (zlen c) + zlen (skipn k f) ->
     waiting_for_rap_ s2 = waiting_for_rap_ s1 ->
     aux_data_in_progress_ s2 = firstn (Z.to_nat A) c ++ firstn k f ->
     aux_data_expected_size_ s2 = A ->
     status_ s2 = status_ s1 -> codec_mime_type_ s2 = codec_mime_type_ s1 ->
     substream_meta_ s2 = substream_meta_ s1 -> decoder_ s2 = decoder_ s1 ->
     s2 = accumulated s1 v ts (c ++ f)).
  { intros s2 ? ? ? ? ? ? F ? Ax ? ? ? ? ?. apply t_ext; try assumption.
    - rewrite F. unfold accumulated. sub_simpl. fold A. symmetry. exact Lnew.
    - rewrite Ax. unfold accumulated. sub_simpl. fold A. symmetry. exact Faux. }
  assert (Hsame : skipn k f = [] ->
     buffer_in_progress_ (accumulated s1 v ts c)
     = buffer_in_progress_ (accumulated s1 v ts (c ++ f))).
  { intros Z0. unfold accumulated. sub_simpl. fold A E.
    rewrite Fpay, Z0, app_nil_r. reflexivity. }
  assert (Hwrite :
     Some (mkMediaBuffer
             (memcpy (skipn (Z.to_nat A) c ++
                        repeat Byte.x00 (Z.to_nat E - List.length (skipn (Z.to_nat A) c)))
                     (zlen (skipn (Z.to_nat A) c)) (skipn k f))
             (mkMetaData (Some (codec_mime_type_ s1)) (if v then Some ts else None)
                         None None None))
     = buffer_in_progress_ (accumulated s1 v ts (c ++ f))).
  { unfold accumulated. sub_simpl. fold A E. do 2 f_equal.
    rewrite memcpy_behind.
    - rewrite Fpay. f_equal. f_equal. rewrite length_app. lia.
    - unfold zlen in *. lia. }
  unfold cont, processPayloadCont, shouldAbort.
  replace (status_ (accumulated s1 v ts c)) with OK by (symmetry; exact St).
  change (negb (OK =? OK)) with false. cbv iota.
  change (buffer_in_progress_ (accumulated s1 v ts c))
    with (Some (mkMediaBuffer
                  (skipn (Z.to_nat A) c ++
                     repeat Byte.x00 (Z.to_nat E - List.length (skipn (Z.to_nat A) c)))
                  (mkMetaData (Some (codec_mime_type_ s1)) (if v then Some ts else None)
                              None None None))).
  cbv iota.
  change (aux_data_in_progress_ (accumulated s1 v ts c)) with (firstn (Z.to_nat A) c).
  change (aux_data_expected_size_ (accumulated s1 v ts c)) with A.
  rewrite Laux.
  replace (negb (Z.min A (zlen c) <=? A)) with false
    by (symmetry; apply negb_false_iff; apply Z.leb_le; lia).
  rewrite (u32_small (x := A - Z.min A (zlen c))) by lia.
  rewrite min_spec.
  set (target := accumulated s1 v ts (c ++ f)) in *.
  assert (Lnil : zlen (skipn k f) = 0 -> skipn k f = []).
  { unfold zlen. destruct (skipn k f); [reflexivity|cbn; lia]. }
  clearbody k.
  destruct (zlen c + zlen f <? A + E) eqn:E0;
    destruct (negb (A - Z.min A (zlen c) =? 0)) eqn:E1; cbv iota;
    unfold accumulated; sub_simpl; fold A E;
    rewrite ?Ftodo, ?Stodo, ?Lpay;
    rewrite ?(u32_small (x := E - (zlen c - Z.min A (zlen c)))) by lia;
    cbn [andb]; bool_facts.
  2,4: assert (K0 : k = 0%nat) by lia; subst k;
       cbn [firstn skipn] in *; rewrite ?app_nil_r in *;
       change (Z.to_nat 0) with 0%nat; cbn [firstn skipn];
       replace (zlen f - 0) with (zlen f) in * by lia.
  all: repeat match goal with
         | |- context [if ?c then _ else _] =>
             destruct c eqn:?; cbv iota; unfold write_buffer; sub_simpl;
             cbn [mb_data mb_meta]
         end.
  all: cbn [buffer_filled_ expected_buffer_size_ set_buffer_filled_
             set_buffer_in_progress_ set_aux_data_in_progress_] in *.
  all: bool_facts.
  all: rewrite ?u32_small in * by lia.
  all: try (exfalso; lia).
  all: rewrite Lpay in Hwrite.
  all: try match goal with
       | |- exists l, Ok (?s2, ?L) = Ok (_, l) =>
           exists L; replace s2 with target; [reflexivity|symmetry]
       | |- bind (processCompletedBuffer _ _ _ ?s2) _ = _ =>
           replace s2 with target; [reflexivity|symmetry]
       end.
  all: try (apply Hacc; sub_simpl; try reflexivity; try lia;
            try exact Hwrite;
            try (apply Hsame; apply Lnil; lia)).
Qed.

(** Continuations without a buffer in progress, or after a fatal error,
    are skipped. *)
Lemma conts_idle frags : forall s,
  buffer_in_progress_ s = None \/ shouldAbort s = true ->
  conts GetMPEGAudioFrameSize env s frags = Ok s.
Proof.
  induction frags as [|f frags IH]; intros s H; cbn [conts]; [reflexivity|].
  assert (C : exists l, cont GetMPEGAudioFrameSize env s f = Ok (s, l)).
  { unfold cont, processPayloadCont. destruct (shouldAbort s) eqn:Sa; [eauto|].
    destruct H as [H|H]; [|discriminate]. rewrite H. eauto. }
  destruct C as (l & ->). cbn [bind]. apply IH. exact H.
Qed.

Lemma conts_accumulates s1 v ts frags : forall c,
  status_ s1 = OK ->
  0 <= aux_data_expected_size_ s1 < 2 ^ 32 ->
  0 < expected_buffer_size_ s1 < 2 ^ 32 ->
  zlen c < aux_data_expected_size_ s1 + expected_buffer_size_ s1 ->
  zlen c + zlen (List.concat frags) = aux_data_expected_size_ s1 + expected_buffer_size_ s1 ->
  conts GetMPEGAudioFrameSize env (accumulated s1 v ts c) frags
  = completed (accumulated s1 v ts (c ++ List.concat frags)).
Proof.
  induction frags as [|f frags IH]; intros c St Ha He Hc Hsum.
  - cbn [List.concat] in Hsum. rewrite zlen_nil in Hsum. lia.
  - cbn [List.concat conts] in *. rewrite zlen_app in Hsum.
    pose proof (zlen_nonneg (List.concat frags)) as Hn.
    pose proof (@cont_accumulates s1 v ts c f St Ha He Hc ltac:(lia)) as C.
    destruct (zlen c + zlen f <? _) eqn:E0; bool_facts.
    + destruct C as (l & ->). cbn [bind].
      rewrite IH; try assumption.
      * rewrite <- app_assoc. reflexivity.
      * rewrite zlen_app. lia.
      * rewrite zlen_app. lia.
    + rewrite C.
      assert (N : List.concat frags = []).
      { destruct (List.concat frags); [reflexivity|]. unfold zlen in *. cbn in *. lia. }
      rewrite N, app_nil_r.
      destruct (completed (accumulated s1 v ts (c ++ f))) as [s'|] eqn:Cp; cbn [bind];
        [|reflexivity].
      apply conts_idle. left.
      destruct (completed_is_cleanup _ _ _ _ Cp) as (s'' & ->). apply cleanup_fields.
Qed.

(** C4.  On every substream reached from a new one: a fragment-start that
    carries the complete header [hdr], followed by continuations, when the
    bytes behind the header add up to exactly the aux data and payload that
    the header declares, leaves the substream and its pump (the completed
    unit with its bytes in the pump's queue, the metadata derived from the
    aux bytes) in the state in which a single fragment carrying the header,
    the aux data and the payload leaves them. *)
Theorem multi_fragment_equals_single ssrc ops s hdr aux pay frag0 frags ts :
  run GetMPEGAudioFrameSize (new ssrc) ops = Ok s ->
  zlen hdr = header_length_of hdr ->
  aux_length_of hdr = zlen aux ->
  total_length_of hdr = zlen hdr + zlen aux + zlen pay ->
  frag0 ++ List.concat frags = aux ++ pay ->
  ('(s1, _) <- start GetMPEGAudioFrameSize env s (hdr ++ frag0) ts ;;
   conts GetMPEGAudioFrameSize env s1 frags)
  = ('(s', _) <- start GetMPEGAudioFrameSize env s (hdr ++ aux ++ pay) ts ;; Ok s').
Proof.
  intros Hrun L La Lt Hsplit.
  destruct (new_inv ssrc) as [I0 W0].
  destruct (run_inv _ _ _ I0 W0 Hrun) as [I _]. clear Hrun I0 W0.
  assert (Hlen : zlen frag0 + zlen (List.concat frags) = zlen aux + zlen pay).
  { rewrite <- !zlen_app. f_equal. exact Hsplit. }
  pose proof (zlen_nonneg frag0) as H0. pose proof (zlen_nonneg (List.concat frags)) as H1.
  pose proof (zlen_nonneg aux) as H2. pose proof (zlen_nonneg pay) as H3.
  pose proof (zlen_nonneg hdr) as H4.
  pose proof (U32_AT_range hdr 2) as Ht. fold (total_length_of hdr) in Ht.
  unfold start, processPayloadStart.
  destruct (shouldAbort s) eqn:Sa; cbn [bind].
  { apply conts_idle. right. exact Sa. }
  rewrite (@header_trailing s hdr frag0 ts L) by lia.
  rewrite (@header_trailing s hdr (aux ++ pay) ts L) by (rewrite zlen_app; lia).
  destruct (processPayloadStart_header s hdr ts) as [[s1 r]|] eqn:Hh; cbn [bind];
    [|reflexivity].
  destruct (header_frame _ _ _ Hh) as (B & S & _ & _ & _ & _ & Ax & _).
  destruct (aborted_in_progress_fields s) as (_ & _ & _ & _ & _ & _ & _ & _ & _ & A0).
  specialize (A0 I).
  assert (A1 : aux_data_in_progress_ s1 = []) by (destruct Ax as [Ax|Ax]; congruence).
  destruct r as [l|h v t]; cbn [bind].
  { apply conts_idle. left. exact B. }
  destruct (header_accept _ _ _ Hh)
    as (-> & _ & _ & _ & _ & _ & _ & EA & _ & EE & NZ & _).
  rewrite <- L.
  assert (EA' : aux_data_expected_size_ s1 = zlen aux) by congruence.
  assert (EE' : expected_buffer_size_ s1 = zlen pay).
  { rewrite EE, La, Lt, <- L.
    replace (zlen hdr + zlen aux + zlen pay - zlen hdr - zlen aux) with (zlen pay) by lia.
    apply u32_small. lia. }
  assert (Hpay : 0 < zlen pay) by lia.
  assert (St : status_ s1 = OK).
  { rewrite S. unfold shouldAbort in Sa. bool_facts. congruence. }
  destruct (env_alloc env (expected_buffer_size_ s1)) eqn:Al.
  2:{ unfold processPayloadStart_fill. sub_simpl. rewrite Al. cbn [negb bind].
      apply conts_idle. left. apply cleanup_fields. }
  rewrite !fill_accumulates by (try assumption; rewrite ?zlen_app; lia).
  rewrite EA', EE', zlen_app.
  replace (zlen aux + zlen pay <? zlen aux + zlen pay) with false
    by (symmetry; apply Z.ltb_irrefl).
  destruct (zlen frag0 <? zlen aux + zlen pay) eqn:E0; bool_facts; cbn [bind].
  - rewrite conts_accumulates by lia. rewrite Hsplit.
    fold completed.
    destruct (completed (accumulated s1 v t (aux ++ pay))); reflexivity.
  - assert (N : List.concat frags = []).
    { destruct (List.concat frags); [reflexivity|]. unfold zlen in *. cbn in *. lia. }
    rewrite N, app_nil_r in Hsplit. subst frag0.
    destruct (completed (accumulated s1 v t (aux ++ pay))) as [s'|] eqn:Cp; cbn [bind];
      [|reflexivity].
    apply conts_idle. left.
    destruct (completed_is_cleanup _ _ _ _ Cp) as (s'' & ->). apply cleanup_fields.
Qed.

End Reassembly.

(** ** A single fragment *)

Section SingleFragment.

Variable GetMPEGAudioFrameSize : Z -> option (Z * Z).
Variable env : Env.

Let completed :=
  processCompletedBuffer GetMPEGAudioFrameSize (env_create env) (env_run env).

(** Folds the constant offsets in the hypotheses. *)
Ltac fold_consts :=
  repeat match goal with
         | H : context [Z.pos ?a + Z.pos ?b] |- _ =>
             let v := eval compute in (Z.pos a + Z.pos b) in
             progress change (Z.pos a + Z.pos b) with v in H
         | H : context [Z.pos ?a + 0] |- _ =>
             progress change (Z.pos a + 0) with (Z.pos a) in H
         end.

(** A fragment-start with a self-consistent header that carries the RAP
    flag and at least one byte of access unit passes the parsing part. *)
Lemma header_accepts s buf ts :
  version_of buf = 1 ->
  header_type_of buf = kHeaderTypeAudio ->
  (codec_type_of buf = kCodecMPEG1Audio \/ codec_type_of buf = kCodecAACAudio) ->
  (substream_details_known_ s = true ->
   substream_type_ s = kHeaderTypeAudio /\ codec_type_ s = codec_type_of buf) ->
  rap_of buf = true ->
  total_length_of buf = zlen buf ->
  header_length_of buf + aux_length_of buf < zlen buf ->
  exists s1 t,
    processPayloadStart_header s buf ts
    = Ok (s1, Accept (header_length_of buf) (ts_valid_of buf) t).
Proof.
  intros V T C K R L N.
  destruct (processPayloadStart_header s buf ts) as [[s1 [l|h v t]]|c] eqn:H.
  2:{ destruct (header_accept _ _ _ H) as (-> & -> & _). eauto. }
  all: exfalso.
  all: destruct (aborted_in_progress_fields s) as (_ & _ & _ & _ & K0 & T0 & C0 & _).
  all: rewrite <- K0, <- T0, <- C0 in K; clear K0 T0 C0.
  all: unfold processPayloadStart_header in H; fold (aborted_in_progress s) in H.
  all: set (s0 := aborted_in_progress s) in *; clearbody s0.
  all: unfold setupSubstreamType in H.
  all: pose proof (U32_AT_range buf 2) as R2.
  all: revert V T C K R L N R2.
  all: paths H; header_fields; norm_header;
    repeat (break_if; norm_header); intros V T C K R L N R2;
    fold_consts;
    repeat match goal with
           | E : flag_set ?a ?b = _, H : context [flag_set ?a ?b] |- _ =>
               rewrite E in H; sub_simpl_in H
           end;
    try (destruct (decoder_ s0));
    repeat match goal with
           | H : _ = _ |- _ => progress sub_simpl_in H
           end;
    bool_facts; fold_consts;
    unfold kHeaderTypeAudio, kHeaderTypeVideo, kHeaderTypeSubpicture,
      kHeaderTypeControl, kCodecMPEG1Audio, kCodecAACAudio in *;
    try congruence; try lia;
    try (destruct K as [K1 K2]; [assumption|]; try congruence; lia);
    repeat match goal with
           | H : context [U32_AT ?b ?i] |- _ =>
               lazymatch goal with
               | _ : 0 <= U32_AT b i < 2 ^ 32 |- _ => fail
               | _ => pose proof (U32_AT_range b i)
               end
           end;
    u32_lia.
Qed.

Lemma setup_ok s f :
  derived_format GetMPEGAudioFrameSize s = Some f ->
  meta_ok s ->
  exists s2,
    setupSubstreamMeta GetMPEGAudioFrameSize s = Ok (true, s2) /\
    buffer_in_progress_ s2 = buffer_in_progress_ s /\
    status_ s2 = status_ s /\
    meta_ok s2 /\ substream_meta_ s2 <> None /\
    (decoder_ s2 = decoder_ s \/
     decoder_ s2 = option_map (fun p => snd (Pump.shutdown p)) (decoder_ s)).
Proof.
  intros D M. unfold meta_ok in M.
  unfold derived_format in D. unfold setupSubstreamMeta.
  assert (Hnew : forall x m', meta_ok (set_substream_meta_ (Some m') x) <->
                   (kKeySampleRate m' <> None /\ kKeyChannelCount m' <> None)).
  { intros x m'. unfold meta_ok. sub_simpl. split.
    - intros H. apply H. reflexivity.
    - intros H m E. inversion E; subst. exact H. }
  destruct (codec_type_ s =? kCodecMPEG1Audio).
  - unfold setupMP3SubstreamMeta. sub_simpl.
    destruct (buffer_in_progress_ s) as [mb|] eqn:B; [|discriminate].
    destruct (4 <=? zlen (mb_data mb)) eqn:L; [|discriminate].
    replace (zlen (mb_data mb) <? 4) with false by (symmetry; bool_facts; lia).
    destruct (GetMPEGAudioFrameSize _) as [[sr ch]|]; [|discriminate].
    destruct (substream_meta_ s) as [m|] eqn:Em.
    + destruct (M m eq_refl) as [M1 M2].
      destruct (kKeySampleRate m) as [psr|]; [|congruence].
      destruct (kKeyChannelCount m) as [pch|]; [|congruence].
      destruct (negb (pch =? ch) || negb (psr =? sr)).
      * eexists. split; [reflexivity|]. sub_simpl.
        destruct (cleanupDecoder_fields (set_codec_mime_type_ MEDIA_MIMETYPE_AUDIO_MPEG s))
          as (F1 & _ & F3 & _ & _ & F6).
        split; [rewrite F1; exact B|]. split; [exact F3|].
        split; [apply Hnew; cbn; split; discriminate|].
        split; [discriminate|]. right. exact F6.
      * eexists. split; [reflexivity|]. sub_simpl.
        split; [exact B|]. split; [reflexivity|].
        split; [|split; [rewrite Em; discriminate|left; reflexivity]].
        intros m' E'. sub_simpl_in E'. rewrite Em in E'. inversion E'; subst.
        apply M; reflexivity.
    + eexists. split; [reflexivity|]. sub_simpl.
      split; [exact B|]. split; [reflexivity|].
      split; [apply Hnew; cbn; split; discriminate|].
      split; [discriminate|left; reflexivity].
  - destruct (codec_type_ s =? kCodecAACAudio); [|discriminate].
    unfold setupAACSubstreamMeta. sub_simpl.
    destruct (8 <=? zlen (aux_data_in_progress_ s)) eqn:L; [|discriminate].
    replace (zlen (aux_data_in_progress_ s) <? 4 + 4) with false
      by (symmetry; bool_facts; lia).
    destruct (substream_meta_ s) as [m|] eqn:Em.
    + destruct (M m eq_refl) as [M1 M2].
      destruct (kKeySampleRate m) as [psr|]; [|congruence].
      destruct (kKeyChannelCount m) as [pch|]; [|congruence].
      match goal with
      | |- context [if ?c then Ok (true, _) else _] => destruct c
      end.
      * eexists. split; [reflexivity|]. sub_simpl.
        split; [reflexivity|]. split; [reflexivity|].
        split; [|split; [rewrite Em; discriminate|left; reflexivity]].
        intros m' E'. sub_simpl_in E'. rewrite Em in E'. inversion E'; subst.
        apply M; reflexivity.
      * eexists. split; [reflexivity|]. sub_simpl.
        destruct (cleanupDecoder_fields (set_codec_mime_type_ MEDIA_MIMETYPE_AUDIO_AAC s))
          as (F1 & _ & F3 & _ & _ & F6).
        split; [exact F1|]. split; [exact F3|].
        split; [apply Hnew; cbn; split; discriminate|].
        split; [discriminate|]. right. exact F6.
    + eexists. split; [reflexivity|]. sub_simpl.
      split; [reflexivity|]. split; [reflexivity|].
      split; [apply Hnew; cbn; split; discriminate|].
      split; [discriminate|left; reflexivity].
Qed.

Lemma init_ok p m :
  Pump.thread_status_ p = OK ->
  kKeySampleRate m <> None -> kKeyChannelCount m <> None ->
  exists p',
    Pump.init (env_create env) (env_run env) p (Some m) = Ok (OK, p') /\
    Pump.in_queue_ p' = Pump.in_queue_ p /\ Pump.thread_status_ p' = OK.
Proof.
  intros St M1 M2. unfold Pump.init.
  destruct (Pump.decoder_ p); [eexists; repeat split; eassumption|].
  destruct (kKeyChannelCount m); [|congruence].
  destruct (kKeySampleRate m); [|congruence].
  cbn [Pump.thread_status_ Pump.set_format_sample_rate_ Pump.set_format_channels_].
  rewrite St. change (negb (OK =? OK)) with false. cbv iota.
  destruct (env_create env m); [destruct (env_run env =? OK) eqn:R|];
    eexists; (split; [reflexivity|]); cbv beta iota zeta; rewrite ?R; cbn;
    split; first [reflexivity|assumption].
Qed.

Lemma meta_ok_same s s' :
  substream_meta_ s' = substream_meta_ s -> meta_ok s -> meta_ok s'.
Proof. unfold meta_ok. intros ->. auto. Qed.

Lemma setup_meta_ok s b s2 :
  meta_ok s ->
  setupSubstreamMeta GetMPEGAudioFrameSize s = Ok (b, s2) -> meta_ok s2.
Proof.
  intros M. unfold setupSubstreamMeta, setupMP3SubstreamMeta, setupAACSubstreamMeta.
  intros H.
  repeat match type of H with
         | context [match ?x with _ => _ end] => destruct x eqn:?; try discriminate H
         end;
    inversion H; subst; clear H; try exact M;
    intros m' E'; sub_simpl_in E'; inversion E'; subst; cbn; split; discriminate.
Qed.

Lemma completed_meta_ok create run_res s s' :
  meta_ok s ->
  processCompletedBuffer GetMPEGAudioFrameSize create run_res s = Ok s' -> meta_ok s'.
Proof.
  intros M. unfold processCompletedBuffer.
  assert (Hc : forall x, meta_ok x -> meta_ok (cleanupBufferInProgress x)).
  { intros x. apply meta_ok_same. apply cleanup_fields. }
  assert (Hn : forall x, meta_ok (cleanupBufferInProgress (set_substream_meta_ None x))).
  { intros x m E. destruct (cleanup_fields (set_substream_meta_ None x))
      as (_ & _ & _ & _ & _ & _ & _ & F & _). rewrite F in E. discriminate E. }
  destruct (buffer_in_progress_ s); [|discriminate].
  destruct (decoder_ s); [|intros H; inversion H; auto].
  destruct (setupSubstreamMeta GetMPEGAudioFrameSize s) as [[ok s1]|] eqn:S; cbn [bind];
    [|discriminate].
  apply setup_meta_ok in S; [|exact M].
  destruct ok; cbn [negb]; [|intros H; inversion H; auto].
  destruct (decoder_ s1); [|intros H; inversion H; auto].
  destruct (Pump.init create run_res t1 (substream_meta_ s1)) as [[res p]|]; cbn [bind];
    [|discriminate].
  destruct (negb (OK =? res)); [intros H; inversion H; apply Hn|].
  destruct (Pump.queueForDecode p _) as [res2 p2].
  intros H; inversion H; subst. apply Hc.
  destruct (negb (res2 =? OK)); sub_simpl.
  - eapply meta_ok_same; [|exact S].
    set (y := set_status_ res2 _).
    assert (Ey : substream_meta_ y = substream_meta_ s1) by reflexivity.
    clearbody y.
    destruct (cleanupDecoder_fields y) as (_ & F2 & _).
    set (x := cleanupBufferInProgress _).
    assert (Ex : substream_meta_ x = substream_meta_ s1).
    { subst x.
      destruct (cleanup_fields (cleanupDecoder y)) as (_ & _ & _ & _ & _ & _ & _ & F & _).
      rewrite F, F2. exact Ey. }
    clearbody x. exact Ex.
  - eapply meta_ok_same; [|exact S]. reflexivity.
Qed.

Ltac meta_leaf M :=
  eapply meta_ok_same; [|exact M];
  first [ reflexivity
        | etransitivity; [apply cleanup_fields|reflexivity] ].

Lemma fill_meta_ok alloc create run_res s1 h v ts buf s' l :
  meta_ok s1 ->
  processPayloadStart_fill GetMPEGAudioFrameSize alloc create run_res s1 h v ts buf
    = Ok (s', l) ->
  meta_ok s'.
Proof.
  intros M. unfold processPayloadStart_fill, write_buffer.
  cbv beta iota zeta. sub_simpl.
  repeat (match goal with
          | |- context [if ?c then _ else _] => destruct c eqn:?
          end; cbv beta iota zeta; sub_simpl);
    try discriminate;
    try (destruct (processCompletedBuffer _ _ _ _) eqn:C; cbn [bind]; [|discriminate];
         intros H; inversion H; subst; eapply completed_meta_ok; [|exact C];
         meta_leaf M);
    intros H; inversion H; subst; meta_leaf M.
Qed.

Lemma cont_meta_ok e s buf s' l :
  meta_ok s ->
  cont GetMPEGAudioFrameSize e s buf = Ok (s', l) -> meta_ok s'.
Proof.
  intros M. unfold cont, processPayloadCont, write_buffer.
  destruct (shouldAbort s); [intros H; inversion H; subst; exact M|].
  destruct (buffer_in_progress_ s) eqn:B; [|intros H; inversion H; subst; exact M].
  cbv beta iota zeta. sub_simpl.
  repeat (match goal with
          | |- context [if ?c then _ else _] => destruct c eqn:?
          end; cbv beta iota zeta; sub_simpl; rewrite ?B; cbv beta iota; sub_simpl);
    try discriminate;
    try (destruct (processCompletedBuffer _ _ _ _) eqn:C; cbn [bind]; [|discriminate];
         intros H; inversion H; subst; eapply completed_meta_ok; [|exact C];
         meta_leaf M);
    intros H; inversion H; subst; meta_leaf M.
Qed.

Lemma start_meta_ok e s buf ts s' l :
  meta_ok s ->
  start GetMPEGAudioFrameSize e s buf ts = Ok (s', l) -> meta_ok s'.
Proof.
  intros M. unfold start, processPayloadStart.
  destruct (shouldAbort s); [intros H; inversion H; subst; exact M|].
  destruct (processPayloadStart_header s buf ts) as [[s1 r]|] eqn:Hh; cbn [bind];
    [|discriminate].
  destruct (header_frame _ _ _ Hh) as (_ & _ & Em & _).
  assert (M1 : meta_ok s1) by (eapply meta_ok_same; eassumption).
  destruct r as [l'|h v t].
  - intros H; inversion H; subst. exact M1.
  - apply fill_meta_ok. exact M1.
Qed.

Lemma step_meta_ok s op s' :
  meta_ok s -> step GetMPEGAudioFrameSize s op = Ok s' -> meta_ok s'.
Proof.
  intros M. destruct op; cbn [step].
  - destruct (start _ env0 s buf ts_lower) as [[s1 l]|] eqn:H; cbn [bind]; [|discriminate].
    intros E; inversion E; subst. eapply start_meta_ok; eassumption.
  - destruct (cont _ env0 s buf) as [[s1 l]|] eqn:H; cbn [bind]; [|discriminate].
    intros E; inversion E; subst. eapply cont_meta_ok; eassumption.
  - intros E; inversion E; subst. unfold processTSTransform.
    destruct (decoder_ s); [|exact M]. eapply meta_ok_same; [|exact M]. reflexivity.
  - intros E; inversion E; subst. intros m Em. exfalso.
    assert (N : substream_meta_ (shutdown s) = None).
    { unfold shutdown. cbv zeta.
      rewrite (proj1 (proj2 (cleanupDecoder_fields _))).
      destruct (cleanup_fields (set_status_ OK (set_substream_meta_ None s)))
        as (_ & _ & _ & _ & _ & _ & _ & F & _).
      rewrite F. reflexivity. }
    rewrite N in Em. discriminate Em.
  - intros E; inversion E; subst.
    destruct (decoder_ s); [|exact M]. eapply meta_ok_same; [|exact M]. reflexivity.
Qed.

Lemma run_meta_ok ops : forall s s',
  meta_ok s -> run GetMPEGAudioFrameSize s ops = Ok s' -> meta_ok s'.
Proof.
  induction ops as [|op ops IH]; intros s s' M; cbn [run].
  - intros E; inversion E; subst. exact M.
  - destruct (step _ s op) as [s1|] eqn:H; cbn [bind]; [|discriminate].
    apply IH. eapply step_meta_ok; eassumption.
Qed.

Lemma new_meta_ok ssrc : meta_ok (new ssrc).
Proof. intros m E. discriminate E. Qed.

(** A fragment-start that carries all the bytes its header declares. *)
Lemma fill_single s1 h v ts buf :
  aux_data_in_progress_ s1 = [] ->
  env_alloc env (expected_buffer_size_ s1) = true ->
  0 <= aux_data_expected_size_ s1 ->
  0 < expected_buffer_size_ s1 ->
  0 <= h <= zlen buf ->
  zlen buf - h = aux_data_expected_size_ s1 + expected_buffer_size_ s1 ->
  processPayloadStart_fill GetMPEGAudioFrameSize (env_alloc env) (env_create env)
    (env_run env) s1 h v ts buf
  = (s' <- completed (accumulated s1 v ts (skipn (Z.to_nat h) buf)) ;;
     Ok (s', Completed)).
Proof.
  intros A Al Ha He Hh Hx.
  pose proof (@fill_accumulates GetMPEGAudioFrameSize env s1
                (firstn (Z.to_nat h) buf) v ts (skipn (Z.to_nat h) buf) A Al Ha He) as F.
  rewrite firstn_skipn in F. rewrite zlen_firstn, zlen_skipn in F by lia.
  rewrite F by lia.
  replace (zlen buf - h <? aux_data_expected_size_ s1 + expected_buffer_size_ s1)
    with false by (symmetry; apply Z.ltb_ge; lia).
  reflexivity.
Qed.

(** A complete buffer on a substream whose pump has no terminal status, and
    from which the codec metadata can be derived, is queued for decode. *)
Lemma completed_enqueues s mb p f :
  buffer_in_progress_ s = Some mb ->
  decoder_ s = Some p ->
  Pump.thread_status_ p = OK ->
  derived_format GetMPEGAudioFrameSize s = Some f ->
  meta_ok s ->
  exists s' p',
    completed s = Ok s' /\
    buffer_in_progress_ s' = None /\ status_ s' = status_ s /\
    decoder_ s' = Some p' /\
    (Pump.in_queue_ p' = Pump.in_queue_ p ++ [mb] \/ Pump.in_queue_ p' = [mb]).
Proof.
  intros B D St F M. unfold completed, processCompletedBuffer. rewrite B, D.
  destruct (setup_ok F M) as (s2 & -> & B2 & S2 & M2 & N2 & D2). cbn [bind negb].
  assert (Hp : exists p2, decoder_ s2 = Some p2 /\ Pump.thread_status_ p2 = OK /\
               (Pump.in_queue_ p2 = Pump.in_queue_ p \/ Pump.in_queue_ p2 = [])).
  { destruct D2 as [D2|D2]; rewrite D2, D.
    - exists p. auto.
    - cbn. eexists. split; [reflexivity|].
      destruct (shutdown_fields p) as (_ & _ & Q & T & _). auto. }
  destruct Hp as (p2 & Dp & Tp & Qp). rewrite Dp.
  destruct (substream_meta_ s2) as [m2|] eqn:Em; [|congruence].
  destruct (M2 m2 Em) as [R1 R2].
  destruct (@init_ok p2 m2 Tp R1 R2) as (p3 & -> & Q3 & T3). cbn [bind].
  change (negb (OK =? OK)) with false. cbv iota. sub_simpl. rewrite B2, B.
  unfold Pump.queueForDecode. rewrite T3. change (negb (OK =? OK)) with false.
  cbv iota. sub_simpl.
  eexists. eexists. split; [reflexivity|].
  match goal with
  | |- context [cleanupBufferInProgress ?x] =>
      destruct (cleanup_fields x) as (C1 & _ & _ & _ & _ & _ & C7 & _ & C9 & _)
  end.
  split; [exact C1|]. split; [rewrite C7; sub_simpl; exact S2|].
  split; [rewrite C9; sub_simpl; reflexivity|].
  cbn [Pump.in_queue_ Pump.set_in_queue_]. rewrite Q3.
  destruct Qp as [-> | ->]; [left|right]; reflexivity.
Qed.

(** C3 (amended).  On a substream reached from a new one, whose status is
    OK and whose pump has no terminal status: a single-fragment audio payload
    with self-consistent header fields that also carries the RAP flag and at
    least one byte of access unit, whose kind and codec agree with those
    already established, from which the codec metadata can be derived and
    for which the buffer can be allocated, is completed by
    [processPayloadStart]: no buffer stays in progress and exactly one unit
    is added to the pump's queue (behind the units queued before, or alone
    when the format change has shut the pump down); its bytes are the bytes
    behind header and aux data, their number the declared total length minus
    the header length minus the declared aux length. *)
Theorem single_fragment_yields_one_unit ssrc ops s p buf ts :
  run GetMPEGAudioFrameSize (new ssrc) ops = Ok s ->
  status_ s = OK ->
  decoder_ s = Some p ->
  Pump.thread_status_ p = OK ->
  (substream_details_known_ s = true ->
   substream_type_ s = kHeaderTypeAudio /\ codec_type_ s = codec_type_of buf) ->
  self_consistent buf = true ->
  rap_of buf = true ->
  0 < zlen (access_unit_of buf) ->
  format_derivable GetMPEGAudioFrameSize buf = true ->
  env_alloc env (zlen (access_unit_of buf)) = true ->
  exists s' p' unit,
    start GetMPEGAudioFrameSize env s buf ts = Ok (s', Completed) /\
    buffer_in_progress_ s' = None /\
    decoder_ s' = Some p' /\
    (Pump.in_queue_ p' = Pump.in_queue_ p ++ [unit] \/ Pump.in_queue_ p' = [unit]) /\
    mb_data unit = access_unit_of buf /\
    zlen (mb_data unit)
    = total_length_of buf - header_length_of buf - aux_length_of buf.
Proof.
  intros Hrun St D Tp K SC R NZ FD AL.
  destruct (new_inv ssrc) as [I0 W0].
  destruct (run_inv _ _ _ I0 W0 Hrun) as [I _].
  assert (M : meta_ok s) by (eapply run_meta_ok; [apply new_meta_ok|exact Hrun]).
  clear Hrun I0 W0.
  unfold self_consistent in SC.
  apply andb_true_iff in SC; destruct SC as [SC N'].
  apply andb_true_iff in SC; destruct SC as [SC L].
  apply andb_true_iff in SC; destruct SC as [SC C].
  apply andb_true_iff in SC; destruct SC as [V T].
  apply Z.eqb_eq in V, T, L. apply Z.leb_le in N'.
  assert (C' : codec_type_of buf = kCodecMPEG1Audio \/ codec_type_of buf = kCodecAACAudio).
  { apply orb_true_iff in C. destruct C as [C|C]; apply Z.eqb_eq in C; auto. }
  pose proof (header_length_range buf) as Hr.
  pose proof (aux_length_range buf) as Har.
  pose proof (U32_AT_range buf 2) as Htr. fold (total_length_of buf) in Htr.
  assert (Hau : zlen (access_unit_of buf)
                = zlen buf - header_length_of buf - aux_length_of buf).
  { unfold access_unit_of. rewrite zlen_skipn by lia. lia. }
  assert (N : header_length_of buf + aux_length_of buf < zlen buf) by lia.
  destruct (@header_accepts s buf ts V T C' K R L N) as (s1 & t & Hh).
  unfold start, processPayloadStart, shouldAbort. rewrite St.
  change (negb (OK =? OK)) with false. cbv iota. rewrite Hh. cbn [bind].
  destruct (header_frame _ _ _ Hh) as (B & S1 & Em & _ & _ & _ & Ax & _).
  destruct (aborted_in_progress_fields s) as (_ & _ & _ & _ & _ & _ & _ & _ & _ & A0).
  specialize (A0 I).
  assert (A1 : aux_data_in_progress_ s1 = []) by (destruct Ax as [Ax|Ax]; congruence).
  destruct (header_accept _ _ _ Hh)
    as (_ & _ & _ & _ & _ & _ & _ & EA & _ & EE & _ & _ & _ & _ & _ & Ec & _ & Ed).
  rewrite D in Ed.
  assert (EE' : expected_buffer_size_ s1
                = zlen buf - header_length_of buf - aux_length_of buf).
  { rewrite EE, L. apply u32_small. lia. }
  rewrite fill_single; try assumption; try lia.
  2:{ rewrite EE', <- Hau. exact AL. }
  set (h := header_length_of buf) in *. set (a := aux_length_of buf) in *.
  set (x := skipn (Z.to_nat h) buf).
  assert (Hx : zlen x = zlen buf - h) by (apply zlen_skipn; lia).
  assert (Hpay : skipn (Z.to_nat (aux_data_expected_size_ s1)) x = access_unit_of buf).
  { rewrite EA. unfold x, access_unit_of. rewrite skipn_skipn. f_equal.
    fold h a. lia. }
  assert (Hdata : skipn (Z.to_nat (aux_data_expected_size_ s1)) x
                    ++ repeat Byte.x00
                         (Z.to_nat (expected_buffer_size_ s1)
                          - List.length (skipn (Z.to_nat (aux_data_expected_size_ s1)) x))
                  = access_unit_of buf).
  { rewrite Hpay, EE'.
    replace (Z.to_nat (zlen buf - h - a) - List.length (access_unit_of buf))%nat
      with 0%nat by (clear - Hau; unfold zlen in *; lia).
    apply app_nil_r. }
  assert (Fd : exists f, derived_format GetMPEGAudioFrameSize
                           (accumulated s1 (ts_valid_of buf) t x) = Some f).
  { unfold derived_format, accumulated. cbv zeta. sub_simpl. cbn [mb_data].
    rewrite Ec, Hdata. unfold format_derivable in FD.
    destruct (codec_type_of buf =? kCodecMPEG1Audio) eqn:Cm.
    - apply andb_true_iff in FD. destruct FD as [F1 F2]. rewrite F1.
      destruct (GetMPEGAudioFrameSize _) as [[sr ch]|]; [|discriminate F2].
      eexists. reflexivity.
    - replace (codec_type_of buf =? kCodecAACAudio) with true
        by (symmetry; apply Z.eqb_eq; apply Z.eqb_neq in Cm; tauto).
      rewrite EA, zlen_firstn by lia. fold a in FD. rewrite FD.
      eexists. reflexivity. }
  destruct Fd as [f Fd].
  assert (Mk : meta_ok (accumulated s1 (ts_valid_of buf) t x)).
  { eapply meta_ok_same; [|exact M]. exact Em. }
  destruct (setRenderVolume_fields p (volume_of buf)) as (Qv & Tv & _).
  edestruct (@completed_enqueues (accumulated s1 (ts_valid_of buf) t x))
    as (s' & p' & Hc & B' & _ & D' & Q);
    [reflexivity | exact Ed | rewrite Tv; exact Tp | exact Fd | exact Mk |].
  fold completed. rewrite Hc. cbn [bind].
  eexists. eexists. eexists.
  split; [reflexivity|]. split; [exact B'|]. split; [exact D'|].
  split; [rewrite Qv in Q; exact Q|].
  cbn [mb_data]. rewrite Hdata. split; [reflexivity|]. rewrite Hau, L. reflexivity.
Qed.

End SingleFragment.

(** ** Examples on concrete packets *)

(** Evaluates a call on a concrete substream. *)
Ltac run_call :=
  match goal with
  | |- exists x, ?X = Ok (x, _) =>
      let E := fresh "E" in
      destruct X as [[? ?]|] eqn:E; vm_compute in E;
      [inversion E; subst; eexists; reflexivity | discriminate E]
  | |- exists x, ?X = Ok x =>
      let E := fresh "E" in
      destruct X as [?|] eqn:E; vm_compute in E;
      [inversion E; subst; eexists; reflexivity | discriminate E]
  end.

(** C10 on a substream in the middle of an access unit: of the 8 payload
    bytes that the header announces, the fragment-start carried 4. *)
Lemma buffer_in_progress_within_bounds_witness :
  let pkt := audio_packet 17 kCodecMPEG1Audio kFlag_RandomAccessPoint 0xFF
               mp3_frame_start in
  exists s,
    run any_frame_44k_stereo (new 0) [ProcessPayloadStart env_ok pkt 0] = Ok s /\
    buffer_in_progress_ s <> None /\
    zlen (aux_data_in_progress_ s) <= aux_data_expected_size_ s /\
    buffer_filled_ s < expected_buffer_size_ s.
Proof.
  intros pkt.
  destruct (run any_frame_44k_stereo (new 0) [ProcessPayloadStart env_ok pkt 0])
    as [s|] eqn:H; [|vm_compute in H; discriminate].
  exists s. split; [reflexivity|].
  assert (B : buffer_in_progress_ s <> None)
    by (vm_compute in H; inversion H; discriminate).
  split; [exact B|].
  apply (buffer_in_progress_within_bounds any_frame_44k_stereo 0 _ H). exact B.
Defined.

(** C2, a run on which the gate is missed.  A new substream accepts a
    fragment-start with the random-access-point flag (the unit is completed
    and queued); the gate is still set afterwards, and the same payload
    without the flag is dropped for lacking it, while with the flag it is
    accepted once more. *)
Lemma rap_gate_rearmed_after_accepted_unit :
  let rap := audio_packet 13 kCodecMPEG1Audio kFlag_RandomAccessPoint 0xFF
               mp3_frame_start in
  let non_rap := audio_packet 13 kCodecMPEG1Audio 0 0xFF mp3_frame_start in
  exists s1,
    start any_frame_44k_stereo env_ok (new 0) rap 0 = Ok (s1, Completed) /\
    waiting_for_rap_ s1 = true /\
    (exists s2, start any_frame_44k_stereo env_ok s1 non_rap 0 = Ok (s2, DroppingNonRAP)) /\
    (exists s3, start any_frame_44k_stereo env_ok s1 rap 0 = Ok (s3, Completed)).
Proof.
  intros rap non_rap.
  destruct (start any_frame_44k_stereo env_ok (new 0) rap 0) as [[s1 l1]|] eqn:H1;
    vm_compute in H1; [|discriminate].
  inversion H1; subst; clear H1.
  eexists. split; [reflexivity|]. split; [reflexivity|]. split; run_call.
Qed.

Lemma rap_gate_is_never_cleared_witness :
  let rap := audio_packet 13 kCodecMPEG1Audio kFlag_RandomAccessPoint 0xFF
               mp3_frame_start in
  exists s,
    run any_frame_44k_stereo (new 0) [ProcessPayloadStart env_ok rap 0] = Ok s /\
    waiting_for_rap_ s = true.
Proof.
  intros rap.
  destruct (run any_frame_44k_stereo (new 0) [ProcessPayloadStart env_ok rap 0])
    as [s|] eqn:H; [|vm_compute in H; discriminate].
  exists s. split; [reflexivity|].
  apply (rap_gate_is_never_cleared any_frame_44k_stereo 0 _ H).
Defined.

(** C8 as stated fails.  A fragment-start whose declared length (12) is too
    short for the aux-length field that its flags announce is rejected, but by
    then the substream has taken the codec from the header and the pump has
    been given the volume 0x80; and a fragment-start with a bad version
    discards the payload that was in progress. *)
Lemma malformed_start_changes_state :
  let bad_length := audio_packet 12 kCodecMPEG1Audio
                      (kFlag_RandomAccessPoint + kFlag_AuxLengthPresent) 0x80 [] in
  let first_half := audio_packet 17 kCodecMPEG1Audio kFlag_RandomAccessPoint 0xFF
                      mp3_frame_start in
  let bad_version := map b8 [2; 0x10; 0; 0; 0; 13; 3; 8; 0xFF] in
  (exists s',
     start any_frame_44k_stereo env_ok (new 0) bad_length 0
       = Ok (s', TRTPLengthTooShortForAux) /\
     substream_details_known_ (new 0) = false /\
     substream_details_known_ s' = true /\
     option_map Pump.last_volume_ (decoder_ (new 0)) = Some 0xFF /\
     option_map Pump.last_volume_ (decoder_ s') = Some 0x80) /\
  (exists s1,
     start any_frame_44k_stereo env_ok (new 0) first_half 0 = Ok (s1, Accumulating) /\
     buffer_in_progress_ s1 <> None /\
     exists s2,
       start any_frame_44k_stereo env_ok s1 bad_version 0 = Ok (s2, UnexpectedVersion) /\
       buffer_in_progress_ s2 = None /\ s2 <> s1).
Proof.
  intros bad_length first_half bad_version. split.
  - destruct (start any_frame_44k_stereo env_ok (new 0) bad_length 0)
      as [[s' l]|] eqn:H; vm_compute in H; [|discriminate].
    inversion H; subst; clear H. eexists. repeat split.
  - destruct (start any_frame_44k_stereo env_ok (new 0) first_half 0)
      as [[s1 l]|] eqn:H; vm_compute in H; [|discriminate].
    inversion H; subst; clear H. eexists.
    split; [reflexivity|]. split; [discriminate|].
    match goal with
    | |- exists s2, ?X = _ /\ _ =>
        destruct X as [[s2 l]|] eqn:H; vm_compute in H; [|discriminate]
    end.
    inversion H; subst; clear H. eexists.
    split; [reflexivity|]. split; [reflexivity|]. discriminate.
Qed.

Lemma malformed_start_is_dropped_witness :
  let bad_length := audio_packet 12 kCodecMPEG1Audio
                      (kFlag_RandomAccessPoint + kFlag_AuxLengthPresent) 0x80 [] in
  exists s',
    start any_frame_44k_stereo env_ok (new 0) bad_length 0
      = Ok (s', TRTPLengthTooShortForAux) /\
    buffer_in_progress_ s' = None /\ status_ s' = status_ (new 0) /\
    substream_details_known_ s' = true /\
    substream_type_ s' = kHeaderTypeAudio /\
    codec_type_ s' = kCodecMPEG1Audio.
Proof.
  intros bad_length.
  destruct (start any_frame_44k_stereo env_ok (new 0) bad_length 0)
    as [[s' l]|] eqn:H; [|vm_compute in H; discriminate].
  assert (L : l = TRTPLengthTooShortForAux) by (vm_compute in H; inversion H; reflexivity).
  subst l. exists s'. split; [reflexivity|].
  destruct (malformed_start_is_dropped any_frame_44k_stereo _ _ _ _ H eq_refl)
    as (B & S & _ & _ & _ & _ & L).
  destruct (L eq_refl) as (K & T & C & _).
  split; [exact B|]. split; [exact S|]. split; [exact K|]. split; [exact T|].
  rewrite C. reflexivity.
Defined.

(** C3 as stated fails.  Two single-fragment payloads with self-consistent
    header fields (version 1, audio kind, supported codec, declared length
    equal to the buffer length) that yield no access unit on a new
    substream: an MP3 payload without the random-access-point flag is dropped
    at the gate, and an AAC payload with the flag but without aux data is
    completed and then discarded, as no metadata can be derived for it.  In
    both cases the pump's queue stays empty. *)
Lemma self_consistent_payload_yields_no_unit :
  let no_rap := audio_packet 13 kCodecMPEG1Audio 0 0xFF mp3_frame_start in
  let aac_no_aux := audio_packet 13 kCodecAACAudio kFlag_RandomAccessPoint 0xFF
                      mp3_frame_start in
  (self_consistent no_rap = true /\
   exists s',
     start any_frame_44k_stereo env_ok (new 0) no_rap 0 = Ok (s', DroppingNonRAP) /\
     buffer_in_progress_ s' = None /\
     option_map Pump.in_queue_ (decoder_ s') = Some []) /\
  (self_consistent aac_no_aux = true /\
   exists s',
     start any_frame_44k_stereo env_ok (new 0) aac_no_aux 0 = Ok (s', Completed) /\
     buffer_in_progress_ s' = None /\
     option_map Pump.in_queue_ (decoder_ s') = Some []).
Proof.
  intros no_rap aac_no_aux. split; (split; [reflexivity|]).
  - destruct (start any_frame_44k_stereo env_ok (new 0) no_rap 0)
      as [[s' l]|] eqn:H; vm_compute in H; [|discriminate].
    inversion H; subst; clear H. eexists. repeat split.
  - destruct (start any_frame_44k_stereo env_ok (new 0) aac_no_aux 0)
      as [[s' l]|] eqn:H; vm_compute in H; [|discriminate].
    inversion H; subst; clear H. eexists. repeat split.
Qed.

Lemma single_fragment_yields_one_unit_witness :
  let pkt := audio_packet 13 kCodecMPEG1Audio kFlag_RandomAccessPoint 0xFF
               mp3_frame_start in
  exists s' p' unit,
    start any_frame_44k_stereo env_ok (new 0) pkt 0 = Ok (s', Completed) /\
    buffer_in_progress_ s' = None /\
    decoder_ s' = Some p' /\
    (Pump.in_queue_ p' = Pump.in_queue_ Pump.new ++ [unit] \/
     Pump.in_queue_ p' = [unit]) /\
    mb_data unit = access_unit_of pkt /\
    zlen (mb_data unit)
    = total_length_of pkt - header_length_of pkt - aux_length_of pkt.
Proof.
  intros pkt.
  apply (@single_fragment_yields_one_unit any_frame_44k_stereo env_ok 0 []
           (new 0) Pump.new pkt 0); try reflexivity.
  intros H. discriminate H.
Defined.

(** C4 on an MP3 unit of four bytes: two of them come with the
    fragment-start, the others in two continuations of one byte each; the
    unit queued is the one a single fragment yields. *)
Lemma multi_fragment_equals_single_witness :
  let hdr := audio_packet 13 kCodecMPEG1Audio kFlag_RandomAccessPoint 0xFF [] in
  let frag0 := map b8 [0xFF; 0xFB] in
  let frags := [map b8 [0x90]; map b8 [0x00]] in
  ('(s1, _) <- start any_frame_44k_stereo env_ok (new 0) (hdr ++ frag0) 0 ;;
   conts any_frame_44k_stereo env_ok s1 frags)
  = ('(s', _) <- start any_frame_44k_stereo env_ok (new 0)
                   (hdr ++ [] ++ mp3_frame_start) 0 ;; Ok s') /\
  exists s',
    ('(s1, _) <- start any_frame_44k_stereo env_ok (new 0) (hdr ++ frag0) 0 ;;
     conts any_frame_44k_stereo env_ok s1 frags) = Ok s' /\
    option_map (fun p => map mb_data (Pump.in_queue_ p)) (decoder_ s')
    = Some [mp3_frame_start].
Proof.
  intros hdr frag0 frags. split.
  - apply (@multi_fragment_equals_single any_frame_44k_stereo env_ok 0 []
             (new 0) hdr [] mp3_frame_start frag0 frags 0); reflexivity.
  - match goal with
    | |- exists s', ?X = _ /\ _ =>
        destruct X as [s'|] eqn:H; vm_compute in H; [|discriminate]
    end.
    inversion H; subst; clear H. eexists. split; reflexivity.
Defined.

(** C9 on an MP3 substream with 48 kHz stereo established, for which a unit
    at 44.1 kHz has been completed: the pump is shut down. *)
Lemma format_change_tears_down_decoder_witness :
  let m := mkMetaData (Some MEDIA_MIMETYPE_AUDIO_MPEG) None (Some 2) (Some 48000) None in
  let s := set_buffer_in_progress_
             (Some (mkMediaBuffer mp3_frame_start
                      (mkMetaData (Some MEDIA_MIMETYPE_AUDIO_MPEG) None None None None)))
             (set_substream_meta_ (Some m)
                (set_codec_type_ kCodecMPEG1Audio (new 0))) in
  exists s',
    setupSubstreamMeta any_frame_44k_stereo s = Ok (true, s') /\
    decoder_ s' = option_map (fun p => snd (Pump.shutdown p)) (decoder_ s).
Proof.
  intros m s.
  destruct (@format_change_tears_down_decoder any_frame_44k_stereo s m
              (44100, 2, None) eq_refl ltac:(discriminate) ltac:(discriminate) eq_refl)
    as (s' & E & _ & Hd & _).
  exists s'. split; [exact E|]. apply Hd. left. discriminate.
Defined.

End SubstreamFacts.

(** * The contract of the decoder pump *)

Module PumpContract.
Import Pump PumpSpec PumpFacts.

(** ** What each member function leaves as it is *)

Lemma queueToRenderer_frame env p b p' :
  queueToRenderer env p b = Ok p' ->
  thread_ p' = thread_ p /\ thread_status_ p' = thread_status_ p /\
  decoder_ p' = decoder_ p /\ format_ p' = format_ p /\
  in_queue_ p' = in_queue_ p /\
  last_ts_transform_valid_ p' = last_ts_transform_valid_ p /\
  last_ts_transform_ p' = last_ts_transform_ p /\
  last_volume_ p' = last_volume_ p.
Proof.
  unfold queueToRenderer.
  destruct (kKeyTime (mb_meta b)); [|discriminate].
  destruct (renderer_ p); cbn.
  - repeat match goal with |- context [if ?c then _ else _] => destruct c end;
      intros H; inversion H; subst; repeat split.
  - repeat match goal with |- context [if ?c then _ else _] => destruct c; cbn end;
      intros H; inversion H; subst; repeat split.
Qed.

Lemma stopAndCleanupRenderer_frame p :
  thread_ (stopAndCleanupRenderer p) = thread_ p /\
  thread_status_ (stopAndCleanupRenderer p) = thread_status_ p /\
  decoder_ (stopAndCleanupRenderer p) = decoder_ p /\
  format_ (stopAndCleanupRenderer p) = format_ p /\
  in_queue_ (stopAndCleanupRenderer p) = in_queue_ p /\
  renderer_ (stopAndCleanupRenderer p) = None.
Proof.
  unfold stopAndCleanupRenderer. destruct (renderer_ p) eqn:E; repeat split; assumption.
Qed.

Lemma setRenderTSTransform_frame p trans :
  thread_ (setRenderTSTransform p trans) = thread_ p /\
  thread_status_ (setRenderTSTransform p trans) = thread_status_ p /\
  decoder_ (setRenderTSTransform p trans) = decoder_ p /\
  format_ (setRenderTSTransform p trans) = format_ p /\
  in_queue_ (setRenderTSTransform p trans) = in_queue_ p /\
  last_volume_ (setRenderTSTransform p trans) = last_volume_ p.
Proof.
  unfold setRenderTSTransform. destruct (_ && _); [repeat split|]. cbn.
  destruct (renderer_ p); repeat split.
Qed.

Lemma setRenderVolume_frame p volume :
  thread_ (setRenderVolume p volume) = thread_ p /\
  thread_status_ (setRenderVolume p volume) = thread_status_ p /\
  decoder_ (setRenderVolume p volume) = decoder_ p /\
  format_ (setRenderVolume p volume) = format_ p /\
  in_queue_ (setRenderVolume p volume) = in_queue_ p /\
  last_ts_transform_valid_ (setRenderVolume p volume) = last_ts_transform_valid_ p /\
  last_ts_transform_ (setRenderVolume p volume) = last_ts_transform_ p.
Proof.
  unfold setRenderVolume. destruct (_ =? _); [repeat split|]. cbn.
  destruct (renderer_ p); repeat split.
Qed.

Lemma engine_inv_ext p p' :
  thread_ p' = thread_ p -> thread_status_ p' = thread_status_ p ->
  decoder_ p' = decoder_ p -> format_ p' = format_ p ->
  engine_inv p -> engine_inv p'.
Proof.
  unfold engine_inv, pump_sane. intros -> -> -> ->. exact (fun H => H).
Qed.

Lemma init_sane_never_aborts create run_res p params c :
  pump_sane p -> init create run_res p params <> Aborted c.
Proof.
  intros Sn. unfold init.
  destruct (decoder_ p) eqn:D; [discriminate|].
  destruct params as [m|]; [|discriminate].
  destruct (kKeyChannelCount m); [|discriminate].
  destruct (kKeySampleRate m); [|discriminate].
  cbn [thread_status_ set_format_sample_rate_ set_format_channels_].
  rewrite (Sn D). replace (OK =? OK) with true by reflexivity. cbn [negb].
  destruct (create m); [destruct (run_res =? OK)|]; cbn; discriminate.
Qed.

Lemma workThread_iteration_frame p c d p' c' ctl :
  workThread_iteration p c d = Ok (p', c', ctl) ->
  thread_ p' = thread_ p /\ decoder_ p' = decoder_ p /\ format_ p' = format_ p /\
  in_queue_ p' = in_queue_ p /\
  (thread_status_ p' = thread_status_ p \/ ctl = Broke).
Proof.
  unfold workThread_iteration.
  destruct (exitPending (thread_ p)).
  { intros H; inversion H; subst. repeat split. left; reflexivity. }
  destruct (stopAndCleanupRenderer_frame p) as (T & S & D & F & Q & _).
  destruct (ds_res d =? INFO_FORMAT_CHANGED).
  - replace (OK =? OK) with true by reflexivity. cbn [negb].
    destruct (ds_bufOut d) as [b|].
    + destruct (queueToRenderer (ds_render d) (stopAndCleanupRenderer p) b) eqn:R;
        cbn [bind]; [|discriminate].
      apply queueToRenderer_frame in R. destruct R as (T' & S' & D' & F' & Q' & _).
      intros H; inversion H; subst.
      repeat split; try congruence. left; congruence.
    + intros H; inversion H; subst. repeat split; try assumption. left; assumption.
  - destruct (negb (ds_res d =? OK)).
    + destruct (ds_bufOut d); [discriminate|].
      match goal with |- context [if ?c then _ else _] => destruct c end;
        intros H; inversion H; subst; repeat split; auto.
    + destruct (ds_bufOut d) as [b|].
      * destruct (queueToRenderer (ds_render d) p b) eqn:R; cbn [bind]; [|discriminate].
        apply queueToRenderer_frame in R. destruct R as (T' & S' & D' & F' & Q' & _).
        intros H; inversion H; subst. repeat split; try assumption. left; assumption.
      * intros H; inversion H; subst. repeat split. left; reflexivity.
Qed.

Lemma workThread_loop_frame ds : forall p c p' c' ctl,
  workThread_loop p c ds = Ok (p', c', ctl) ->
  thread_ p' = thread_ p /\ decoder_ p' = decoder_ p /\ format_ p' = format_ p /\
  in_queue_ p' = in_queue_ p.
Proof.
  induction ds as [|d ds IH]; intros p c p' c' ctl; cbn [workThread_loop].
  - intros H; inversion H; subst. repeat split.
  - destruct (workThread_iteration p c d) as [[[p1 c1] ctl1]|] eqn:I; cbn [bind];
      [|discriminate].
    apply workThread_iteration_frame in I. destruct I as (T & D & F & Q & _).
    destruct ctl1.
    + intros H. apply IH in H. destruct H as (T' & D' & F' & Q').
      repeat split; congruence.
    + intros H; inversion H; subst. repeat split; assumption.
    + intros H; inversion H; subst. repeat split; assumption.
Qed.

Lemma init_engine_inv create run_res p params res p' :
  engine_inv p -> init create run_res p params = Ok (res, p') -> engine_inv p'.
Proof.
  intros (Sn & Pair & Run). unfold init.
  destruct (decoder_ p) eqn:D.
  { intros H; inversion H; subst. unfold engine_inv, pump_sane. rewrite D.
    repeat split; try congruence; try (apply Pair); rewrite D in Pair; tauto. }
  assert (R : running (thread_ p) = false).
  { destruct (running (thread_ p)); [|reflexivity]. exfalso. apply Run; reflexivity. }
  assert (F : format_ p = None) by (apply Pair; reflexivity).
  assert (I0 : engine_inv p).
  { unfold engine_inv, pump_sane. rewrite D. repeat split; auto; congruence. }
  destruct params as [m|]; [|intros H; inversion H; subst; exact I0].
  destruct (kKeyChannelCount m) as [ch|]; [|intros H; inversion H; subst; exact I0].
  destruct (kKeySampleRate m) as [sr|].
  2:{ intros H; inversion H; subst. revert I0. apply engine_inv_ext; reflexivity. }
  cbn [thread_status_ set_format_sample_rate_ set_format_channels_].
  pose proof (Sn D) as St.
  rewrite St. replace (OK =? OK) with true by reflexivity. cbn [negb].
  destruct (create m).
  - destruct (run_res =? OK) eqn:E.
    + rewrite E. cbn [negb]. intros H; inversion H; subst.
      unfold engine_inv, pump_sane. cbn. repeat split; congruence.
    + rewrite E. cbn [negb]. intros H; inversion H; subst.
      unfold engine_inv, pump_sane. cbn. rewrite R. repeat split; congruence.
  - replace (UNKNOWN_ERROR =? OK) with false by reflexivity. cbn [negb].
    intros H; inversion H; subst.
    unfold engine_inv, pump_sane. cbn. rewrite R. repeat split; congruence.
Qed.

Lemma shutdown_engine_inv p : engine_inv (snd (shutdown p)).
Proof.
  unfold shutdown, shutdown_l, requestExitAndWait, requestExit, thread_exit,
    engine_inv, pump_sane.
  cbn. destruct (running (thread_ p)) eqn:R; cbn; rewrite ?R;
    repeat split; congruence.
Qed.

Lemma call_engine_inv p c p' r :
  engine_inv p -> call p c = Ok (p', r) -> engine_inv p'.
Proof.
  intros I. destruct c; cbn [call].
  - destruct (init create run_res p params) as [[res p1]|] eqn:E; cbn [bind];
      [|discriminate].
    intros H; inversion H; subst. eapply init_engine_inv; eassumption.
  - unfold queueForDecode. destruct buf.
    + destruct (negb _); intros H; inversion H; subst; [exact I|].
      revert I. apply engine_inv_ext; reflexivity.
    + intros H; inversion H; subst. exact I.
  - intros H; inversion H; subst.
    destruct (setRenderTSTransform_frame p trans) as (T & S & D & F & _).
    revert I. apply engine_inv_ext; assumption.
  - intros H; inversion H; subst.
    destruct (setRenderVolume_frame p volume) as (T & S & D & F & _).
    revert I. apply engine_inv_ext; assumption.
  - destruct (shutdown p) as [res p1] eqn:E. intros H; inversion H; subst.
    change p' with (snd (res, p')). rewrite <- E. apply shutdown_engine_inv.
  - destruct (queueToRenderer env p decoded_sample) eqn:Q; cbn [bind]; [|discriminate].
    intros H; inversion H; subst.
    apply queueToRenderer_frame in Q. destruct Q as (T & S & D & F & _).
    revert I. apply engine_inv_ext; assumption.
  - intros H; inversion H; subst.
    destruct (stopAndCleanupRenderer_frame p) as (T & S & D & F & _).
    revert I. apply engine_inv_ext; assumption.
Qed.

Lemma workThread_engine_inv p start_res ds p' c' returned :
  engine_inv p -> workThread p start_res ds = Ok (p', c', returned) -> engine_inv p'.
Proof.
  intros (Sn & Pair & Run). unfold workThread.
  destruct (decoder_ p) as [dec|] eqn:D; [|discriminate].
  destruct (format_ p) as [f|] eqn:F; [|discriminate].
  cbn [thread_status_ set_thread_status_].
  destruct (negb (start_res =? OK)).
  - intros H; inversion H; subst. unfold engine_inv, pump_sane, thread_exit. cbn.
    rewrite D, F. repeat split; congruence.
  - destruct (workThread_loop _ _ ds) as [[[p1 c1] ctl]|] eqn:L; cbn [bind];
      [|discriminate].
    apply workThread_loop_frame in L. cbn in L. destruct L as (T' & D' & F' & _).
    destruct (stopAndCleanupRenderer_frame p1) as (T2 & _ & D2 & F2 & _).
    destruct ctl; intros H; inversion H; subst;
      unfold engine_inv, pump_sane, thread_exit; cbn;
      rewrite ?D2, ?F2, ?T', D', F', ?D, ?F; repeat split; congruence.
Qed.

(** X8.  The decode engine and its format are held together.  A pump as
    constructed holds neither an engine nor a format, has status OK and no
    worker running; each member function and the worker thread keep it
    true that the engine and the format are both held or both absent, that
    a pump without engine has status OK, and that the worker runs only while
    the engine is held.  Hence [init]'s CHECKs do not fail, and a worker
    thread that runs passes the two CHECKs at the start of [workThread]. *)
Theorem engine_and_format_are_held_together :
  engine_inv new /\
  (forall p c p' r, engine_inv p -> call p c = Ok (p', r) -> engine_inv p') /\
  (forall p start_res ds p' c' returned,
     engine_inv p -> workThread p start_res ds = Ok (p', c', returned) ->
     engine_inv p') /\
  (forall p, engine_inv p ->
     (forall create run_res params c, init create run_res p params <> Aborted c) /\
     (running (thread_ p) = true ->
      forall start_res ds c, workThread p start_res ds = Aborted c ->
        c <> CHECK_decoder_not_NULL /\ c <> CHECK_format_not_NULL)).
Proof.
  split; [|split; [|split]].
  - unfold engine_inv, pump_sane. cbn. repeat split; congruence.
  - intros. eapply call_engine_inv; eassumption.
  - intros. eapply workThread_engine_inv; eassumption.
  - intros p (Sn & Pair & Run). split.
    + intros create run_res params c. apply init_sane_never_aborts. exact Sn.
    + intros R start_res ds c. unfold workThread.
      destruct (decoder_ p) eqn:D; [|exfalso; apply (Run R); reflexivity].
      destruct (format_ p) eqn:F.
      2:{ exfalso. apply (Run R). apply Pair. reflexivity. }
      cbn [thread_status_ set_thread_status_].
      destruct (negb (start_res =? OK)); [discriminate|].
      destruct (workThread_loop _ _ ds) as [[[p1 c1] ctl]|] eqn:L; cbn [bind].
      * destruct ctl; discriminate.
      * intros H; inversion H; subst. clear H.
        assert (G : forall ds p c x, workThread_loop p c ds = Aborted x ->
                      x <> CHECK_decoder_not_NULL /\ x <> CHECK_format_not_NULL).
        { clear. induction ds as [|d ds IH]; intros p c x; cbn [workThread_loop];
            [discriminate|].
          destruct (workThread_iteration p c d) as [[[p1 c1] ctl1]|] eqn:I; cbn [bind].
          - destruct ctl1; [apply IH|discriminate|discriminate].
          - intros H; inversion H; subst. clear H. revert I.
            unfold workThread_iteration.
            destruct (exitPending (thread_ p)); [discriminate|].
            destruct (ds_res d =? INFO_FORMAT_CHANGED).
            + replace (OK =? OK) with true by reflexivity. cbn [negb].
              destruct (ds_bufOut d) as [b|]; [|discriminate].
              unfold queueToRenderer.
              destruct (kKeyTime (mb_meta b));
                [|intros H; inversion H; split; discriminate].
              destruct (renderer_ (stopAndCleanupRenderer p)); cbn;
                repeat match goal with
                       | |- context [if ?c then _ else _] => destruct c; cbn
                       end;
                try discriminate; intros H; inversion H; split; discriminate.
            + destruct (negb (ds_res d =? OK)).
              * destruct (ds_bufOut d);
                  [intros H; inversion H; split; discriminate|].
                match goal with |- context [if ?c then _ else _] => destruct c end;
                  discriminate.
              * destruct (ds_bufOut d) as [b|]; [|discriminate].
                unfold queueToRenderer.
                destruct (kKeyTime (mb_meta b));
                  [|intros H; inversion H; split; discriminate].
                destruct (renderer_ p); cbn;
                  repeat match goal with
                         | |- context [if ?c then _ else _] => destruct c; cbn
                         end;
                  try discriminate; intros H; inversion H; split; discriminate. }
        eapply G; eassumption.
Qed.


Lemma pump_ext (p q : t) :
  thread_ p = thread_ q -> thread_status_ p = thread_status_ q ->
  decoder_ p = decoder_ q -> format_ p = format_ q ->
  format_channels_ p = format_channels_ q ->
  format_sample_rate_ p = format_sample_rate_ q ->
  in_queue_ p = in_queue_ q -> renderer_ p = renderer_ q ->
  last_queued_pts_valid_ p = last_queued_pts_valid_ q ->
  last_queued_pts_ p = last_queued_pts_ q ->
  last_ts_transform_valid_ p = last_ts_transform_valid_ q ->
  last_ts_transform_ p = last_ts_transform_ q ->
  last_volume_ p = last_volume_ q ->
  p = q.
Proof. destruct p, q; cbn; intros; subst; reflexivity. Qed.

Lemma shutdown_eq p :
  shutdown p =
  (OK, mk (mkThread false true) OK None None (format_channels_ p)
          (format_sample_rate_ p) []
          (if running (thread_ p) then None else renderer_ p)
          false (last_queued_pts_ p) false (last_ts_transform_ p) 0xFF).
Proof.
  unfold shutdown, shutdown_l. f_equal.
  apply pump_ext; unfold requestExitAndWait, requestExit, thread_exit,
    stopAndCleanupRenderer; lazy beta iota zeta delta [thread_ thread_status_ decoder_
      format_ format_channels_ format_sample_rate_ in_queue_ renderer_
      last_queued_pts_valid_ last_queued_pts_ last_ts_transform_valid_
      last_ts_transform_ last_volume_ running exitPending
      set_format_ set_decoder_ set_thread_status_ set_last_volume_
      set_last_ts_transform_valid_ set_last_queued_pts_valid_ set_in_queue_
      set_thread_ set_renderer_];
    destruct p as [[run ex] st dec fmt ch sr q [r|] v1 pts v2 tr vol];
    destruct run; reflexivity.
Qed.

Lemma shutdown_twice p : shutdown (snd (shutdown p)) = (OK, snd (shutdown p)).
Proof.
  rewrite (shutdown_eq p). cbn [snd]. rewrite shutdown_eq.
  cbn [format_channels_ format_sample_rate_ thread_ running renderer_
       last_queued_pts_ last_ts_transform_].
  reflexivity.
Qed.

(** ** shutdown *)

(** X9.  [shutdown] brings every pump, also one with a terminal status, back
    to a pump without engine: it returns OK, the status is OK, engine,
    format and queue are gone, the worker is not running, and the volume
    and the transform are forgotten.  It is idempotent.  Afterwards
    [queueForDecode] accepts units again and [init] does not abort. *)
Theorem shutdown_resets_the_pump p :
  let p' := snd (shutdown p) in
  fst (shutdown p) = OK /\
  thread_status_ p' = OK /\ decoder_ p' = None /\ format_ p' = None /\
  in_queue_ p' = [] /\ running (thread_ p') = false /\
  last_queued_pts_valid_ p' = false /\ transform_held p' = None /\
  last_volume_ p' = 0xFF /\
  (running (thread_ p) = true -> renderer_ p' = None) /\
  shutdown p' = (OK, p') /\
  (forall b, queueForDecode p' (Some b) = (OK, set_in_queue_ [b] p')) /\
  (forall create run_res params c, init create run_res p' params <> Aborted c).
Proof.
  rewrite shutdown_eq. cbn [fst snd].
  set (p' := mk _ _ _ _ _ _ _ _ _ _ _ _ _).
  repeat (split; [reflexivity|]).
  split; [intros R; unfold p'; cbn [renderer_]; rewrite R; reflexivity|].
  split.
  { pose proof (shutdown_twice p) as T. rewrite (shutdown_eq p) in T.
    cbn [snd] in T. exact T. }
  split; [intros b; reflexivity|].
  intros create run_res params c. apply init_sane_never_aborts. intros _. reflexivity.
Qed.

(** ** init *)

(** The pump that a successful [init] leaves. *)
Lemma init_succeeds create run_res p m ch sr :
  decoder_ p = None ->
  thread_status_ p = OK ->
  kKeyChannelCount m = Some ch ->
  kKeySampleRate m = Some sr ->
  create m = true ->
  run_res = OK ->
  init create run_res p (Some m)
  = Ok (OK, set_thread_ (mkThread true false)
              (set_decoder_ (Some (mkOMXCodec m))
                 (set_format_ (Some m)
                    (set_format_sample_rate_ sr (set_format_channels_ ch p))))).
Proof.
  intros Hd Hs Hch Hsr Hc Hr. subst run_res. unfold init. rewrite Hd, Hch, Hsr.
  cbn [thread_status_ set_format_sample_rate_ set_format_channels_]. rewrite Hs, Hc.
  reflexivity.
Qed.

(** The pump that [init] leaves on a pump without engine, whether the engine
    and the worker come up or not: [init] returns OK in both cases. *)
Lemma init_outcome create run_res p m ch sr :
  decoder_ p = None ->
  thread_status_ p = OK ->
  kKeyChannelCount m = Some ch ->
  kKeySampleRate m = Some sr ->
  exists p',
    init create run_res p (Some m) = Ok (OK, p') /\
    thread_status_ p' = OK /\ in_queue_ p' = in_queue_ p /\
    format_channels_ p' = ch /\ format_sample_rate_ p' = sr /\
    (create m = true -> run_res = OK ->
     decoder_ p' = Some (mkOMXCodec m) /\ format_ p' = Some m /\
     thread_ p' = mkThread true false) /\
    (create m = false \/ run_res <> OK ->
     decoder_ p' = None /\ format_ p' = None /\ thread_ p' = thread_ p).
Proof.
  intros Hd Hs Hch Hsr. destruct p. cbn in Hd, Hs. subst.
  unfold init. cbn. rewrite Hch, Hsr. cbn.
  destruct (create m) eqn:C; [destruct (run_res =? OK) eqn:E|]; cbn; rewrite ?E; cbn;
    (eexists; split; [reflexivity|]); cbn;
    (split; [reflexivity|]); (split; [reflexivity|]);
    (split; [reflexivity|]); (split; [reflexivity|]).
  - split; [intros _ _; repeat split|].
    intros [F|F]; [discriminate F|]. apply Z.eqb_eq in E. contradiction.
  - split; [|intros _; repeat split].
    intros _ R. apply Z.eqb_neq in E. contradiction.
  - split; [|intros _; repeat split]. intros F. discriminate F.
Qed.

(** X10.  A successful [init].  On a pump without engine and with status OK, a
    format with channel count and sample rate, an engine that
    [OMXCodec::Create] delivers and a worker thread that starts, [init]
    returns OK holding the engine and the format, with the worker running
    and no exit requested; the queue, the track, the volume and the
    transform are as before.  Units queued before [init] are therefore the
    first that [read] hands to the engine, and a second [init], with
    whatever format, changes nothing. *)
Theorem init_starts_the_worker create run_res p m ch sr :
  decoder_ p = None ->
  thread_status_ p = OK ->
  kKeyChannelCount m = Some ch ->
  kKeySampleRate m = Some sr ->
  create m = true ->
  run_res = OK ->
  exists p',
    init create run_res p (Some m) = Ok (OK, p') /\
    decoder_ p' = Some (mkOMXCodec m) /\ format_ p' = Some m /\
    format_channels_ p' = ch /\ format_sample_rate_ p' = sr /\
    thread_ p' = mkThread true false /\ thread_status_ p' = OK /\
    in_queue_ p' = in_queue_ p /\ renderer_ p' = renderer_ p /\
    last_volume_ p' = last_volume_ p /\ transform_held p' = transform_held p /\
    (forall b q, in_queue_ p = b :: q ->
       read p' = Ok (Returns OK (Some b) (set_in_queue_ q p'))) /\
    (in_queue_ p = [] -> read p' = Ok Waits) /\
    (forall create' run_res' params',
       init create' run_res' p' params' = Ok (OK, p')).
Proof.
  intros Hd Hs Hch Hsr Hc Hr. subst run_res. unfold init at 1. rewrite Hd, Hch, Hsr.
  cbn [thread_status_ set_format_sample_rate_ set_format_channels_]. rewrite Hs, Hc.
  replace (OK =? OK) with true by reflexivity. cbn [negb].
  eexists. split; [reflexivity|].
  cbn. repeat (split; [first [reflexivity|assumption]|]).
  split; [|split].
  - intros b q Q. unfold read. cbn. rewrite Q. reflexivity.
  - intros Q. unfold read. cbn. rewrite Q. reflexivity.
  - intros. reflexivity.
Qed.

(** ** The audio track *)

Lemma LinearTransform_eqb_eq a b : LinearTransform_eqb a b = true -> a = b.
Proof.
  unfold LinearTransform_eqb. intros H.
  repeat (apply andb_true_iff in H; destruct H as [H ?]).
  repeat match goal with E : (_ =? _) = true |- _ => apply Z.eqb_eq in E end.
  destruct a, b; cbn in *; subst; reflexivity.
Qed.

Lemma init_frame_render create run_res p params res p' :
  init create run_res p params = Ok (res, p') ->
  thread_status_ p' = thread_status_ p /\ in_queue_ p' = in_queue_ p /\
  renderer_ p' = renderer_ p /\ last_volume_ p' = last_volume_ p /\
  last_ts_transform_valid_ p' = last_ts_transform_valid_ p /\
  last_ts_transform_ p' = last_ts_transform_ p.
Proof.
  destruct p. unfold init. cbn.
  destruct decoder_0; [intros H; inversion H; subst; cbn; repeat split; reflexivity|].
  destruct params as [m|]; [|intros H; inversion H; subst; cbn; repeat split; reflexivity].
  destruct (kKeyChannelCount m); [|intros H; inversion H; subst; cbn; repeat split; reflexivity].
  destruct (kKeySampleRate m); [|intros H; inversion H; subst; cbn; repeat split; reflexivity].
  destruct (negb (thread_status_0 =? OK)); [discriminate|].
  destruct (create m); [destruct (run_res =? OK) eqn:E|]; cbn; rewrite ?E; cbn;
    intros H; inversion H; subst; cbn; repeat split; reflexivity.
Qed.

Lemma call_sane p c p' r : pump_sane p -> call p c = Ok (p', r) -> pump_sane p'.
Proof.
  intros Sn. destruct c; cbn [call].
  - destruct (init create run_res p params) as [[res p1]|] eqn:E; cbn [bind];
      [|discriminate].
    intros H; inversion H; subst. clear H.
    destruct (init_frame_render _ _ _ _ E) as (S & _).
    destruct (decoder_ p) eqn:D.
    + unfold init in E. rewrite D in E. inversion E; subst. exact Sn.
    + intros _. rewrite S. exact (Sn D).
  - unfold queueForDecode. destruct buf.
    + destruct (negb _); intros H; inversion H; subst; exact Sn.
    + intros H; inversion H; subst. exact Sn.
  - intros H; inversion H; subst.
    destruct (setRenderTSTransform_frame p trans) as (_ & S & D & _).
    unfold pump_sane. rewrite S, D. exact Sn.
  - intros H; inversion H; subst.
    destruct (setRenderVolume_frame p volume) as (_ & S & D & _).
    unfold pump_sane. rewrite S, D. exact Sn.
  - destruct (shutdown p) as [res p1] eqn:E. intros H; inversion H; subst.
    rewrite shutdown_eq in E. inversion E; subst. intros _. reflexivity.
  - destruct (queueToRenderer env p decoded_sample) eqn:Q; cbn [bind]; [|discriminate].
    intros H; inversion H; subst.
    apply queueToRenderer_frame in Q. destruct Q as (_ & S & D & _).
    unfold pump_sane. rewrite S, D. exact Sn.
  - intros H; inversion H; subst.
    destruct (stopAndCleanupRenderer_frame p) as (_ & S & D & _).
    unfold pump_sane. rewrite S, D. exact Sn.
Qed.

Lemma volume_given_cons v c cs :
  volume_given v (c :: cs) =
  volume_given (match c with SetRenderVolume v' => v' | _ => v end) cs.
Proof. reflexivity. Qed.

Lemma transform_given_cons t c cs :
  transform_given t (c :: cs) =
  transform_given (match c with SetRenderTSTransform t' => Some t' | _ => t end) cs.
Proof. reflexivity. Qed.

(** One call other than [shutdown], seen from the audio track. *)
Lemma call_track p c p' r :
  is_Shutdown c = false ->
  track_inv p ->
  call p c = Ok (p', r) ->
  track_inv p' /\
  last_volume_ p' = volume_given (last_volume_ p) [c] /\
  transform_held p' = transform_given (transform_held p) [c].
Proof.
  intros Hc I. unfold track_inv, transform_held in *.
  destruct c; cbn [call volume_given transform_given fold_left]; try discriminate Hc.
  - destruct (init create run_res p params) as [[res p1]|] eqn:E; cbn [bind];
      [|discriminate].
    intros H; inversion H; subst. clear H.
    destruct (init_frame_render _ _ _ _ E) as (_ & _ & R & V & TV & T).
    rewrite R, V, TV, T. (split; [exact I|split; reflexivity]).
  - unfold queueForDecode. destruct buf.
    + destruct (negb _); intros H; inversion H; subst; cbn;
        (split; [exact I|split; reflexivity]).
    + intros H; inversion H; subst. (split; [exact I|split; reflexivity]).
  - intros H; inversion H; subst. clear H. unfold setRenderTSTransform.
    destruct (last_ts_transform_valid_ p) eqn:TV; cbn [andb].
    + destruct (LinearTransform_eqb trans (last_ts_transform_ p)) eqn:Q.
      * apply LinearTransform_eqb_eq in Q. subst trans. rewrite TV.
        (split; [exact I|split; reflexivity]).
      * cbn. destruct (renderer_ p) as [r0|] eqn:R; cbn.
        -- split; [|split; reflexivity].
           intros r1 E; inversion E; subst. cbn.
           destruct (I _ eq_refl) as (_ & _ & V). repeat split. exact V.
        -- split; [|split; reflexivity]. intros r1 E. rewrite R in E. discriminate.
    + cbn. destruct (renderer_ p) as [r0|] eqn:R; cbn.
      * destruct (I _ eq_refl) as (X & _). discriminate.
      * split; [|split; reflexivity]. intros r1 E. rewrite R in E. discriminate.
  - intros H; inversion H; subst. clear H. unfold setRenderVolume.
    destruct (volume =? last_volume_ p) eqn:Q.
    + apply Z.eqb_eq in Q. subst volume. (split; [exact I|split; reflexivity]).
    + cbn. destruct (renderer_ p) as [r0|] eqn:R; cbn.
      * split; [|split; reflexivity].
        intros r1 E; inversion E; subst. cbn.
        destruct (I _ eq_refl) as (TV & T & _). repeat split; assumption.
      * split; [|split; reflexivity]. intros r1 E. rewrite R in E. discriminate.
  - destruct (queueToRenderer env p decoded_sample) eqn:Q; cbn [bind]; [|discriminate].
    intros H; inversion H; subst. clear H.
    destruct (queueToRenderer_frame _ _ _ Q) as (_ & _ & _ & _ & _ & TV & T & V).
    rewrite TV, T, V. split; [|split; reflexivity].
    revert Q. unfold queueToRenderer.
    destruct (kKeyTime (mb_meta decoded_sample)); [|discriminate].
    destruct (renderer_ p) as [r0|] eqn:R; cbn.
    + destruct (I _ eq_refl) as (X & Y & Z0).
      repeat match goal with |- context [if ?c then _ else _] => destruct c end;
        intros H; inversion H; subst; cbn; intros r1 E; inversion E; subst; cbn;
        repeat split; assumption.
    + destruct (last_ts_transform_valid_ p) eqn:TV0;
        repeat match goal with |- context [if ?c then _ else _] => destruct c; cbn end;
        try discriminate;
        intros H; inversion H; subst; cbn; intros r1 E; inversion E; subst; cbn;
        repeat split.
  - intros H; inversion H; subst. clear H.
    unfold stopAndCleanupRenderer.
    destruct (renderer_ p) as [r0|] eqn:R; cbn.
    + split; [|split; reflexivity]. intros r1 E. discriminate.
    + split; [|split; reflexivity]. intros r1 E. rewrite R in E. discriminate.
Qed.

Lemma calls_track cs : forall p p' rs,
  no_Shutdown cs = true ->
  track_inv p ->
  calls p cs = Ok (p', rs) ->
  track_inv p' /\
  last_volume_ p' = volume_given (last_volume_ p) cs /\
  transform_held p' = transform_given (transform_held p) cs.
Proof.
  induction cs as [|c cs IH]; intros p p' rs Hall I; cbn [calls].
  - intros H; inversion H; subst. split; [exact I|split; reflexivity].
  - unfold no_Shutdown in Hall. cbn [forallb] in Hall.
    apply andb_true_iff in Hall. destruct Hall as [Hc Hall].
    apply negb_true_iff in Hc.
    destruct (call p c) as [[p1 r]|] eqn:Hcall; cbn [bind]; [|discriminate].
    destruct (@call_track p c p1 r Hc I Hcall) as (I1 & V1 & T1).
    destruct (calls p1 cs) as [[p2 rs2]|] eqn:Hcalls; cbn [bind]; [|discriminate].
    destruct (IH p1 p2 rs2 Hall I1 Hcalls) as (I2 & V2 & T2).
    intros H.
    assert (p' = p2) by (destruct c; destruct r; inversion H; reflexivity).
    subst p'. split; [exact I2|].
    rewrite volume_given_cons, transform_given_cons.
    cbn [volume_given transform_given fold_left] in V1, T1.
    rewrite <- V1, <- T1. split; assumption.
Qed.

(** X11.  The audio track plays with the volume and the transform given last.
    After any calls on a new pump, [shutdown] not among them, the pump holds
    the volume of the last [setRenderVolume] (0xFF when there was none) and
    the transform of the last [setRenderTSTransform] (none when there was
    none); a track that is live has been given that volume and that
    transform. *)
Theorem track_follows_volume_and_transform cs p rs :
  no_Shutdown cs = true ->
  calls new cs = Ok (p, rs) ->
  last_volume_ p = volume_given 0xFF cs /\
  transform_held p = transform_given None cs /\
  forall r, renderer_ p = Some r ->
    tat_volume r = volume_given 0xFF cs /\
    transform_given None cs = Some (tat_transform r).
Proof.
  intros Hall H.
  assert (I : track_inv new) by (intros r E; discriminate E).
  destruct (@calls_track cs new p rs Hall I H) as (I' & V & T).
  change (transform_held new) with (@None LinearTransform) in T.
  change (last_volume_ new) with 0xFF in V.
  split; [exact V|]. split; [exact T|].
  intros r R. destruct (I' _ R) as (TV & Tr & Vr).
  split; [rewrite Vr; exact V|].
  rewrite <- T. unfold transform_held. rewrite TV, Tr. reflexivity.
Qed.

(** ** The CHECKs of queueToRenderer *)

Lemma call_keeps_transform p c p' r :
  is_Shutdown c = false ->
  last_ts_transform_valid_ p = true ->
  call p c = Ok (p', r) ->
  last_ts_transform_valid_ p' = true.
Proof.
  intros Hc V. destruct c; cbn [call]; try discriminate Hc.
  - destruct (init create run_res p params) as [[res p1]|] eqn:E; cbn [bind];
      [|discriminate].
    intros H; inversion H; subst.
    destruct (init_frame_render _ _ _ _ E) as (_ & _ & _ & _ & TV & _). congruence.
  - unfold queueForDecode. destruct buf.
    + destruct (negb _); intros H; inversion H; subst; exact V.
    + intros H; inversion H; subst. exact V.
  - intros H; inversion H; subst. unfold setRenderTSTransform. rewrite V. cbn [andb].
    destruct (LinearTransform_eqb _ _); [exact V|]. cbn.
    destruct (renderer_ p); reflexivity.
  - intros H; inversion H; subst.
    destruct (setRenderVolume_frame p volume) as (_ & _ & _ & _ & _ & TV & _). congruence.
  - destruct (queueToRenderer env p decoded_sample) eqn:Q; cbn [bind]; [|discriminate].
    intros H; inversion H; subst.
    destruct (queueToRenderer_frame _ _ _ Q) as (_ & _ & _ & _ & _ & TV & _). congruence.
  - intros H; inversion H; subst. unfold stopAndCleanupRenderer.
    destruct (renderer_ p); exact V.
Qed.

(** The call that aborts is a [queueToRenderer], at one of its two CHECKs. *)
Lemma call_abort_site p c x :
  pump_sane p ->
  call p c = Aborted x ->
  exists env b, c = QueueToRenderer env b /\
    (kKeyTime (mb_meta b) = None /\ x = CHECK_sample_has_timestamp \/
     kKeyTime (mb_meta b) <> None /\ last_ts_transform_valid_ p = false /\
     x = CHECK_last_ts_transform_valid).
Proof.
  intros Sn. destruct c; cbn [call].
  - destruct (init create run_res p params) as [[res p1]|] eqn:E; cbn [bind];
      [discriminate|].
    exfalso. exact (init_sane_never_aborts _ _ _ Sn E).
  - destruct (queueForDecode p buf). discriminate.
  - discriminate.
  - discriminate.
  - destruct (shutdown p). discriminate.
  - destruct (queueToRenderer env p decoded_sample) eqn:Q; cbn [bind]; [discriminate|].
    intros H; inversion H; subst. clear H. exists env, decoded_sample.
    split; [reflexivity|]. revert Q. unfold queueToRenderer.
    destruct (kKeyTime (mb_meta decoded_sample)) eqn:K.
    + destruct (renderer_ p); cbn.
      * repeat match goal with |- context [if ?c then _ else _] => destruct c end;
          discriminate.
      * destruct (last_ts_transform_valid_ p) eqn:TV;
          repeat match goal with |- context [if ?c then _ else _] => destruct c; cbn end;
          try discriminate;
          intros H; inversion H; subst; right; repeat split; congruence.
    + intros H; inversion H; subst. left. split; reflexivity.
  - discriminate.
Qed.

Lemma call_runs p c :
  pump_sane p ->
  last_ts_transform_valid_ p = true ->
  samples_timed [c] = true ->
  exists p' r, call p c = Ok (p', r).
Proof.
  intros Sn V St.
  destruct (call p c) as [[p' r]|x] eqn:E; [eexists; eexists; reflexivity|].
  exfalso. destruct (call_abort_site _ Sn E) as (env & b & -> & [(K & _)|(_ & TV & _)]).
  - unfold samples_timed in St. cbn in St. rewrite K in St. discriminate.
  - congruence.
Qed.

(** X12.  Where the rendering of decoded samples aborts.  Calls on a pump that
    has status OK or holds an engine abort only in [queueToRenderer]: when
    the decoded sample has no timestamp, or when a track has to be set up
    and no transform is stored.  Once a transform is stored, and as long as
    [shutdown] is not called, only a sample without timestamp aborts; when
    all samples carry one, every call returns. *)
Theorem rendering_aborts_without_timestamp_or_transform cs : forall p,
  pump_sane p ->
  (forall x, calls p cs = Aborted x ->
     x = CHECK_sample_has_timestamp \/ x = CHECK_last_ts_transform_valid) /\
  (last_ts_transform_valid_ p = true -> no_Shutdown cs = true ->
     (forall x, calls p cs = Aborted x ->
        x = CHECK_sample_has_timestamp /\ samples_timed cs = false) /\
     (samples_timed cs = true -> exists p' rs, calls p cs = Ok (p', rs))).
Proof.
  induction cs as [|c cs IH]; intros p Sn.
  - split; [discriminate|]. intros _ _. split; [discriminate|].
    intros _. eexists; eexists; reflexivity.
  - cbn [calls].
    destruct (call p c) as [[p1 r]|x1] eqn:E; cbn [bind].
    + pose proof (call_sane _ Sn E) as Sn1.
      destruct (IH p1 Sn1) as (A1 & A2).
      assert (Pass : forall x,
                (' (p0, rs) <- calls p1 cs;;
                 match c, r with
                 | QueueForDecode _, Some res => Ok (p0, res :: rs)
                 | _, _ => Ok (p0, rs)
                 end) = Aborted x -> calls p1 cs = Aborted x).
      { intros x. destruct (calls p1 cs) as [[p2 rs]|]; cbn [bind]; [|exact (fun H => H)].
        destruct c; destruct r; discriminate. }
      split.
      * intros x H. apply A1. apply Pass. exact H.
      * intros V Hall. unfold no_Shutdown in Hall. cbn [forallb] in Hall.
        apply andb_true_iff in Hall. destruct Hall as [Hc Hall].
        apply negb_true_iff in Hc.
        pose proof (@call_keeps_transform p c p1 r Hc V E) as V1.
        destruct (A2 V1 Hall) as (B1 & B2). split.
        -- intros x H. destruct (B1 x (Pass x H)) as (X & T).
           split; [exact X|]. unfold samples_timed in *. cbn [forallb].
           rewrite T. apply andb_false_r.
        -- intros T. unfold samples_timed in T. cbn [forallb] in T.
           apply andb_true_iff in T. destruct T as [_ T].
           destruct (B2 T) as (p2 & rs & R). rewrite R. cbn [bind].
           destruct c; destruct r; eexists; eexists; reflexivity.
    + destruct (call_abort_site _ Sn E) as (env & b & -> & Site). split.
      * intros x H; inversion H; subst. destruct Site as [(_ & ->)|(_ & _ & ->)]; auto.
      * intros V _. split.
        -- intros x H; inversion H; subst.
           destruct Site as [(K & ->)|(_ & TV & _)]; [|congruence].
           split; [reflexivity|]. unfold samples_timed. cbn [forallb]. rewrite K.
           reflexivity.
        -- intros T. exfalso. unfold samples_timed in T. cbn [forallb] in T.
           apply andb_true_iff in T. destruct T as [T _].
           destruct Site as [(K & _)|(_ & TV & _)]; [|congruence].
           rewrite K in T. discriminate.
Qed.

(** ** What the worker gives the audio track *)

Lemma played_cons q d ds :
  played q (d :: ds) =
  played ((if ds_res d =? INFO_FORMAT_CHANGED then [] else q) ++ rendered d) ds.
Proof. reflexivity. Qed.

(** One iteration that leaves the loop running, seen from the track. *)
Lemma iteration_track p c d p1 c1 :
  workThread_iteration p c d = Ok (p1, c1, InLoop) ->
  track_setup_ok (ds_render d) = true ->
  track_queue p1 =
    (if ds_res d =? INFO_FORMAT_CHANGED then [] else track_queue p) ++ rendered d /\
  last_queued_pts_ p1 = last_pts (last_queued_pts_ p) (rendered d) /\
  last_queued_pts_valid_ p1 =
    match rendered d with [] => last_queued_pts_valid_ p | _ => true end.
Proof.
  unfold workThread_iteration, track_setup_ok, rendered, track_queue, last_pts.
  intros H Hs.
  apply andb_true_iff in Hs. destruct Hs as [Hs S3].
  apply andb_true_iff in Hs. destruct Hs as [S1 S2].
  revert H.
  destruct (exitPending (thread_ p)); [discriminate|].
  destruct (ds_res d =? INFO_FORMAT_CHANGED) eqn:FC.
  - rewrite orb_true_r. cbn [andb].
    replace (OK =? OK) with true by reflexivity. cbn [negb app].
    destruct (stopAndCleanupRenderer_frame p) as (_ & _ & _ & _ & _ & Rn).
    assert (Pv : last_queued_pts_valid_ (stopAndCleanupRenderer p)
                 = last_queued_pts_valid_ p)
      by (unfold stopAndCleanupRenderer; destruct (renderer_ p); reflexivity).
    assert (Pt : last_queued_pts_ (stopAndCleanupRenderer p) = last_queued_pts_ p)
      by (unfold stopAndCleanupRenderer; destruct (renderer_ p); reflexivity).
    assert (Tv : last_ts_transform_valid_ (stopAndCleanupRenderer p)
                 = last_ts_transform_valid_ p)
      by (unfold stopAndCleanupRenderer; destruct (renderer_ p); reflexivity).
    destruct (ds_bufOut d) as [b|].
    + unfold queueToRenderer. destruct (kKeyTime (mb_meta b)) as [ts|]; [|discriminate].
      rewrite Rn, S1, S2, S3. cbn [negb].
      destruct (last_ts_transform_valid_ (stopAndCleanupRenderer p)); cbn [negb bind];
        [|discriminate].
      destruct (allocateTimedBuffer_res (ds_render d) =? OK); cbn [negb andb].
      * destruct (queueTimedBuffer_res (ds_render d) =? OK); cbn [negb];
          intros H; inversion H; subst; cbn; rewrite ?Pv, ?Pt; repeat split.
      * intros H; inversion H; subst; cbn; rewrite ?Pv, ?Pt; repeat split.
    + intros H; inversion H; subst. rewrite Rn, Pv, Pt.
      destruct (_ && _); repeat split.
  - rewrite orb_false_r.
    destruct (ds_res d =? OK) eqn:RO; cbn [negb andb].
    + destruct (ds_bufOut d) as [b|].
      * unfold queueToRenderer. destruct (kKeyTime (mb_meta b)) as [ts|]; [|discriminate].
        destruct (renderer_ p) as [r|] eqn:Rn; cbn [bind].
        -- destruct (allocateTimedBuffer_res (ds_render d) =? OK); cbn [negb andb].
           ++ destruct (queueTimedBuffer_res (ds_render d) =? OK); cbn [negb];
                intros H; inversion H; subst; cbn; rewrite ?app_nil_r; repeat split.
           ++ intros H; inversion H; subst; cbn; rewrite ?app_nil_r; repeat split.
        -- rewrite S1, S2, S3. cbn [negb].
           destruct (last_ts_transform_valid_ p); cbn [negb bind]; [|discriminate].
           destruct (allocateTimedBuffer_res (ds_render d) =? OK); cbn [negb andb].
           ++ destruct (queueTimedBuffer_res (ds_render d) =? OK); cbn [negb];
                intros H; inversion H; subst; cbn; repeat split.
           ++ intros H; inversion H; subst; cbn; repeat split.
      * intros H; inversion H; subst. destruct (_ && _); rewrite app_nil_r; repeat split.
    + destruct (ds_bufOut d); [discriminate|].
      match goal with |- context [if ?c then _ else _] => destruct c end;
        intros H; inversion H; subst; rewrite app_nil_r; repeat split.
Qed.

Lemma loop_track ds : forall p c p' c',
  workThread_loop p c ds = Ok (p', c', InLoop) ->
  forallb (fun d => track_setup_ok (ds_render d)) ds = true ->
  track_queue p' = played (track_queue p) ds /\
  last_queued_pts_ p' = last_pts (last_queued_pts_ p) (flat_map rendered ds) /\
  last_queued_pts_valid_ p' =
    match flat_map rendered ds with [] => last_queued_pts_valid_ p | _ => true end.
Proof.
  induction ds as [|d ds IH]; intros p c p' c'; cbn [workThread_loop].
  - intros H _; inversion H; subst. repeat split.
  - cbn [forallb]. intros H Hs. apply andb_true_iff in Hs. destruct Hs as [Hd Hs].
    destruct (workThread_iteration p c d) as [[[p1 c1] ctl1]|] eqn:I; cbn [bind] in H;
      [|discriminate].
    destruct ctl1; [|discriminate|discriminate].
    destruct (iteration_track _ _ _ I Hd) as (Q1 & P1 & V1).
    destruct (IH _ _ _ _ H Hs) as (Q2 & P2 & V2).
    rewrite played_cons, <- Q1. split; [exact Q2|].
    cbn [flat_map]. unfold last_pts in *. rewrite fold_left_app, <- P1.
    split; [exact P2|]. rewrite V2, V1.
    destruct (rendered d); [reflexivity|]. cbn [app].
    destruct (flat_map rendered ds); reflexivity.
Qed.

(** X13.  What the worker gives the audio track.  While the worker is in its
    loop and the track can be set up when needed, the track holds, in decode
    order, the decoded samples that the track took since the last format
    change, each with the timestamp of its metadata; a format change
    discards the track with everything it was given.  The timestamp of the
    last sample the track took is the one [isAboutToUnderflow] goes by. *)
Theorem worker_renders_in_decode_order p start_res ds p' c' :
  workThread p start_res ds = Ok (p', c', false) ->
  forallb (fun d => track_setup_ok (ds_render d)) ds = true ->
  track_queue p' = played (track_queue p) ds /\
  last_queued_pts_ p' = last_pts (last_queued_pts_ p) (flat_map rendered ds) /\
  last_queued_pts_valid_ p' =
    match flat_map rendered ds with [] => last_queued_pts_valid_ p | _ => true end.
Proof.
  unfold workThread.
  destruct (decoder_ p); [|discriminate].
  destruct (format_ p); [|discriminate].
  cbn [thread_status_ set_thread_status_].
  destruct (negb (start_res =? OK)); [discriminate|].
  destruct (workThread_loop _ _ ds) as [[[p1 c1] ctl]|] eqn:L; cbn [bind];
    [|discriminate].
  destruct ctl; try discriminate.
  intros H Hs; inversion H; subst. clear H.
  exact (loop_track _ _ _ L Hs).
Qed.

(** ** A decoder that does not start *)

(** X17.  A decoder that fails to start ends the worker at once.  When
    [decoder_->start] does not return OK, [workThread] records that status
    and returns without a decode step, leaving the queue and the audio track
    as they are; from then on [queueForDecode] answers with that status and
    queues nothing, whatever else is called short of [shutdown]. *)
Theorem failed_start_is_terminal p start_res ds :
  decoder_ p <> None ->
  format_ p <> None ->
  start_res <> OK ->
  exists p',
    workThread p start_res ds = Ok (p', mkCounters 0 0, true) /\
    thread_status_ p' = start_res /\
    running (thread_ p') = false /\
    in_queue_ p' = in_queue_ p /\ renderer_ p' = renderer_ p /\
    decoder_ p' = decoder_ p /\
    (forall b, queueForDecode p' (Some b) = (start_res, p')) /\
    (forall cs p'' rs,
       no_Shutdown cs = true ->
       calls p' cs = Ok (p'', rs) ->
       thread_status_ p'' = start_res /\ in_queue_ p'' = in_queue_ p /\
       Forall (fun r => r <> OK) rs).
Proof.
  intros D F S. unfold workThread.
  destruct (decoder_ p) eqn:Ed; [|congruence].
  destruct (format_ p) eqn:Ef; [|congruence].
  cbn [thread_status_ set_thread_status_].
  assert (E : (start_res =? OK) = false) by (apply Z.eqb_neq; exact S).
  rewrite E. cbn [negb].
  eexists. split; [reflexivity|].
  split; [reflexivity|]. split; [reflexivity|]. split; [reflexivity|].
  split; [reflexivity|]. split; [cbn; exact Ed|].
  split.
  - intros b. unfold queueForDecode. cbn [thread_status_ thread_exit set_thread_
      set_thread_status_]. rewrite E. reflexivity.
  - intros cs p'' rs Hall H.
    refine (@calls_keep_terminal cs _ p'' rs _ _ Hall H).
    + exact S.
    + cbn. rewrite Ed. discriminate.
Qed.

(** ** Examples *)

Lemma engine_and_format_are_held_together_witness :
  engine_inv new /\
  forall create run_res params c, init create run_res new params <> Aborted c.
Proof.
  split.
  - exact (proj1 engine_and_format_are_held_together).
  - exact (proj1 (proj2 (proj2 (proj2 engine_and_format_are_held_together)) new
                    (proj1 engine_and_format_are_held_together))).
Defined.

Lemma shutdown_resets_the_pump_witness :
  queueForDecode (snd (shutdown (set_thread_status_ (-1) pump_at_work)))
                 (Some (sample_at 0 []))
  = (OK, set_in_queue_ [sample_at 0 []]
           (snd (shutdown (set_thread_status_ (-1) pump_at_work)))).
Proof.
  destruct (shutdown_resets_the_pump (set_thread_status_ (-1) pump_at_work))
    as (_ & _ & _ & _ & _ & _ & _ & _ & _ & _ & _ & Q & _).
  exact (Q (sample_at 0 [])).
Defined.

Lemma init_starts_the_worker_witness :
  exists p',
    init (fun _ => true) OK (snd (queueForDecode new (Some (sample_at 0 [])))) (Some stereo_44k)
      = Ok (OK, p') /\
    thread_ p' = mkThread true false /\
    read p' = Ok (Returns OK (Some (sample_at 0 [])) (set_in_queue_ [] p')).
Proof.
  destruct (@init_starts_the_worker (fun _ => true) OK
              (snd (queueForDecode new (Some (sample_at 0 [])))) stereo_44k 2 44100
              eq_refl eq_refl eq_refl eq_refl eq_refl eq_refl)
    as (p' & I & _ & _ & _ & _ & T & _ & _ & _ & _ & _ & R & _).
  exists p'. split; [exact I|]. split; [exact T|]. apply R. reflexivity.
Defined.

Lemma track_follows_volume_and_transform_witness :
  exists p rs r,
    calls new [SetRenderVolume 10; SetRenderTSTransform unity;
               QueueToRenderer track_ok (sample_at 7 []); SetRenderVolume 20]
      = Ok (p, rs) /\
    renderer_ p = Some r /\ tat_volume r = 20 /\ tat_transform r = unity.
Proof.
  eexists. eexists. eexists. split; [reflexivity|]. split; [reflexivity|].
  match goal with
  | |- tat_volume ?r = _ /\ _ =>
      destruct (@track_follows_volume_and_transform
                  [SetRenderVolume 10; SetRenderTSTransform unity;
                   QueueToRenderer track_ok (sample_at 7 []); SetRenderVolume 20]
                  _ _ eq_refl eq_refl) as (_ & _ & F);
      destruct (F r eq_refl) as (V & T)
  end.
  split; [exact V|]. cbn in T. inversion T. reflexivity.
Defined.

Lemma rendering_aborts_without_timestamp_or_transform_witness :
  exists p' rs,
    calls (setRenderTSTransform new unity)
          [QueueToRenderer track_ok (sample_at 7 []); SetRenderVolume 20;
           QueueToRenderer track_ok (sample_at 8 [])]
      = Ok (p', rs).
Proof.
  apply (proj2 (proj2 (@rendering_aborts_without_timestamp_or_transform
                         [QueueToRenderer track_ok (sample_at 7 []); SetRenderVolume 20;
                          QueueToRenderer track_ok (sample_at 8 [])]
                         (setRenderTSTransform new unity) (fun _ => eq_refl))
                      eq_refl eq_refl)).
  reflexivity.
Defined.

Lemma worker_renders_in_decode_order_witness :
  exists p' c',
    workThread pump_at_work OK
      [mkDecodeStep OK (Some (sample_at 7 [Byte.x01])) 0 track_ok;
       mkDecodeStep (-1) None 0 track_ok;
       mkDecodeStep OK (Some (sample_at 8 [Byte.x02])) 0 track_ok]
      = Ok (p', c', false) /\
    track_queue p' = [(7, [Byte.x01]); (8, [Byte.x02])] /\
    last_queued_pts_ p' = 8 /\ last_queued_pts_valid_ p' = true.
Proof.
  eexists. eexists. split; [reflexivity|].
  exact (@worker_renders_in_decode_order pump_at_work OK
           [mkDecodeStep OK (Some (sample_at 7 [Byte.x01])) 0 track_ok;
            mkDecodeStep (-1) None 0 track_ok;
            mkDecodeStep OK (Some (sample_at 8 [Byte.x02])) 0 track_ok]
           _ _ eq_refl eq_refl).
Defined.

Lemma failed_start_is_terminal_witness :
  exists p',
    workThread pump_at_work (-1) [] = Ok (p', mkCounters 0 0, true) /\
    queueForDecode p' (Some (sample_at 0 [])) = (-1, p').
Proof.
  destruct (@failed_start_is_terminal pump_at_work (-1) []
              ltac:(discriminate) ltac:(discriminate) ltac:(discriminate))
    as (p' & W & _ & _ & _ & _ & _ & Q & _).
  exists p'. split; [exact W|]. apply Q.
Defined.

End PumpContract.
(** * What the substream keeps across calls *)

Module SubstreamContract.
Import Substream SubstreamSpec SubstreamFacts.

(** Folds the constant offsets in the hypotheses. *)
Ltac fold_offsets :=
  repeat match goal with
         | H : context [Z.pos ?a + Z.pos ?b] |- _ =>
             let v := eval compute in (Z.pos a + Z.pos b) in
             progress change (Z.pos a + Z.pos b) with v in H
         | H : context [Z.pos ?a + 0] |- _ =>
             progress change (Z.pos a + 0) with (Z.pos a) in H
         end.

(** Splits on the flags that the conditions met on a path still test. *)
Ltac split_flags :=
  repeat match goal with
         | H : context [if ?c then _ else _] |- _ =>
             destruct c eqn:?; sub_simpl_in H
         end.

Ltac sub_simpl_in_all :=
  repeat match goal with
         | H : _ |- _ => progress sub_simpl_in H
         end.

(** The CHECK of [processPayloadStart] compares the payload length with a
    header length that the length tests before it have already covered. *)
Lemma header_never_aborts s buf ts c :
  processPayloadStart_header s buf ts <> Aborted c.
Proof.
  intros H.
  unfold processPayloadStart_header, setupSubstreamType in H.
  set (s0 := match buffer_in_progress_ s with
             | Some _ => cleanupBufferInProgress s
             | None => s
             end) in *.
  clearbody s0.
  paths H; split_flags; bool_facts; fold_offsets; try discriminate; lia.
Qed.

(** ** Frames *)

Lemma same_kind_refl s : same_kind s s.
Proof. repeat split. Qed.

Lemma same_kind_trans s1 s2 s3 : same_kind s1 s2 -> same_kind s2 s3 -> same_kind s1 s3.
Proof. unfold same_kind. intuition congruence. Qed.

Lemma cleanup_kind s : same_kind s (cleanupBufferInProgress s).
Proof.
  unfold same_kind, cleanupBufferInProgress.
  destruct (buffer_in_progress_ s); repeat split.
Qed.

Lemma cleanupDecoder_kind s : same_kind s (cleanupDecoder s).
Proof. unfold same_kind, cleanupDecoder. destruct (decoder_ s); repeat split. Qed.

Lemma cleanupDecoder_status s : status_ (cleanupDecoder s) = status_ s.
Proof. unfold cleanupDecoder. destruct (decoder_ s); reflexivity. Qed.

Lemma cleanupDecoder_buffer s :
  buffer_in_progress_ (cleanupDecoder s) = buffer_in_progress_ s.
Proof. unfold cleanupDecoder. destruct (decoder_ s); reflexivity. Qed.

Lemma cleanupDecoder_decoder s :
  decoder_ (cleanupDecoder s)
  = option_map (fun p => snd (Pump.shutdown p)) (decoder_ s).
Proof. unfold cleanupDecoder. destruct (decoder_ s) eqn:E; [reflexivity|exact E]. Qed.

Lemma cleanupDecoder_meta s : substream_meta_ (cleanupDecoder s) = substream_meta_ s.
Proof. unfold cleanupDecoder. destruct (decoder_ s); reflexivity. Qed.

Lemma cleanupDecoder_known s :
  substream_details_known_ (cleanupDecoder s) = substream_details_known_ s.
Proof. apply cleanupDecoder_kind. Qed.

Lemma cleanupDecoder_type s : substream_type_ (cleanupDecoder s) = substream_type_ s.
Proof. apply cleanupDecoder_kind. Qed.

Lemma cleanupDecoder_codec s : codec_type_ (cleanupDecoder s) = codec_type_ s.
Proof. apply cleanupDecoder_kind. Qed.

Lemma cleanupDecoder_ssrc s : ssrc_ (cleanupDecoder s) = ssrc_ s.
Proof. apply cleanupDecoder_kind. Qed.

Lemma cleanup_buffer s : buffer_in_progress_ (cleanupBufferInProgress s) = None.
Proof. apply cleanup_fields. Qed.

Lemma cleanup_status s : status_ (cleanupBufferInProgress s) = status_ s.
Proof. apply cleanup_fields. Qed.

Lemma cleanup_meta s : substream_meta_ (cleanupBufferInProgress s) = substream_meta_ s.
Proof. apply cleanup_fields. Qed.

Lemma cleanup_decoder s : decoder_ (cleanupBufferInProgress s) = decoder_ s.
Proof. apply cleanup_fields. Qed.

Lemma cleanup_known s :
  substream_details_known_ (cleanupBufferInProgress s) = substream_details_known_ s.
Proof. apply cleanup_kind. Qed.

Lemma cleanup_type s : substream_type_ (cleanupBufferInProgress s) = substream_type_ s.
Proof. apply cleanup_kind. Qed.

Lemma cleanup_codec s : codec_type_ (cleanupBufferInProgress s) = codec_type_ s.
Proof. apply cleanup_kind. Qed.

Lemma cleanup_ssrc s : ssrc_ (cleanupBufferInProgress s) = ssrc_ s.
Proof. apply cleanup_kind. Qed.

Create Rewrite HintDb sub_fields.

#[local] Hint Rewrite cleanupDecoder_meta cleanupDecoder_known cleanupDecoder_type
  cleanupDecoder_codec cleanupDecoder_ssrc cleanupDecoder_status cleanupDecoder_buffer
  cleanupDecoder_decoder cleanup_buffer cleanup_status cleanup_meta cleanup_decoder
  cleanup_known cleanup_type cleanup_codec cleanup_ssrc : sub_fields.

(** Reduces the projections of a state built from setters and cleanups. *)
Ltac fields := repeat (progress (autorewrite with sub_fields; sub_simpl)).

Section WithParser.

Variable GetMPEGAudioFrameSize : Z -> option (Z * Z).

(** What [setupSubstreamMeta] can change: the MIME type, the metadata, and
    the pump, which it may shut down. *)
Lemma setup_frame s b s2 :
  setupSubstreamMeta GetMPEGAudioFrameSize s = Ok (b, s2) ->
  same_kind s s2 /\
  buffer_in_progress_ s2 = buffer_in_progress_ s /\
  status_ s2 = status_ s /\
  (decoder_ s2 = decoder_ s \/
   decoder_ s2 = option_map (fun p => snd (Pump.shutdown p)) (decoder_ s)).
Proof.
  unfold setupSubstreamMeta, setupMP3SubstreamMeta, setupAACSubstreamMeta.
  intros H.
  repeat match type of H with
         | context [match ?x with _ => _ end] => destruct x eqn:?; try discriminate H
         end;
    inversion H; subst; clear H;
    repeat match goal with
           | |- context [cleanupDecoder ?x] =>
               let y := fresh "y" in
               pose proof (cleanupDecoder_kind x);
               pose proof (cleanupDecoder_status x);
               pose proof (cleanupDecoder_buffer x);
               pose proof (cleanupDecoder_decoder x);
               set (y := cleanupDecoder x) in *; clearbody y
           end;
    unfold same_kind in *; sub_simpl; sub_simpl_in_all;
    intuition congruence.
Qed.

End WithParser.

(** ** The pump's CHECK *)

Lemma init_never_aborts create run_res p m c :
  PumpSpec.pump_sane p -> Pump.init create run_res p m <> Aborted c.
Proof.
  unfold PumpSpec.pump_sane, Pump.init. intros S.
  destruct (Pump.decoder_ p); [discriminate|].
  destruct m as [m|]; [|discriminate].
  destruct (kKeyChannelCount m); [|discriminate].
  destruct (kKeySampleRate m); [|discriminate].
  cbn [Pump.thread_status_ Pump.set_format_sample_rate_ Pump.set_format_channels_].
  rewrite (S eq_refl). change (negb (OK =? OK)) with false. cbv iota.
  destruct (create m); [destruct (run_res =? OK)|]; discriminate.
Qed.

Lemma init_sane create run_res p m res p' :
  PumpSpec.pump_sane p -> Pump.init create run_res p m = Ok (res, p') -> PumpSpec.pump_sane p'.
Proof.
  unfold PumpSpec.pump_sane, Pump.init. intros S.
  destruct (Pump.decoder_ p) eqn:D.
  { intros H; inversion H; subst. intros N. congruence. }
  specialize (S eq_refl).
  destruct m as [m|]; [|intros H; inversion H; subst; auto].
  destruct (kKeyChannelCount m); [|intros H; inversion H; subst; auto].
  destruct (kKeySampleRate m); [|intros H; inversion H; subst; auto].
  cbn [Pump.thread_status_ Pump.set_format_sample_rate_ Pump.set_format_channels_].
  rewrite S. change (negb (OK =? OK)) with false. cbv iota.
  destruct (create m); [destruct (run_res =? OK) eqn:R|];
    cbv beta iota zeta; rewrite ?R; cbn;
    intros H; inversion H; subst; cbn; intros; first [assumption|discriminate].
Qed.

Lemma init_frame create run_res p m res p' :
  Pump.init create run_res p m = Ok (res, p') ->
  Pump.thread_status_ p' = Pump.thread_status_ p /\
  Pump.in_queue_ p' = Pump.in_queue_ p.
Proof.
  unfold Pump.init.
  destruct (Pump.decoder_ p); [intros H; inversion H; subst; auto|].
  destruct m as [m|]; [|intros H; inversion H; subst; auto].
  destruct (kKeyChannelCount m); [|intros H; inversion H; subst; auto].
  destruct (kKeySampleRate m); [|intros H; inversion H; subst; auto].
  cbn [Pump.thread_status_ Pump.set_format_sample_rate_ Pump.set_format_channels_].
  destruct (negb (Pump.thread_status_ p =? OK)); [discriminate|].
  destruct (create m); [destruct (run_res =? OK) eqn:R|];
    cbv beta iota zeta; rewrite ?R; cbn;
    intros H; inversion H; subst; cbn; auto.
Qed.

Lemma shutdown_sane p : PumpSpec.pump_sane (snd (Pump.shutdown p)).
Proof. intros _. apply shutdown_fields. Qed.

Lemma setRenderVolume_sane p v : PumpSpec.pump_sane p -> PumpSpec.pump_sane (Pump.setRenderVolume p v).
Proof.
  unfold PumpSpec.pump_sane. destruct (setRenderVolume_fields p v) as (_ & -> & -> & _). auto.
Qed.

Lemma setRenderTSTransform_sane p tr :
  PumpSpec.pump_sane p -> PumpSpec.pump_sane (Pump.setRenderTSTransform p tr).
Proof.
  unfold PumpSpec.pump_sane, Pump.setRenderTSTransform.
  destruct (_ && _); [auto|]. cbn. destruct (Pump.renderer_ p); cbn; auto.
Qed.

Lemma queueForDecode_sane p b :
  PumpSpec.pump_sane p -> PumpSpec.pump_sane (snd (Pump.queueForDecode p b)).
Proof.
  unfold PumpSpec.pump_sane, Pump.queueForDecode. destruct b; [|auto].
  destruct (negb (Pump.thread_status_ p =? OK)); cbn; auto.
Qed.

Lemma same_but_buffer_refl s : same_but_buffer s s.
Proof. repeat split. Qed.

Lemma cleanup_same_but_buffer s : same_but_buffer s (cleanupBufferInProgress s).
Proof.
  unfold same_but_buffer. split; [apply cleanup_kind|].
  destruct (cleanup_fields s) as (_ & _ & _ & _ & _ & _ & F1 & F2 & F3 & _ & _ & _ & F4).
  auto.
Qed.

Lemma cleanup_cleaned s : cleaned (cleanupBufferInProgress s).
Proof.
  destruct (cleanup_fields s) as (F1 & F2 & F3 & F4 & F5 & F6 & _).
  repeat split; assumption.
Qed.

Lemma cleanupDecoder_same s :
  same_kind s (cleanupDecoder s) /\
  status_ (cleanupDecoder s) = status_ s /\
  substream_meta_ (cleanupDecoder s) = substream_meta_ s /\
  codec_mime_type_ (cleanupDecoder s) = codec_mime_type_ s /\
  buffer_in_progress_ (cleanupDecoder s) = buffer_in_progress_ s /\
  decoder_ (cleanupDecoder s)
  = option_map (fun p => snd (Pump.shutdown p)) (decoder_ s).
Proof.
  split; [apply cleanupDecoder_kind|].
  unfold cleanupDecoder. destruct (decoder_ s) eqn:E; repeat split. exact E.
Qed.

(** Names the results of the cleanups in the goal, innermost first, and
    keeps what they leave of their arguments. *)
Ltac peel :=
  repeat match goal with
         | |- context [cleanupDecoder ?x] =>
             lazymatch x with
             | context [cleanupDecoder _] => fail
             | context [cleanupBufferInProgress _] => fail
             | _ => idtac
             end;
             let y := fresh "y" in
             let F := fresh "F" in
             pose proof (cleanupDecoder_same x) as F;
             unfold same_kind in F; sub_simpl_in F; cbn [option_map] in F;
             set (y := cleanupDecoder x) in *; clearbody y
         | |- context [cleanupBufferInProgress ?x] =>
             lazymatch x with
             | context [cleanupDecoder _] => fail
             | context [cleanupBufferInProgress _] => fail
             | _ => idtac
             end;
             let y := fresh "y" in
             let F := fresh "F" in
             let G := fresh "G" in
             pose proof (cleanup_same_but_buffer x) as F;
             pose proof (cleanup_cleaned x) as G;
             unfold same_but_buffer, same_kind in F; sub_simpl_in F;
             set (y := cleanupBufferInProgress x) in *; clearbody y
         end.

(** ** processCompletedBuffer, case by case *)

Section Completion.

Variable GetMPEGAudioFrameSize : Z -> option (Z * Z).
Variable create : MetaData -> bool.
Variable run_res : status_t.

Let completed := processCompletedBuffer GetMPEGAudioFrameSize create run_res.

(** The returns of [processCompletedBuffer]: without pump; when the metadata
    cannot be set up; when [init] fails; when the unit is queued; and when
    the pump refuses it. *)
Lemma completed_cases s s' :
  completed s = Ok s' ->
  exists mb, buffer_in_progress_ s = Some mb /\ cleaned s' /\
  ((decoder_ s = None /\ same_but_buffer s s') \/
   exists ok s2,
     decoder_ s <> None /\
     setupSubstreamMeta GetMPEGAudioFrameSize s = Ok (ok, s2) /\
     (((ok = false \/ decoder_ s2 = None) /\ same_but_buffer s2 s') \/
      exists p2 res p3,
        ok = true /\ decoder_ s2 = Some p2 /\
        Pump.init create run_res p2 (substream_meta_ s2) = Ok (res, p3) /\
        same_kind s2 s' /\ codec_mime_type_ s' = codec_mime_type_ s2 /\
        ((res <> OK /\
          status_ s' = status_ s2 /\ substream_meta_ s' = None /\
          decoder_ s' = Some (snd (Pump.shutdown p3))) \/
         (res = OK /\ Pump.thread_status_ p3 = OK /\
          status_ s' = status_ s2 /\ substream_meta_ s' = substream_meta_ s2 /\
          decoder_ s'
          = Some (Pump.set_in_queue_ (Pump.in_queue_ p3 ++ [mb]) p3)) \/
         (res = OK /\ Pump.thread_status_ p3 <> OK /\
          status_ s' = Pump.thread_status_ p3 /\
          substream_meta_ s' = substream_meta_ s2 /\
          decoder_ s' = Some (snd (Pump.shutdown p3)))))).
Proof.
  unfold completed, processCompletedBuffer.
  destruct (buffer_in_progress_ s) as [mb|] eqn:B; [|discriminate].
  intros H. exists mb. split; [reflexivity|].
  destruct (decoder_ s) as [p0|] eqn:D0.
  2:{ inversion H; subst. split; [apply cleanup_cleaned|]. left.
      split; [reflexivity|]. apply cleanup_same_but_buffer. }
  destruct (setupSubstreamMeta GetMPEGAudioFrameSize s) as [[ok s2]|] eqn:S;
    cbn [bind] in H; [|discriminate].
  destruct (@setup_frame _ _ _ _ S) as (_ & B2 & _).
  destruct ok; cbn [negb] in H.
  2:{ inversion H; subst. split; [apply cleanup_cleaned|]. right.
      exists false, s2. split; [discriminate|]. split; [reflexivity|]. left.
      split; [left; reflexivity|]. apply cleanup_same_but_buffer. }
  destruct (decoder_ s2) as [p2|] eqn:D2.
  2:{ inversion H; subst. split; [apply cleanup_cleaned|]. right.
      exists true, s2. split; [discriminate|]. split; [reflexivity|]. left.
      split; [right; exact D2|]. apply cleanup_same_but_buffer. }
  destruct (Pump.init create run_res p2 (substream_meta_ s2)) as [[res p3]|] eqn:I;
    cbn [bind] in H; [|discriminate].
  assert (Hs' : cleaned s' /\ same_kind s2 s' /\
                codec_mime_type_ s' = codec_mime_type_ s2 /\
          ((res <> OK /\
            status_ s' = status_ s2 /\ substream_meta_ s' = None /\
            decoder_ s' = Some (snd (Pump.shutdown p3))) \/
           (res = OK /\ Pump.thread_status_ p3 = OK /\
            status_ s' = status_ s2 /\ substream_meta_ s' = substream_meta_ s2 /\
            decoder_ s'
            = Some (Pump.set_in_queue_ (Pump.in_queue_ p3 ++ [mb]) p3)) \/
           (res = OK /\ Pump.thread_status_ p3 <> OK /\
            status_ s' = Pump.thread_status_ p3 /\
            substream_meta_ s' = substream_meta_ s2 /\
            decoder_ s' = Some (snd (Pump.shutdown p3))))).
  { destruct (negb (OK =? res)) eqn:R; bool_facts.
    - inversion H; subst s'; clear H. peel.
      split; [assumption|]. split; [unfold same_kind in *; intuition congruence|].
      split; [intuition congruence|]. left.
      split; [congruence|]. intuition congruence.
    - subst res. cbv beta iota zeta in H. sub_simpl_in H. rewrite B2, B in H.
      unfold Pump.queueForDecode in H.
      destruct (negb (Pump.thread_status_ p3 =? OK)) eqn:T; bool_facts;
        cbv beta iota zeta in H.
      + replace (negb (Pump.thread_status_ p3 =? OK)) with true in H
          by (symmetry; apply negb_true_iff; apply Z.eqb_neq; exact T).
        inversion H; subst s'; clear H. peel.
        split; [assumption|]. split; [unfold same_kind in *; intuition congruence|].
        split; [intuition congruence|]. right. right.
        split; [reflexivity|]. split; [exact T|]. intuition congruence.
      + change (negb (OK =? OK)) with false in H.
        inversion H; subst s'; clear H. peel.
        split; [assumption|]. split; [unfold same_kind in *; intuition congruence|].
        split; [intuition congruence|]. right. left.
        split; [reflexivity|]. split; [exact T|]. intuition congruence. }
  destruct Hs' as (Hc & Hk & Hm & Hcases).
  split; [exact Hc|]. right. exists true, s2.
  split; [discriminate|]. split; [reflexivity|]. right.
  exists p2, res, p3. split; [reflexivity|]. split; [first [reflexivity|exact D2]|].
  split; [exact I|]. split; [exact Hk|]. split; [exact Hm|]. exact Hcases.
Qed.

Ltac shape_leaf :=
  first
    [ discriminate
    | let C := fresh "C" in
      let H := fresh "H" in
      destruct (processCompletedBuffer _ _ _ _) as [?|?] eqn:C; cbn [bind];
      intros H; inversion H; subst; clear H;
      match type of C with
      | processCompletedBuffer _ _ _ ?x = _ =>
          exists x; split; [repeat split|split; [discriminate|exact C]]
      end ].

(** [processPayloadStart] behind the header: the buffer cannot be allocated,
    or the payload goes on, or it is complete. *)
Lemma fill_shape alloc s1 h v ts buf s' l :
  processPayloadStart_fill GetMPEGAudioFrameSize alloc create run_res s1 h v ts buf
    = Ok (s', l) ->
  (l = AllocationFailed /\ s' = cleanupBufferInProgress (set_buffer_filled_ 0 s1)) \/
  (l = Accumulating /\ same_but_buffer s1 s' /\ buffer_in_progress_ s' <> None) \/
  (l = Completed /\
   exists x, same_but_buffer s1 x /\ buffer_in_progress_ x <> None /\
             completed x = Ok s').
Proof.
  unfold processPayloadStart_fill, write_buffer.
  cbv beta iota zeta. sub_simpl.
  repeat (match goal with
          | |- context [if ?c then _ else _] => destruct c eqn:?
          end; cbv beta iota zeta; sub_simpl);
    try (intros H; inversion H; subst; clear H; left; split; reflexivity);
    try (intros H; inversion H; subst; clear H; right; left;
         split; [reflexivity|]; split; [repeat split|discriminate]);
    (destruct (processCompletedBuffer _ _ _ _) as [?|?] eqn:C; cbn [bind];
     [|discriminate]);
    intros H; inversion H; subst; clear H; right; right; (split; [reflexivity|]);
    match type of C with
    | processCompletedBuffer _ _ _ ?x = _ =>
        exists x; split; [repeat split|split; [discriminate|exact C]]
    end.
Qed.

Lemma fill_aborts alloc s1 h v ts buf c :
  processPayloadStart_fill GetMPEGAudioFrameSize alloc create run_res s1 h v ts buf
    = Aborted c ->
  exists x, same_but_buffer s1 x /\ buffer_in_progress_ x <> None /\
            completed x = Aborted c.
Proof.
  unfold processPayloadStart_fill, write_buffer.
  cbv beta iota zeta. sub_simpl.
  repeat (match goal with
          | |- context [if ?c then _ else _] => destruct c eqn:?
          end; cbv beta iota zeta; sub_simpl);
    shape_leaf.
Qed.

(** The returns of [processPayloadCont]. *)
Lemma cont_shape s buf s' l :
  processPayloadCont GetMPEGAudioFrameSize create run_res s buf = Ok (s', l) ->
  (l = SkipFatalError /\ s' = s /\ status_ s <> OK) \/
  (l = NoBufferInProgress /\ s' = s /\ buffer_in_progress_ s = None) \/
  (l = AuxOnly /\ same_but_buffer s s' /\ buffer_in_progress_ s' <> None) \/
  (l = ExtraDataInCont /\ exists x, same_but_buffer s x /\ s' = cleanupBufferInProgress x) \/
  (l = Accumulating /\ same_but_buffer s s' /\ buffer_in_progress_ s' <> None) \/
  (l = Completed /\
   exists x, same_but_buffer s x /\ buffer_in_progress_ x <> None /\
             completed x = Ok s').
Proof.
  unfold processPayloadCont, write_buffer, shouldAbort.
  destruct (negb (OK =? status_ s)) eqn:Sa.
  { intros H; inversion H; subst. left. bool_facts. repeat split. congruence. }
  destruct (buffer_in_progress_ s) as [mb|] eqn:B.
  2:{ intros H; inversion H; subst. right. left. repeat split. }
  cbv beta iota zeta. sub_simpl.
  repeat (match goal with
          | |- context [if ?c then _ else _] => destruct c eqn:?
          end; cbv beta iota zeta; sub_simpl; rewrite ?B; cbv beta iota; sub_simpl);
    try discriminate;
    try (intros H; inversion H; subst; clear H; right; right; left;
         split; [reflexivity|]; split; [repeat split|sub_simpl; rewrite ?B; discriminate]);
    try (intros H; inversion H; subst; clear H; right; right; right; left;
         split; [reflexivity|];
         match goal with
         | |- exists x, _ /\ cleanupBufferInProgress ?y = _ =>
             exists y; split; [repeat split|reflexivity]
         end);
    try (intros H; inversion H; subst; clear H; right; right; right; right; left;
         split; [reflexivity|]; split; [repeat split|sub_simpl; rewrite ?B; discriminate]);
    (destruct (processCompletedBuffer _ _ _ _) as [?|?] eqn:C; cbn [bind];
     [|discriminate]);
    intros H; inversion H; subst; clear H; do 5 right; (split; [reflexivity|]);
    match type of C with
    | processCompletedBuffer _ _ _ ?x = _ =>
        exists x; split; [repeat split|split; [sub_simpl; rewrite ?B; discriminate|exact C]]
    end.
Qed.

Lemma cont_aborts s buf c :
  processPayloadCont GetMPEGAudioFrameSize create run_res s buf = Aborted c ->
  c = CHECK_aux_size_le_expected \/ c = CHECK_buffer_filled_lt_expected \/
  exists x, same_but_buffer s x /\ buffer_in_progress_ x <> None /\
            completed x = Aborted c.
Proof.
  unfold processPayloadCont, write_buffer, shouldAbort.
  destruct (negb (OK =? status_ s)) eqn:Sa; [discriminate|].
  destruct (buffer_in_progress_ s) as [mb|] eqn:B; [|discriminate].
  cbv beta iota zeta. sub_simpl.
  repeat (match goal with
          | |- context [if ?c then _ else _] => destruct c eqn:?
          end; cbv beta iota zeta; sub_simpl; rewrite ?B; cbv beta iota; sub_simpl);
    try discriminate;
    try (intros H; inversion H; subst; auto; fail);
    (destruct (processCompletedBuffer _ _ _ _) as [?|?] eqn:C; cbn [bind];
     [discriminate|]);
    intros H; inversion H; subst; clear H; right; right;
    match type of C with
    | processCompletedBuffer _ _ _ ?x = _ =>
        exists x; split; [repeat split|split; [sub_simpl; rewrite ?B; discriminate|exact C]]
    end.
Qed.

Lemma setup_sane s b s2 :
  setupSubstreamMeta GetMPEGAudioFrameSize s = Ok (b, s2) ->
  decoder_sane s -> decoder_sane s2.
Proof.
  intros S Hs p2 D2. destruct (@setup_frame _ _ _ _ S) as (_ & _ & _ & [D|D]).
  - apply Hs. congruence.
  - rewrite D in D2. destruct (decoder_ s); [|discriminate].
    inversion D2; subst. apply shutdown_sane.
Qed.

Lemma completed_sane s s' :
  completed s = Ok s' -> decoder_sane s -> decoder_sane s'.
Proof.
  intros H Hs.
  destruct (completed_cases _ H) as (mb & B & Hc & [[D Sb]|(ok & s2 & D & S & C)]).
  { intros p Dp. destruct Sb as (_ & _ & _ & Dd & _). rewrite Dd, D in Dp.
    discriminate. }
  pose proof (@setup_sane s ok s2 S Hs) as Hs2.
  destruct C as [[_ Sb]|(p2 & res & p3 & _ & D2 & I & _ & _ & C)].
  - intros p Dp. destruct Sb as (_ & _ & _ & Dd & _). rewrite Dd in Dp.
    apply (Hs2 _ Dp).
  - assert (H3 : PumpSpec.pump_sane p3) by (eapply init_sane; [apply (Hs2 _ D2)|exact I]).
    destruct C as [(_ & _ & _ & Dd)|[(_ & _ & _ & _ & Dd)|(_ & _ & _ & _ & Dd)]];
      intros p Dp; rewrite Dd in Dp; inversion Dp; subst;
      first [apply shutdown_sane | exact H3].
Qed.

Lemma completed_kind s s' : completed s = Ok s' -> same_kind s s'.
Proof.
  intros H.
  destruct (completed_cases _ H) as (mb & B & Hc & [[D Sb]|(ok & s2 & D & S & C)]).
  { apply Sb. }
  destruct (@setup_frame _ _ _ _ S) as (K & _).
  eapply same_kind_trans; [exact K|].
  destruct C as [[_ Sb]|(p2 & res & p3 & _ & D2 & I & Hk & _)]; [apply Sb|exact Hk].
Qed.

Lemma init_abort_site p m c :
  Pump.init create run_res p m = Aborted c ->
  c = CHECK_thread_status_OK /\ ~ PumpSpec.pump_sane p.
Proof.
  intros H. split.
  - unfold Pump.init in H.
    repeat match type of H with
           | context [match ?x with _ => _ end] => destruct x; try discriminate H
           end.
    inversion H. reflexivity.
  - intros S. eapply init_never_aborts; [exact S|exact H].
Qed.

(** Given a buffer and established metadata with sample rate and channel
    count, [processCompletedBuffer] can fail no CHECK but the one of
    [AAH_DecoderPump::init]. *)
Lemma completed_abort_site s c :
  buffer_in_progress_ s <> None -> meta_ok s ->
  completed s = Aborted c ->
  c = CHECK_thread_status_OK /\ ~ decoder_sane s.
Proof.
  intros B M. unfold completed, processCompletedBuffer.
  destruct (buffer_in_progress_ s) as [mb|] eqn:Eb; [|congruence].
  destruct (decoder_ s) as [p0|] eqn:D0; [|discriminate].
  destruct (setupSubstreamMeta GetMPEGAudioFrameSize s) as [[ok s2]|c2] eqn:S;
    cbn [bind].
  - destruct ok; cbn [negb]; [|discriminate].
    destruct (decoder_ s2) as [p2|] eqn:D2; [|discriminate].
    destruct (Pump.init create run_res p2 (substream_meta_ s2)) as [[res p3]|c3] eqn:I;
      cbn [bind].
    + destruct (negb (OK =? res)); [discriminate|].
      destruct (Pump.queueForDecode p3 _). discriminate.
    + intros H; inversion H; subst.
      edestruct init_abort_site as [-> N]; [exact I|]. split; [reflexivity|].
      intros Hs. apply N. apply (@setup_sane s true s2 S Hs p2 D2).
  - intros _. exfalso. clear - S M Eb. unfold meta_ok in M.
    unfold setupSubstreamMeta, setupMP3SubstreamMeta, setupAACSubstreamMeta in S.
    sub_simpl_in S. rewrite ?Eb in S.
    destruct (substream_meta_ s) as [m|] eqn:Em.
    + destruct (M m eq_refl) as [M1 M2].
      destruct (kKeySampleRate m); [|congruence].
      destruct (kKeyChannelCount m); [|congruence].
      repeat match type of S with
             | context [match ?x with _ => _ end] => destruct x; try discriminate S
             end.
    + repeat match type of S with
             | context [match ?x with _ => _ end] => destruct x; try discriminate S
             end.
Qed.

(** The status of the substream changes only when the pump refuses the
    completed unit; the pump is then shut down. *)
Lemma completed_fatal s s' :
  completed s = Ok s' -> status_ s' <> status_ s ->
  exists p p',
    decoder_ s = Some p /\ status_ s' = Pump.thread_status_ p /\
    decoder_ s' = Some p' /\ Pump.thread_status_ p' = OK /\
    Pump.decoder_ p' = None /\ Pump.in_queue_ p' = [].
Proof.
  intros H N.
  destruct (completed_cases _ H) as (mb & B & Hc & [[D Sb]|(ok & s2 & D & S & C)]).
  { exfalso. apply N. apply Sb. }
  destruct (@setup_frame _ _ _ _ S) as (_ & _ & St & Dd).
  destruct C as [[_ Sb]|(p2 & res & p3 & _ & D2 & I & _ & _ & C)].
  { exfalso. apply N. destruct Sb as (_ & -> & _). exact St. }
  destruct (init_frame _ _ _ _ I) as (T3 & _).
  destruct C as [(_ & E & _)|[(_ & _ & E & _)|(_ & T & S' & _ & D')]];
    [exfalso; apply N; congruence|exfalso; apply N; congruence|].
  rewrite T3 in *.
  destruct (decoder_ s) as [p|] eqn:Dp; [|congruence].
  assert (P2 : p2 = p).
  { destruct Dd as [Dd|Dd]; rewrite Dd in D2.
    - inversion D2. reflexivity.
    - cbn in D2. inversion D2; subst. exfalso. apply T. apply shutdown_fields. }
  subst p2. exists p, (snd (Pump.shutdown p3)).
  split; [reflexivity|]. split; [exact S'|]. split; [exact D'|].
  destruct (shutdown_fields p3) as (F1 & _ & F3 & F4 & _). auto.
Qed.

End Completion.

(** ** What a call keeps *)

Lemma header_kind s buf ts s1 r :
  processPayloadStart_header s buf ts = Ok (s1, r) ->
  ssrc_ s1 = ssrc_ s /\ (kind_ok s -> kind_ok s1).
Proof.
  intros H.
  unfold processPayloadStart_header, setupSubstreamType in H.
  pose proof (cleanup_kind s) as Kc.
  assert (K0 : same_kind s (match buffer_in_progress_ s with
                            | Some _ => cleanupBufferInProgress s
                            | None => s
                            end))
    by (destruct (buffer_in_progress_ s); [exact Kc|apply same_kind_refl]).
  clear Kc.
  set (s0 := match buffer_in_progress_ s with
             | Some _ => cleanupBufferInProgress s
             | None => s
             end) in *.
  clearbody s0. destruct K0 as (K1 & K2 & K3 & K4).
  unfold kind_ok. rewrite <- K1, <- K2, <- K3, <- K4. clear K1 K2 K3 K4.
  paths H; sub_simpl; (split; [reflexivity|]); try (intros K; exact K);
    try (intros K ?; apply K; reflexivity);
    try (intros ? K; congruence);
    intros _ _; bool_facts; fold_offsets;
    unfold kHeaderTypeAudio, kCodecMPEG1Audio, kCodecAACAudio in *;
    (split; [assumption|]);
    match goal with
    | E : (_ || _) = true |- _ =>
        apply orb_true_iff in E; destruct E; bool_facts; auto
    end.
Qed.

(** ** The timestamp *)

Lemma header_ts s buf ts_lower s1 h v t :
  processPayloadStart_header s buf ts_lower = Ok (s1, Accept h v t) ->
  t = if ts_valid_of buf then timestamp_of buf ts_lower else 0.
Proof.
  intros H. unfold timestamp_of, ts_valid_of.
  unfold processPayloadStart_header, setupSubstreamType in H.
  set (s0 := match buffer_in_progress_ s with
             | Some _ => cleanupBufferInProgress s
             | None => s
             end) in *.
  clearbody s0.
  paths H;
    repeat match goal with
           | E : flag_set ?a ?b = _ |- context [flag_set ?a ?b] => rewrite E
           end;
    reflexivity.
Qed.

Lemma lor_upper_lower u l :
  0 <= u -> 0 <= l < 2 ^ 32 -> Z.lor (Z.shiftl u 32) l = u * 2 ^ 32 + l.
Proof.
  intros Hu Hl. rewrite Z.shiftl_mul_pow2 by lia.
  assert (N : Z.land (u * 2 ^ 32) l = 0).
  { apply Z.bits_inj'. intros n Hn. rewrite Z.land_spec, Z.bits_0.
    destruct (Z.lt_ge_cases n 32) as [Lt|Ge].
    - rewrite Z.mul_pow2_bits_low by lia. reflexivity.
    - assert (Z.testbit l n = false) as ->; [|apply andb_false_r].
      destruct (Z.eq_dec l 0) as [->|Nz]; [apply Z.bits_0|].
      apply Z.bits_above_log2; [lia|].
      assert (Z.log2 l < 32) by (apply Z.log2_lt_pow2; lia). lia. }
  rewrite <- Z.lxor_lor by exact N. symmetry. apply Z.add_nocarry_lxor. exact N.
Qed.

Lemma lor_lower_negative u l :
  0 <= u -> - 2 ^ 31 <= l < 0 -> Z.lor (Z.shiftl u 32) l = l.
Proof.
  intros Hu Hl. apply Z.bits_inj'. intros n Hn. rewrite Z.lor_spec.
  destruct (Z.lt_ge_cases n 32) as [Lt|Ge].
  - rewrite Z.shiftl_spec_low by lia. reflexivity.
  - assert (Z.testbit l n = true) as ->; [|apply orb_true_r].
    apply Z.bits_above_log2_neg; [lia|].
    destruct (Z.eq_dec (Z.pred (- l)) 0) as [E|Nz].
    + rewrite E. cbn. lia.
    + assert (Z.log2 (Z.pred (- l)) < 31) by (apply Z.log2_lt_pow2; lia). lia.
Qed.

Section Calls.

Variable GetMPEGAudioFrameSize : Z -> option (Z * Z).

Lemma meta_ok_same_but_buffer s x : same_but_buffer s x -> meta_ok s -> meta_ok x.
Proof. intros (_ & _ & M & _). apply meta_ok_same. exact M. Qed.

Lemma decoder_sane_same s x : decoder_ x = decoder_ s -> decoder_sane s -> decoder_sane x.
Proof. unfold decoder_sane. intros ->. auto. Qed.

Lemma kind_ok_same s x : same_kind s x -> kind_ok s -> kind_ok x.
Proof. unfold kind_ok. intros (_ & -> & -> & ->). auto. Qed.

Lemma header_sane s buf ts s1 r :
  processPayloadStart_header s buf ts = Ok (s1, r) ->
  decoder_sane s -> decoder_sane s1.
Proof.
  intros H Hs. destruct (header_frame _ _ _ H) as (_ & _ & _ & _ & _ & _ & _ & D & _).
  destruct D as [D|(p & v & D & D1)].
  - eapply decoder_sane_same; eassumption.
  - intros p1 E. rewrite D1 in E. inversion E; subst.
    apply setRenderVolume_sane. apply (Hs _ D).
Qed.

Lemma start_keeps env s buf ts s' l :
  start GetMPEGAudioFrameSize env s buf ts = Ok (s', l) ->
  ssrc_ s' = ssrc_ s /\
  (decoder_sane s -> decoder_sane s') /\
  (kind_ok s -> kind_ok s') /\
  (substream_details_known_ s = true -> same_kind s s').
Proof.
  unfold start, processPayloadStart.
  destruct (shouldAbort s).
  { intros H; inversion H; subst. split; [reflexivity|]. split; [auto|].
    split; [auto|]. intros _. apply same_kind_refl. }
  destruct (processPayloadStart_header s buf ts) as [[s1 r]|] eqn:Hh; cbn [bind];
    [|discriminate].
  destruct (header_kind _ _ _ Hh) as (Hssrc & Hkind).
  pose proof (@header_sane _ _ _ _ _ Hh) as Hsane.
  destruct (header_frame _ _ _ Hh) as (_ & _ & _ & _ & _ & _ & _ & _ & Hknown).
  assert (Hsame : substream_details_known_ s = true -> same_kind s s1).
  { intros Kn. destruct (Hknown Kn) as (A1 & A2 & A3).
    unfold same_kind. rewrite A1, Kn. auto. }
  clear Hknown.
  assert (Hfin : forall x, same_kind s1 x ->
                   (decoder_sane s1 -> decoder_sane x) ->
                   ssrc_ x = ssrc_ s /\
                   (decoder_sane s -> decoder_sane x) /\
                   (kind_ok s -> kind_ok x) /\
                   (substream_details_known_ s = true -> same_kind s x)).
  { intros x K Sx. split; [destruct K as (-> & _); exact Hssrc|].
    split; [auto|]. split.
    - intros Ko. eapply kind_ok_same; [exact K|auto].
    - intros Kn. eapply same_kind_trans; [apply Hsame; exact Kn|exact K]. }
  destruct r as [l'|h v t].
  { intros H; inversion H; subst. apply Hfin; [apply same_kind_refl|auto]. }
  intros Hf. apply fill_shape in Hf.
  destruct Hf as [[_ ->]|[(_ & Sb & _)|(_ & x & Sb & _ & Hc)]].
  - apply Hfin.
    + eapply same_kind_trans; [|apply cleanup_kind]. repeat split.
    + apply decoder_sane_same. rewrite cleanup_decoder. reflexivity.
  - apply Hfin; [apply Sb|]. apply decoder_sane_same. apply Sb.
  - apply Hfin.
    + eapply same_kind_trans; [apply Sb|]. eapply completed_kind. exact Hc.
    + intros S1. eapply completed_sane; [exact Hc|].
      eapply decoder_sane_same; [|exact S1]. apply Sb.
Qed.

Lemma cont_keeps env s buf s' l :
  cont GetMPEGAudioFrameSize env s buf = Ok (s', l) ->
  same_kind s s' /\ (decoder_sane s -> decoder_sane s').
Proof.
  unfold cont. intros H. apply cont_shape in H.
  destruct H as [(_ & -> & _)|[(_ & -> & _)|[(_ & Sb & _)|[(_ & x & Sb & ->)|
                [(_ & Sb & _)|(_ & x & Sb & _ & Hc)]]]]].
  - split; [apply same_kind_refl|auto].
  - split; [apply same_kind_refl|auto].
  - split; [apply Sb|]. apply decoder_sane_same. apply Sb.
  - split.
    + eapply same_kind_trans; [apply Sb|apply cleanup_kind].
    + intros S1. eapply decoder_sane_same; [|exact S1].
      rewrite cleanup_decoder. apply Sb.
  - split; [apply Sb|]. apply decoder_sane_same. apply Sb.
  - split.
    + eapply same_kind_trans; [apply Sb|]. eapply completed_kind. exact Hc.
    + intros S1. eapply completed_sane; [exact Hc|].
      eapply decoder_sane_same; [|exact S1]. apply Sb.
Qed.

Lemma start_abort_site env s buf ts c :
  meta_ok s ->
  start GetMPEGAudioFrameSize env s buf ts = Aborted c ->
  c = CHECK_thread_status_OK /\ ~ decoder_sane s.
Proof.
  intros M. unfold start, processPayloadStart.
  destruct (shouldAbort s); [discriminate|].
  destruct (processPayloadStart_header s buf ts) as [[s1 r]|c1] eqn:Hh; cbn [bind].
  2:{ exfalso. eapply header_never_aborts. exact Hh. }
  destruct r as [l'|h v t]; [discriminate|].
  intros Hf. apply fill_aborts in Hf. destruct Hf as (x & Sb & Bx & Hc).
  destruct (header_frame _ _ _ Hh) as (_ & _ & Em & _).
  assert (Mx : meta_ok x).
  { eapply meta_ok_same_but_buffer; [exact Sb|]. eapply meta_ok_same; eassumption. }
  edestruct completed_abort_site as [-> N]; [exact Bx|exact Mx|exact Hc|].
  split; [reflexivity|].
  intros Hs. apply N. eapply decoder_sane_same; [apply Sb|].
  eapply header_sane; eassumption.
Qed.

Lemma cont_abort_site env s buf c :
  buffer_inv s -> meta_ok s ->
  cont GetMPEGAudioFrameSize env s buf = Aborted c ->
  c = CHECK_thread_status_OK /\ ~ decoder_sane s.
Proof.
  intros I M H.
  destruct (@cont_checks_hold GetMPEGAudioFrameSize env s buf I) as [N1 N2].
  unfold cont in *. pose proof H as H'. apply cont_aborts in H'.
  destruct H' as [->|[->|(x & Sb & Bx & Hc)]]; [contradiction|contradiction|].
  assert (Mx : meta_ok x) by (eapply meta_ok_same_but_buffer; eassumption).
  edestruct completed_abort_site as [-> N]; [exact Bx|exact Mx|exact Hc|].
  split; [reflexivity|].
  intros Hs. apply N. eapply decoder_sane_same; [apply Sb|exact Hs].
Qed.

Lemma shutdown_same s :
  same_kind s (shutdown s) /\
  decoder_ (shutdown s) = option_map (fun p => snd (Pump.shutdown p)) (decoder_ s).
Proof.
  unfold shutdown. cbv zeta.
  set (y := set_status_ OK _).
  assert (Ky : same_kind s y) by (repeat split).
  assert (Dy : decoder_ y = decoder_ s) by reflexivity.
  clearbody y.
  pose proof (cleanup_kind y) as K1. pose proof (cleanup_decoder y) as D1.
  set (z := cleanupBufferInProgress y) in *. clearbody z.
  pose proof (cleanupDecoder_kind z) as K2. pose proof (cleanupDecoder_decoder z) as D2.
  split.
  - eapply same_kind_trans; [exact Ky|]. eapply same_kind_trans; eassumption.
  - rewrite D2, D1, Dy. reflexivity.
Qed.

Lemma step_kind s op s' :
  step GetMPEGAudioFrameSize s op = Ok s' ->
  ssrc_ s' = ssrc_ s /\
  (kind_ok s -> kind_ok s') /\
  (substream_details_known_ s = true -> same_kind s s').
Proof.
  assert (Hs : forall x, same_kind s x ->
                 ssrc_ x = ssrc_ s /\ (kind_ok s -> kind_ok x) /\
                 (substream_details_known_ s = true -> same_kind s x)).
  { intros x K. split; [apply K|]. split; [apply kind_ok_same; exact K|auto]. }
  destruct op; cbn [step].
  - destruct (start _ env s buf ts_lower) as [[s1 l]|] eqn:H; cbn [bind]; [|discriminate].
    intros E; inversion E; subst.
    edestruct start_keeps as (A & _ & B & C); [exact H|]. auto.
  - destruct (cont _ env s buf) as [[s1 l]|] eqn:H; cbn [bind]; [|discriminate].
    intros E; inversion E; subst. apply Hs. eapply cont_keeps. exact H.
  - intros E; inversion E; subst. apply Hs. unfold processTSTransform.
    destruct (decoder_ s); repeat split.
  - intros E; inversion E; subst. apply Hs. apply shutdown_same.
  - intros E; inversion E; subst. apply Hs. destruct (decoder_ s); repeat split.
Qed.

Lemma step_sane s op s' :
  step GetMPEGAudioFrameSize s op = Ok s' ->
  op_sane op -> decoder_sane s -> decoder_sane s'.
Proof.
  destruct op; cbn [step op_sane].
  - destruct (start _ env s buf ts_lower) as [[s1 l]|] eqn:H; cbn [bind]; [|discriminate].
    intros E _; inversion E; subst. eapply start_keeps. exact H.
  - destruct (cont _ env s buf) as [[s1 l]|] eqn:H; cbn [bind]; [|discriminate].
    intros E _; inversion E; subst. eapply cont_keeps. exact H.
  - intros E _ Hs; inversion E; subst. unfold processTSTransform.
    destruct (decoder_ s) as [p|] eqn:D; [|exact Hs].
    intros q Eq. cbn in Eq. inversion Eq; subst.
    apply setRenderTSTransform_sane. apply (Hs _ D).
  - intros E _ Hs; inversion E; subst. intros q Eq.
    destruct (shutdown_same s) as (_ & D). rewrite D in Eq.
    destruct (decoder_ s); [|discriminate]. inversion Eq; subst. apply shutdown_sane.
  - intros E Hp Hs; inversion E; subst.
    destruct (decoder_ s) as [p0|] eqn:D; [|exact Hs].
    intros q Eq. cbn in Eq. inversion Eq; subst. exact Hp.
Qed.

Lemma step_abort_site s op c :
  buffer_inv s -> meta_ok s ->
  step GetMPEGAudioFrameSize s op = Aborted c ->
  c = CHECK_thread_status_OK /\ ~ decoder_sane s.
Proof.
  intros I M. destruct op; cbn [step]; try discriminate.
  - destruct (start _ env s buf ts_lower) as [[s1 l]|c1] eqn:H; cbn [bind];
      [discriminate|].
    intros E; inversion E; subst. eapply start_abort_site; eassumption.
  - destruct (cont _ env s buf) as [[s1 l]|c1] eqn:H; cbn [bind]; [discriminate|].
    intros E; inversion E; subst. eapply cont_abort_site; eassumption.
Qed.

Lemma run_abort_site c ops : forall s,
  buffer_inv s -> waiting_for_rap_ s = true -> meta_ok s ->
  run GetMPEGAudioFrameSize s ops = Aborted c ->
  c = CHECK_thread_status_OK /\ (decoder_sane s -> ~ Forall op_sane ops).
Proof.
  induction ops as [|op ops IH]; intros s I W M; cbn [run]; [discriminate|].
  destruct (step _ s op) as [s1|c1] eqn:H; cbn [bind].
  - intros R.
    edestruct step_inv as [I1 W1]; [exact I|exact W|exact H|].
    assert (M1 : meta_ok s1) by (eapply step_meta_ok; eassumption).
    destruct (IH _ I1 W1 M1 R) as [-> N]. split; [reflexivity|].
    intros Hs F. inversion F; subst. apply N; [|assumption].
    eapply step_sane; eassumption.
  - intros E; inversion E; subst.
    edestruct step_abort_site as [-> N]; [exact I|exact M|exact H|].
    split; [reflexivity|].
    intros Hs. contradiction.
Qed.

Lemma new_sane ssrc : decoder_sane (new ssrc).
Proof. intros p E. inversion E; subst. intros _. reflexivity. Qed.

Lemma run_kind ops : forall s s',
  run GetMPEGAudioFrameSize s ops = Ok s' ->
  ssrc_ s' = ssrc_ s /\
  (kind_ok s -> kind_ok s') /\
  (substream_details_known_ s = true -> same_kind s s').
Proof.
  induction ops as [|op ops IH]; intros s s'; cbn [run].
  - intros E; inversion E; subst. split; [reflexivity|]. split; [auto|].
    intros _. apply same_kind_refl.
  - destruct (step _ s op) as [s1|] eqn:H; cbn [bind]; [|discriminate].
    intros R. edestruct step_kind as (A1 & B1 & C1); [exact H|].
    destruct (IH _ _ R) as (A2 & B2 & C2).
    split; [congruence|]. split; [auto|].
    intros Kn. pose proof (C1 Kn) as K1.
    eapply same_kind_trans; [exact K1|]. apply C2.
    destruct K1 as (_ & -> & _). exact Kn.
Qed.

(** X1.  No CHECK of the substream's code can fail, whatever is received.
    Over any sequence of fragment-starts, continuations, transforms and
    shutdowns on a new substream, with the pump's worker leaving any pump
    state in between: if a call aborts the process, the CHECK that failed is
    the one of [AAH_DecoderPump::init] on the pump's status, and the worker
    had left the pump without decode engine and with a terminal status.
    Hence, when the worker leaves only pumps that have an engine or the
    status OK, every call returns. *)
Theorem no_check_of_the_substream_fails ssrc ops :
  (forall c, run GetMPEGAudioFrameSize (new ssrc) ops = Aborted c ->
             c = CHECK_thread_status_OK /\ ~ Forall op_sane ops) /\
  (Forall op_sane ops ->
   exists s, run GetMPEGAudioFrameSize (new ssrc) ops = Ok s).
Proof.
  destruct (new_inv ssrc) as [I0 W0].
  assert (A : forall c, run GetMPEGAudioFrameSize (new ssrc) ops = Aborted c ->
                c = CHECK_thread_status_OK /\ ~ Forall op_sane ops).
  { intros c R.
    edestruct run_abort_site as [-> N]; [exact I0|exact W0|apply new_meta_ok|exact R|].
    split; [reflexivity|]. apply N. apply new_sane. }
  split; [exact A|].
  intros F. destruct (run GetMPEGAudioFrameSize (new ssrc) ops) as [s|c] eqn:R.
  - exists s. reflexivity.
  - exfalso. destruct (A c eq_refl) as [_ N]. apply N. exact F.
Qed.

(** X2.  A substream keeps its SSRC, and its kind and codec once they are
    known: on every substream reached from a new one the SSRC is the one
    given to the constructor and a known kind is audio with codec MP3 or
    AAC; and from then on no call, [shutdown] included, changes whether the
    details are known, the kind or the codec. *)
Theorem kind_and_codec_are_fixed ssrc ops s :
  run GetMPEGAudioFrameSize (new ssrc) ops = Ok s ->
  ssrc_ s = ssrc /\
  kind_ok s /\
  forall ops' s',
    substream_details_known_ s = true ->
    run GetMPEGAudioFrameSize s ops' = Ok s' ->
    substream_details_known_ s' = true /\
    substream_type_ s' = substream_type_ s /\
    codec_type_ s' = codec_type_ s.
Proof.
  intros R. edestruct run_kind as (A & B & _); [exact R|].
  split; [exact A|]. split; [apply B; intros K; discriminate K|].
  intros ops' s' Kn R'. edestruct run_kind as (_ & _ & C); [exact R'|].
  destruct (C Kn) as (_ & C1 & C2 & C3). rewrite C1, C2, C3. auto.
Qed.

Lemma shutdown_buffer s : buffer_in_progress_ (shutdown s) = None.
Proof.
  unfold shutdown. cbv zeta. rewrite cleanupDecoder_buffer. apply cleanup_buffer.
Qed.

Lemma shutdown_status s : status_ (shutdown s) = OK.
Proof.
  unfold shutdown. cbv zeta.
  set (y := set_status_ OK _).
  assert (Sy : status_ y = OK) by reflexivity. clearbody y.
  rewrite cleanupDecoder_status, cleanup_status. exact Sy.
Qed.

(** X3.  A fatal status comes from the pump, and it stays.  When a call
    leaves a substream whose status was OK with another status, a unit has
    been completed and the pump has refused it: the new status is the
    terminal status the pump had, no buffer is in progress and the pump has
    been shut down, its queue emptied.  From then on [processPayloadStart]
    and [processPayloadCont] return at once, leaving everything as it is,
    until [shutdown] sets the status to OK again. *)
Theorem fatal_status_comes_from_the_pump s op s' :
  step GetMPEGAudioFrameSize s op = Ok s' ->
  status_ s = OK -> status_ s' <> OK ->
  (exists p p',
     decoder_ s = Some p /\ status_ s' = Pump.thread_status_ p /\
     decoder_ s' = Some p' /\ Pump.thread_status_ p' = OK /\
     Pump.decoder_ p' = None /\ Pump.in_queue_ p' = []) /\
  buffer_in_progress_ s' = None /\
  (forall env buf ts,
     start GetMPEGAudioFrameSize env s' buf ts = Ok (s', SkipFatalError) /\
     cont GetMPEGAudioFrameSize env s' buf = Ok (s', SkipFatalError)) /\
  status_ (shutdown s') = OK.
Proof.
  intros H S0 S1.
  assert (Skip : forall env buf ts,
            start GetMPEGAudioFrameSize env s' buf ts = Ok (s', SkipFatalError) /\
            cont GetMPEGAudioFrameSize env s' buf = Ok (s', SkipFatalError)).
  { intros env buf ts. unfold start, processPayloadStart, cont, processPayloadCont,
      shouldAbort.
    replace (OK =? status_ s') with false
      by (symmetry; apply Z.eqb_neq; congruence).
    split; reflexivity. }
  assert (Fin : forall create run_res x,
            status_ x = status_ s ->
            (forall px, decoder_ x = Some px ->
               exists p, decoder_ s = Some p /\
                         Pump.thread_status_ px = Pump.thread_status_ p) ->
            processCompletedBuffer GetMPEGAudioFrameSize create run_res x = Ok s' ->
            (exists p p',
               decoder_ s = Some p /\ status_ s' = Pump.thread_status_ p /\
               decoder_ s' = Some p' /\ Pump.thread_status_ p' = OK /\
               Pump.decoder_ p' = None /\ Pump.in_queue_ p' = []) /\
            buffer_in_progress_ s' = None).
  { intros create run_res x Sx Dx Hc.
    pose proof Hc as Hc'. apply completed_cases in Hc'.
    destruct Hc' as (_ & _ & Hcl & _).
    split; [|apply Hcl].
    edestruct completed_fatal as (px & p' & D1 & E1 & Rest); [exact Hc|congruence|].
    destruct (Dx _ D1) as (p & Dp & Tp).
    exists p, p'. split; [exact Dp|]. split; [congruence|]. exact Rest. }
  assert (Main : (exists p p',
                    decoder_ s = Some p /\ status_ s' = Pump.thread_status_ p /\
                    decoder_ s' = Some p' /\ Pump.thread_status_ p' = OK /\
                    Pump.decoder_ p' = None /\ Pump.in_queue_ p' = []) /\
                 buffer_in_progress_ s' = None).
  { destruct op; cbn [step] in H.
    - destruct (start _ env s buf ts_lower) as [[s1 l]|] eqn:Hs; cbn [bind] in H;
        [|discriminate].
      inversion H; subst s1; clear H.
      unfold start, processPayloadStart in Hs.
      destruct (shouldAbort s); [inversion Hs; subst; contradiction|].
      destruct (processPayloadStart_header s buf ts_lower) as [[s1 r]|] eqn:Hh;
        cbn [bind] in Hs; [|discriminate].
      destruct (header_frame _ _ _ Hh) as (_ & St1 & _ & _ & _ & _ & _ & D1 & _).
      assert (Dx : forall px, decoder_ s1 = Some px ->
                     exists p, decoder_ s = Some p /\
                               Pump.thread_status_ px = Pump.thread_status_ p).
      { intros px E. destruct D1 as [D1|(p & v & Dp & D1)].
        - exists px. split; [congruence|reflexivity].
        - exists p. split; [exact Dp|]. rewrite D1 in E. inversion E; subst.
          apply setRenderVolume_fields. }
      destruct r as [l'|h v t].
      { inversion Hs; subst. exfalso. apply S1. congruence. }
      apply fill_shape in Hs.
      destruct Hs as [[_ ->]|[(_ & Sb & _)|(_ & x & Sb & _ & Hc)]].
      + exfalso. apply S1. rewrite cleanup_status. sub_simpl. congruence.
      + exfalso. apply S1. destruct Sb as (_ & -> & _). congruence.
      + eapply Fin; [| |exact Hc].
        * destruct Sb as (_ & -> & _). exact St1.
        * intros px E. apply Dx. destruct Sb as (_ & _ & _ & <- & _). exact E.
    - destruct (cont _ env s buf) as [[s1 l]|] eqn:Hs; cbn [bind] in H;
        [|discriminate].
      inversion H; subst s1; clear H. unfold cont in Hs. apply cont_shape in Hs.
      destruct Hs as [(_ & -> & _)|[(_ & -> & _)|[(_ & Sb & _)|[(_ & x & Sb & ->)|
                     [(_ & Sb & _)|(_ & x & Sb & _ & Hc)]]]]];
        try contradiction;
        try (exfalso; apply S1; destruct Sb as (_ & -> & _); exact S0).
      + exfalso. apply S1. rewrite cleanup_status. destruct Sb as (_ & -> & _).
        exact S0.
      + eapply Fin; [| |exact Hc].
        * apply Sb.
        * intros px E. exists px. destruct Sb as (_ & _ & _ & <- & _). auto.
    - inversion H; subst. exfalso. apply S1. unfold processTSTransform.
      destruct (decoder_ s); exact S0.
    - inversion H; subst. exfalso. apply S1. apply shutdown_status.
    - inversion H; subst. exfalso. apply S1. destruct (decoder_ s); exact S0. }
  destruct Main as [M1 M2].
  split; [exact M1|]. split; [exact M2|]. split; [exact Skip|]. apply shutdown_status.
Qed.

(** ** The size of the buffer in progress *)

Lemma memcpy_length tgt off src :
  0 <= off -> off + zlen src <= zlen tgt -> zlen (memcpy tgt off src) = zlen tgt.
Proof.
  unfold memcpy, zlen. intros H0 H1.
  rewrite !length_app, length_firstn, length_skipn. lia.
Qed.

Lemma zlen_firstn_le {A} n (l : list A) : zlen (firstn n l) <= Z.of_nat n.
Proof. unfold zlen. rewrite length_firstn. lia. Qed.

Lemma cleaned_size_ok s : cleaned s -> size_ok s.
Proof. intros (B & _) mb E. congruence. Qed.

Lemma fill_size alloc create run_res s1 h v ts buf s' l :
  0 <= expected_buffer_size_ s1 ->
  processPayloadStart_fill GetMPEGAudioFrameSize alloc create run_res s1 h v ts buf
    = Ok (s', l) ->
  size_ok s'.
Proof.
  intros He.
  unfold processPayloadStart_fill, write_buffer.
  cbv beta iota zeta. sub_simpl.
  repeat (match goal with
          | |- context [if ?c then _ else _] => destruct c eqn:?
          end; cbv beta iota zeta; sub_simpl);
    try (intros H; inversion H; subst; clear H; apply cleaned_size_ok;
         apply cleanup_cleaned);
    try (destruct (processCompletedBuffer _ _ _ _) as [?|?] eqn:C; cbn [bind];
         [|discriminate];
         intros H; inversion H; subst; clear H; apply cleaned_size_ok;
         apply completed_cases in C; destruct C as (_ & _ & C & _); exact C);
    intros H; inversion H; subst; clear H;
    intros mb E; sub_simpl_in E; inversion E; subst; clear E;
    cbn [mb_data]; sub_simpl;
    rewrite ?memcpy_length; rewrite ?zlen_repeat; try lia;
    match goal with
    | |- context [zlen (firstn ?n ?l)] => pose proof (zlen_firstn_le n l)
    end;
    rewrite ?min_spec in *; bool_facts; lia.
Qed.

Lemma cont_size env s buf s' l :
  buffer_inv s -> size_ok s ->
  cont GetMPEGAudioFrameSize env s buf = Ok (s', l) ->
  size_ok s'.
Proof.
  intros I Sz. unfold cont, processPayloadCont, write_buffer.
  destruct (shouldAbort s); [intros H; inversion H; subst; exact Sz|].
  unfold buffer_inv in I.
  destruct (buffer_in_progress_ s) as [mb|] eqn:B.
  2:{ intros H; inversion H; subst. exact Sz. }
  destruct I as (I1 & I2 & I3).
  pose proof (Sz mb B) as Lmb. unfold size_ok in Sz.
  pose proof (zlen_nonneg (aux_data_in_progress_ s)) as Hz.
  pose proof (zlen_nonneg buf) as Hb.
  destruct (negb (zlen (aux_data_in_progress_ s) <=? aux_data_expected_size_ s)) eqn:C1;
    [discriminate|].
  rewrite (u32_small (x := aux_data_expected_size_ s - zlen (aux_data_in_progress_ s)))
    by lia.
  set (aux_left := aux_data_expected_size_ s - zlen (aux_data_in_progress_ s)) in *.
  rewrite min_spec.
  cbv beta iota zeta. sub_simpl.
  repeat (match goal with
          | |- context [if ?c then _ else _] => destruct c eqn:?
          end; cbv beta iota zeta; sub_simpl; rewrite ?B; cbv beta iota; sub_simpl);
    try discriminate;
    try (intros H; inversion H; subst; clear H; apply cleaned_size_ok;
         apply cleanup_cleaned);
    try (destruct (processCompletedBuffer _ _ _ _) as [?|?] eqn:C; cbn [bind];
         [|discriminate];
         intros H; inversion H; subst; clear H; apply cleaned_size_ok;
         apply completed_cases in C; destruct C as (_ & _ & C & _); exact C);
    intros H; inversion H; subst; clear H;
    intros mb' E; sub_simpl_in E; rewrite ?B in E; inversion E; subst; clear E;
    cbn [mb_data]; sub_simpl; try exact Lmb;
    rewrite memcpy_length; try exact Lmb; try lia;
    sub_simpl_in_all; bool_facts;
    repeat match goal with
           | H : context [u32 (expected_buffer_size_ s - buffer_filled_ s)] |- _ =>
               rewrite (u32_small (x := expected_buffer_size_ s - buffer_filled_ s))
                 in H by lia
           end;
    rewrite ?zlen_skipn by lia; lia.
Qed.

Lemma start_size env s buf ts s' l :
  size_ok s ->
  start GetMPEGAudioFrameSize env s buf ts = Ok (s', l) ->
  size_ok s'.
Proof.
  intros Sz. unfold start, processPayloadStart.
  destruct (shouldAbort s); [intros H; inversion H; subst; exact Sz|].
  destruct (processPayloadStart_header s buf ts) as [[s1 r]|] eqn:Hh; cbn [bind];
    [|discriminate].
  destruct (header_frame _ _ _ Hh) as (B & _).
  destruct r as [l'|h v t].
  - intros H; inversion H; subst. intros mb E. congruence.
  - destruct (header_accept _ _ _ Hh)
      as (_ & _ & _ & _ & _ & _ & _ & _ & _ & EE & _).
    apply fill_size. rewrite EE. apply u32_range.
Qed.

Lemma step_size s op s' :
  buffer_inv s -> size_ok s ->
  step GetMPEGAudioFrameSize s op = Ok s' ->
  size_ok s'.
Proof.
  intros I Sz. destruct op; cbn [step].
  - destruct (start _ env s buf ts_lower) as [[s1 l]|] eqn:H; cbn [bind]; [|discriminate].
    intros E; inversion E; subst. eapply start_size; eassumption.
  - destruct (cont _ env s buf) as [[s1 l]|] eqn:H; cbn [bind]; [|discriminate].
    intros E; inversion E; subst. eapply cont_size; eassumption.
  - intros E; inversion E; subst. unfold processTSTransform.
    destruct (decoder_ s); exact Sz.
  - intros E; inversion E; subst. intros mb Eb.
    rewrite shutdown_buffer in Eb. discriminate.
  - intros E; inversion E; subst. destruct (decoder_ s); exact Sz.
Qed.

Lemma run_size ops : forall s s',
  buffer_inv s -> waiting_for_rap_ s = true -> size_ok s ->
  run GetMPEGAudioFrameSize s ops = Ok s' ->
  size_ok s'.
Proof.
  induction ops as [|op ops IH]; intros s s' I W Sz; cbn [run].
  - intros E; inversion E; subst. exact Sz.
  - destruct (step _ s op) as [s1|] eqn:H; cbn [bind]; [|discriminate].
    edestruct step_inv as [I1 W1]; [exact I|exact W|exact H|].
    apply IH; try assumption. eapply step_size; [exact I|exact Sz|exact H].
Qed.

Lemma memcpy_to_the_end tgt off src :
  0 <= off -> off + zlen src = zlen tgt ->
  memcpy tgt off src = firstn (Z.to_nat off) tgt ++ src.
Proof.
  unfold memcpy, zlen. intros H0 H1.
  rewrite skipn_all2 by lia. rewrite app_nil_r. reflexivity.
Qed.

(** The write of [processPayloadCont] that completes a unit. *)
Lemma cont_completes env s buf s' mb :
  buffer_inv s -> size_ok s -> buffer_in_progress_ s = Some mb ->
  cont GetMPEGAudioFrameSize env s buf = Ok (s', Completed) ->
  exists x pay,
    pay = skipn (Z.to_nat (Z.min (aux_data_expected_size_ s
                                  - zlen (aux_data_in_progress_ s)) (zlen buf))) buf /\
    same_but_buffer s x /\
    buffer_in_progress_ x =
      Some (mkMediaBuffer (firstn (Z.to_nat (buffer_filled_ s)) (mb_data mb) ++ pay)
                          (mb_meta mb)) /\
    zlen pay = expected_buffer_size_ s - buffer_filled_ s /\
    expected_buffer_size_ x = expected_buffer_size_ s /\
    buffer_filled_ x = expected_buffer_size_ s /\
    processCompletedBuffer GetMPEGAudioFrameSize (env_create env) (env_run env) x = Ok s'.
Proof.
  intros I Sz B. unfold cont, processPayloadCont, write_buffer.
  destruct (shouldAbort s); [discriminate|].
  unfold buffer_inv in I. rewrite B in *.
  destruct I as (I1 & I2 & I3).
  pose proof (Sz mb B) as Lmb.
  pose proof (zlen_nonneg (aux_data_in_progress_ s)) as Hz.
  pose proof (zlen_nonneg buf) as Hb.
  destruct (negb (zlen (aux_data_in_progress_ s) <=? aux_data_expected_size_ s)) eqn:C1;
    [discriminate|].
  rewrite (u32_small (x := aux_data_expected_size_ s - zlen (aux_data_in_progress_ s)))
    by lia.
  set (aux_left := aux_data_expected_size_ s - zlen (aux_data_in_progress_ s)) in *.
  assert (Ha : 0 <= aux_left) by (unfold aux_left; lia).
  rewrite min_spec.
  cbv beta iota zeta. sub_simpl.
  repeat (match goal with
          | |- context [if ?c then _ else _] => destruct c eqn:?
          end; cbv beta iota zeta; sub_simpl; rewrite ?B; cbv beta iota; sub_simpl);
    try discriminate;
    (destruct (processCompletedBuffer _ _ _ _) as [?|?] eqn:C; cbn [bind];
     [|discriminate]);
    intros H; inversion H; subst; clear H.
  all: match type of C with
    | processCompletedBuffer _ _ _ ?x = _ => exists x
    end.
  all: eexists; split; [reflexivity|].
  all: sub_simpl; rewrite ?B; sub_simpl.
  all: sub_simpl_in_all; rewrite ?B in *; sub_simpl_in_all; bool_facts.
  all: repeat match goal with
              | H : context [u32 ?e] |- _ => rewrite (u32_small (x := e)) in H by lia
              end.
  all: rewrite ?u32_small by lia.
  all: try (exfalso; lia).
  all: try (assert (A0 : aux_left = 0) by assumption;
            replace (Z.min aux_left (zlen buf)) with 0 by lia).
  all: change (Z.to_nat 0) with 0%nat; cbn [skipn].
  all: split; [repeat split|].
  all: split; [rewrite memcpy_to_the_end;
               [reflexivity|lia|rewrite ?zlen_skipn by lia; lia]|].
  all: split; [rewrite ?zlen_skipn by lia; lia|].
  all: split; [reflexivity|]. 
  all: split; [lia|exact C].
Qed.

(** The write of [processPayloadStart] that completes a unit. *)
Lemma fill_completes alloc create run_res s1 h v ts buf s' :
  0 <= h <= zlen buf ->
  0 <= aux_data_expected_size_ s1 ->
  0 < expected_buffer_size_ s1 ->
  processPayloadStart_fill GetMPEGAudioFrameSize alloc create run_res s1 h v ts buf
    = Ok (s', Completed) ->
  exists x pay,
    pay = firstn (Z.to_nat (expected_buffer_size_ s1))
            (skipn (Z.to_nat (Z.min (aux_data_expected_size_ s1) (zlen buf - h)))
               (skipn (Z.to_nat h) buf)) /\
    same_but_buffer s1 x /\
    buffer_in_progress_ x =
      Some (mkMediaBuffer pay
              (mkMetaData (Some (codec_mime_type_ s1))
                          (if v then Some ts else None) None None None)) /\
    zlen pay = expected_buffer_size_ s1 /\
    expected_buffer_size_ x = expected_buffer_size_ s1 /\
    processCompletedBuffer GetMPEGAudioFrameSize create run_res x = Ok s'.
Proof.
  intros Hh Ha He. unfold processPayloadStart_fill, write_buffer.
  assert (Hdata : zlen (skipn (Z.to_nat h) buf) = zlen buf - h)
    by (apply zlen_skipn; lia).
  rewrite !min_spec.
  cbv beta iota zeta. sub_simpl.
  repeat (match goal with
          | |- context [if ?c then _ else _] => destruct c eqn:?
          end; cbv beta iota zeta; sub_simpl);
    try discriminate;
    (destruct (processCompletedBuffer _ _ _ _) as [?|?] eqn:C; cbn [bind];
     [|discriminate]);
    intros H; inversion H; subst; clear H.
  all: match type of C with
    | processCompletedBuffer _ _ _ ?x = _ => exists x
    end.
  all: eexists; split; [reflexivity|].
  all: sub_simpl.
  all: sub_simpl_in_all; bool_facts.
  all: cbn [mb_data mb_meta] in *; rewrite ?min_spec in *.
  all: try (exfalso; lia).
  all: try match goal with
           | H : Z.min _ _ = 0 |- _ =>
               rewrite H in *; change (Z.to_nat 0) with 0%nat; cbn [skipn];
               rewrite ?Z.sub_0_r in *
           end.
  all: match goal with
       | |- context [firstn (Z.to_nat (Z.min ?e ?r)) ?l] =>
           let E := fresh "E" in
           assert (E : Z.min e r = e) by lia; rewrite E in *;
           assert (Lp : zlen (firstn (Z.to_nat e) l) = e)
             by (apply zlen_firstn; rewrite ?zlen_skipn by lia; lia)
       end.
  all: split; [repeat split|].
  all: split; [rewrite memcpy_to_the_end;
               [reflexivity|lia|rewrite zlen_repeat; lia]|].
  all: split; [exact Lp|].
  all: split; [reflexivity|exact C].
Qed.

(** X4.  No write reaches beyond the end of the buffer in progress.  On
    every substream reached from a new one, a buffer in progress has exactly
    the size announced for the access unit ([expected_buffer_size_]), and the
    bytes filled so far are fewer.  The write that completes a unit stays
    inside as well: the unit that [processPayloadCont] hands to
    [processCompletedBuffer] is the buffer in progress with the bytes that
    follow the aux data written at [buffer_filled_], of the same size as
    before and full; the unit that [processPayloadStart] hands over when one
    fragment holds the whole unit consists of the first bytes of the access
    unit, as many as were announced.  The [memcpy] of the model would
    lengthen the buffer if a write reached beyond its end. *)
Theorem writes_stay_inside_the_buffer ssrc ops s :
  run GetMPEGAudioFrameSize (new ssrc) ops = Ok s ->
  (forall mb,
     buffer_in_progress_ s = Some mb ->
     zlen (mb_data mb) = expected_buffer_size_ s /\
     0 <= buffer_filled_ s < zlen (mb_data mb)) /\
  (forall env buf s' mb,
     buffer_in_progress_ s = Some mb ->
     cont GetMPEGAudioFrameSize env s buf = Ok (s', Completed) ->
     exists x unit,
       same_but_buffer s x /\
       buffer_in_progress_ x = Some unit /\
       mb_data unit =
         firstn (Z.to_nat (buffer_filled_ s)) (mb_data mb) ++
         skipn (Z.to_nat (Z.min (aux_data_expected_size_ s
                                 - zlen (aux_data_in_progress_ s)) (zlen buf))) buf /\
       mb_meta unit = mb_meta mb /\
       zlen (mb_data unit) = zlen (mb_data mb) /\
       expected_buffer_size_ x = zlen (mb_data unit) /\
       buffer_filled_ x = zlen (mb_data unit) /\
       processCompletedBuffer GetMPEGAudioFrameSize (env_create env) (env_run env) x
         = Ok s') /\
  (forall env buf ts s',
     start GetMPEGAudioFrameSize env s buf ts = Ok (s', Completed) ->
     let announced :=
       u32 (total_length_of buf - header_length_of buf - aux_length_of buf) in
     exists x unit,
       buffer_in_progress_ x = Some unit /\
       mb_data unit = firstn (Z.to_nat announced) (access_unit_of buf) /\
       zlen (mb_data unit) = announced /\
       expected_buffer_size_ x = announced /\
       processCompletedBuffer GetMPEGAudioFrameSize (env_create env) (env_run env) x
         = Ok s').
Proof.
  intros R. destruct (new_inv ssrc) as [I0 W0].
  assert (Sz : size_ok s).
  { eapply run_size; [exact I0|exact W0| |exact R]. intros mb0 E. discriminate E. }
  edestruct run_inv as [I _]; [exact I0|exact W0|exact R|].
  split; [|split].
  - intros mb B. unfold buffer_inv in I. rewrite B in I.
    rewrite (Sz mb B). split; [reflexivity|]. lia.
  - intros env buf s' mb B H.
    destruct (cont_completes _ _ I Sz B H)
      as (x & pay & -> & Sb & Bx & Lp & Ex & Fx & C).
    pose proof (Sz mb B) as Lmb.
    unfold buffer_inv in I. rewrite B in I. destruct I as (_ & I2 & _).
    eexists x, _. split; [exact Sb|]. split; [exact Bx|]. cbn [mb_data mb_meta].
    split; [reflexivity|]. split; [reflexivity|].
    assert (L : zlen (firstn (Z.to_nat (buffer_filled_ s)) (mb_data mb) ++
                      skipn (Z.to_nat (Z.min (aux_data_expected_size_ s
                                              - zlen (aux_data_in_progress_ s))
                                             (zlen buf))) buf)
                = zlen (mb_data mb)).
    { rewrite zlen_app, zlen_firstn by lia. lia. }
    split; [exact L|]. rewrite L, Lmb. split; [exact Ex|]. split; [exact Fx|exact C].
  - intros env buf ts s'. unfold start, processPayloadStart.
    destruct (shouldAbort s); [discriminate|].
    destruct (processPayloadStart_header s buf ts) as [[s1 r]|] eqn:Hh; cbn [bind];
      [|discriminate].
    destruct r as [l'|h v t].
    { intros H. inversion H; subst. exfalso.
      destruct (header_drop_log _ _ _ Hh) as (_ & N & _). apply N. reflexivity. }
    intros H.
    set (announced :=
           u32 (total_length_of buf - header_length_of buf - aux_length_of buf)).
    destruct (header_accept _ _ _ Hh)
      as (-> & _ & _ & _ & _ & L1 & _ & EA & _ & EE & NZ & _).
    pose proof (header_length_range buf) as Hr.
    pose proof (aux_length_range buf) as Har.
    pose proof (u32_range (total_length_of buf - header_length_of buf - aux_length_of buf))
      as Her.
    fold announced in EE, Her.
    apply fill_completes in H; [| lia | rewrite EA; lia | rewrite EE in *; lia].
    destruct H as (x & pay & -> & _ & Bx & Lp & Ex & C).
    rewrite EA, EE in *.
    assert (Long : aux_length_of buf <= zlen buf - header_length_of buf).
    { destruct (Z.le_gt_cases (aux_length_of buf) (zlen buf - header_length_of buf))
        as [Le|Gt]; [exact Le|exfalso].
      rewrite Z.min_r in Lp by lia.
      pose proof (zlen_firstn_le (Z.to_nat announced)
                    (skipn (Z.to_nat (zlen buf - header_length_of buf))
                       (skipn (Z.to_nat (header_length_of buf)) buf))) as F.
      revert Lp. unfold zlen. rewrite length_firstn, !length_skipn. unfold zlen in *. lia. }
    rewrite Z.min_l in * by lia.
    rewrite skipn_skipn in *.
    replace (Z.to_nat (aux_length_of buf) + Z.to_nat (header_length_of buf))%nat
      with (Z.to_nat (header_length_of buf + aux_length_of buf)) in * by lia.
    fold (access_unit_of buf) in *.
    eexists x, _. split; [exact Bx|]. cbn [mb_data].
    split; [reflexivity|]. split; [exact Lp|]. split; [exact Ex|exact C].
Qed.

(** ** The metadata of a unit *)

Section SingleFragment.

Variable env : Env.

(** The unit a single fragment yields (compare C3), with its metadata. *)
Lemma single_fragment_unit ssrc ops s p buf ts :
  run GetMPEGAudioFrameSize (new ssrc) ops = Ok s ->
  status_ s = OK ->
  decoder_ s = Some p ->
  Pump.thread_status_ p = OK ->
  (substream_details_known_ s = true ->
   substream_type_ s = kHeaderTypeAudio /\ codec_type_ s = codec_type_of buf) ->
  self_consistent buf = true ->
  rap_of buf = true ->
  0 < zlen (access_unit_of buf) ->
  format_derivable GetMPEGAudioFrameSize buf = true ->
  env_alloc env (zlen (access_unit_of buf)) = true ->
  exists s' p' unit,
    start GetMPEGAudioFrameSize env s buf ts = Ok (s', Completed) /\
    decoder_ s' = Some p' /\
    (exists q, Pump.in_queue_ p' = q ++ [unit]) /\
    mb_meta unit = unit_meta s buf ts.
Proof.
  intros Hrun St D Tp K SC R NZ FD AL.
  destruct (new_inv ssrc) as [I0 W0].
  edestruct run_inv as [I _]; [exact I0|exact W0|exact Hrun|].
  assert (M : meta_ok s) by (eapply run_meta_ok; [apply new_meta_ok|exact Hrun]).
  clear Hrun I0 W0.
  unfold self_consistent in SC.
  apply andb_true_iff in SC; destruct SC as [SC N'].
  apply andb_true_iff in SC; destruct SC as [SC L].
  apply andb_true_iff in SC; destruct SC as [SC C].
  apply andb_true_iff in SC; destruct SC as [V T].
  apply Z.eqb_eq in V, T, L. apply Z.leb_le in N'.
  assert (C' : codec_type_of buf = kCodecMPEG1Audio \/ codec_type_of buf = kCodecAACAudio).
  { apply orb_true_iff in C. destruct C as [C|C]; apply Z.eqb_eq in C; auto. }
  pose proof (header_length_range buf) as Hr.
  pose proof (aux_length_range buf) as Har.
  pose proof (U32_AT_range buf 2) as Htr. fold (total_length_of buf) in Htr.
  assert (Hau : zlen (access_unit_of buf)
                = zlen buf - header_length_of buf - aux_length_of buf).
  { unfold access_unit_of. rewrite zlen_skipn by lia. lia. }
  assert (N : header_length_of buf + aux_length_of buf < zlen buf) by lia.
  destruct (@header_accepts GetMPEGAudioFrameSize env s buf ts V T C' K R L N)
    as (s1 & t & Hh).
  pose proof (header_ts _ _ _ Hh) as Ht.
  unfold start, processPayloadStart, shouldAbort. rewrite St.
  change (negb (OK =? OK)) with false. cbv iota. rewrite Hh. cbn [bind].
  destruct (header_frame _ _ _ Hh) as (B & S1 & Em & Mi & _ & _ & Ax & _).
  destruct (aborted_in_progress_fields s) as (_ & _ & _ & _ & _ & _ & _ & _ & _ & A0).
  specialize (A0 I).
  assert (A1 : aux_data_in_progress_ s1 = []) by (destruct Ax as [Ax|Ax]; congruence).
  destruct (header_accept _ _ _ Hh)
    as (_ & _ & _ & _ & _ & _ & _ & EA & _ & EE & _ & _ & _ & _ & _ & Ec & _ & Ed).
  rewrite D in Ed.
  assert (EE' : expected_buffer_size_ s1
                = zlen buf - header_length_of buf - aux_length_of buf).
  { rewrite EE, L. apply u32_small. lia. }
  rewrite (@fill_single GetMPEGAudioFrameSize env); try assumption; try lia.
  2:{ rewrite EE', <- Hau. exact AL. }
  set (h := header_length_of buf) in *. set (a := aux_length_of buf) in *.
  set (x := skipn (Z.to_nat h) buf).
  assert (Hx : zlen x = zlen buf - h) by (apply zlen_skipn; lia).
  assert (Hpay : skipn (Z.to_nat (aux_data_expected_size_ s1)) x = access_unit_of buf).
  { rewrite EA. unfold x, access_unit_of. rewrite skipn_skipn. f_equal.
    fold h a. lia. }
  assert (Hdata : skipn (Z.to_nat (aux_data_expected_size_ s1)) x
                    ++ repeat Byte.x00
                         (Z.to_nat (expected_buffer_size_ s1)
                          - List.length (skipn (Z.to_nat (aux_data_expected_size_ s1)) x))
                  = access_unit_of buf).
  { rewrite Hpay, EE'.
    replace (Z.to_nat (zlen buf - h - a) - List.length (access_unit_of buf))%nat
      with 0%nat by (clear - Hau; unfold zlen in *; lia).
    apply app_nil_r. }
  assert (Fd : exists f, derived_format GetMPEGAudioFrameSize
                           (accumulated s1 (ts_valid_of buf) t x) = Some f).
  { unfold derived_format, accumulated. cbv zeta. sub_simpl. cbn [mb_data].
    rewrite Ec, Hdata. unfold format_derivable in FD.
    destruct (codec_type_of buf =? kCodecMPEG1Audio) eqn:Cm.
    - apply andb_true_iff in FD. destruct FD as [F1 F2]. rewrite F1.
      destruct (GetMPEGAudioFrameSize _) as [[sr ch]|]; [|discriminate F2].
      eexists. reflexivity.
    - replace (codec_type_of buf =? kCodecAACAudio) with true
        by (symmetry; apply Z.eqb_eq; apply Z.eqb_neq in Cm; tauto).
      rewrite EA, zlen_firstn by lia. fold a in FD. rewrite FD.
      eexists. reflexivity. }
  destruct Fd as [f Fd].
  assert (Mk : meta_ok (accumulated s1 (ts_valid_of buf) t x)).
  { eapply meta_ok_same; [|exact M]. exact Em. }
  destruct (setRenderVolume_fields p (volume_of buf)) as (Qv & Tv & _).
  edestruct (@completed_enqueues GetMPEGAudioFrameSize env
               (accumulated s1 (ts_valid_of buf) t x))
    as (s' & p' & Hc & B' & _ & D' & Q);
    [reflexivity | exact Ed | rewrite Tv; exact Tp | exact Fd | exact Mk |].
  rewrite Hc. cbn [bind].
  eexists. eexists. eexists.
  split; [reflexivity|]. split; [exact D'|].
  split.
  { rewrite Qv in Q. destruct Q as [Q|Q]; rewrite Q.
    - eexists. reflexivity.
    - exists []. reflexivity. }
  cbn [mb_meta]. unfold unit_meta. rewrite Mi. subst t.
  destruct (ts_valid_of buf); reflexivity.
Qed.

(** X5.  The metadata of a queued unit.  The unit that a single fragment
    yields (under the conditions of C3) is the last of the pump's queue and
    carries as MIME type the one the substream held before the call, which
    is the empty string on a new substream, and as timestamp, if the header
    has the TSValid flag, the 64-bit value assembled from the upper half in
    the header and the caller's [ts_lower]; without the flag it carries no
    timestamp.  [ts_lower] is an [int32_t] that is sign-extended before the
    bitwise or: a non-negative one gives [upper * 2^32 + ts_lower] (as an
    int64), a negative one gives [ts_lower] itself, whatever the upper half
    is. *)
Theorem unit_carries_mime_type_and_timestamp ssrc ops s p buf ts_lower :
  run GetMPEGAudioFrameSize (new ssrc) ops = Ok s ->
  status_ s = OK ->
  decoder_ s = Some p ->
  Pump.thread_status_ p = OK ->
  (substream_details_known_ s = true ->
   substream_type_ s = kHeaderTypeAudio /\ codec_type_ s = codec_type_of buf) ->
  self_consistent buf = true ->
  rap_of buf = true ->
  0 < zlen (access_unit_of buf) ->
  format_derivable GetMPEGAudioFrameSize buf = true ->
  env_alloc env (zlen (access_unit_of buf)) = true ->
  - 2 ^ 31 <= ts_lower < 2 ^ 31 ->
  exists s' p' q unit,
    start GetMPEGAudioFrameSize env s buf ts_lower = Ok (s', Completed) /\
    decoder_ s' = Some p' /\
    Pump.in_queue_ p' = q ++ [unit] /\
    kKeyMIMEType (mb_meta unit) = Some (codec_mime_type_ s) /\
    (ops = [] -> kKeyMIMEType (mb_meta unit) = Some EmptyString) /\
    (ts_valid_of buf = false -> kKeyTime (mb_meta unit) = None) /\
    (ts_valid_of buf = true -> 0 <= ts_lower ->
     kKeyTime (mb_meta unit) = Some (s64 (U32_AT buf 6 * 2 ^ 32 + ts_lower))) /\
    (ts_valid_of buf = true -> ts_lower < 0 ->
     kKeyTime (mb_meta unit) = Some ts_lower).
Proof.
  intros Hrun St D Tp K SC R NZ FD AL Hts.
  destruct (@single_fragment_unit ssrc ops s p buf ts_lower Hrun St D Tp K SC R NZ FD AL)
    as (s' & p' & unit & Hs & Hd & (q & Hq) & Hm).
  exists s', p', q, unit.
  split; [exact Hs|]. split; [exact Hd|]. split; [exact Hq|].
  rewrite Hm. unfold unit_meta. cbn [kKeyMIMEType kKeyTime].
  pose proof (U32_AT_range buf 6) as Hu.
  split; [reflexivity|]. split.
  { intros ->. cbn [run] in Hrun. inversion Hrun; subst. reflexivity. }
  split; [intros ->; reflexivity|]. split.
  - intros -> Hl. unfold timestamp_of. rewrite lor_upper_lower by lia. reflexivity.
  - intros -> Hl. unfold timestamp_of. rewrite lor_lower_negative by lia.
    rewrite s64_small by lia. reflexivity.
Qed.

End SingleFragment.

(** ** A continuation that is too long *)

Ltac overlong s St B :=
  repeat (match goal with
          | |- context [if ?c then _ else _] => destruct c eqn:?
          end; cbv beta iota zeta; sub_simpl; rewrite ?B; cbv beta iota; sub_simpl);
  first
    [ eexists; split; [reflexivity|];
      split; [apply cleanup_cleaned|];
      split; [rewrite cleanup_decoder; reflexivity|];
      rewrite cleanup_status; exact St
    | exfalso; sub_simpl_in_all; bool_facts;
      repeat match goal with
             | H : context [u32 (expected_buffer_size_ s - buffer_filled_ s)] |- _ =>
                 rewrite (u32_small (x := expected_buffer_size_ s - buffer_filled_ s))
                   in H by lia
             end;
      lia ].

(** X6.  A continuation with more bytes than the aux data and the access
    unit still lack drops the unit.  On a substream reached from a new one,
    with status OK and a buffer in progress: [processPayloadCont] logs the
    extra data and cleans up; afterwards no buffer is in progress, the gate
    for random-access points is set, and the pump is as it was, nothing
    having been queued. *)
Theorem overlong_continuation_drops_the_unit ssrc ops s mb env buf :
  run GetMPEGAudioFrameSize (new ssrc) ops = Ok s ->
  status_ s = OK ->
  buffer_in_progress_ s = Some mb ->
  (aux_data_expected_size_ s - zlen (aux_data_in_progress_ s))
  + (expected_buffer_size_ s - buffer_filled_ s) < zlen buf ->
  exists s',
    cont GetMPEGAudioFrameSize env s buf = Ok (s', ExtraDataInCont) /\
    cleaned s' /\ decoder_ s' = decoder_ s /\ status_ s' = OK.
Proof.
  intros R St B Hlen. destruct (new_inv ssrc) as [I0 W0].
  edestruct run_inv as [I _]; [exact I0|exact W0|exact R|]. clear R I0 W0.
  unfold buffer_inv in I. rewrite B in I. destruct I as (I1 & I2 & I3).
  pose proof (zlen_nonneg (aux_data_in_progress_ s)) as Hz.
  unfold cont, processPayloadCont, write_buffer, shouldAbort. rewrite St, B.
  change (negb (OK =? OK)) with false. cbv iota.
  rewrite (u32_small (x := aux_data_expected_size_ s - zlen (aux_data_in_progress_ s)))
    by lia.
  rewrite min_spec.
  destruct (negb (aux_data_expected_size_ s - zlen (aux_data_in_progress_ s) =? 0))
    eqn:C2; cbv beta iota zeta; cbn [andb]; sub_simpl.
  all: overlong s St B.
Qed.



(** ** shutdown *)

(** Evaluates the fields of a substream that setters have been applied to. *)
Ltac project :=
  cbn [ssrc_ substream_details_known_ substream_type_ codec_type_
       buffer_in_progress_ expected_buffer_size_ buffer_filled_ waiting_for_rap_
       aux_data_in_progress_ aux_data_expected_size_ status_ codec_mime_type_
       substream_meta_ decoder_
       set_substream_details_known_ set_substream_type_ set_codec_type_
       set_buffer_in_progress_ set_expected_buffer_size_ set_buffer_filled_
       set_waiting_for_rap_ set_aux_data_in_progress_ set_aux_data_expected_size_
       set_status_ set_codec_mime_type_ set_substream_meta_ set_decoder_ option_map].

(** X7.  [shutdown] of a substream sets the status to OK, drops the metadata
    and the buffer in progress, sets the gate for random-access points and
    shuts the pump down; the SSRC, the kind and the codec, once known, and
    the MIME type are kept.  It is idempotent, and a continuation that
    arrives afterwards is skipped, nothing being in progress. *)
Theorem shutdown_resets_the_substream s :
  let s' := shutdown s in
  status_ s' = OK /\ substream_meta_ s' = None /\ cleaned s' /\
  same_kind s s' /\ codec_mime_type_ s' = codec_mime_type_ s /\
  decoder_ s' = option_map (fun p => snd (Pump.shutdown p)) (decoder_ s) /\
  shutdown s' = s' /\
  (forall env buf,
     cont GetMPEGAudioFrameSize env s' buf = Ok (s', NoBufferInProgress)).
Proof.
  destruct s as [ssrc known ty codec buffer expected filled rap aux aux_expected
                 st mime meta dec].
  unfold shutdown, cleanupDecoder, cleanupBufferInProgress, cleaned, same_kind, cont,
    processPayloadCont, shouldAbort.
  destruct buffer as [mb|]; destruct dec as [p|]; project;
    (split; [reflexivity|]); (split; [reflexivity|]);
    (split; [repeat (split; [reflexivity|]); reflexivity|]);
    (split; [repeat (split; [reflexivity|]); reflexivity|]);
    (split; [reflexivity|]); (split; [reflexivity|]);
    (split; [apply t_ext; project; rewrite ?PumpContract.shutdown_twice;
             reflexivity|]);
    intros env buf; change (negb (OK =? OK)) with false; cbv iota; reflexivity.
Qed.

End Calls.

(** ** A format change *)

Section FormatChange.

Variable GetMPEGAudioFrameSize : Z -> option (Z * Z).

(** [setupSubstreamMeta] on a unit whose format differs from the one
    established: the pump is shut down and the metadata takes the unit's
    sample rate and channel count. *)
Lemma setup_on_format_change s m f :
  substream_meta_ s = Some m ->
  kKeySampleRate m <> None ->
  kKeyChannelCount m <> None ->
  derived_format GetMPEGAudioFrameSize s = Some f ->
  format_differs (codec_type_ s) m f ->
  exists s2 m2,
    setupSubstreamMeta GetMPEGAudioFrameSize s = Ok (true, s2) /\
    buffer_in_progress_ s2 = buffer_in_progress_ s /\
    status_ s2 = status_ s /\
    decoder_ s2 = option_map (fun p => snd (Pump.shutdown p)) (decoder_ s) /\
    substream_meta_ s2 = Some m2 /\
    kKeySampleRate m2 = Some (fst (fst f)) /\
    kKeyChannelCount m2 = Some (snd (fst f)).
Proof.
  intros M Hsr Hch. unfold derived_format, setupSubstreamMeta.
  destruct (kKeySampleRate m) as [psr|] eqn:Esr; [|congruence].
  destruct (kKeyChannelCount m) as [pch|] eqn:Ech; [|congruence].
  destruct (codec_type_ s =? kCodecMPEG1Audio) eqn:C1.
  - (* MP3 *)
    unfold setupMP3SubstreamMeta. sub_simpl.
    destruct (buffer_in_progress_ s) as [mb|] eqn:B; [|discriminate].
    destruct (4 <=? zlen (mb_data mb)) eqn:L; [|discriminate].
    replace (zlen (mb_data mb) <? 4) with false by (symmetry; bool_facts; lia).
    destruct (GetMPEGAudioFrameSize (U32_AT (mb_data mb) 0)) as [[sr ch]|];
      [|discriminate].
    intros F; inversion F; subst; clear F. rewrite M, Esr, Ech.
    unfold format_differs. bool_facts. intros Df.
    destruct (negb (pch =? ch) || negb (psr =? sr)) eqn:D.
    + eexists. eexists. split; [reflexivity|]. sub_simpl.
      destruct (cleanupDecoder_fields (set_codec_mime_type_ MEDIA_MIMETYPE_AUDIO_MPEG s))
        as (F1 & _ & F3 & _ & _ & F6).
      split; [rewrite F1; sub_simpl; exact B|].
      split; [rewrite F3; reflexivity|].
      split; [rewrite F6; reflexivity|].
      split; [reflexivity|]. split; reflexivity.
    + exfalso. apply orb_false_iff in D. destruct D as [D1 D2]. bool_facts. subst.
      destruct Df as [N|[N|[N _]]];
        unfold kCodecAACAudio, kCodecMPEG1Audio in *; congruence.
  - (* AAC *)
    destruct (codec_type_ s =? kCodecAACAudio) eqn:C2; [|discriminate].
    unfold setupAACSubstreamMeta. sub_simpl.
    destruct (8 <=? zlen (aux_data_in_progress_ s)) eqn:L; [|discriminate].
    replace (zlen (aux_data_in_progress_ s) <? 4 + 4) with false
      by (symmetry; bool_facts; lia).
    intros F; inversion F; subst; clear F. rewrite M, Esr, Ech.
    change (4 + 4) with 8. rewrite Z.gtb_ltb.
    set (esds := if 8 <? zlen (aux_data_in_progress_ s) then _ else None).
    set (sr := s32 (U32_AT (aux_data_in_progress_ s) 0)).
    set (ch := s32 (U32_AT (aux_data_in_progress_ s) 4)).
    set (esds_change := match kKeyESDS m with
                        | Some data => match esds with
                                       | Some e => _
                                       | None => true
                                       end
                        | None => match esds with Some _ => true | None => false end
                        end).
    assert (Hesds : esds_change = false <-> kKeyESDS m = esds).
    { subst esds_change. destruct (kKeyESDS m) as [d|], esds as [e|];
        try (split; congruence).
      destruct (bytes_eqb d e) eqn:B.
      - apply bytes_eqb_eq in B. subst. rewrite Z.eqb_refl. cbn. split; reflexivity.
      - rewrite orb_true_r. split; [discriminate|].
        intros E; inversion E; subst.
        assert (bytes_eqb e e = true) by (apply bytes_eqb_eq; reflexivity). congruence. }
    unfold format_differs. apply Z.eqb_eq in C2. intros Df.
    destruct (negb esds_change && (psr =? sr) && (pch =? ch)) eqn:D.
    + exfalso.
      apply andb_true_iff in D. destruct D as [D D3].
      apply andb_true_iff in D. destruct D as [D1 D2].
      apply negb_true_iff in D1. apply Hesds in D1. bool_facts. subst psr pch.
      destruct Df as [N|[N|[_ N]]]; congruence.
    + eexists. eexists. split; [reflexivity|]. sub_simpl.
      destruct (cleanupDecoder_fields (set_codec_mime_type_ MEDIA_MIMETYPE_AUDIO_AAC s))
        as (F1 & _ & F3 & _ & _ & F6).
      split; [rewrite F1; reflexivity|].
      split; [rewrite F3; reflexivity|].
      split; [rewrite F6; reflexivity|].
      split; [reflexivity|]. split; reflexivity.
Qed.

Variable create : MetaData -> bool.
Variable run_res : status_t.

(** X14.  A format change restarts the pump with the unit that revealed it.
    When a completed unit has a format that differs from the one
    established, [processCompletedBuffer] shuts the pump down and
    initialises it again: afterwards the unit is the only one in the pump's
    queue, whatever had been queued and not yet decoded being dropped; the
    pump has forgotten the transform and has the volume 0xFF; its engine is
    present exactly when [OMXCodec::Create] and the start of the worker
    succeed.  The substream's status is unchanged and no buffer is in
    progress.  Until a transform is given again, the setup of the audio
    track for a decoded sample fails the CHECK on the transform. *)
Theorem format_change_restarts_the_pump s mb p m f :
  buffer_in_progress_ s = Some mb ->
  decoder_ s = Some p ->
  substream_meta_ s = Some m ->
  kKeySampleRate m <> None ->
  kKeyChannelCount m <> None ->
  derived_format GetMPEGAudioFrameSize s = Some f ->
  format_differs (codec_type_ s) m f ->
  exists s' p' m',
    processCompletedBuffer GetMPEGAudioFrameSize create run_res s = Ok s' /\
    cleaned s' /\ status_ s' = status_ s /\
    substream_meta_ s' = Some m' /\
    kKeySampleRate m' = Some (fst (fst f)) /\
    kKeyChannelCount m' = Some (snd (fst f)) /\
    decoder_ s' = Some p' /\
    Pump.in_queue_ p' = [mb] /\
    PumpSpec.transform_held p' = None /\
    Pump.last_volume_ p' = 0xFF /\
    Pump.thread_status_ p' = OK /\
    (Pump.decoder_ p' <> None <-> create m' = true /\ run_res = OK) /\
    (forall env sample,
       kKeyTime (mb_meta sample) <> None ->
       Pump.renderer_ p' = None ->
       Pump.track_alloc_ok env = true -> Pump.set_res env = OK ->
       Pump.queueToRenderer env p' sample = Aborted CHECK_last_ts_transform_valid).
Proof.
  intros B D M Hsr Hch Fd Df.
  destruct (setup_on_format_change s M Hsr Hch Fd Df)
    as (s2 & m2 & S & B2 & St2 & D2 & M2 & Sr2 & Ch2).
  rewrite D in D2. cbn [option_map] in D2.
  unfold processCompletedBuffer. rewrite B, D, S. cbn [bind negb]. rewrite D2, M2.
  rewrite PumpContract.shutdown_eq. cbn [snd].
  set (p0 := Pump.mk _ _ _ _ _ _ _ _ _ _ _ _ _).
  unfold Pump.init. cbn [Pump.decoder_ p0]. unfold p0 at 1. cbn [Pump.decoder_].
  rewrite Ch2, Sr2.
  cbn [Pump.thread_status_ Pump.set_format_sample_rate_ Pump.set_format_channels_ p0].
  unfold p0 at 1. cbn [Pump.thread_status_].
  replace (OK =? OK) with true by reflexivity. cbn [negb].
  assert (Q : forall p3,
            Pump.thread_status_ p3 = OK -> Pump.in_queue_ p3 = [] ->
            Pump.last_ts_transform_valid_ p3 = false -> Pump.last_volume_ p3 = 0xFF ->
            (Pump.decoder_ p3 <> None <-> create m2 = true /\ run_res = OK) ->
            exists s' p' m',
              (let s3 := set_decoder_ (Some p3) s2 in
               let '(res, p4) := Pump.queueForDecode p3 (buffer_in_progress_ s3) in
               let s4 := set_decoder_ (Some p4) s3 in
               let s5 := if negb (res =? OK)
                         then cleanupBufferInProgress (cleanupDecoder (set_status_ res s4))
                         else s4 in
               let s6 := set_buffer_in_progress_ None s5 in
               Ok (cleanupBufferInProgress s6)) = Ok s' /\
              cleaned s' /\ status_ s' = status_ s /\
              substream_meta_ s' = Some m' /\
              kKeySampleRate m' = Some (fst (fst f)) /\
              kKeyChannelCount m' = Some (snd (fst f)) /\
              decoder_ s' = Some p' /\
              Pump.in_queue_ p' = [mb] /\
              PumpSpec.transform_held p' = None /\
              Pump.last_volume_ p' = 0xFF /\
              Pump.thread_status_ p' = OK /\
              (Pump.decoder_ p' <> None <-> create m' = true /\ run_res = OK) /\
              (forall env sample,
                 kKeyTime (mb_meta sample) <> None ->
                 Pump.renderer_ p' = None ->
                 Pump.track_alloc_ok env = true -> Pump.set_res env = OK ->
                 Pump.queueToRenderer env p' sample
                 = Aborted CHECK_last_ts_transform_valid)).
  { intros p3 T3 Q3 V3 L3 E3. cbv zeta. sub_simpl. rewrite B2, B.
    unfold Pump.queueForDecode. rewrite T3.
    replace (OK =? OK) with true by reflexivity. cbn [negb]. rewrite Q3. cbn [app].
    eexists. exists (Pump.set_in_queue_ [mb] p3), m2.
    split; [reflexivity|].
    split; [apply cleanup_cleaned|].
    split; [rewrite cleanup_status; sub_simpl; exact St2|].
    split; [rewrite cleanup_meta; sub_simpl; exact M2|].
    split; [exact Sr2|]. split; [exact Ch2|].
    split; [rewrite cleanup_decoder; sub_simpl; reflexivity|].
    split; [reflexivity|].
    split; [unfold PumpSpec.transform_held; cbn [Pump.last_ts_transform_valid_
              Pump.set_in_queue_]; rewrite V3; reflexivity|].
    split; [exact L3|]. split; [exact T3|]. split; [exact E3|].
    intros env sample K R A Sr. unfold Pump.queueToRenderer.
    destruct (kKeyTime (mb_meta sample)); [|congruence].
    rewrite R, A, Sr.
    cbn [negb Pump.last_ts_transform_valid_ Pump.set_in_queue_].
    replace (OK =? OK) with true by reflexivity. cbn [negb]. rewrite V3. reflexivity. }
  destruct (create m2) eqn:Cr.
  - destruct (run_res =? OK) eqn:Rr.
    + rewrite Rr. cbn [negb bind]. replace (OK =? OK) with true by reflexivity.
      cbn [negb]. apply Q; try reflexivity.
      cbn [Pump.decoder_ Pump.set_thread_ Pump.set_decoder_]. split.
      * intros _. split; [reflexivity|]. apply Z.eqb_eq. exact Rr.
      * intros _. discriminate.
    + rewrite Rr. cbn [negb bind]. replace (OK =? OK) with true by reflexivity.
      cbn [negb]. apply Q; try reflexivity. split.
      * intros N. exfalso. apply N. reflexivity.
      * intros [_ E]. apply Z.eqb_neq in Rr. congruence.
  - replace (UNKNOWN_ERROR =? OK) with false by reflexivity. cbn [negb bind].
    replace (OK =? OK) with true by reflexivity. cbn [negb].
    apply Q; try reflexivity. split.
    + intros N. exfalso. apply N. reflexivity.
    + intros [E _]. discriminate E.
Qed.

End FormatChange.

(** ** Volume and transform *)

Lemma setRenderVolume_held p v :
  Pump.last_volume_ (Pump.setRenderVolume p v) = v /\
  PumpSpec.transform_held (Pump.setRenderVolume p v) = PumpSpec.transform_held p.
Proof.
  unfold Pump.setRenderVolume, PumpSpec.transform_held.
  destruct (v =? Pump.last_volume_ p) eqn:E.
  - apply Z.eqb_eq in E. split; [congruence|reflexivity].
  - cbn. destruct (Pump.renderer_ p); split; reflexivity.
Qed.

Lemma shutdown_held p :
  Pump.last_volume_ (snd (Pump.shutdown p)) = 0xFF /\
  PumpSpec.transform_held (snd (Pump.shutdown p)) = None.
Proof.
  rewrite PumpContract.shutdown_eq. split; reflexivity.
Qed.

(** The pump behind a header that has been parsed: a rejection made before
    the codec type is accepted leaves it alone, everything later has given
    it the header's volume. *)
Lemma header_volume s buf ts s1 r :
  processPayloadStart_header s buf ts = Ok (s1, r) ->
  decoder_ s1 =
    match r with
    | Drop l =>
        if early_rejection l then decoder_ s
        else option_map (fun p => Pump.setRenderVolume p (volume_of buf)) (decoder_ s)
    | Accept _ _ _ =>
        option_map (fun p => Pump.setRenderVolume p (volume_of buf)) (decoder_ s)
    end.
Proof.
  intros H.
  destruct (aborted_in_progress_fields s) as (_ & _ & _ & D & _).
  unfold processPayloadStart_header in H. fold (aborted_in_progress s) in H.
  set (s0 := aborted_in_progress s) in *. clearbody s0.
  unfold setupSubstreamType in H.
  paths H;
    norm_hyps; header_fields; sub_simpl; norm_header; cbn [early_rejection];
    try (rewrite <- D);
    repeat match goal with
           | E : decoder_ _ = _ |- _ => rewrite E
           end;
    cbn [option_map]; first [reflexivity | congruence].
Qed.

Lemma header_not_skipped s buf ts s' l :
  processPayloadStart_header s buf ts = Ok (s', Drop l) -> l <> SkipFatalError.
Proof.
  intros H. unfold processPayloadStart_header, setupSubstreamType in H.
  paths H; discriminate.
Qed.

Section VolumeAndTransform.

Variable GetMPEGAudioFrameSize : Z -> option (Z * Z).

(** What the completion of a unit leaves of the volume and the transform the
    pump holds: both, or, when the pump has been shut down, neither. *)
Lemma completed_held create run_res x s' pv :
  processCompletedBuffer GetMPEGAudioFrameSize create run_res x = Ok s' ->
  decoder_ x = Some pv ->
  exists p',
    decoder_ s' = Some p' /\
    ((Pump.last_volume_ p' = Pump.last_volume_ pv /\
      PumpSpec.transform_held p' = PumpSpec.transform_held pv) \/
     (Pump.last_volume_ p' = 0xFF /\ PumpSpec.transform_held p' = None)).
Proof.
  intros C D.
  destruct (completed_cases _ _ _ _ C) as (mb & B & _ & Cases).
  destruct Cases as [(N & _)|(ok & s2 & _ & S & Cases)]; [congruence|].
  destruct (@setup_frame _ _ _ _ S) as (_ & _ & _ & D2).
  rewrite D in D2. cbn [option_map] in D2.
  assert (H2 : forall p2, decoder_ s2 = Some p2 ->
                 (Pump.last_volume_ p2 = Pump.last_volume_ pv /\
                  PumpSpec.transform_held p2 = PumpSpec.transform_held pv) \/
                 (Pump.last_volume_ p2 = 0xFF /\ PumpSpec.transform_held p2 = None)).
  { intros p2 E. destruct D2 as [D2|D2]; rewrite D2 in E; inversion E; subst.
    - left. split; reflexivity.
    - right. apply shutdown_held. }
  destruct Cases as [(_ & Sb)|(p2 & res & p3 & _ & E2 & I & _ & _ & Cases)].
  - destruct Sb as (_ & _ & _ & Ds & _).
    destruct D2 as [D2|D2]; rewrite D2 in Ds; eexists; (split; [exact Ds|]).
    + left. split; reflexivity.
    + right. apply shutdown_held.
  - destruct (PumpContract.init_frame_render _ _ _ _ I) as (_ & _ & _ & V & TV & T).
    assert (H3 : Pump.last_volume_ p3 = Pump.last_volume_ p2 /\
                 PumpSpec.transform_held p3 = PumpSpec.transform_held p2).
    { split; [exact V|]. unfold PumpSpec.transform_held. rewrite TV, T. reflexivity. }
    destruct H3 as [V3 T3].
    destruct Cases as [(_ & _ & _ & Ds)|[(_ & _ & _ & _ & Ds)|(_ & _ & _ & _ & Ds)]];
      eexists; (split; [exact Ds|]).
    + right. apply shutdown_held.
    + destruct (H2 p2 E2) as [[A1 A2]|[A1 A2]]; [left|right];
        (split; [cbn [Pump.last_volume_ Pump.set_in_queue_]; congruence|]);
        unfold PumpSpec.transform_held in *;
        cbn [Pump.last_ts_transform_valid_ Pump.last_ts_transform_ Pump.set_in_queue_];
        congruence.
    + right. apply shutdown_held.
Qed.

(** X16.  The pump's volume follows the headers.  A fragment-start that is
    skipped for a fatal status, or rejected before its codec type is
    accepted, leaves the pump alone.  Every other one gives the pump the
    volume of its header, also when the payload is then dropped, and leaves
    the transform the pump holds; only when the unit completes and the pump
    is shut down on the way (a format change, or a unit that the pump
    refuses) the pump ends with the volume 0xFF and without transform. *)
Theorem volume_follows_the_header env s buf ts s' l p :
  start GetMPEGAudioFrameSize env s buf ts = Ok (s', l) ->
  decoder_ s = Some p ->
  (l = SkipFatalError \/ early_rejection l = true -> decoder_ s' = Some p) /\
  (l <> SkipFatalError -> early_rejection l = false ->
   exists p',
     decoder_ s' = Some p' /\
     (l <> Completed -> p' = Pump.setRenderVolume p (volume_of buf)) /\
     ((Pump.last_volume_ p' = volume_of buf /\
       PumpSpec.transform_held p' = PumpSpec.transform_held p) \/
      (l = Completed /\
       Pump.last_volume_ p' = 0xFF /\ PumpSpec.transform_held p' = None))).
Proof.
  unfold start, processPayloadStart. intros H D.
  destruct (shouldAbort s).
  { inversion H; subst. split; [intros _; exact D|]. intros N; congruence. }
  destruct (processPayloadStart_header s buf ts) as [[s1 r]|] eqn:Hh; cbn [bind] in H;
    [|discriminate].
  pose proof (header_volume _ _ _ Hh) as V. rewrite D in V. cbn [option_map] in V.
  destruct (setRenderVolume_held p (volume_of buf)) as [Vv Vt].
  destruct r as [l'|h v t].
  - inversion H; subst. destruct (early_rejection l) eqn:E.
    + split; [intros _; exact V|]. intros _ N; discriminate N.
    + split.
      * intros [N|N]; [|discriminate N].
        exfalso. exact (header_not_skipped _ _ _ Hh N).
      * intros _ _. eexists. split; [exact V|]. split; [reflexivity|].
        left. split; assumption.
  - destruct (fill_shape _ _ _ _ _ _ _ _ _ H)
      as [(-> & ->)|[(-> & Sb & _)|(-> & x & Sb & _ & C)]].
    + split; [intros [N|N]; discriminate N|]. intros _ _.
      eexists. split; [rewrite cleanup_decoder; sub_simpl; exact V|].
      split; [reflexivity|]. left. split; assumption.
    + destruct Sb as (_ & _ & _ & Ds & _).
      split; [intros [N|N]; discriminate N|]. intros _ _.
      eexists. split; [rewrite Ds; exact V|].
      split; [reflexivity|]. left. split; assumption.
    + destruct Sb as (_ & _ & _ & Dx & _). rewrite V in Dx.
      destruct (@completed_held (env_create env) (env_run env) x s' _ C Dx) as (p' & Ds & Hd).
      split; [intros [N|N]; discriminate N|]. intros _ _.
      exists p'. split; [exact Ds|]. split; [intros N; congruence|].
      destruct Hd as [[A1 A2]|[A1 A2]].
      * left. split; congruence.
      * right. split; [reflexivity|]. split; assumption.
Qed.

(** ** A unit whose format cannot be derived *)

(** X15.  A unit whose format cannot be derived is dropped.  When the
    completed unit is MP3 with fewer than 4 bytes or a frame header that
    does not parse, or AAC with fewer than 8 bytes of aux data,
    [processCompletedBuffer] drops it: afterwards no buffer is in progress
    and the pump (nothing is queued, nothing is shut down), the metadata,
    the status and the kind are as before. *)
Theorem underivable_unit_is_dropped create run_res s mb p :
  buffer_in_progress_ s = Some mb ->
  decoder_ s = Some p ->
  derived_format GetMPEGAudioFrameSize s = None ->
  exists s',
    processCompletedBuffer GetMPEGAudioFrameSize create run_res s = Ok s' /\
    cleaned s' /\ decoder_ s' = Some p /\
    substream_meta_ s' = substream_meta_ s /\ status_ s' = status_ s /\
    same_kind s s'.
Proof.
  intros B D. unfold derived_format, processCompletedBuffer, setupSubstreamMeta.
  rewrite B, D.
  assert (Drop : forall x,
            buffer_in_progress_ x = buffer_in_progress_ s -> decoder_ x = decoder_ s ->
            substream_meta_ x = substream_meta_ s -> status_ x = status_ s ->
            same_kind s x ->
            exists s',
              Ok (cleanupBufferInProgress x) = Ok s' /\
              cleaned s' /\ decoder_ s' = Some p /\
              substream_meta_ s' = substream_meta_ s /\ status_ s' = status_ s /\
              same_kind s s').
  { intros x _ Dx Mx Sx Kx. eexists. split; [reflexivity|].
    split; [apply cleanup_cleaned|].
    split; [rewrite cleanup_decoder; congruence|].
    split; [rewrite cleanup_meta; exact Mx|].
    split; [rewrite cleanup_status; exact Sx|].
    eapply same_kind_trans; [exact Kx|apply cleanup_kind]. }
  destruct (codec_type_ s =? kCodecMPEG1Audio).
  - unfold setupMP3SubstreamMeta. sub_simpl. rewrite B.
    destruct (4 <=? zlen (mb_data mb)) eqn:L.
    + replace (zlen (mb_data mb) <? 4) with false by (symmetry; bool_facts; lia).
      destruct (GetMPEGAudioFrameSize (U32_AT (mb_data mb) 0)) as [[sr ch]|];
        [discriminate|].
      intros _. cbn [bind negb]. apply Drop; try reflexivity. repeat split.
    + replace (zlen (mb_data mb) <? 4) with true by (symmetry; bool_facts; lia).
      intros _. cbn [bind negb]. apply Drop; try reflexivity. repeat split.
  - destruct (codec_type_ s =? kCodecAACAudio).
    + unfold setupAACSubstreamMeta. sub_simpl.
      destruct (8 <=? zlen (aux_data_in_progress_ s)) eqn:L; [discriminate|].
      replace (zlen (aux_data_in_progress_ s) <? 4 + 4) with true
        by (symmetry; bool_facts; lia).
      intros _. cbn [bind negb]. apply Drop; try reflexivity. repeat split.
    + intros _. cbn [bind negb]. apply Drop; try reflexivity. repeat split.
Qed.

End VolumeAndTransform.

(** ** The pump's queue *)

Lemma cleanup_mime s :
  codec_mime_type_ (cleanupBufferInProgress s) = codec_mime_type_ s.
Proof. apply cleanup_fields. Qed.

Section Queue.

Variable GetMPEGAudioFrameSize : Z -> option (Z * Z).

(** What the completion of a unit does to the pump's queue. *)
Lemma completed_queue create run_res x s' pv :
  processCompletedBuffer GetMPEGAudioFrameSize create run_res x = Ok s' ->
  decoder_ x = Some pv ->
  exists p' mb,
    buffer_in_progress_ x = Some mb /\ decoder_ s' = Some p' /\
    (Pump.in_queue_ p' = Pump.in_queue_ pv \/
     Pump.in_queue_ p' = Pump.in_queue_ pv ++ [mb] \/
     Pump.in_queue_ p' = [] \/
     Pump.in_queue_ p' = [mb]).
Proof.
  intros C D.
  destruct (completed_cases _ _ _ _ C) as (mb & B & _ & Cases).
  destruct Cases as [(N & _)|(ok & s2 & _ & S & Cases)]; [congruence|].
  destruct (@setup_frame _ _ _ _ S) as (_ & _ & _ & D2).
  rewrite D in D2. cbn [option_map] in D2.
  assert (Hsh : forall q, Pump.in_queue_ (snd (Pump.shutdown q)) = [])
    by (intros q; apply shutdown_fields).
  destruct Cases as [(_ & Sb)|(p2 & res & p3 & _ & E2 & I & _ & _ & Cases)].
  - destruct Sb as (_ & _ & _ & Ds & _).
    destruct D2 as [D2|D2]; rewrite D2 in Ds; eexists; exists mb;
      (split; [exact B|]); (split; [exact Ds|]).
    + left. reflexivity.
    + right. right. left. apply Hsh.
  - destruct (PumpContract.init_frame_render _ _ _ _ I) as (_ & Q & _).
    destruct Cases as [(_ & _ & _ & Ds)|[(_ & _ & _ & _ & Ds)|(_ & _ & _ & _ & Ds)]];
      eexists; exists mb; (split; [exact B|]); (split; [exact Ds|]).
    + right. right. left. apply Hsh.
    + cbn [Pump.in_queue_ Pump.set_in_queue_]. rewrite Q.
      destruct D2 as [D2|D2].
      * assert (p2 = pv) by congruence. subst p2. right. left. reflexivity.
      * assert (p2 = snd (Pump.shutdown pv)) by congruence. subst p2.
        right. right. right. rewrite Hsh. reflexivity.
    + right. right. left. apply Hsh.
Qed.

(** X19.  The pump's queue grows only at its tail.  Whatever call is made on
    a substream, the units that wait in the pump's queue are afterwards the
    ones that waited before, in their order, or, when the pump has been shut
    down, none of them; at most one unit has been added, behind them.  No
    call reorders or repeats a queued unit. *)
Theorem queue_grows_at_the_tail s op s' p :
  step GetMPEGAudioFrameSize s op = Ok s' ->
  decoder_ s = Some p ->
  (forall q, op <> PumpActivity q) ->
  exists p',
    decoder_ s' = Some p' /\
    (Pump.in_queue_ p' = Pump.in_queue_ p \/
     (exists mb, Pump.in_queue_ p' = Pump.in_queue_ p ++ [mb]) \/
     Pump.in_queue_ p' = [] \/
     (exists mb, Pump.in_queue_ p' = [mb])).
Proof.
  intros H D NA.
  assert (Fin : forall create run_res x pv,
            decoder_ x = Some pv -> Pump.in_queue_ pv = Pump.in_queue_ p ->
            processCompletedBuffer GetMPEGAudioFrameSize create run_res x = Ok s' ->
            exists p',
              decoder_ s' = Some p' /\
              (Pump.in_queue_ p' = Pump.in_queue_ p \/
               (exists mb, Pump.in_queue_ p' = Pump.in_queue_ p ++ [mb]) \/
               Pump.in_queue_ p' = [] \/
               (exists mb, Pump.in_queue_ p' = [mb]))).
  { intros create run_res x pv Dx Qx C.
    destruct (completed_queue _ _ _ C Dx) as (p' & mb & _ & Ds & Q).
    exists p'. split; [exact Ds|]. rewrite Qx in Q.
    destruct Q as [Q|[Q|[Q|Q]]]; eauto. }
  destruct op as [env buf ts|env buf|trans| |q]; cbn [step] in H.
  - (* processPayloadStart *)
    destruct (start GetMPEGAudioFrameSize env s buf ts) as [[s1 l]|] eqn:Hs;
      cbn [bind] in H; [|discriminate].
    inversion H; subst s1; clear H.
    unfold start, processPayloadStart in Hs.
    destruct (shouldAbort s).
    { inversion Hs; subst. exists p. split; [exact D|left; reflexivity]. }
    destruct (processPayloadStart_header s buf ts) as [[s1 r]|] eqn:Hh;
      cbn [bind] in Hs; [|discriminate].
    pose proof (header_volume _ _ _ Hh) as V. rewrite D in V. cbn [option_map] in V.
    destruct (setRenderVolume_fields p (volume_of buf)) as (Qv & _).
    assert (V1 : exists pv, decoder_ s1 = Some pv /\
                            Pump.in_queue_ pv = Pump.in_queue_ p).
    { destruct r as [l'|h v t]; [destruct (early_rejection l')|];
        rewrite V; eexists; split; try reflexivity; assumption. }
    clear V. destruct V1 as (pv & V & Qp).
    destruct r as [l'|h v t].
    + inversion Hs; subst. exists pv. split; [exact V|left; exact Qp].
    + destruct (fill_shape _ _ _ _ _ _ _ _ _ Hs)
        as [(-> & ->)|[(-> & Sb & _)|(-> & x & Sb & _ & C)]].
      * exists pv. split; [rewrite cleanup_decoder; sub_simpl; exact V|left; exact Qp].
      * destruct Sb as (_ & _ & _ & Ds & _).
        exists pv. split; [rewrite Ds; exact V|left; exact Qp].
      * destruct Sb as (_ & _ & _ & Dx & _). rewrite V in Dx.
        exact (Fin _ _ _ _ Dx Qp C).
  - (* processPayloadCont *)
    destruct (cont GetMPEGAudioFrameSize env s buf) as [[s1 l]|] eqn:Hc;
      cbn [bind] in H; [|discriminate].
    inversion H; subst s1; clear H. unfold cont in Hc.
    destruct (cont_shape _ _ _ _ _ Hc)
      as [(_ & -> & _)|[(_ & -> & _)|[(_ & Sb & _)|[(_ & x & Sb & ->)|
          [(_ & Sb & _)|(_ & x & Sb & _ & C)]]]]].
    + exists p. split; [exact D|left; reflexivity].
    + exists p. split; [exact D|left; reflexivity].
    + destruct Sb as (_ & _ & _ & Ds & _).
      exists p. split; [rewrite Ds; exact D|left; reflexivity].
    + destruct Sb as (_ & _ & _ & Dx & _).
      exists p. split; [rewrite cleanup_decoder, Dx; exact D|left; reflexivity].
    + destruct Sb as (_ & _ & _ & Ds & _).
      exists p. split; [rewrite Ds; exact D|left; reflexivity].
    + destruct Sb as (_ & _ & _ & Dx & _). rewrite D in Dx.
      exact (Fin _ _ _ _ Dx eq_refl C).
  - (* processTSTransform *)
    inversion H; subst. unfold processTSTransform. rewrite D.
    eexists. split; [reflexivity|]. left.
    apply PumpContract.setRenderTSTransform_frame.
  - (* shutdown *)
    inversion H; subst.
    destruct (SubstreamFacts.cleanupDecoder_fields
                (cleanupBufferInProgress (set_status_ OK (set_substream_meta_ None s))))
      as (_ & _ & _ & _ & _ & Ds).
    unfold shutdown. cbv zeta. rewrite cleanup_decoder in Ds. sub_simpl_in Ds.
    rewrite D in Ds. cbn [option_map] in Ds.
    eexists. split; [exact Ds|]. right. right. left. apply shutdown_fields.
  - exfalso. exact (NA q eq_refl).
Qed.

(** ** The format of the first unit *)

Variable create : MetaData -> bool.
Variable run_res : status_t.

(** X20.  The first unit establishes the format the engine is created with.
    On a substream without metadata whose pump has no engine, a completed
    unit from which a format can be derived sets the MIME type of the codec
    and metadata holding that MIME type, the channel count and the sample
    rate (for MP3 from the frame header at the start of the unit, for AAC
    from the first eight aux bytes, the aux bytes behind them being the
    codec configuration), whether the engine comes up or not: the pump takes
    the channel count and the sample rate, [init] returns OK, the substream's
    status is kept and the unit is queued behind the units that waited.
    When [OMXCodec::Create] and the start of the worker succeed, the pump
    holds an engine created for exactly this metadata, and the worker runs;
    when one of them fails, the pump is left without engine and without
    format, its thread as before. *)
Theorem first_unit_establishes_the_format s mb p sr ch esds :
  let mime := if codec_type_ s =? kCodecMPEG1Audio
              then MEDIA_MIMETYPE_AUDIO_MPEG else MEDIA_MIMETYPE_AUDIO_AAC in
  let m := mkMetaData (Some mime) None (Some ch) (Some sr) esds in
  buffer_in_progress_ s = Some mb ->
  decoder_ s = Some p ->
  Pump.decoder_ p = None ->
  Pump.thread_status_ p = OK ->
  substream_meta_ s = None ->
  derived_format GetMPEGAudioFrameSize s = Some (sr, ch, esds) ->
  exists s' p',
    processCompletedBuffer GetMPEGAudioFrameSize create run_res s = Ok s' /\
    cleaned s' /\ status_ s' = status_ s /\
    codec_mime_type_ s' = mime /\ substream_meta_ s' = Some m /\
    decoder_ s' = Some p' /\
    Pump.format_channels_ p' = ch /\ Pump.format_sample_rate_ p' = sr /\
    Pump.in_queue_ p' = Pump.in_queue_ p ++ [mb] /\
    (create m = true -> run_res = OK ->
     Pump.decoder_ p' = Some (Pump.mkOMXCodec m) /\ Pump.format_ p' = Some m /\
     Pump.thread_ p' = Pump.mkThread true false) /\
    (create m = false \/ run_res <> OK ->
     Pump.decoder_ p' = None /\ Pump.format_ p' = None /\
     Pump.thread_ p' = Pump.thread_ p).
Proof.
  intros mime m B D Pd Ps M Fd.
  assert (Go : forall s2,
            setupSubstreamMeta GetMPEGAudioFrameSize s = Ok (true, s2) ->
            s2 = set_substream_meta_ (Some m) (set_codec_mime_type_ mime s) ->
            exists s' p',
              processCompletedBuffer GetMPEGAudioFrameSize create run_res s = Ok s' /\
              cleaned s' /\ status_ s' = status_ s /\
              codec_mime_type_ s' = mime /\ substream_meta_ s' = Some m /\
              decoder_ s' = Some p' /\
              Pump.format_channels_ p' = ch /\ Pump.format_sample_rate_ p' = sr /\
              Pump.in_queue_ p' = Pump.in_queue_ p ++ [mb] /\
              (create m = true -> run_res = OK ->
               Pump.decoder_ p' = Some (Pump.mkOMXCodec m) /\ Pump.format_ p' = Some m /\
               Pump.thread_ p' = Pump.mkThread true false) /\
              (create m = false \/ run_res <> OK ->
               Pump.decoder_ p' = None /\ Pump.format_ p' = None /\
               Pump.thread_ p' = Pump.thread_ p)).
  { intros s2 S E. unfold processCompletedBuffer. rewrite B, D, S. cbn [bind negb].
    subst s2. sub_simpl. rewrite D.
    destruct (@PumpContract.init_outcome create run_res p m ch sr Pd Ps eq_refl eq_refl)
      as (p1 & I & St & Q & Ch & Sr & Up & Down).
    rewrite I. cbn [bind]. replace (OK =? OK) with true by reflexivity.
    cbn [negb]. sub_simpl. rewrite B. unfold Pump.queueForDecode. rewrite St.
    replace (OK =? OK) with true by reflexivity. cbn [negb].
    eexists. exists (Pump.set_in_queue_ (Pump.in_queue_ p1 ++ [mb]) p1).
    split; [reflexivity|].
    split; [apply cleanup_cleaned|].
    split; [rewrite cleanup_status; reflexivity|].
    split; [rewrite cleanup_mime; reflexivity|].
    split; [rewrite cleanup_meta; reflexivity|].
    split; [rewrite cleanup_decoder; reflexivity|].
    split; [exact Ch|]. split; [exact Sr|].
    split; [cbn [Pump.in_queue_ Pump.set_in_queue_]; rewrite Q; reflexivity|].
    split; [exact Up|exact Down]. }
  unfold derived_format in Fd. unfold setupSubstreamMeta in Go. subst mime.
  destruct (codec_type_ s =? kCodecMPEG1Audio) eqn:C1.
  - rewrite B in Fd.
    destruct (4 <=? zlen (mb_data mb)) eqn:L; [|discriminate].
    destruct (GetMPEGAudioFrameSize (U32_AT (mb_data mb) 0)) as [[sr0 ch0]|] eqn:P;
      [|discriminate].
    inversion Fd; subst. eapply Go; [|reflexivity].
    unfold setupMP3SubstreamMeta. sub_simpl. rewrite B.
    replace (zlen (mb_data mb) <? 4) with false by (symmetry; bool_facts; lia).
    rewrite P, M. reflexivity.
  - destruct (codec_type_ s =? kCodecAACAudio) eqn:C2; [|discriminate].
    destruct (8 <=? zlen (aux_data_in_progress_ s)) eqn:L; [|discriminate].
    inversion Fd; subst. eapply Go; [|reflexivity].
    unfold setupAACSubstreamMeta. sub_simpl.
    replace (zlen (aux_data_in_progress_ s) <? 4 + 4) with false
      by (symmetry; bool_facts; lia).
    rewrite M. change (4 + 4) with 8. rewrite Z.gtb_ltb. reflexivity.
Qed.

End Queue.

(** ** Underflow *)

(** X18.  The substream's underflow test goes by the transform given last.
    Once [processTSTransform] has handed a transform to the pump,
    [isAboutToUnderflow] is false as long as no sample has been queued to the
    track, the common time cannot be read or the transform cannot be
    applied; otherwise it tells whether the last queued timestamp, mapped
    through that transform, lies less than 50 milliseconds (50000
    microseconds) after the common time.  Without a pump it is false. *)
Theorem underflow_goes_by_the_last_transform fwd s trans tt_now :
  (decoder_ s = None ->
   isAboutToUnderflow fwd (processTSTransform s trans) tt_now = false) /\
  (forall p, decoder_ s = Some p ->
   isAboutToUnderflow fwd (processTSTransform s trans) tt_now =
     match tt_now with
     | Some now =>
         if Pump.last_queued_pts_valid_ p then
           match fwd trans (Pump.last_queued_pts_ p) with
           | Some deadline => s64 (s64 (now + 50000) - deadline) >? 0
           | None => false
           end
         else false
     | None => false
     end).
Proof.
  unfold isAboutToUnderflow, processTSTransform. split.
  - intros D. rewrite D, D. reflexivity.
  - intros p D. rewrite D. sub_simpl.
    unfold Pump.isAboutToUnderflow, Pump.setRenderTSTransform.
    change kAboutToUnderflowThreshold with 50000.
    destruct (Pump.last_ts_transform_valid_ p) eqn:V; cbn [andb].
    + destruct (LinearTransform_eqb trans (Pump.last_ts_transform_ p)) eqn:E.
      * apply PumpContract.LinearTransform_eqb_eq in E. subst trans. rewrite V.
        destruct (Pump.last_queued_pts_valid_ p); cbn [negb orb];
          destruct tt_now; reflexivity.
      * cbn. destruct (Pump.renderer_ p); cbn;
          destruct (Pump.last_queued_pts_valid_ p); cbn [negb orb];
          destruct tt_now; reflexivity.
    + cbn. destruct (Pump.renderer_ p); cbn;
        destruct (Pump.last_queued_pts_valid_ p); cbn [negb orb];
        destruct tt_now; reflexivity.
Qed.

(** ** Examples *)

Lemma no_check_of_the_substream_fails_witness :
  exists s,
    run any_frame_44k_stereo (new 0)
      [ProcessPayloadStart env_ok
         (audio_packet 13 kCodecMPEG1Audio kFlag_RandomAccessPoint 0xFF mp3_frame_start) 0;
       PumpActivity PumpSpec.pump_at_work;
       ProcessPayloadCont env_ok mp3_frame_start;
       Shutdown] = Ok s.
Proof.
  apply (proj2 (no_check_of_the_substream_fails any_frame_44k_stereo 0 _)).
  repeat constructor.
Defined.

Lemma kind_and_codec_are_fixed_witness :
  exists s,
    run any_frame_44k_stereo (new 7)
      [ProcessPayloadStart env_ok
         (audio_packet 13 kCodecMPEG1Audio kFlag_RandomAccessPoint 0xFF mp3_frame_start) 0]
      = Ok s /\
    ssrc_ s = 7 /\
    forall ops' s',
      run any_frame_44k_stereo s ops' = Ok s' ->
      substream_details_known_ s' = true /\ codec_type_ s' = kCodecMPEG1Audio.
Proof.
  match goal with
  | |- exists s, ?X = _ /\ _ => destruct X as [s|] eqn:H; [|vm_compute in H; discriminate]
  end.
  exists s. split; [reflexivity|].
  destruct (@kind_and_codec_are_fixed any_frame_44k_stereo 7 _ s H) as (A & _ & C).
  split; [exact A|].
  assert (K : substream_details_known_ s = true /\ codec_type_ s = kCodecMPEG1Audio)
    by (vm_compute in H; inversion H; split; reflexivity).
  destruct K as [K1 K2].
  intros ops' s' R. destruct (C ops' s' K1 R) as (C1 & _ & C3).
  split; [exact C1|]. rewrite C3. exact K2.
Defined.

Lemma fatal_status_comes_from_the_pump_witness :
  let s := set_decoder_
             (Some (Pump.set_thread_status_ (-1) PumpSpec.pump_at_work)) (new 0) in
  exists s',
    step any_frame_44k_stereo s
      (ProcessPayloadStart env_ok
         (audio_packet 13 kCodecMPEG1Audio kFlag_RandomAccessPoint 0xFF mp3_frame_start) 0)
      = Ok s' /\
    status_ s' = -1 /\ buffer_in_progress_ s' = None /\ status_ (shutdown s') = OK.
Proof.
  intros s.
  match goal with
  | |- exists s', ?X = _ /\ _ => destruct X as [s'|] eqn:H; [|vm_compute in H; discriminate]
  end.
  exists s'. split; [reflexivity|].
  assert (S1 : status_ s' = -1) by (vm_compute in H; inversion H; reflexivity).
  split; [exact S1|].
  destruct (@fatal_status_comes_from_the_pump any_frame_44k_stereo s _ s' H eq_refl)
    as (_ & B & _ & Sd).
  - rewrite S1. discriminate.
  - split; [exact B|exact Sd].
Defined.

Lemma writes_stay_inside_the_buffer_witness :
  exists s mb,
    run any_frame_44k_stereo (new 0)
      [ProcessPayloadStart env_ok
         (audio_packet 17 kCodecMPEG1Audio kFlag_RandomAccessPoint 0xFF mp3_frame_start) 0]
      = Ok s /\
    buffer_in_progress_ s = Some mb /\
    zlen (mb_data mb) = expected_buffer_size_ s /\
    0 <= buffer_filled_ s < zlen (mb_data mb) /\
    exists s' x unit,
      cont any_frame_44k_stereo env_ok s mp3_frame_start = Ok (s', Completed) /\
      buffer_in_progress_ x = Some unit /\
      mb_data unit = mp3_frame_start ++ mp3_frame_start /\
      zlen (mb_data unit) = zlen (mb_data mb) /\
      processCompletedBuffer any_frame_44k_stereo (env_create env_ok) (env_run env_ok) x
        = Ok s'.
Proof.
  match goal with
  | |- exists s mb, ?X = _ /\ _ =>
      destruct X as [s|] eqn:H; [|vm_compute in H; discriminate]
  end.
  destruct (buffer_in_progress_ s) as [mb|] eqn:B;
    [|vm_compute in H; inversion H; subst; discriminate B].
  destruct (@writes_stay_inside_the_buffer any_frame_44k_stereo 0 _ s H)
    as (Inside & Cont & _).
  exists s, mb. split; [reflexivity|]. split; [exact B|].
  destruct (Inside mb B) as (L & F). split; [exact L|]. split; [exact F|].
  destruct (cont any_frame_44k_stereo env_ok s mp3_frame_start) as [[s' l]|] eqn:Hc;
    [|vm_compute in H; inversion H; subst; vm_compute in Hc; discriminate Hc].
  assert (El : l = Completed)
    by (vm_compute in H; inversion H; subst; vm_compute in Hc; inversion Hc; reflexivity).
  subst l.
  destruct (Cont env_ok mp3_frame_start s' mb B Hc)
    as (x & unit & _ & Bx & Dx & _ & Lx & _ & _ & C).
  exists s', x, unit. split; [reflexivity|]. split; [exact Bx|].
  split; [|split; [exact Lx|exact C]].
  rewrite Dx. vm_compute in H. inversion H; subst.
  vm_compute in B. inversion B; subst. reflexivity.
Defined.

Lemma unit_carries_mime_type_and_timestamp_witness :
  let pkt := map b8 [1; 0x11; 0; 0; 0; 17; 0; 0; 0; 2;
                     kCodecMPEG1Audio; kFlag_RandomAccessPoint; 0xFF] ++ mp3_frame_start in
  (exists s' p' q unit,
     start any_frame_44k_stereo env_ok (new 0) pkt 5 = Ok (s', Completed) /\
     decoder_ s' = Some p' /\ Pump.in_queue_ p' = q ++ [unit] /\
     kKeyMIMEType (mb_meta unit) = Some EmptyString /\
     kKeyTime (mb_meta unit) = Some (2 * 2 ^ 32 + 5)) /\
  (exists s' p' q unit,
     start any_frame_44k_stereo env_ok (new 0) pkt (-5) = Ok (s', Completed) /\
     decoder_ s' = Some p' /\ Pump.in_queue_ p' = q ++ [unit] /\
     kKeyTime (mb_meta unit) = Some (-5)).
Proof.
  intros pkt. split.
  - destruct (@unit_carries_mime_type_and_timestamp any_frame_44k_stereo env_ok 0 []
                (new 0) Pump.new pkt 5 eq_refl eq_refl eq_refl eq_refl
                ltac:(intros K; discriminate K) eq_refl eq_refl eq_refl eq_refl eq_refl
                ltac:(lia))
      as (s' & p' & q & unit & A & B & C & _ & D & _ & E & _).
    exists s', p', q, unit.
    split; [exact A|]. split; [exact B|]. split; [exact C|].
    split; [exact (D eq_refl)|]. rewrite (E eq_refl ltac:(lia)). reflexivity.
  - destruct (@unit_carries_mime_type_and_timestamp any_frame_44k_stereo env_ok 0 []
                (new 0) Pump.new pkt (-5) eq_refl eq_refl eq_refl eq_refl
                ltac:(intros K; discriminate K) eq_refl eq_refl eq_refl eq_refl eq_refl
                ltac:(lia))
      as (s' & p' & q & unit & A & B & C & _ & _ & _ & _ & E).
    exists s', p', q, unit.
    split; [exact A|]. split; [exact B|]. split; [exact C|].
    exact (E eq_refl ltac:(lia)).
Defined.

Lemma overlong_continuation_drops_the_unit_witness :
  exists s s',
    run any_frame_44k_stereo (new 0)
      [ProcessPayloadStart env_ok
         (audio_packet 17 kCodecMPEG1Audio kFlag_RandomAccessPoint 0xFF mp3_frame_start) 0]
      = Ok s /\
    cont any_frame_44k_stereo env_ok s (map b8 [1; 2; 3; 4; 5]) = Ok (s', ExtraDataInCont) /\
    buffer_in_progress_ s' = None /\ waiting_for_rap_ s' = true.
Proof.
  match goal with
  | |- exists s s', ?X = _ /\ _ =>
      destruct X as [s|] eqn:H; [|vm_compute in H; discriminate]
  end.
  destruct (buffer_in_progress_ s) as [mb|] eqn:B;
    [|vm_compute in H; inversion H; subst; discriminate B].
  destruct (@overlong_continuation_drops_the_unit any_frame_44k_stereo 0 _ s mb env_ok
              (map b8 [1; 2; 3; 4; 5]) H)
    as (s' & C & (Cl & _ & _ & W & _) & _).
  - vm_compute in H. inversion H. reflexivity.
  - exact B.
  - vm_compute in H. inversion H. reflexivity.
  - exists s, s'. split; [reflexivity|]. split; [exact C|]. split; [exact Cl|exact W].
Defined.

Lemma format_change_restarts_the_pump_witness :
  let m := mkMetaData (Some MEDIA_MIMETYPE_AUDIO_MPEG) None (Some 2) (Some 48000) None in
  let mb := mkMediaBuffer mp3_frame_start
              (mkMetaData (Some MEDIA_MIMETYPE_AUDIO_MPEG) None None None None) in
  let p := Pump.set_in_queue_ [mb; mb] PumpSpec.pump_at_work in
  let s := set_buffer_in_progress_ (Some mb)
             (set_substream_meta_ (Some m)
                (set_codec_type_ kCodecMPEG1Audio (set_decoder_ (Some p) (new 0)))) in
  exists s' p',
    processCompletedBuffer any_frame_44k_stereo (fun _ => true) OK s = Ok s' /\
    decoder_ s' = Some p' /\
    Pump.in_queue_ p' = [mb] /\
    PumpSpec.transform_held p = Some PumpSpec.unity /\
    PumpSpec.transform_held p' = None.
Proof.
  intros m mb p s.
  destruct (@format_change_restarts_the_pump any_frame_44k_stereo (fun _ => true) OK
              s mb p m (44100, 2, None) eq_refl eq_refl eq_refl
              ltac:(discriminate) ltac:(discriminate) eq_refl
              ltac:(left; discriminate))
    as (s' & p' & m' & C & _ & _ & _ & _ & _ & D & Q & T & _).
  exists s', p'. split; [exact C|]. split; [exact D|]. split; [exact Q|].
  split; [reflexivity|exact T].
Defined.

Lemma underivable_unit_is_dropped_witness :
  let mb := mkMediaBuffer (map b8 [0xFF; 0xFB])
              (mkMetaData (Some MEDIA_MIMETYPE_AUDIO_MPEG) None None None None) in
  let s := set_buffer_in_progress_ (Some mb)
             (set_codec_type_ kCodecMPEG1Audio (new 0)) in
  exists s',
    processCompletedBuffer any_frame_44k_stereo (fun _ => true) OK s = Ok s' /\
    buffer_in_progress_ s' = None /\ decoder_ s' = Some Pump.new.
Proof.
  intros mb s.
  destruct (@underivable_unit_is_dropped any_frame_44k_stereo (fun _ => true) OK
              s mb Pump.new eq_refl eq_refl eq_refl)
    as (s' & C & (B & _) & D & _).
  exists s'. split; [exact C|]. split; [exact B|exact D].
Defined.

Lemma volume_follows_the_header_witness :
  exists s' p',
    start any_frame_44k_stereo env_ok (new 0)
      (audio_packet 13 kCodecMPEG1Audio 0 0x40 mp3_frame_start) 0
      = Ok (s', DroppingNonRAP) /\
    decoder_ s' = Some p' /\ Pump.last_volume_ p' = 0x40.
Proof.
  match goal with
  | |- exists s' p', ?X = _ /\ _ =>
      destruct X as [[s' l]|] eqn:H; [|vm_compute in H; discriminate]
  end.
  assert (L : l = DroppingNonRAP) by (vm_compute in H; inversion H; reflexivity).
  subst l.
  destruct (@volume_follows_the_header any_frame_44k_stereo env_ok (new 0) _ 0 s'
              DroppingNonRAP Pump.new H eq_refl) as (_ & V).
  destruct (V ltac:(discriminate) eq_refl) as (p' & D & _ & [(A & _)|(N & _)]);
    [|discriminate N].
  exists s', p'. split; [reflexivity|]. split; [exact D|exact A].
Defined.

Lemma queue_grows_at_the_tail_witness :
  exists s',
    step any_frame_44k_stereo (new 0)
      (ProcessPayloadStart env_ok
         (audio_packet 13 kCodecMPEG1Audio kFlag_RandomAccessPoint 0xFF mp3_frame_start) 0)
      = Ok s' /\
    exists p',
      decoder_ s' = Some p' /\
      (Pump.in_queue_ p' = Pump.in_queue_ Pump.new \/
       (exists mb, Pump.in_queue_ p' = Pump.in_queue_ Pump.new ++ [mb]) \/
       Pump.in_queue_ p' = [] \/
       (exists mb, Pump.in_queue_ p' = [mb])).
Proof.
  match goal with
  | |- exists s', ?X = _ /\ _ =>
      destruct X as [s'|] eqn:H; [|vm_compute in H; discriminate]
  end.
  exists s'. split; [reflexivity|].
  apply (@queue_grows_at_the_tail any_frame_44k_stereo (new 0) _ s' Pump.new H eq_refl).
  intros q N. discriminate N.
Defined.

Lemma first_unit_establishes_the_format_witness :
  let mb := mkMediaBuffer mp3_frame_start
              (mkMetaData (Some EmptyString) None None None None) in
  let s := set_buffer_in_progress_ (Some mb)
             (set_codec_type_ kCodecMPEG1Audio (new 0)) in
  let m := mkMetaData (Some MEDIA_MIMETYPE_AUDIO_MPEG) None (Some 2) (Some 44100) None in
  (exists s' p',
     processCompletedBuffer any_frame_44k_stereo (fun _ => true) OK s = Ok s' /\
     substream_meta_ s' = Some m /\
     decoder_ s' = Some p' /\
     Pump.format_ p' = Some m /\ Pump.in_queue_ p' = [mb]) /\
  (exists s' p',
     processCompletedBuffer any_frame_44k_stereo (fun _ => false) OK s = Ok s' /\
     substream_meta_ s' = Some m /\
     decoder_ s' = Some p' /\
     Pump.format_ p' = None /\ Pump.in_queue_ p' = [mb]).
Proof.
  intros mb s m. split.
  - destruct (@first_unit_establishes_the_format any_frame_44k_stereo (fun _ => true) OK
                s mb Pump.new 44100 2 None
                eq_refl eq_refl eq_refl eq_refl eq_refl eq_refl)
      as (s' & p' & C & _ & _ & _ & M & D & _ & _ & Q & Up & _).
    destruct (Up eq_refl eq_refl) as (_ & F & _).
    exists s', p'. split; [exact C|]. split; [exact M|]. split; [exact D|].
    split; [exact F|exact Q].
  - destruct (@first_unit_establishes_the_format any_frame_44k_stereo (fun _ => false) OK
                s mb Pump.new 44100 2 None
                eq_refl eq_refl eq_refl eq_refl eq_refl eq_refl)
      as (s' & p' & C & _ & _ & _ & M & D & _ & _ & Q & _ & Down).
    destruct (Down (or_introl eq_refl)) as (_ & F & _).
    exists s', p'. split; [exact C|]. split; [exact M|]. split; [exact D|].
    split; [exact F|exact Q].
Defined.

Lemma underflow_goes_by_the_last_transform_witness :
  isAboutToUnderflow (fun _ pts => Some pts)
    (processTSTransform (new 0) PumpSpec.unity) (Some 0) = false.
Proof.
  exact (proj2 (underflow_goes_by_the_last_transform (fun _ pts => Some pts)
                  (new 0) PumpSpec.unity (Some 0)) Pump.new eq_refl).
Defined.

End SubstreamContract.
